(* ===== verification/_CoqProject ===== *)
-Q . S2P
Prelude.v
Layout.v
Mem.v
CString.v
Printf.v
FsMach.v
DamnFS.v
FsLogic.v
FsBitmap.v
FsFile.v
FsRW.v
FsTrunc.v
FsDir.v
FsProps.v
Console.v
FsMeta.v
Kern.v
Pmap.v
PmapFree.v
Vm.v
EnvMod.v
EnvProps.v
TrapMod.v
KernInv.v
TrapProps.v
FsServ.v
FsServProps.v
Boot.v
User.v
Fd.v
PipeProps.v
Ustdio.v
Spawn.v
Shell.v
Programs.v
Cpu.v
CpuProps.v
Devices.v
ShellProps.v
CowProps.v
SysVm.v
IpcProps.v
CowFault.v
ForkProps.v
IdeDisk.v
ConsPorts.v
FsClient.v
