(* ===== verification/Prelude.v ===== *)
(** * DamnOS and DamnFS: a verification development

    DamnOS is a small i386 kernel with a user-level file server, DamnFS, and a
    user library on top of both.  This library models the C code under
    src/src/ as executable Rocq definitions and proves what makes it correct.

    ** The program and how its parts interact

    - The boot loader (main.c) loads the kernel from the disk; the kernel
      starts on the page tables of entrypgdir.c and [i386_init] (init.c)
      brings up memory, environments and traps.
    - The kernel (pmap.c, env.c, sched.c, trap.c, console.c) keeps the page
      allocator, the address spaces, the table of environments and the
      console; user code enters it only through [trap].
    - The file server (damnfs.c, serv.c, pageref.c) is an environment that
      answers the requests of others; it sees the disk through a window of
      its address space which its own page-fault handler fills.
    - The user library (syscall.c, ipc.c, fork.c, pgfault.c, fd.c, file.c,
      pipe.c, uconsole.c, spawn.c, args.c, ...) turns system calls and messages
      to the server into files, pipes and processes; the shell (sh.c) and the
      small programs (ls.c, echo.c, initsh.c) run on top of it.
    - string.c and stdio.c are shared by all of them.
    - Below the kernel are the devices (ide.c, picirq.c, console.c, the CMOS
      memory, the monitor's console) and the processor's own tables.

    ** Files, in dependency order

    Prelude: machine integers, the state-and-exit monad [ST], its weakest
    precondition [wp], loops, bit lemmas.  Layout: constants and address
    macros (util.h, error.h).  Mem: byte memory, little-endian words.

    CString: string.c.  Printf: stdio.c (the formatter is one function of its
    output callback, as in C).

    FsMach: the disk window and the block cache of damnfs.c ([bc_pgfault],
    [flush_block]), programs [prog] over it, and their two interpretations.
    DamnFS: every operation of damnfs.c as such a program.  FsLogic: its
    program logic.  FsBitmap, FsFile, FsRW, FsTrunc, FsDir: specifications of
    the operations.  FsProps, FsMeta: the theorems.  FsServ, FsServProps: the
    open-file table, the request handlers and one turn of [serve] (serv.c).

    Console: console.c.  Kern: the kernel's state - one record, [kern], with
    physical memory, page array, environment table, the paging registers and
    the console - and the monad [K] its functions run in, which can also leave
    the kernel (run an environment, halt, enter the monitor), panic, or reach
    what C leaves undefined.  Pmap: pmap.c.  PmapFree: the free list.  Vm: page
    tables and reference counts.  EnvMod: env.c and sched.c.  EnvProps:
    identifiers, allocation, scheduling.  TrapMod: trap.c with all system
    calls.  KernInv: the invariant of the whole kernel.  TrapProps: messages,
    errors, page-fault upcalls.  Boot: entrypgdir.c, main.c, init.c.

    User: what a user environment can do ([uprog]: memory accesses, system
    calls, console output), its execution by the kernel ([urun]), and
    syscall.c, pageref.c, ipc.c, pgfault.c, fork.c, wait.c, exit.c, libmain.c.
    Fd: fd.c, pipe.c, file.c, uconsole.c.  PipeProps: two such programs
    interleaved.  Ustdio: stdio.c as programs see it.  Spawn: spawn.c, args.c.
    Shell: sh.c.  ShellProps: its tokenizer.  Programs: ls.c, echo.c, initsh.c.
    CowProps: [duppage] and the kernel's [sys_page_map] together.  SysVm: what
    a user program sees of its address space, and the memory system calls.
    IpcProps: messages that carry a page.
    CowFault: [pgfault] and those calls together.  ForkProps: the copying loop
    of [fork] and those calls together.
    FsClient: a client of the file server - two address spaces that share the
    request page and the pages of the descriptors, the client's system calls
    answered by one turn of [serve].

    Cpu: segment descriptors, gates, the task state and the registers that
    point to them, the stubs of trapentry.S, [env_pop_tf], and the processor's
    delivery of an interrupt and [iret].  CpuProps: its theorems.  Devices:
    programs over I/O ports ([pio]) - ide.c, picirq.c, the port accesses of
    main.c and pmap.c -, the spin lock as a step relation, the monitor.
    IdeDisk: the drive behind the ports.  ConsPorts: console.c at its ports and
    the devices behind them.

    ** How the code is represented

    A C integer is a [Z] with its wrap-around written out ([u32], [s32], ...).
    Pointers into the disk window or physical memory are addresses in a byte
    memory; pointers to array elements ([struct Env], [struct PageInfo], open
    files) are indices, and [None] is the null pointer.  A function that does
    not return leaves the monad with [Exit]; [panic] is [Panic]; dereferencing
    null, an index out of range or an uninitialised pointer is [Crash].  A
    return code with an out parameter is an option or a sum.

    ** What the theorems show

    - File system: what [file_write] writes, [file_read] reads back, on the
      machine with page faults and write-backs ([file_write_then_read]); the
      paged machine implements a flat one ([paging_transparent]); a write is
      exact and durable and leaves other files alone, except that on a full
      disk only a prefix of it is written ([file_write_durable]);
      truncation, path resolution and mounting are exact.
    - Kernel: a trap from the state the kernel was left in never returns into
      the code it interrupted, and every way out of the kernel leaves a
      well-formed environment table, a live current environment and the lock
      released, but for the panics and the defects listed in KernInv
      ([trap_keeps_invariant]); [env_init] establishes the table;
      identifiers are checked ([envid2env_checks]) and never reused at once
      ([env_alloc_fresh]); the scheduler implements an abstract choice
      ([sched_yield_picks]), with bounded waiting among environments that do
      not change their own status ([round_robin_fair]);
      a value is delivered exactly once ([ipc_rendezvous]), a page is shared
      with the receiver ([ipc_page_shares]); calls on environments that cannot
      be resolved have no effect ([syscall_refused]).
    - Memory: the free list is built, taken from and given back to exactly;
      [page_insert] and [page_remove] keep every reference count equal to the
      number of references ([vm_ok]).
    - Server: identifiers of open files are fresh and stale ones are refused,
      until they wrap around ([openfile_ids_fresh]).
    - Libraries: [memmove] is exact on overlapping areas, [vsnprintf] and
      [readline] stay in their buffers, the formatter terminates, numbers
      print and parse back, console input is a queue and output stays on the
      screen.
    - User library: in every interleaving of a reader and a writer a pipe is a
      queue of bytes ([pipe_fifo]); after [duppage] neither the parent nor the
      child can write the page they share ([duppage_copy_on_write]); a write
      fault leaves the page private, writable and with the bytes it had
      ([pgfault_private_copy]); after [fork] the child has its parent's memory,
      copy-on-write ([fork_copies_memory]); the
      shell's tokenizer is the lexer it is meant to be ([gettoken_lexes]);
      what a program writes to a file through its descriptor it reads back,
      through the messages, the server and the disk ([client_write_then_read]).
    - Isolation: a memory system call changes what an environment can read or
      write only at the page, and in the environment, the caller named and may
      name ([memory_calls_isolate]); a page it allocates is zero and nobody
      else's ([sys_page_alloc_fresh]); both say where the code goes wrong:
      without a free page, and for page 0, whose references are not counted;
      a page it maps is shared ([sys_page_map_shares]).
    - Processor: the tables the kernel sets up decode to what was asked for
      ([set_up_well_formed]); only two vectors can be raised by a user program
      ([user_vectors]); what the entry stubs save is what [env_pop_tf] restores
      ([trap_and_return]); which ports user code reaches ([user_io_ports]).
    - Devices: the lock excludes ([spin_lock_excludes]); the drivers read and
      write exactly the sectors asked for ([readsect_refines],
      [ide_write_then_read]); the console driver, run against its devices,
      does what the abstract console does ([console_ports_refine]).
    Theorems that exhibit a defect of the code are among them: their doc
    comments say so.

    ** Fuel and bounds

    Loops over arrays ([st_for], [pfor]) run exactly the number of rounds of
    the C loop.  The loops of string.c stop at a NUL and get fuel; the
    theorems show that the string's length plus one suffices.  [vprintfmt]
    gets fuel bounded by the format string ([format_terminates]); paths are
    walked with the length of the path.  Where the model can run out of fuel
    or crash, total correctness ([wp], [fwp]) excludes it in the theorem, or
    the theorem says when it happens.

    ** Not modelled

    boot.S, entry.S, uentry.S and pfentry.S, the linker scripts, the build and
    the binaries and listings in the repository (the stubs of trapentry.S and
    the inline assembly of [env_pop_tf] are modelled).  The single-instruction
    wrappers of x86.h that no code calls.  The host tool damn_operate.c: it is
    not part of the build, includes a header the repository lacks and does not
    parse (a statement lacks its semicolon).  The
    variadic wrappers of the formatter, the output of [_panic] and the main
    function of serv.c, which only call what is modelled.  The processor is
    modelled where the kernel relies on it: address translation for supervisor
    accesses, the page-fault address, segments, gates and privilege (but not
    the Accessed bit a segment load sets in a descriptor), the shared lock.  One processor is assumed outside the theorem about the lock:
    elsewhere, finding the kernel lock held is spinning for ever. *)
From stdpp Require Export base numbers gmap sets list strings fin_maps.
From Stdlib Require Export ZArith Lia Zbitwise.

#[export] Set Default Goal Selector "!".
#[export] Set Warnings "-clear-no-such-hyp".
Open Scope Z_scope.

(** * Machine integers: a w-bit integer is a [Z]; the wrap is written out. *)

Definition u8 (x : Z) : Z := x mod 2 ^ 8.
Definition u16 (x : Z) : Z := x mod 2 ^ 16.
Definition u32 (x : Z) : Z := x mod 2 ^ 32.
Definition u64 (x : Z) : Z := x mod 2 ^ 64.
(** Conversion to a signed 32-bit (8-bit) integer, two's complement. *)
Definition s32 (x : Z) : Z := (x + 2 ^ 31) mod 2 ^ 32 - 2 ^ 31.
Definition s8 (x : Z) : Z := (x + 2 ^ 7) mod 2 ^ 8 - 2 ^ 7.
Definition s64 (x : Z) : Z := (x + 2 ^ 63) mod 2 ^ 64 - 2 ^ 63.

Ltac unfold_width := unfold u8, u16, u32, u64, s8, s32, s64 in *.

Lemma u8_bound x : 0 <= u8 x < 256.
Proof. apply Z.mod_pos_bound. lia. Qed.
Lemma u16_bound x : 0 <= u16 x < 65536.
Proof. apply Z.mod_pos_bound. lia. Qed.
Lemma u32_bound x : 0 <= u32 x < 4294967296.
Proof. apply Z.mod_pos_bound. lia. Qed.
Lemma u8_small x : 0 <= x < 256 -> u8 x = x.
Proof. intros. apply Z.mod_small. lia. Qed.
Lemma u16_small x : 0 <= x < 65536 -> u16 x = x.
Proof. intros. apply Z.mod_small. lia. Qed.
Lemma u32_small x : 0 <= x < 4294967296 -> u32 x = x.
Proof. intros. apply Z.mod_small. lia. Qed.
Lemma s32_small x : -2147483648 <= x < 2147483648 -> s32 x = x.
Proof. intros. unfold s32. rewrite Z.mod_small; lia. Qed.
Lemma s32_bound x : -2147483648 <= s32 x < 2147483648.
Proof. unfold s32. pose proof (Z.mod_pos_bound (x + 2 ^ 31) (2 ^ 32)). lia. Qed.
Lemma u32_s32 x : u32 (s32 x) = u32 x.
Proof.
  unfold u32, s32. rewrite Zminus_mod_idemp_l. f_equal. lia.
Qed.
Lemma s32_u32 x : s32 (u32 x) = s32 x.
Proof. unfold u32, s32. rewrite Zplus_mod_idemp_l. done. Qed.

(** * Computations: state, error, panic and non-returning control *)

(** What a C call can do: return a value, leave for good ([Exit]: a
    [noreturn] function handed the processor to something else), [panic],
    reach behaviour C leaves undefined ([Crash]), or exceed the loop fuel
    the model gave it ([NoFuel], excluded by the theorems). *)
Inductive res (X S A : Type) : Type :=
| Ret (a : A) (s : S)
| Exit (x : X) (s : S)
| Panic (msg : string)
| Crash (why : string)
| NoFuel.
Arguments Ret {X S A} a s.
Arguments Exit {X S A} x s.
Arguments Panic {X S A} msg.
Arguments Crash {X S A} why.
Arguments NoFuel {X S A}.

Definition ST (X S A : Type) : Type := S -> res X S A.

Definition st_ret {X S A} (a : A) : ST X S A := fun s => Ret a s.
Definition st_bind {X S A B} (k : A -> ST X S B) (m : ST X S A) : ST X S B :=
  fun s => match m s with
           | Ret a s' => k a s'
           | Exit x s' => Exit x s'
           | Panic msg => Panic msg
           | Crash why => Crash why
           | NoFuel => NoFuel
           end.
#[export] Instance ST_ret X S : MRet (ST X S) := fun _ a => st_ret a.
#[export] Instance ST_bind X S : MBind (ST X S) := fun _ _ k m => st_bind k m.

Definition st_get {X S} : ST X S S := fun s => Ret s s.
Definition st_gets {X S A} (f : S -> A) : ST X S A := fun s => Ret (f s) s.
Definition st_mod {X S} (f : S -> S) : ST X S unit := fun s => Ret tt (f s).
Definition st_exit {X S A} (x : X) : ST X S A := fun s => Exit x s.
Definition st_panic {X S A} (msg : string) : ST X S A := fun _ => Panic msg.
Definition st_crash {X S A} (why : string) : ST X S A := fun _ => Crash why.
Definition st_nofuel {X S A} : ST X S A := fun _ => NoFuel.
Definition st_when {X S} (b : bool) (m : ST X S unit) : ST X S unit :=
  if b then m else mret tt.
Definition st_assert {X S} (b : bool) (why : string) : ST X S unit :=
  if b then mret tt else st_crash why.

(** [for (i = i0; n more times; i++) body]: [Some v] is an early
    [return v] out of the loop. *)
Fixpoint st_for {X S R} (n : nat) (i : Z) (body : Z -> ST X S (option R)) :
    ST X S (option R) :=
  match n with
  | O => mret None
  | Datatypes.S n' =>
      r ← body i;
      match r with
      | Some v => mret (Some v)
      | None => st_for n' (i + 1) body
      end
  end.

(** Total-correctness weakest precondition: [m] returns with [Q] or leaves
    with [E]; it neither panics, crashes nor runs out of fuel. *)
Definition wp {X S A} (m : ST X S A) (Q : A -> S -> Prop) (E : X -> S -> Prop)
    (s : S) : Prop :=
  match m s with
  | Ret a s' => Q a s'
  | Exit x s' => E x s'
  | _ => False
  end.

Section wp_rules.
Context {X S : Type}.
Implicit Types (s : S) (E : X -> S -> Prop).

Lemma wp_ret {A} (a : A) Q E s : Q a s -> wp (mret a : ST X S A) Q E s.
Proof. done. Qed.

Lemma wp_bind {A B} (m : ST X S A) (k : A -> ST X S B) Q E s :
  wp m (fun a s' => wp (k a) Q E s') E s -> wp (m ≫= k) Q E s.
Proof. unfold wp, mbind, ST_bind, st_bind. by destruct (m s). Qed.

Lemma wp_bind_inv {A B} (m : ST X S A) (k : A -> ST X S B) Q E s :
  wp (m ≫= k) Q E s -> wp m (fun a s' => wp (k a) Q E s') E s.
Proof. unfold wp, mbind, ST_bind, st_bind. by destruct (m s). Qed.

Lemma wp_mono {A} (m : ST X S A) (Q Q' : A -> S -> Prop) (E E' : X -> S -> Prop) s :
  wp m Q E s -> (forall a s', Q a s' -> Q' a s') ->
  (forall x s', E x s' -> E' x s') -> wp m Q' E' s.
Proof. unfold wp. destruct (m s); naive_solver. Qed.

Lemma wp_ret_inv {A} (m : ST X S A) Q s :
  wp m Q (fun _ _ => False) s -> exists a s', m s = Ret a s' /\ Q a s'.
Proof. unfold wp. destruct (m s); naive_solver. Qed.

Lemma wp_run {A} (m : ST X S A) Q E a s s' :
  m s = Ret a s' -> Q a s' -> wp m Q E s.
Proof. unfold wp. by intros ->. Qed.

Lemma wp_ext {A} (m m' : ST X S A) Q E s : m s = m' s -> wp m' Q E s -> wp m Q E s.
Proof. unfold wp. by intros ->. Qed.
Lemma wp_left {A} (m : ST X S A) Q E x s s' :
  m s = Exit x s' -> E x s' -> wp m Q E s.
Proof. unfold wp. by intros ->. Qed.
Lemma wp_left_inv {A} (m : ST X S A) E s :
  wp m (fun _ _ => False) E s -> exists x s', m s = Exit x s' /\ E x s'.
Proof. unfold wp. destruct (m s); naive_solver. Qed.

Lemma wp_get Q E s : Q s s -> wp (st_get : ST X S S) Q E s.
Proof. done. Qed.
Lemma wp_gets {A} (f : S -> A) Q E s : Q (f s) s -> wp (st_gets f : ST X S A) Q E s.
Proof. done. Qed.
Lemma wp_mod (f : S -> S) Q E s : Q tt (f s) -> wp (st_mod f : ST X S unit) Q E s.
Proof. done. Qed.
Lemma wp_exit {A} (x : X) Q E s : E x s -> wp (st_exit x : ST X S A) Q E s.
Proof. done. Qed.
Lemma wp_if {A} (b : bool) (m1 m2 : ST X S A) Q E s :
  (b = true -> wp m1 Q E s) -> (b = false -> wp m2 Q E s) ->
  wp (if b then m1 else m2) Q E s.
Proof. destruct b; auto. Qed.
Lemma wp_when (b : bool) (m : ST X S unit) Q E s :
  (b = true -> wp m Q E s) -> (b = false -> Q tt s) -> wp (st_when b m) Q E s.
Proof. destruct b; [auto|]. intros _ H. by apply wp_ret, H. Qed.
Lemma wp_assert (b : bool) why Q E s :
  b = true -> Q tt s -> wp (st_assert b why : ST X S unit) Q E s.
Proof. by intros ->. Qed.

(** The loop rule: [I i] holds whenever the body starts at [i]; the body
    either returns early with [Q (Some v)] or re-establishes [I (i + 1)]. *)
Lemma wp_for {R} (I : Z -> S -> Prop) (n : nat) (i : Z)
    (body : Z -> ST X S (option R)) Q E s :
  I i s ->
  (forall j s', i <= j < i + Z.of_nat n -> I j s' ->
    wp (body j) (fun r s'' => match r with
                              | Some v => Q (Some v) s''
                              | None => I (j + 1) s''
                              end) E s') ->
  (forall s', I (i + Z.of_nat n) s' -> Q None s') ->
  wp (st_for n i body) Q E s.
Proof.
  revert i s. induction n as [|n IH]; intros i s HI Hbody Hend; simpl.
  { apply wp_ret, Hend. by replace (i + Z.of_nat 0) with i by lia. }
  apply wp_bind. eapply wp_mono; [apply Hbody; [lia|done] | | done].
  intros [v|] s' Hs; [by apply wp_ret|].
  apply IH; [done| |].
  - intros j s'' ? ?. apply Hbody; [lia|done].
  - intros s'' ?. apply Hend.
    by replace (i + Z.of_nat (Datatypes.S n)) with (i + 1 + Z.of_nat n) by lia.
Qed.

(** A search loop: the body skips the indices before [j] without effect. *)
Lemma for_skip {R} (n : nat) (i : Z) (body : Z -> ST X S (option R)) s :
  (forall j, i <= j < i + Z.of_nat n -> body j s = Ret None s) ->
  st_for n i body s = Ret None s.
Proof.
  revert i. induction n as [|n IH]; intros i H; [done|]. simpl.
  unfold mbind, ST_bind, st_bind. rewrite H by lia. apply IH. intros j Hj. apply H. lia.
Qed.
Lemma for_search {R} (n : nat) (i j : Z) (body : Z -> ST X S (option R)) s :
  i <= j < i + Z.of_nat n ->
  (forall j', i <= j' < j -> body j' s = Ret None s) ->
  (forall s', body j s <> Ret None s') ->
  st_for n i body s = body j s.
Proof.
  revert i. induction n as [|n IH]; intros i Hj H Hb; [lia|]. simpl.
  unfold mbind at 1, ST_bind, st_bind. destruct (decide (i = j)) as [->|Hij].
  - destruct (body j s) as [[r|] s'| | | |] eqn:E; try done. by destruct (Hb s').
  - rewrite H by lia. apply IH; [lia| |done..]. intros j' Hj'. apply H. lia.
Qed.
End wp_rules.

#[global] Opaque wp.

(** One symbolic step of a computation under [wp]. *)
Ltac wp_step :=
  lazymatch goal with
  | |- wp (_ ≫= _) _ _ _ => apply wp_bind
  | |- wp (mret _) _ _ _ => apply wp_ret
  | |- wp st_get _ _ _ => apply wp_get
  | |- wp (st_gets _) _ _ _ => apply wp_gets
  | |- wp (st_mod _) _ _ _ => apply wp_mod
  | |- wp (st_exit _) _ _ _ => apply wp_exit
  | |- wp (st_when _ _) _ _ _ => apply wp_when; intros
  | |- wp (st_assert _ _) _ _ _ => apply wp_assert
  | |- wp (if _ then _ else _) _ _ _ => apply wp_if; intros
  end.
Ltac wp_steps := repeat (wp_step; cbv beta).

(** * Generic facts on integers *)

Lemma eqb_bool_decide (a b : Z) : (a =? b) = bool_decide (a = b).
Proof. case_bool_decide; lia. Qed.

(** Turns every boolean comparison on [Z] in sight into a proposition. *)
Ltac zbool :=
  repeat match goal with
  | H : (_ =? _) = true |- _ => apply Z.eqb_eq in H
  | H : (_ =? _) = false |- _ => apply Z.eqb_neq in H
  | H : (_ <? _) = true |- _ => apply Z.ltb_lt in H
  | H : (_ <? _) = false |- _ => apply Z.ltb_ge in H
  | H : (_ <=? _) = true |- _ => apply Z.leb_le in H
  | H : (_ <=? _) = false |- _ => apply Z.leb_gt in H
  | H : (_ >? _) = true |- _ => rewrite Z.gtb_ltb in H; apply Z.ltb_lt in H
  | H : (_ >? _) = false |- _ => rewrite Z.gtb_ltb in H; apply Z.ltb_ge in H
  | H : (_ >=? _) = true |- _ => rewrite Z.geb_leb in H; apply Z.leb_le in H
  | H : (_ >=? _) = false |- _ => rewrite Z.geb_leb in H; apply Z.leb_gt in H
  | H : (_ && _) = true |- _ => apply andb_true_iff in H; destruct H
  | H : (_ && _) = false |- _ => apply andb_false_iff in H
  | H : (_ || _) = true |- _ => apply orb_true_iff in H
  | H : (_ || _) = false |- _ => apply orb_false_iff in H; destruct H
  | H : negb _ = true |- _ => apply negb_true_iff in H
  | H : negb _ = false |- _ => apply negb_false_iff in H
  end.

(** ** Bits *)

Lemma testbit_ext (a b : Z) :
  (forall i, 0 <= i -> Z.testbit a i = Z.testbit b i) -> a = b.
Proof.
  intros H. apply Z.bits_inj'. done.
Qed.

Lemma bit_test (w k : Z) : 0 <= k ->
  (Z.land w (Z.shiftl 1 k) =? 0) = negb (Z.testbit w k).
Proof.
  intros Hk. destruct (Z.testbit w k) eqn:Hb; simpl.
  - apply Z.eqb_neq. intros H0. apply (f_equal (fun z => Z.testbit z k)) in H0.
    rewrite Z.land_spec, Z.shiftl_1_l, Z.pow2_bits_true, Hb, Z.bits_0 in H0; [done|lia].
  - apply Z.eqb_eq, testbit_ext. intros i Hi.
    rewrite Z.land_spec, Z.shiftl_1_l, Z.bits_0.
    destruct (decide (i = k)) as [->|]; [by rewrite Hb|].
    rewrite Z.pow2_bits_false; [by rewrite andb_false_r|lia].
Qed.

Lemma bit_set (w k i : Z) : 0 <= k -> 0 <= i ->
  Z.testbit (Z.lor w (Z.shiftl 1 k)) i = (Z.testbit w i || (i =? k)).
Proof.
  intros Hk Hi. rewrite Z.lor_spec, Z.shiftl_1_l. f_equal.
  destruct (Z.eqb_spec i k) as [->|].
  - apply Z.pow2_bits_true. lia.
  - apply Z.pow2_bits_false. lia.
Qed.

Lemma bit_clear (w k i : Z) : 0 <= k -> 0 <= i ->
  Z.testbit (Z.land w (Z.lnot (Z.shiftl 1 k))) i = (Z.testbit w i && negb (i =? k)).
Proof.
  intros Hk Hi. rewrite Z.land_spec, Z.lnot_spec, Z.shiftl_1_l by done. do 2 f_equal.
  destruct (Z.eqb_spec i k) as [->|].
  - apply Z.pow2_bits_true. lia.
  - apply Z.pow2_bits_false. lia.
Qed.

Lemma testbit_high (w n i : Z) : 0 <= w < 2 ^ n -> 0 <= n <= i -> Z.testbit w i = false.
Proof.
  intros [Hw0 Hw] Hi. destruct (decide (w = 0)) as [->|]; [apply Z.bits_0|].
  apply Z.bits_above_log2; [done|].
  apply Z.lt_le_trans with n; [|lia]. apply Z.log2_lt_pow2; lia.
Qed.

Lemma bits_bound (w n : Z) : 0 <= n ->
  (forall i, n <= i -> Z.testbit w i = false) -> 0 <= w < 2 ^ n.
Proof.
  intros Hn H. assert (Hw : w = Z.land w (Z.ones n)).
  { apply testbit_ext. intros i Hi. rewrite Z.land_spec.
    destruct (decide (i < n)).
    - rewrite Z.ones_spec_low by lia. by rewrite andb_true_r.
    - rewrite (H i) by lia. done. }
  rewrite Hw, Z.land_ones by done. apply Z.mod_pos_bound. lia.
Qed.

Lemma bit_set_bound (w k n : Z) : 0 <= k < n -> 0 <= w < 2 ^ n ->
  0 <= Z.lor w (Z.shiftl 1 k) < 2 ^ n.
Proof.
  intros Hk Hw. apply bits_bound; [lia|]. intros i Hi.
  rewrite bit_set by lia. rewrite (testbit_high w n i) by lia. simpl. lia.
Qed.

Lemma bit_clear_bound (w k n : Z) : 0 <= k < n -> 0 <= w < 2 ^ n ->
  0 <= Z.land w (Z.lnot (Z.shiftl 1 k)) < 2 ^ n.
Proof.
  intros Hk Hw. apply bits_bound; [lia|]. intros i Hi.
  rewrite bit_clear by lia. by rewrite (testbit_high w n i) by lia.
Qed.

Lemma land_lnot_low (w n : Z) : 0 <= n ->
  Z.land w (Z.lnot (Z.ones n)) = w - w mod 2 ^ n.
Proof.
  intros Hn. rewrite <- Z.ldiff_land, Z.ldiff_ones_r, Z.shiftl_mul_pow2,
    Z.shiftr_div_pow2 by done.
  pose proof (Z.div_mod w (2 ^ n)). lia.
Qed.

Lemma lor_disjoint_add (a b n : Z) : 0 <= n -> 0 <= b < 2 ^ n -> a mod 2 ^ n = 0 ->
  Z.lor a b = a + b.
Proof.
  intros Hn Hb Ha.
  assert (Hd : Z.land a b = 0).
  { apply testbit_ext. intros i Hi. rewrite Z.land_spec, Z.bits_0.
    destruct (decide (i < n)).
    - rewrite <- (Z.mod_pow2_bits_low a n i) by lia. by rewrite Ha, Z.bits_0.
    - rewrite (testbit_high b n i) by lia. apply andb_false_r. }
  rewrite <- Z.lxor_lor by done. symmetry. by apply Z.add_nocarry_lxor.
Qed.

Create HintDb dos discriminated.
Create Rewrite HintDb dos.
#[export] Hint Resolve u8_bound u16_bound u32_bound s32_bound : dos.
#[export] Hint Rewrite u32_s32 s32_u32 : dos.

(** [lia] with quotients and remainders by constants. *)
Ltac zdiv := Z.to_euclidean_division_equations; lia.

(** Splits every [decide] in the goal and drops the cases [lia] refutes. *)
Ltac cases_lia := repeat (case_decide; try lia).
