(* ===== verification/Layout.v ===== *)
(** * Constants and address arithmetic: src/src/util.h, error.h, damnfs.h

    Error codes, the paging macros and the memory-layout constants that the
    kernel, the file server and the user library share, with the facts about
    page arithmetic their proofs use. *)
From S2P Require Import Prelude.

(** ** error.h *)
Definition E_UNSPECIFIED : Z := 1.
Definition E_BAD_ENV : Z := 2.
Definition E_INVAL : Z := 3.
Definition E_NO_MEM : Z := 4.
Definition E_NO_FREE_ENV : Z := 5.
Definition E_FAULT : Z := 6.
Definition E_IPC_NOT_RECV : Z := 7.
Definition E_EOF : Z := 8.
Definition E_NO_DISK : Z := 9.
Definition E_NO_INODE : Z := 10.
Definition E_MAX_OPEN : Z := 11.
Definition E_NOT_FOUND : Z := 12.
Definition E_BAD_PATH : Z := 13.
Definition E_BAD_NAME : Z := 14.
Definition E_FILE_EXISTS : Z := 15.
Definition E_NOT_EXEC : Z := 16.
Definition E_NOT_SUPP : Z := 17.
Definition MAXERROR : Z := 18.

(** ** util.h: pages *)
Definition PGSIZE : Z := 4096.
Definition NPTENTRIES : Z := 1024.
Definition PTSIZE : Z := PGSIZE * NPTENTRIES.
Definition PTXSHIFT : Z := 12.
Definition PDXSHIFT : Z := 22.
Definition PGSHIFT : Z := 12.

Definition ROUNDDOWN (a n : Z) : Z := u32 a - u32 a mod n.
Definition ROUNDUP (a n : Z) : Z := ROUNDDOWN (u32 (a + n - 1)) n.

Definition PGNUM (la : Z) : Z := Z.shiftr (u32 la) PTXSHIFT.
Definition PDX (la : Z) : Z := Z.land (Z.shiftr (u32 la) PDXSHIFT) 0x3FF.
Definition PTX (la : Z) : Z := Z.land (Z.shiftr (u32 la) PTXSHIFT) 0x3FF.
Definition PGOFF (la : Z) : Z := Z.land (u32 la) 0xFFF.
Definition PGADDR (d t o : Z) : Z :=
  u32 (Z.lor (Z.lor (Z.shiftl d PDXSHIFT) (Z.shiftl t PTXSHIFT)) o).
Definition PTE_ADDR (pte : Z) : Z := Z.land (u32 pte) (u32 (Z.lnot 0xFFF)).

Definition PTE_P : Z := 0x001.
Definition PTE_W : Z := 0x002.
Definition PTE_U : Z := 0x004.
Definition PTE_PWT : Z := 0x008.
Definition PTE_PCD : Z := 0x010.
Definition PTE_D : Z := 0x040.
Definition PTE_AVAIL : Z := 0xE00.
Definition PTE_SYSCALL : Z := Z.lor (Z.lor (Z.lor PTE_AVAIL PTE_P) PTE_W) PTE_U.
Definition PTE_SHARE : Z := 0x400.
Definition PTE_COW : Z := 0x800.

(** ** util.h: the virtual memory map *)
Definition KERNBASE : Z := 0xF0000000.
Definition KSTACKTOP : Z := KERNBASE.
Definition KSTKSIZE : Z := 8 * PGSIZE.
Definition IOPHYSMEM : Z := 0x0A0000.
Definition EXTPHYSMEM : Z := 0x100000.
Definition MMIOLIM : Z := KSTACKTOP - PTSIZE.
Definition MMIOBASE : Z := MMIOLIM - PTSIZE.
Definition ULIM : Z := MMIOBASE.
Definition UVPT : Z := ULIM - PTSIZE.
Definition UPAGES : Z := UVPT - PTSIZE.
Definition UENVS : Z := UPAGES - PTSIZE.
Definition UTOP : Z := UENVS.
Definition UXSTACKTOP : Z := UTOP.
Definition USTACKTOP : Z := UTOP - 2 * PGSIZE.
Definition UTEXT : Z := 2 * PTSIZE.
Definition UTEMP : Z := PTSIZE.
Definition PFTEMP : Z := UTEMP + PTSIZE - PGSIZE.

(** ** Arithmetic of the macros *)

Lemma shiftr12 x : Z.shiftr x 12 = x / 4096.
Proof. by rewrite Z.shiftr_div_pow2. Qed.
Lemma shiftr22 x : Z.shiftr x 22 = x / 4194304.
Proof. by rewrite Z.shiftr_div_pow2. Qed.
Lemma land_3ff x : Z.land x 0x3FF = x mod 1024.
Proof. change 0x3FF with (Z.ones 10). by rewrite Z.land_ones. Qed.
Lemma land_fff x : Z.land x 0xFFF = x mod 4096.
Proof. change 0xFFF with (Z.ones 12). by rewrite Z.land_ones. Qed.

Lemma PGNUM_eq la : 0 <= la < 2 ^ 32 -> PGNUM la = la / 4096.
Proof. intros. unfold PGNUM, PTXSHIFT. by rewrite u32_small, shiftr12 by lia. Qed.
Lemma PDX_eq la : 0 <= la < 2 ^ 32 -> PDX la = la / 4194304.
Proof.
  intros. unfold PDX, PDXSHIFT. rewrite u32_small, shiftr22, land_3ff by lia.
  apply Z.mod_small. zdiv.
Qed.
Lemma PTX_eq la : 0 <= la < 2 ^ 32 -> PTX la = la / 4096 mod 1024.
Proof. intros. unfold PTX, PTXSHIFT. by rewrite u32_small, shiftr12, land_3ff by lia. Qed.
Lemma PGOFF_eq la : 0 <= la < 2 ^ 32 -> PGOFF la = la mod 4096.
Proof. intros. unfold PGOFF. by rewrite u32_small, land_fff by lia. Qed.

Lemma PDX_bound la : 0 <= PDX la < 1024.
Proof. unfold PDX. rewrite land_3ff. apply Z.mod_pos_bound. lia. Qed.
Lemma PTX_bound la : 0 <= PTX la < 1024.
Proof. unfold PTX. rewrite land_3ff. apply Z.mod_pos_bound. lia. Qed.

Lemma PTE_ADDR_eq pte : 0 <= pte < 2 ^ 32 -> PTE_ADDR pte = pte - pte mod 4096.
Proof.
  intros Hp. unfold PTE_ADDR. rewrite (u32_small pte) by lia.
  change (u32 (Z.lnot 0xFFF)) with (Z.land (Z.lnot (Z.ones 12)) (Z.ones 32)).
  rewrite Z.land_assoc, land_lnot_low by lia.
  rewrite Z.land_ones by lia. apply Z.mod_small. change (2 ^ 12) with 4096. zdiv.
Qed.
Lemma PTE_ADDR_mod pte : 0 <= pte < 2 ^ 32 -> PTE_ADDR pte mod 4096 = 0.
Proof. intros. rewrite PTE_ADDR_eq by done. zdiv. Qed.
Lemma PTE_ADDR_bound pte : 0 <= pte < 2 ^ 32 -> 0 <= PTE_ADDR pte <= pte.
Proof. intros. rewrite PTE_ADDR_eq by done. zdiv. Qed.

Lemma ROUNDDOWN_eq a : 0 <= a < 2 ^ 32 -> ROUNDDOWN a 4096 = a - a mod 4096.
Proof. intros. unfold ROUNDDOWN. by rewrite u32_small by lia. Qed.
#[export] Hint Resolve PDX_bound PTX_bound : dos.

(** The page-directory and page-table indices identify the page. *)
Lemma va_split va : 0 <= va < 2 ^ 32 ->
  va = PDX va * 4194304 + PTX va * 4096 + PGOFF va.
Proof. intros. rewrite PDX_eq, PTX_eq, PGOFF_eq by done. zdiv. Qed.

(** An entry built from a page-aligned address and flag bits: its address
    part is the address, and its low twelve bits are the flags. *)
Lemma PTE_ADDR_lor pa fl : 0 <= pa < 2 ^ 32 -> pa mod 4096 = 0 -> 0 <= fl < 4096 ->
  PTE_ADDR (Z.lor pa fl) = pa /\ Z.lor pa fl = pa + fl.
Proof.
  intros Hpa Hm Hf. rewrite (lor_disjoint_add pa fl 12) by (change (2 ^ 12) with 4096; lia).
  split; [|done]. rewrite PTE_ADDR_eq by zdiv. zdiv.
Qed.
