(* ===== verification/Mem.v ===== *)
(** * Byte memory

    The C code addresses memory by byte.  A memory maps an address to the
    byte stored there; an address never written reads as 0 (zero-filled
    pages, and the zeroed disk image the file system is built on).  Wider
    accesses are little-endian, as on the i386.  Two memories that read the
    same everywhere are equal for every program, so statements about whole
    memories use [mem_eq], and the accessors are [Proper] for it. *)
From S2P Require Import Prelude.

Abbreviation mem := (gmap Z Z).

Definition load8 (m : mem) (a : Z) : Z := u8 (default 0 (m !! a)).
Definition store8 (m : mem) (a v : Z) : mem := <[a := u8 v]> m.

Definition load16 (m : mem) (a : Z) : Z := load8 m a + 256 * load8 m (a + 1).
Definition store16 (m : mem) (a v : Z) : mem :=
  store8 (store8 m a v) (a + 1) (v / 256).

Definition load32 (m : mem) (a : Z) : Z :=
  load16 m a + 65536 * load16 m (a + 2).
Definition store32 (m : mem) (a v : Z) : mem :=
  store16 (store16 m a v) (a + 2) (v / 65536).

Definition mem_eq (m1 m2 : mem) : Prop := forall a, load8 m1 a = load8 m2 a.

#[export] Instance mem_eq_equiv : Equivalence mem_eq.
Proof.
  split.
  - intros m a. done.
  - intros m1 m2 H a. symmetry. apply H.
  - intros m1 m2 m3 H12 H23 a. by rewrite H12.
Qed.

(** ** Bytes *)

Lemma load8_bound m a : 0 <= load8 m a < 256.
Proof. apply u8_bound. Qed.
Lemma load16_bound m a : 0 <= load16 m a < 65536.
Proof. unfold load16. pose proof (load8_bound m a). pose proof (load8_bound m (a + 1)). lia. Qed.
Lemma load32_bound m a : 0 <= load32 m a < 4294967296.
Proof. unfold load32. pose proof (load16_bound m a). pose proof (load16_bound m (a + 2)). lia. Qed.
#[export] Hint Resolve load8_bound load16_bound load32_bound : dos.

Lemma load8_store8 m a b v :
  load8 (store8 m a v) b = if decide (a = b) then u8 v else load8 m b.
Proof.
  unfold load8, store8. case_decide as Hab.
  - subst. rewrite lookup_insert_eq. simpl. unfold u8. apply Z.mod_mod. lia.
  - by rewrite lookup_insert_ne.
Qed.
Lemma load8_store8_eq m a v : load8 (store8 m a v) a = u8 v.
Proof. rewrite load8_store8. by rewrite decide_True. Qed.
Lemma load8_store8_ne m a b v : a <> b -> load8 (store8 m a v) b = load8 m b.
Proof. intros. rewrite load8_store8. by rewrite decide_False. Qed.

(** ** Half-words and words: reading back, and disjointness *)

Lemma load8_store16_ne m a b v : b < a \/ a + 2 <= b ->
  load8 (store16 m a v) b = load8 m b.
Proof. intros. unfold store16. rewrite !load8_store8_ne by lia. done. Qed.
Lemma load8_store32_ne m a b v : b < a \/ a + 4 <= b ->
  load8 (store32 m a v) b = load8 m b.
Proof. intros. unfold store32. rewrite !load8_store16_ne by lia. done. Qed.

Lemma load16_store8_ne m a b v : b + 2 <= a \/ a < b ->
  load16 (store8 m a v) b = load16 m b.
Proof. intros. unfold load16. rewrite !load8_store8_ne by lia. done. Qed.
Lemma load16_store16_ne m a b v : b + 2 <= a \/ a + 2 <= b ->
  load16 (store16 m a v) b = load16 m b.
Proof. intros. unfold load16. rewrite !load8_store16_ne by lia. done. Qed.
Lemma load16_store32_ne m a b v : b + 2 <= a \/ a + 4 <= b ->
  load16 (store32 m a v) b = load16 m b.
Proof. intros. unfold load16. rewrite !load8_store32_ne by lia. done. Qed.
Lemma load32_store8_ne m a b v : b + 4 <= a \/ a < b ->
  load32 (store8 m a v) b = load32 m b.
Proof. intros. unfold load32. rewrite !load16_store8_ne by lia. done. Qed.
Lemma load32_store16_ne m a b v : b + 4 <= a \/ a + 2 <= b ->
  load32 (store16 m a v) b = load32 m b.
Proof. intros. unfold load32. rewrite !load16_store16_ne by lia. done. Qed.
Lemma load32_store32_ne m a b v : b + 4 <= a \/ a + 4 <= b ->
  load32 (store32 m a v) b = load32 m b.
Proof. intros. unfold load32. rewrite !load16_store32_ne by lia. done. Qed.

Lemma load16_store16_eq m a v : load16 (store16 m a v) a = u16 v.
Proof.
  unfold load16, store16.
  rewrite load8_store8_ne, load8_store8_eq, load8_store8_eq by lia.
  unfold_width. change (2 ^ 16) with (256 * 256). rewrite Z.rem_mul_r by lia. done.
Qed.
Lemma load32_store32_eq m a v : load32 (store32 m a v) a = u32 v.
Proof.
  unfold load32, store32.
  rewrite load16_store16_ne, load16_store16_eq, load16_store16_eq by lia.
  unfold_width. change (2 ^ 32) with (65536 * 65536). rewrite Z.rem_mul_r by lia. done.
Qed.

(** A load after a store, with the address arithmetic left to [lia]. *)
Ltac mem_simp :=
  repeat first
    [ rewrite load8_store8_eq | rewrite load16_store16_eq | rewrite load32_store32_eq
    | rewrite load8_store8_ne by lia | rewrite load8_store16_ne by lia
    | rewrite load8_store32_ne by lia | rewrite load16_store8_ne by lia
    | rewrite load16_store16_ne by lia | rewrite load16_store32_ne by lia
    | rewrite load32_store8_ne by lia | rewrite load32_store16_ne by lia
    | rewrite load32_store32_ne by lia ].

(** ** The accessors respect [mem_eq] *)

#[export] Instance load8_proper : Proper (mem_eq ==> eq ==> eq) load8.
Proof. intros m1 m2 H a ? <-. apply H. Qed.
#[export] Instance load16_proper : Proper (mem_eq ==> eq ==> eq) load16.
Proof. intros m1 m2 H a ? <-. unfold load16. by rewrite !H. Qed.
#[export] Instance load32_proper : Proper (mem_eq ==> eq ==> eq) load32.
Proof. intros m1 m2 H a ? <-. unfold load32. by rewrite !H. Qed.
#[export] Instance store8_proper : Proper (mem_eq ==> eq ==> eq ==> mem_eq) store8.
Proof. intros m1 m2 H a ? <- v ? <- b. by rewrite !load8_store8, H. Qed.
#[export] Instance store16_proper : Proper (mem_eq ==> eq ==> eq ==> mem_eq) store16.
Proof. intros m1 m2 H a ? <- v ? <-. unfold store16. by rewrite H. Qed.
#[export] Instance store32_proper : Proper (mem_eq ==> eq ==> eq ==> mem_eq) store32.
Proof. intros m1 m2 H a ? <- v ? <-. unfold store32. by rewrite H. Qed.

Lemma store32_load8 m a v b :
  load8 (store32 m a v) b =
  if decide (a <= b < a + 4) then u8 (v / 2 ^ (8 * (b - a))) else load8 m b.
Proof.
  case_decide as Hb; [|apply load8_store32_ne; lia].
  unfold store32, store16.
  assert (b = a \/ b = a + 1 \/ b = a + 2 \/ b = a + 3) as Hc by lia.
  destruct Hc as [-> | [-> | [-> | ->]]];
    rewrite !load8_store8, ?decide_True, ?decide_False by lia;
    repeat (rewrite decide_False by lia); repeat (rewrite decide_True by lia).
  - replace (8 * (a - a)) with 0 by lia. by rewrite Z.div_1_r.
  - by replace (8 * (a + 1 - a)) with 8 by lia.
  - by replace (8 * (a + 2 - a)) with 16 by lia.
  - replace (8 * (a + 3 - a)) with 24 by lia. by rewrite Z.div_div by lia.
Qed.

(** A word is the sum of its bytes, so byte [k] of the word at [a] is the
    byte at [a + k]. *)
Lemma load32_byte m a k : 0 <= k < 4 ->
  u8 (load32 m a / 2 ^ (8 * k)) = load8 m (a + k).
Proof.
  intros Hk. unfold load32, load16.
  pose proof (load8_bound m a) as H0. pose proof (load8_bound m (a + 1)) as H1.
  pose proof (load8_bound m (a + 2)) as H2. pose proof (load8_bound m (a + 2 + 1)) as H3.
  replace (a + 2 + 1) with (a + 3) in * by lia. unfold u8.
  assert (k = 0 \/ k = 1 \/ k = 2 \/ k = 3) as Hc by lia.
  destruct Hc as [-> | [-> | [-> | ->]]].
  - rewrite Z.add_0_r. change (2 ^ (8 * 0)) with 1. change (2 ^ 8) with 256. zdiv.
  - change (2 ^ (8 * 1)) with 256. change (2 ^ 8) with 256. zdiv.
  - change (2 ^ (8 * 2)) with 65536. change (2 ^ 8) with 256. zdiv.
  - change (2 ^ (8 * 3)) with 16777216. change (2 ^ 8) with 256. zdiv.
Qed.
