(* ===== verification/CString.v ===== *)
(** * C strings and memory blocks: src/src/string.c

    A [const char *] that is only read is the function giving the byte at
    each offset from it ([view m a] for a pointer into memory, [lview l] for
    a local array); a function that writes takes the memory and addresses.
    Loops that stop at a NUL take fuel and give [None] when it runs out; the
    theorems show that the length of the string plus one is enough.
    [memset] and [memmove] are the inline-assembly versions ([ASM] is
    defined to 1), over models of the i386 string instructions; the versions
    in C for other machines are [memset_portable] and [memmove_portable]. *)
From S2P Require Import Prelude Mem.

Definition view (m : mem) (a : Z) : Z -> Z := fun i => load8 m (a + i).
Definition lview (l : list Z) : Z -> Z :=
  fun i => if i <? 0 then 0 else default 0 (l !! Z.to_nat i).

(** ** Reading *)

Fixpoint strlen_loop (fuel : nat) (s : Z -> Z) (n : Z) : option Z :=
  match fuel with
  | O => None
  | S f => if s n =? 0 then Some n else strlen_loop f s (n + 1)
  end.
Definition strlen (fuel : nat) (s : Z -> Z) : option Z := strlen_loop fuel s 0.

Fixpoint strnlen_loop (fuel : nat) (s : Z -> Z) (size n : Z) : option Z :=
  match fuel with
  | O => None
  | S f => if (size >? 0) && negb (s n =? 0)
           then strnlen_loop f s (size - 1) (n + 1) else Some n
  end.
(** [size] is a [size_t]: a negative argument arrives as a large one. *)
Definition strnlen (fuel : nat) (s : Z -> Z) (size : Z) : option Z :=
  strnlen_loop fuel s (u32 size) 0.

Fixpoint strcmp_loop (fuel : nat) (p q : Z -> Z) (i : Z) : option Z :=
  match fuel with
  | O => None
  | S f => if negb (p i =? 0) && (p i =? q i) then strcmp_loop f p q (i + 1)
           else Some (u8 (p i) - u8 (q i))
  end.
Definition strcmp (fuel : nat) (p q : Z -> Z) : option Z := strcmp_loop fuel p q 0.

(** The loop is bounded by [n], so no fuel is needed. *)
Fixpoint strncmp_loop (n : nat) (p q : Z -> Z) (i : Z) : Z :=
  match n with
  | O => 0
  | S n' => if negb (p i =? 0) && (p i =? q i) then strncmp_loop n' p q (i + 1)
            else u8 (p i) - u8 (q i)
  end.
Definition strncmp (p q : Z -> Z) (n : Z) : Z := strncmp_loop (Z.to_nat n) p q 0.

(** [Some None] is the null pointer, [Some (Some i)] the pointer [s + i]. *)
Fixpoint strchr_loop (fuel : nat) (s : Z -> Z) (c i : Z) : option (option Z) :=
  match fuel with
  | O => None
  | S f => if s i =? 0 then Some None
           else if s i =? c then Some (Some i)
           else strchr_loop f s c (i + 1)
  end.
Definition strchr (fuel : nat) (s : Z -> Z) (c : Z) : option (option Z) :=
  strchr_loop fuel s c 0.

Fixpoint strfind_loop (fuel : nat) (s : Z -> Z) (c i : Z) : option Z :=
  match fuel with
  | O => None
  | S f => if s i =? 0 then Some i
           else if s i =? c then Some i
           else strfind_loop f s c (i + 1)
  end.
Definition strfind (fuel : nat) (s : Z -> Z) (c : Z) : option Z :=
  strfind_loop fuel s c 0.

Fixpoint memcmp_loop (n : nat) (s1 s2 : Z -> Z) (i : Z) : Z :=
  match n with
  | O => 0
  | S n' => if negb (s1 i =? s2 i) then s1 i - s2 i
            else memcmp_loop n' s1 s2 (i + 1)
  end.
Definition memcmp (v1 v2 : Z -> Z) (n : Z) : Z := memcmp_loop (Z.to_nat n) v1 v2 0.

Fixpoint memfind_loop (n : nat) (s : Z -> Z) (c i : Z) : Z :=
  match n with
  | O => i
  | S n' => if s i =? u8 c then i else memfind_loop n' s c (i + 1)
  end.
Definition memfind (s : Z -> Z) (c n : Z) : Z := memfind_loop (Z.to_nat n) s c 0.

(** ** Writing *)

Fixpoint strcpy (fuel : nat) (m : mem) (dst src : Z) : option mem :=
  match fuel with
  | O => None
  | S f => let c := load8 m src in
           let m' := store8 m dst c in
           if c =? 0 then Some m' else strcpy f m' (dst + 1) (src + 1)
  end.

Definition strcat (fuel : nat) (m : mem) (dst src : Z) : option mem :=
  len ← strlen fuel (view m dst);
  strcpy fuel m (dst + len) src.

Fixpoint strncpy_loop (n : nat) (m : mem) (dst src : Z) : mem :=
  match n with
  | O => m
  | S n' => let m' := store8 m dst (load8 m src) in
            strncpy_loop n' m' (dst + 1)
              (if negb (load8 m' src =? 0) then src + 1 else src)
  end.
Definition strncpy (m : mem) (dst src size : Z) : mem :=
  strncpy_loop (Z.to_nat size) m dst src.

(** The [while (--size > 0 && ...)] loop, entered with [n] left to copy;
    returns the memory and the final [dst]. *)
Fixpoint strlcpy_loop (n : nat) (m : mem) (dst src : Z) : mem * Z :=
  match n with
  | O => (m, dst)
  | S n' => if negb (load8 m src =? 0)
            then strlcpy_loop n' (store8 m dst (load8 m src)) (dst + 1) (src + 1)
            else (m, dst)
  end.
Definition strlcpy (m : mem) (dst src size : Z) : mem * Z :=
  if size >? 0 then
    let '(m', d) := strlcpy_loop (Z.to_nat (size - 1)) m dst src in
    (store8 m' d 0, d - dst)
  else (m, dst - dst).

(** *** The i386 string instructions, direction flag included *)

Fixpoint rep_stosb (ecx : nat) (m : mem) (edi al : Z) : mem :=
  match ecx with
  | O => m
  | S n => rep_stosb n (store8 m edi al) (edi + 1) al
  end.
Fixpoint rep_stosl (ecx : nat) (m : mem) (edi eax : Z) : mem :=
  match ecx with
  | O => m
  | S n => rep_stosl n (store32 m edi eax) (edi + 4) eax
  end.
Fixpoint rep_movsb (df : bool) (ecx : nat) (m : mem) (edi esi : Z) : mem :=
  match ecx with
  | O => m
  | S n => let d := if df then -1 else 1 in
           rep_movsb df n (store8 m edi (load8 m esi)) (edi + d) (esi + d)
  end.
Fixpoint rep_movsl (df : bool) (ecx : nat) (m : mem) (edi esi : Z) : mem :=
  match ecx with
  | O => m
  | S n => let d := if df then -4 else 4 in
           rep_movsl df n (store32 m edi (load32 m esi)) (edi + d) (esi + d)
  end.

(** [(int)p % 4 == 0]: the remainder of the pointer as a signed integer. *)
Definition aligned4 (p : Z) : bool := Z.rem (s32 p) 4 =? 0.

Definition memset (m : mem) (v c n : Z) : mem :=
  if n =? 0 then m
  else if aligned4 v && (n mod 4 =? 0) then
    let c := Z.land c 255 in
    let c := u32 (Z.lor (Z.lor (Z.lor (Z.shiftl c 24) (Z.shiftl c 16)) (Z.shiftl c 8)) c) in
    rep_stosl (Z.to_nat (n / 4)) m v c
  else rep_stosb (Z.to_nat n) m v c.

Definition memmove (m : mem) (dst src n : Z) : mem :=
  let s := src in
  let d := dst in
  if (s <? d) && (u32 (s + n) >? d) then
    let s := s + n in
    let d := d + n in
    if aligned4 s && aligned4 d && (n mod 4 =? 0)
    then rep_movsl true (Z.to_nat (n / 4)) m (d - 4) (s - 4)
    else rep_movsb true (Z.to_nat n) m (d - 1) (s - 1)
  else if aligned4 s && aligned4 d && (n mod 4 =? 0)
    then rep_movsl false (Z.to_nat (n / 4)) m d s
    else rep_movsb false (Z.to_nat n) m d s.

(** *** The versions in C *)

(** [while (--m >= 0) *p++ = c]: [m] is an [int]. *)
Fixpoint memset_loop (n : nat) (m : mem) (p c : Z) : mem :=
  match n with O => m | S n' => memset_loop n' (store8 m p c) (p + 1) c end.
Definition memset_portable (m : mem) (v c n : Z) : mem := memset_loop (Z.to_nat (s32 n)) m v c.

(** [while (n-- > 0) *--d = *--s] and [*d++ = *s++]. *)
Fixpoint copy_down (n : nat) (m : mem) (d s : Z) : mem :=
  match n with O => m | S n' => copy_down n' (store8 m (d - 1) (load8 m (s - 1))) (d - 1) (s - 1) end.
Fixpoint copy_up (n : nat) (m : mem) (d s : Z) : mem :=
  match n with O => m | S n' => copy_up n' (store8 m d (load8 m s)) (d + 1) (s + 1) end.
Definition memmove_portable (m : mem) (dst src n : Z) : mem :=
  if (src <? dst) && (u32 (src + n) >? dst) then copy_down (Z.to_nat n) m (dst + n) (src + n)
  else copy_up (Z.to_nat n) m dst src.

Definition memcpy (m : mem) (dst src n : Z) : mem := memmove m dst src n.

(** ** strtol *)

Fixpoint skip_blank (fuel : nat) (s : Z -> Z) (i : Z) : option Z :=
  match fuel with
  | O => None
  | S f => if (s i =? 32) || (s i =? 9) then skip_blank f s (i + 1) else Some i
  end.

Definition strtol_digit (c : Z) : option Z :=
  if (48 <=? c) && (c <=? 57) then Some (c - 48)
  else if (97 <=? c) && (c <=? 122) then Some (c - 97 + 10)
  else if (65 <=? c) && (c <=? 90) then Some (c - 65 + 10)
  else None.

(** [long] is 32 bits wide; an overflowing accumulator wraps. *)
Fixpoint strtol_loop (fuel : nat) (s : Z -> Z) (base i val : Z) : option (Z * Z) :=
  match fuel with
  | O => None
  | S f =>
      match strtol_digit (s i) with
      | None => Some (val, i)
      | Some dig =>
          if dig >=? base then Some (val, i)
          else strtol_loop f s base (i + 1) (s32 (s32 (val * base) + dig))
      end
  end.

(** The value returned and the offset stored through [endptr]. *)
Definition strtol (fuel : nat) (s : Z -> Z) (base : Z) : option (Z * Z) :=
  i ← skip_blank fuel s 0;
  let '(i, neg) := if s i =? 43 then (i + 1, false)
                   else if s i =? 45 then (i + 1, true) else (i, false) in
  let '(i, base) :=
    if ((base =? 0) || (base =? 16)) && ((s i =? 48) && (s (i + 1) =? 120))
    then (i + 2, 16)
    else if (base =? 0) && (s i =? 48) then (i + 1, 8)
    else if base =? 0 then (i, 10) else (i, base) in
  '(val, i) ← strtol_loop fuel s base i 0;
  Some (if (neg : bool) then s32 (- val) else val, i).

(** * Theorems *)

(** [cstr_at v i l]: from offset [i], [v] holds the characters of [l] and
    then a NUL. *)
Fixpoint cstr_at (v : Z -> Z) (i : Z) (l : list Z) : Prop :=
  match l with
  | [] => v i = 0
  | c :: l' => v i = c /\ 0 < c < 256 /\ cstr_at v (i + 1) l'
  end.
Abbreviation cstr v l := (cstr_at v 0 l).

Lemma cstr_at_ext v w i l :
  (forall k, i <= k <= i + Z.of_nat (length l) -> v k = w k) ->
  cstr_at v i l -> cstr_at w i l.
Proof.
  revert i. induction l as [|c l IH]; intros i Hext; simpl in *.
  - intros <-. symmetry. apply Hext. lia.
  - intros (<- & ? & Hl). split_and!; [symmetry; apply Hext; lia|lia|lia|].
    apply IH; [|done]. intros. apply Hext. lia.
Qed.

Lemma cstr_at_shift l k v w :
  (forall j, k <= j <= k + Z.of_nat (length l) -> v (j + 1) = w j) ->
  cstr_at v (k + 1) l -> cstr_at w k l.
Proof.
  revert k. induction l as [|c l IH]; intros k Hvw; simpl in *.
  - intros <-. symmetry. apply Hvw. lia.
  - intros (<- & ? & Hl). split_and!; [symmetry; apply Hvw; lia|lia|lia|].
    apply IH; [|exact Hl]. intros. apply Hvw. lia.
Qed.

Lemma cstr_at_inj v i l1 l2 : cstr_at v i l1 -> cstr_at v i l2 -> l1 = l2.
Proof.
  revert i l2. induction l1 as [|c l1 IH]; intros i [|d l2] H1 H2; simpl in *;
    destruct_and?; try done; try lia.
  f_equal; [lia|]. eapply IH; [done|done].
Qed.

Lemma lview_cons c l i : 0 <= i -> lview (c :: l) (i + 1) = lview l i.
Proof.
  intros Hi. unfold lview. rewrite (proj2 (Z.ltb_ge (i + 1) 0)), (proj2 (Z.ltb_ge i 0)) by lia.
  by replace (Z.to_nat (i + 1)) with (S (Z.to_nat i)) by lia.
Qed.
Lemma lview_shift l k i : 0 <= i -> lview (drop k l) i = lview l (Z.of_nat k + i).
Proof.
  intros Hi. unfold lview. rewrite (proj2 (Z.ltb_ge i 0)), (proj2 (Z.ltb_ge _ 0)) by lia.
  rewrite lookup_drop. do 2 f_equal. lia.
Qed.
Lemma cstr_at_lview l k :
  Forall (fun c => 0 < c < 256) (drop k l) -> (k <= length l)%nat ->
  cstr_at (lview l) (Z.of_nat k) (drop k l).
Proof.
  remember (drop k l) as r eqn:Hr. revert k Hr.
  induction r as [|c r IH]; intros k Hr HF Hk; simpl.
  - replace (Z.of_nat k) with (Z.of_nat k + 0) by lia.
    rewrite <- lview_shift by lia. by rewrite <- Hr.
  - apply Forall_cons in HF as [Hc HF].
    assert (Hlt : (k < length l)%nat).
    { apply (f_equal length) in Hr. rewrite length_drop in Hr. simpl in Hr. lia. }
    split_and!; [|lia|lia|].
    + replace (Z.of_nat k) with (Z.of_nat k + 0) by lia.
      rewrite <- lview_shift by lia. by rewrite <- Hr.
    + replace (Z.of_nat k + 1) with (Z.of_nat (S k)) by lia. apply IH; [|done|lia].
      replace (S k) with (k + 1)%nat by lia. rewrite <- drop_drop, <- Hr. done.
Qed.
Lemma cstr_lview l : Forall (fun c => 0 < c < 256) l -> cstr (lview l) l.
Proof. intros. apply (cstr_at_lview l 0); [done|lia]. Qed.

Lemma strlen_loop_spec fuel v n l :
  cstr_at v n l -> (length l < fuel)%nat ->
  strlen_loop fuel v n = Some (n + Z.of_nat (length l)).
Proof.
  revert fuel n. induction l as [|c l IH]; intros [|fuel] n Hl Hf; simpl in *;
    [lia| |lia|].
  - rewrite Hl. simpl. f_equal. lia.
  - destruct Hl as (-> & ? & Hl). rewrite (proj2 (Z.eqb_neq _ _)) by lia.
    rewrite IH; [f_equal; lia|done|lia].
Qed.

Lemma strcmp_loop_spec fuel p q i l1 l2 :
  cstr_at p i l1 -> cstr_at q i l2 -> (length l1 < fuel)%nat ->
  exists r, strcmp_loop fuel p q i = Some r /\ (r = 0 <-> l1 = l2).
Proof.
  revert fuel i l2. induction l1 as [|c l1 IH]; intros [|fuel] i l2 H1 H2 Hf;
    simpl in *; [lia| |lia|].
  - rewrite H1. simpl. eexists; split; [done|]. rewrite u8_small by lia.
    destruct l2 as [|d l2]; simpl in H2.
    + rewrite H2. done.
    + destruct H2 as (-> & ? & _). rewrite u8_small by lia. split; [lia|done].
  - destruct H1 as (-> & ? & H1). rewrite (proj2 (Z.eqb_neq c 0)) by lia. simpl.
    destruct l2 as [|d l2]; simpl in H2.
    + rewrite H2. rewrite (proj2 (Z.eqb_neq c 0)) by lia.
      eexists; split; [done|]. rewrite !u8_small by lia. split; [lia|done].
    + destruct H2 as (-> & ? & H2). destruct (Z.eqb_spec c d) as [->|].
      * destruct (IH fuel (i + 1) l2) as (r & -> & Hr); [done|done|lia|].
        exists r. split; [done|]. rewrite Hr. split; congruence.
      * eexists; split; [done|]. rewrite !u8_small by lia. split; [lia|congruence].
Qed.

Lemma strcpy_loop_spec fuel m dst src l :
  cstr_at (view m src) 0 l -> (length l < fuel)%nat ->
  dst + Z.of_nat (length l) < src \/ src + Z.of_nat (length l) < dst ->
  exists m', strcpy fuel m dst src = Some m' /\
    forall a, load8 m' a =
      if decide (dst <= a <= dst + Z.of_nat (length l))
      then load8 m (src + (a - dst)) else load8 m a.
Proof.
  revert fuel m dst src. induction l as [|c l IH]; intros [|fuel] m dst src Hl Hf Hd;
    simpl in *; [lia| |lia|]; unfold view in Hl; rewrite Z.add_0_r in Hl.
  - rewrite Hl. simpl. eexists; split; [done|]. intros a. case_decide.
    + assert (a = dst) as -> by lia. rewrite load8_store8_eq.
      replace (src + (dst - dst)) with src by lia. rewrite Hl. done.
    + rewrite load8_store8_ne; [done|lia].
  - destruct Hl as (Hc & Hc0 & Hl). rewrite Hc.
    rewrite (proj2 (Z.eqb_neq c 0)) by lia.
    destruct (IH fuel (store8 m dst c) (dst + 1) (src + 1)) as (m' & -> & Hm');
      [|lia|lia|].
    { eapply (cstr_at_shift l 0); [|exact Hl]. intros j Hj. unfold view.
      rewrite load8_store8_ne by lia. f_equal. lia. }
    exists m'. split; [done|]. intros a. rewrite Hm'.
    destruct (decide (a = dst)) as [->|Hne].
    + rewrite decide_False, decide_True by lia. rewrite load8_store8_eq.
      replace (src + (dst - dst)) with src by lia. rewrite Hc. apply u8_small. lia.
    + case_decide as H1; case_decide as H2; try lia.
      * rewrite load8_store8_ne by lia. f_equal. lia.
      * apply load8_store8_ne. lia.
Qed.

(** ** Block moves *)

Lemma rep_stosb_spec n m d al a :
  load8 (rep_stosb n m d al) a =
  if decide (d <= a < d + Z.of_nat n) then u8 al else load8 m a.
Proof.
  revert m d. induction n as [|n IH]; intros m d; simpl.
  { by rewrite decide_False by lia. }
  rewrite IH. destruct (decide (a = d)) as [->|].
  - rewrite decide_False, decide_True by lia. apply load8_store8_eq.
  - rewrite load8_store8_ne by lia. by cases_lia.
Qed.

Lemma rep_stosl_spec n m d eax a :
  (forall k, 0 <= k < 4 -> u8 (eax / 2 ^ (8 * k)) = u8 eax) ->
  load8 (rep_stosl n m d eax) a =
  if decide (d <= a < d + 4 * Z.of_nat n) then u8 eax else load8 m a.
Proof.
  intros Hrep. revert m d. induction n as [|n IH]; intros m d; simpl.
  { by rewrite decide_False by lia. }
  rewrite IH, store32_load8. cases_lia; auto. apply Hrep. lia.
Qed.

Lemma rep_movsb_fwd n m d s a : d <= s \/ s + Z.of_nat n <= d ->
  load8 (rep_movsb false n m d s) a =
  if decide (d <= a < d + Z.of_nat n) then load8 m (s + (a - d)) else load8 m a.
Proof.
  revert m d s. induction n as [|n IH]; intros m d s Hsep; simpl.
  { by rewrite decide_False by lia. }
  rewrite IH by lia. destruct (decide (a = d)) as [->|].
  - rewrite decide_False, decide_True by lia. rewrite load8_store8_eq.
    rewrite u8_small by apply load8_bound. f_equal. lia.
  - case_decide as H1; case_decide as H2; try lia.
    + rewrite load8_store8_ne by lia. f_equal. lia.
    + apply load8_store8_ne. lia.
Qed.

(** Backwards, from the last byte: [d] and [s] are the addresses of the
    last byte of each block. *)
Lemma rep_movsb_bwd n m d s a : s <= d ->
  load8 (rep_movsb true n m d s) a =
  if decide (d - Z.of_nat n < a <= d) then load8 m (s + (a - d)) else load8 m a.
Proof.
  revert m d s. induction n as [|n IH]; intros m d s Hsep; simpl.
  { by rewrite decide_False by lia. }
  rewrite IH by lia. destruct (decide (a = d)) as [->|].
  - rewrite decide_False, decide_True by lia. rewrite load8_store8_eq.
    rewrite u8_small by apply load8_bound. f_equal. lia.
  - case_decide as H1; case_decide as H2; try lia.
    + rewrite load8_store8_ne by lia. f_equal. lia.
    + apply load8_store8_ne. lia.
Qed.

Lemma rep_movsl_fwd n m d s a : d <= s \/ s + 4 * Z.of_nat n <= d ->
  load8 (rep_movsl false n m d s) a =
  if decide (d <= a < d + 4 * Z.of_nat n) then load8 m (s + (a - d)) else load8 m a.
Proof.
  revert m d s. induction n as [|n IH]; intros m d s Hsep; simpl.
  { by rewrite decide_False by lia. }
  rewrite IH by lia. rewrite !store32_load8.
  cases_lia; [f_equal; lia|apply load32_byte; lia].
Qed.

Lemma rep_movsl_bwd n m d s a : s + 4 <= d ->
  load8 (rep_movsl true n m d s) a =
  if decide (d + 4 - 4 * Z.of_nat n <= a < d + 4) then load8 m (s + (a - d)) else load8 m a.
Proof.
  revert m d s. induction n as [|n IH]; intros m d s Hsep; simpl.
  { by rewrite decide_False by lia. }
  rewrite IH by lia. rewrite !store32_load8.
  cases_lia; [f_equal; lia|apply load32_byte; lia].
Qed.

Lemma aligned4_spec p : aligned4 p = true -> p mod 4 = 0.
Proof.
  unfold aligned4. intros H%Z.eqb_eq.
  apply Z.rem_mod_eq_0 in H; [|lia]. revert H. unfold s32. zdiv.
Qed.

(** The byte replicated into a word by [memset]. *)
Lemma memset_word c k : 0 <= k < 4 ->
  let b := Z.land c 255 in
  let w := u32 (Z.lor (Z.lor (Z.lor (Z.shiftl b 24) (Z.shiftl b 16)) (Z.shiftl b 8)) b) in
  u8 (w / 2 ^ (8 * k)) = u8 c.
Proof.
  intros Hk b w. assert (Hb : b = u8 c).
  { subst b. change 255 with (Z.ones 8). by rewrite Z.land_ones. }
  pose proof (u8_bound c) as Hc. rewrite <- Hb in *.
  assert (Hw : w = b * 16777216 + b * 65536 + b * 256 + b).
  { subst w. rewrite !Z.shiftl_mul_pow2 by lia.
    rewrite (lor_disjoint_add (b * 2 ^ 24) _ 24) by (rewrite ?Z_mod_mult; lia).
    rewrite (lor_disjoint_add _ (b * 2 ^ 8) 16) by zdiv.
    rewrite (lor_disjoint_add _ b 8) by zdiv.
    rewrite u32_small by lia. lia. }
  rewrite Hw. unfold u8. change (2 ^ 8) with 256.
  assert (k = 0 \/ k = 1 \/ k = 2 \/ k = 3) as Hc4 by lia.
  destruct Hc4 as [-> | [-> | [-> | ->]]].
  - change (2 ^ (8 * 0)) with 1. zdiv.
  - change (2 ^ (8 * 1)) with 256. zdiv.
  - change (2 ^ (8 * 2)) with 65536. zdiv.
  - change (2 ^ (8 * 3)) with 16777216. zdiv.
Qed.

Lemma memset_load8 m v c n a : 0 <= n ->
  load8 (memset m v c n) a =
  if decide (v <= a < v + n) then u8 c else load8 m a.
Proof.
  intros Hn. unfold memset. destruct (Z.eqb_spec n 0) as [->|].
  { by rewrite decide_False by lia. }
  destruct (aligned4 v && (n mod 4 =? 0)) eqn:Hal.
  - zbool. assert (Hc : u8 (Z.land c 255) = u8 c).
    { change 255 with (Z.ones 8). rewrite Z.land_ones by lia.
      unfold u8. apply Z.mod_mod. lia. }
    rewrite rep_stosl_spec.
    + replace (4 * Z.of_nat (Z.to_nat (n / 4))) with n by zdiv.
      case_decide; [|done]. rewrite <- (memset_word c 0) by lia.
      change (2 ^ (8 * 0)) with 1. by rewrite Z.div_1_r.
    + intros k Hk. rewrite memset_word by done. rewrite <- (memset_word c 0) by lia.
      change (2 ^ (8 * 0)) with 1. by rewrite Z.div_1_r.
  - rewrite rep_stosb_spec. by rewrite Z2Nat.id by done.
Qed.

Lemma memmove_load8 m dst src n a :
  0 <= n -> 0 <= src -> src + n <= 2 ^ 32 -> 0 <= dst -> dst + n <= 2 ^ 32 ->
  load8 (memmove m dst src n) a =
  if decide (dst <= a < dst + n) then load8 m (src + (a - dst)) else load8 m a.
Proof.
  intros Hn Hs Hsn Hd Hdn. unfold memmove. cbv zeta.
  destruct (decide (n = 0)) as [->|].
  { rewrite decide_False by lia. by repeat case_match. }
  assert (Hu : (u32 (src + n) >? dst) = true -> src + n > dst).
  { intros H. zbool. unfold u32 in H. revert H. zdiv. }
  assert (Hu' : src < dst -> (u32 (src + n) >? dst) = false -> src + n <= dst).
  { intros ? H. zbool. destruct (decide (src + n = 2 ^ 32)); [lia|].
    rewrite u32_small in H by lia. lia. }
  assert (Hn4 : n mod 4 = 0 -> 4 * Z.of_nat (Z.to_nat (n / 4)) = n) by zdiv.
  destruct ((src <? dst) && (u32 (src + n) >? dst)) eqn:Hc.
  - apply andb_true_iff in Hc as [Hlt Hgt]. apply Hu in Hgt. zbool.
    destruct (_ && _) eqn:Hal.
    + apply andb_true_iff in Hal as [[H1 H2]%andb_true_iff H3].
      apply aligned4_spec in H1, H2. apply Z.eqb_eq in H3.
      rewrite rep_movsl_bwd by zdiv. rewrite Hn4 by done.
      cases_lia; f_equal; lia.
    + rewrite rep_movsb_bwd by lia. rewrite Z2Nat.id by done.
      cases_lia; f_equal; lia.
  - assert (dst <= src \/ src + n <= dst).
    { apply andb_false_iff in Hc as [Hc|Hc]; zbool; [lia|].
      destruct (decide (src < dst)); [right; apply Hu'; [lia|]|lia].
      rewrite Z.gtb_ltb. apply Z.ltb_ge. lia. }
    destruct (aligned4 src && aligned4 dst && (n mod 4 =? 0)) eqn:Hal.
    + apply andb_true_iff in Hal as [_ H3]. apply Z.eqb_eq in H3.
      rewrite rep_movsl_fwd by (rewrite Hn4 by done; lia). rewrite Hn4 by done.
      done.
    + rewrite rep_movsb_fwd by lia. rewrite Z2Nat.id by done. done.
Qed.

(** The loops in C do what the byte instructions do. *)
Lemma memset_loop_stosb n m p c : memset_loop n m p c = rep_stosb n m p c.
Proof. revert m p. induction n as [|n IH]; intros m p; [done|apply IH]. Qed.
Lemma copy_up_movsb n m d s : copy_up n m d s = rep_movsb false n m d s.
Proof. revert m d s. induction n as [|n IH]; intros m d s; [done|apply IH]. Qed.
Lemma copy_down_movsb n m d s : copy_down n m d s = rep_movsb true n m (d - 1) (s - 1).
Proof. revert m d s. induction n as [|n IH]; intros m d s; [done|apply IH]. Qed.
Lemma memmove_portable_load8 m dst src n a :
  0 <= n -> 0 <= src -> src + n <= 2 ^ 32 -> 0 <= dst -> dst + n <= 2 ^ 32 ->
  load8 (memmove_portable m dst src n) a =
  if decide (dst <= a < dst + n) then load8 m (src + (a - dst)) else load8 m a.
Proof.
  intros Hn Hs Hsn Hd Hdn. unfold memmove_portable. rewrite copy_down_movsb, copy_up_movsb.
  destruct (decide (n = 0)) as [->|Hne].
  { rewrite decide_False by lia. by case_match. }
  assert (Hu : (u32 (src + n) >? dst) = bool_decide (src + n > dst) \/ src + n = 2 ^ 32).
  { destruct (decide (src + n = 2 ^ 32)); [by right|left]. rewrite u32_small by lia.
    rewrite Z.gtb_ltb. case_bool_decide; [apply Z.ltb_lt; lia|apply Z.ltb_ge; lia]. }
  destruct (_ && _) eqn:Hc.
  - apply andb_true_iff in Hc as [Hlt%Z.ltb_lt Hgt].
    rewrite rep_movsb_bwd by lia. rewrite Z2Nat.id by done. cases_lia; f_equal; lia.
  - assert (dst <= src \/ src + n <= dst).
    { apply andb_false_iff in Hc as [Hc%Z.ltb_ge|Hc]; [lia|]. destruct Hu as [Hu|]; [|lia].
      rewrite Hu in Hc. apply bool_decide_eq_false_1 in Hc. lia. }
    rewrite rep_movsb_fwd by lia. by rewrite Z2Nat.id.
Qed.

(** ** The properties *)

(** [strcmp] decides equality of C strings: with fuel for the first
    string it returns, and the result is 0 exactly when the strings are the
    same. *)
Theorem strcmp_eq_iff fuel p q l1 l2 :
  cstr p l1 -> cstr q l2 -> (length l1 < fuel)%nat ->
  exists r, strcmp fuel p q = Some r /\ (r = 0 <-> l1 = l2).
Proof. apply strcmp_loop_spec. Qed.
Lemma strcmp_eq_iff_witness :
  exists r, strcmp 4 (lview [97; 98]) (lview [97; 99]) = Some r /\
    (r = 0 <-> [97; 98] = [97; 99]).
Proof.
  apply strcmp_eq_iff; [apply cstr_lview; by repeat constructor..|simpl; lia].
Defined.

(** [strcpy] copies the string and its NUL, and changes nothing else,
    when the two areas do not overlap. *)
Theorem strcpy_copies fuel m dst src l :
  cstr (view m src) l -> (length l < fuel)%nat ->
  dst + Z.of_nat (length l) < src \/ src + Z.of_nat (length l) < dst ->
  exists m', strcpy fuel m dst src = Some m' /\
    strlen fuel (view m' dst) = Some (Z.of_nat (length l)) /\
    forall a, load8 m' a =
      if decide (dst <= a <= dst + Z.of_nat (length l))
      then load8 m (src + (a - dst)) else load8 m a.
Proof.
  intros Hl Hf Hd. destruct (strcpy_loop_spec fuel m dst src l Hl Hf Hd) as (m' & -> & Hm').
  exists m'. split; [done|]. split; [|done].
  apply (strlen_loop_spec fuel _ 0 l); [|done].
  eapply cstr_at_ext; [|exact Hl]. intros k Hk. unfold view. rewrite Hm'.
  rewrite decide_True by lia. f_equal. lia.
Qed.
Lemma strcpy_copies_witness :
  exists m', strcpy 3 {[ 100 := 104; 101 := 105 ]} 200 100 = Some m' /\
    strlen 3 (view m' 200) = Some 2 /\
    forall a, load8 m' a =
      if decide (200 <= a <= 202)
      then load8 {[ 100 := 104; 101 := 105 ]} (100 + (a - 200))
      else load8 {[ 100 := 104; 101 := 105 ]} a.
Proof.
  apply (strcpy_copies 3 {[ 100 := 104; 101 := 105 ]} 200 100 [104; 105]);
    [vm_compute; by repeat split|simpl; lia|simpl; lia].
Defined.

(** [memset] fills exactly [v, v+n) with the low byte of [c], whichever
    of the word and byte paths of the assembly it takes; the version in C does
    the same for less than 2^31 bytes (and nothing for more, since it counts
    in an [int]). *)
Theorem memset_fills m v c n a : 0 <= n < 2 ^ 32 ->
  load8 (memset m v c n) a = (if decide (v <= a < v + n) then u8 c else load8 m a) /\
  (n < 2 ^ 31 -> load8 (memset_portable m v c n) a = load8 (memset m v c n) a) /\
  (2 ^ 31 <= n -> memset_portable m v c n = m).
Proof.
  intros Hn. split; [apply memset_load8; lia|]. unfold memset_portable. rewrite memset_loop_stosb. split.
  - intros H. rewrite memset_load8, rep_stosb_spec, s32_small, Z2Nat.id by lia. done.
  - intros H. assert (s32 n < 0) by (unfold s32; zdiv).
    by replace (Z.to_nat (s32 n)) with 0%nat by lia.
Qed.
Lemma memset_fills_witness : load8 (memset ∅ 4096 (-1) 8) 4103 = 255.
Proof. rewrite (proj1 (memset_fills ∅ 4096 (-1) 8 4103 ltac:(lia))). reflexivity. Defined.

(** C23. [memmove] is exact on overlapping areas too: after it, [dst, dst+n)
    holds what [src, src+n) held before, and nothing else changed; for all
    four copy loops of the assembly (forward, backward, by words, by bytes),
    and for the version in C. *)
Theorem memmove_exact m dst src n a :
  0 <= n -> 0 <= src -> src + n <= 2 ^ 32 -> 0 <= dst -> dst + n <= 2 ^ 32 ->
  let moved := if decide (dst <= a < dst + n) then load8 m (src + (a - dst)) else load8 m a in
  load8 (memmove m dst src n) a = moved /\ load8 (memmove_portable m dst src n) a = moved.
Proof. intros. split; [by apply memmove_load8|by apply memmove_portable_load8]. Qed.
Lemma memmove_exact_witness :
  load8 (memmove {[ 16 := 1; 17 := 2; 18 := 3 ]} 17 16 3) 19 = 3.
Proof.
  rewrite (proj1 (memmove_exact {[ 16 := 1; 17 := 2; 18 := 3 ]} 17 16 3 19
    ltac:(lia) ltac:(lia) ltac:(lia) ltac:(lia) ltac:(lia))). done.
Defined.

(** [strlcpy] never writes past [size] bytes and always terminates the copy. *)
Lemma strlcpy_loop_spec n m dst src :
  dst + Z.of_nat n < src \/ src + Z.of_nat n <= dst ->
  let '(m', d) := strlcpy_loop n m dst src in
  dst <= d <= dst + Z.of_nat n /\
  (forall k, dst <= k < d -> load8 m (src + (k - dst)) <> 0) /\
  (d < dst + Z.of_nat n -> load8 m (src + (d - dst)) = 0) /\
  forall a, load8 m' a =
    if decide (dst <= a < d) then load8 m (src + (a - dst)) else load8 m a.
Proof.
  revert m dst src. induction n as [|n IH]; intros m dst src Hsep; simpl.
  { split_and!; [lia|lia|intros; lia|lia|]. intros a. by rewrite decide_False by lia. }
  destruct (Z.eqb_spec (load8 m src) 0) as [Hz|Hz]; simpl.
  { split_and!; [lia|lia|intros; lia| |].
    - intros _. by replace (src + (dst - dst)) with src by lia.
    - intros a. by rewrite decide_False by lia. }
  specialize (IH (store8 m dst (load8 m src)) (dst + 1) (src + 1) ltac:(lia)).
  destruct (strlcpy_loop n _ _ _) as [m' d]. destruct IH as ([Hd1 Hd2] & Hnz & Hend & Hm).
  assert (Hsh : forall k, dst + 1 <= k <= d -> k <= dst + Z.of_nat n ->
      load8 (store8 m dst (load8 m src)) (src + 1 + (k - (dst + 1)))
    = load8 m (src + (k - dst))).
  { intros k Hk1 Hk2. rewrite load8_store8_ne by lia. f_equal. lia. }
  split_and!; [lia|lia| | |].
  - intros k Hk. destruct (decide (k = dst)) as [->|].
    + by replace (src + (dst - dst)) with src by lia.
    + rewrite <- Hsh by lia. apply Hnz. lia.
  - intros Hlt. rewrite <- Hsh by lia. apply Hend. lia.
  - intros a. rewrite Hm. destruct (decide (a = dst)) as [->|].
    + rewrite decide_False, decide_True by lia. rewrite load8_store8_eq.
      rewrite u8_small by apply load8_bound. f_equal. lia.
    + case_decide; case_decide; try lia.
      * apply Hsh; lia.
      * apply load8_store8_ne. lia.
Qed.
