(* ===== verification/Printf.v ===== *)
(** * Formatted output and line input: src/src/stdio.c

    [vprintfmt] is a function of the callback [putch] and of its cookie
    (type [P]), as in C; the four users of it (kernel and user [cprintf],
    [fprintf], [vsnprintf]) are instances.  A [va_list] is the list of the
    arguments still to be fetched, each with the type it was passed at;
    fetching at another type is undefined behaviour, here [FBadArg]; so is
    [%e] with the least integer, whose negation overflows. *)
From S2P Require Import Prelude Layout Mem CString.

(** ** Arguments *)

Inductive varg : Type :=
| VInt (z : Z)                    (* an [int]-sized slot *)
| VLongLong (z : Z)               (* a [long long]-sized slot *)
| VStr (s : option (list Z)).     (* a [char *]: NULL or the characters before the NUL *)

Inductive fres (P : Type) : Type :=
| FDone (pd : P)
| FBadArg
| FNoFuel.
Arguments FDone {P} pd.
Arguments FBadArg {P}.
Arguments FNoFuel {P}.

(** Unsigned fetch: 64 bits when [lflag >= 2], else 32. *)
Definition getuint (ap : list varg) (lflag : Z) : option (Z * list varg) :=
  if lflag >=? 2 then
    match ap with VLongLong z :: ap' => Some (u64 z, ap') | _ => None end
  else
    match ap with VInt z :: ap' => Some (u32 z, ap') | _ => None end.
Definition getint (ap : list varg) (lflag : Z) : option (Z * list varg) :=
  if lflag >=? 2 then
    match ap with VLongLong z :: ap' => Some (s64 z, ap') | _ => None end
  else
    match ap with VInt z :: ap' => Some (s32 z, ap') | _ => None end.

(** The character codes the formatter names. *)
Definition str_codes (s : string) : list Z :=
  (fun c => Z.of_nat (Ascii.nat_of_ascii c)) <$> String.list_ascii_of_string s.

Definition digit_char (d : Z) : Z :=
  default 0 (str_codes "0123456789abcdef" !! Z.to_nat d).

(** [error_string], from E_UNSPECIFIED = 1 to E_NOT_SUPP = 17. *)
Definition error_string (e : Z) : option (list Z) :=
  if (e <? 1) || (e >? 17) then None else
  str_codes <$>
  ["unspecified error"; "bad environment"; "invalid parameter"; "out of memory";
   "out of environments"; "segmentation fault"; "env is not recving";
   "unexpected end of file"; "no free space on disk"; "no free inode on disk";
   "too many files are open"; "file or block not found"; "invalid path";
   "bad file name"; "file already exists"; "file is not a valid executable";
   "operation not supported"]%string !! Z.to_nat (e - 1).

(** The locals of one conversion specification. *)
Record spec : Type := mkSpec {
  sp_padc : Z; sp_width : Z; sp_precision : Z; sp_lflag : Z; sp_altflag : bool }.
Definition spec0 : spec := mkSpec 32 (-1) (-1) 0 false.

Section fmt.
Context {P : Type} (putch : Z -> P -> P).

(** [for (; n > 0; n--) putch(c)] *)
Fixpoint put_n (n : nat) (c : Z) (pd : P) : P :=
  match n with
  | O => pd
  | S n' => put_n n' c (putch c pd)
  end.

(** [num] is an [unsigned long]: 32 bits, so 32 levels are enough. *)
Fixpoint printnum_rec (fuel : nat) (num base width padc : Z) (pd : P) : P :=
  match fuel with
  | O => pd
  | S f =>
      let pd := if num >=? base
                then printnum_rec f (num / base) base (width - 1) padc pd
                else put_n (Z.to_nat (width - 1)) padc pd in
      putch (digit_char (num mod base)) pd
  end.
Definition printnum (num base width padc : Z) (pd : P) : P :=
  printnum_rec 33 (u32 num) base width padc pd.

(** The character loop of [%s]; gives the final [width] too. *)
Fixpoint put_str (p : list Z) (precision width : Z) (alt : bool) (pd : P) : Z * P :=
  match p with
  | [] => (width, pd)
  | b :: p' =>
      let ch := s8 b in
      if (precision <? 0) || (precision - 1 >=? 0) then
        put_str p' (if precision <? 0 then precision else precision - 1) (width - 1) alt
          (if alt && ((ch <? 32) || (ch >? 126)) then putch 63 pd else putch ch pd)
      else (width, pd)
  end.

(** [case 's'] *)
Definition fmt_s (sp : spec) (p : option (list Z)) (pd : P) : P :=
  let p := default (str_codes "(null)") p in
  let '(width, pd) :=
    if (sp_width sp >? 0) && negb (sp_padc sp =? 45) then
      let w := sp_width sp -
               default 0 (strnlen (S (length p)) (lview p) (sp_precision sp)) in
      (if w >? 0 then 0 else w, put_n (Z.to_nat w) (sp_padc sp) pd)
    else (sp_width sp, pd) in
  let '(width, pd) := put_str p (sp_precision sp) width (sp_altflag sp) pd in
  put_n (Z.to_nat width) 32 pd.

(** [for (precision = 0; ; ++fmt)]: the digits of a width or precision;
    entered with the digit [ch] and [fmt] just past it. *)
Fixpoint scan_precision (fuel : nat) (fmt : Z -> Z) (i ch precision : Z) :
    option (Z * Z) :=
  match fuel with
  | O => None
  | S f =>
      let precision := s32 (precision * 10 + ch - 48) in
      let ch := s8 (fmt i) in
      if (ch <? 48) || (ch >? 57) then Some (i, precision)
      else scan_precision f fmt (i + 1) ch precision
  end.

Definition process_precision (sp : spec) (precision : Z) : spec :=
  if sp_width sp <? 0
  then mkSpec (sp_padc sp) precision (-1) (sp_lflag sp) (sp_altflag sp)
  else mkSpec (sp_padc sp) (sp_width sp) precision (sp_lflag sp) (sp_altflag sp).

(** [for (fmt--; fmt[-1] != '%'; fmt--)], entered after the [fmt--]. *)
Fixpoint back_up (n : nat) (fmt : Z -> Z) (i : Z) : Z :=
  match n with
  | O => i
  | S n' => if fmt (i - 1) =? 37 then i else back_up n' fmt (i - 1)
  end.

(** The outer loop ([vprintfmt]) and the [switch] behind the label
    [reswitch], entered with [fmt] past the ['%']. *)
Fixpoint vprintfmt (fuel : nat) (fmt : Z -> Z) (i : Z) (ap : list varg) (pd : P)
    {struct fuel} : fres P :=
  match fuel with
  | O => FNoFuel
  | S f =>
      let ch := fmt i in
      if ch =? 37 then reswitch f fmt (i + 1) ap spec0 pd
      else if ch =? 0 then FDone pd
      else vprintfmt f fmt (i + 1) ap (putch ch pd)
  end
with reswitch (fuel : nat) (fmt : Z -> Z) (i : Z) (ap : list varg) (sp : spec) (pd : P)
    {struct fuel} : fres P :=
  match fuel with
  | O => FNoFuel
  | S f =>
      let ch := fmt i in
      let i := i + 1 in
      let '(mkSpec padc width precision lflag altflag) := sp in
      let number (num base : Z) ap pd :=
        vprintfmt f fmt i ap (printnum num base width padc pd) in
      if ch =? 45 then                                               (* '-' *)
        reswitch f fmt i ap (mkSpec 45 width precision lflag altflag) pd
      else if ch =? 48 then                                          (* '0' *)
        reswitch f fmt i ap (mkSpec 48 width precision lflag altflag) pd
      else if (49 <=? ch) && (ch <=? 57) then                        (* '1'..'9' *)
        match scan_precision f fmt i ch 0 with
        | None => FNoFuel
        | Some (i, precision) => reswitch f fmt i ap (process_precision sp precision) pd
        end
      else if ch =? 42 then                                          (* '*' *)
        match ap with
        | VInt z :: ap => reswitch f fmt i ap (process_precision sp (s32 z)) pd
        | _ => FBadArg
        end
      else if ch =? 46 then                                          (* '.' *)
        reswitch f fmt i ap
          (mkSpec padc (if width <? 0 then 0 else width) precision lflag altflag) pd
      else if ch =? 35 then                                          (* '#' *)
        reswitch f fmt i ap (mkSpec padc width precision lflag true) pd
      else if ch =? 108 then                                         (* 'l' *)
        reswitch f fmt i ap (mkSpec padc width precision (lflag + 1) altflag) pd
      else if ch =? 99 then                                          (* 'c' *)
        match ap with
        | VInt z :: ap => vprintfmt f fmt i ap (putch (s32 z) pd)
        | _ => FBadArg
        end
      else if ch =? 101 then                                         (* 'e' *)
        match ap with
        | VInt z :: ap =>
            let err := s32 z in
            let err := if err <? 0 then s32 (- err) else err in
            if err <? 0 then FBadArg   (* [-err] overflows for the least integer *)
            else
            let sub :=
              match (if err >=? MAXERROR then None else error_string err) with
              | None => vprintfmt f (lview (str_codes "error %d")) 0 [VInt err] pd
              | Some p => vprintfmt f (lview (str_codes "%s")) 0 [VStr (Some p)] pd
              end in
            match sub with
            | FDone pd => vprintfmt f fmt i ap pd
            | r => r
            end
        | _ => FBadArg
        end
      else if ch =? 115 then                                         (* 's' *)
        match ap with
        | VStr p :: ap => vprintfmt f fmt i ap (fmt_s sp p pd)
        | _ => FBadArg
        end
      else if ch =? 100 then                                         (* 'd' *)
        match getint ap lflag with
        | None => FBadArg
        | Some (num, ap) =>
            if num <? 0 then number (u64 (- num)) 10 ap (putch 45 pd)
            else number num 10 ap pd
        end
      else if ch =? 117 then                                         (* 'u' *)
        match getuint ap lflag with
        | None => FBadArg | Some (num, ap) => number num 10 ap pd end
      else if ch =? 111 then                                         (* 'o' *)
        match getuint ap lflag with
        | None => FBadArg | Some (num, ap) => number num 8 ap pd end
      else if ch =? 112 then                                         (* 'p' *)
        match ap with
        | VInt z :: ap => number (u32 z) 16 ap (putch 120 (putch 48 pd))
        | _ => FBadArg
        end
      else if ch =? 120 then                                         (* 'x' *)
        match getuint ap lflag with
        | None => FBadArg | Some (num, ap) => number num 16 ap pd end
      else if ch =? 37 then                                          (* '%' *)
        vprintfmt f fmt i ap (putch ch pd)
      else                                                           (* default *)
        vprintfmt f fmt (back_up (Z.to_nat i) fmt (i - 1)) ap (putch 37 pd)
  end.
End fmt.

(** ** The callbacks and the functions built on them *)

(** The character stream itself: what every caller's [putch] is fed. *)
Definition emit (ch : Z) (out : list Z) : list Z := out ++ [ch].
Definition format (fuel : nat) (fmt : list Z) (ap : list varg) : fres (list Z) :=
  vprintfmt emit fuel (lview fmt) 0 ap [].

(** *** Kernel: [putch] writes to the console and counts *)
Record kput : Type := mkKput { kp_cons : list Z; kp_cnt : Z }.
Definition kputch (ch : Z) (b : kput) : kput :=
  mkKput (kp_cons b ++ [ch]) (kp_cnt b + 1).
Definition kvcprintf (fuel : nat) (fmt : list Z) (ap : list varg) (console : list Z) :
    fres kput :=
  vprintfmt kputch fuel (lview fmt) 0 ap (mkKput console 0).

(** *** User: characters are collected and printed by one system call *)
Record printbuf : Type := mkPrintbuf {
  pb_idx : Z; pb_cnt : Z; pb_buf : list Z;      (* the first [idx] bytes of [buf] *)
  pb_calls : list (list Z) }.                   (* the [sys_cputs] calls made so far *)
Definition uputch (ch : Z) (b : printbuf) : printbuf :=
  let buf := pb_buf b ++ [u8 ch] in
  let idx := pb_idx b + 1 in
  if idx =? 256 - 1
  then mkPrintbuf 0 (pb_cnt b + 1) [] (pb_calls b ++ [buf])
  else mkPrintbuf idx (pb_cnt b + 1) buf (pb_calls b).
(** The [sys_cputs] calls made and the count returned. *)
Definition vcprintf (fuel : nat) (fmt : list Z) (ap : list varg) :
    fres (list (list Z) * Z) :=
  match vprintfmt uputch fuel (lview fmt) 0 ap (mkPrintbuf 0 0 [] []) with
  | FDone b => FDone (pb_calls b ++ [pb_buf b], pb_cnt b)
  | FBadArg => FBadArg
  | FNoFuel => FNoFuel
  end.

(** *** [vfprintf]: chunks of 256 through [write] *)
Record fprintbuf : Type := mkFprintbuf {
  fp_idx : Z; fp_result : Z; fp_error : Z; fp_buf : list Z;
  fp_world : list (list Z) }.                   (* the chunks handed to [write] *)
Section fprintf.
(** What [write] returns for a chunk, given the chunks written before. *)
Variable write : list (list Z) -> list Z -> Z.

Definition writebuf (b : fprintbuf) : fprintbuf :=
  if fp_error b >? 0 then
    let result := write (fp_world b) (fp_buf b) in
    mkFprintbuf (fp_idx b)
      (if result >? 0 then fp_result b + result else fp_result b)
      (if negb (result =? fp_idx b) then (if result <? 0 then result else 0)
       else fp_error b)
      (fp_buf b) (fp_world b ++ [fp_buf b])
  else b.
Definition fputch (ch : Z) (b : fprintbuf) : fprintbuf :=
  let b := mkFprintbuf (fp_idx b + 1) (fp_result b) (fp_error b)
             (fp_buf b ++ [u8 ch]) (fp_world b) in
  if fp_idx b =? 256 then
    let b := writebuf b in
    mkFprintbuf 0 (fp_result b) (fp_error b) [] (fp_world b)
  else b.
(** The value returned and the chunks written. *)
Definition vfprintf (fuel : nat) (fmt : list Z) (ap : list varg) :
    fres (Z * list (list Z)) :=
  match vprintfmt fputch fuel (lview fmt) 0 ap (mkFprintbuf 0 0 1 [] []) with
  | FDone b =>
      let b := if fp_idx b >? 0 then writebuf b else b in
      FDone (if negb (fp_result b =? 0) then fp_result b else fp_error b, fp_world b)
  | FBadArg => FBadArg
  | FNoFuel => FNoFuel
  end.
End fprintf.

(** *** [vsnprintf] *)
Record sprintbuf : Type := mkSprintbuf {
  sb_mem : mem; sb_buf : Z; sb_ebuf : Z; sb_cnt : Z }.
Definition sprintputch (ch : Z) (b : sprintbuf) : sprintbuf :=
  let cnt := sb_cnt b + 1 in
  if sb_buf b <? sb_ebuf b
  then mkSprintbuf (store8 (sb_mem b) (sb_buf b) ch) (sb_buf b + 1) (sb_ebuf b) cnt
  else mkSprintbuf (sb_mem b) (sb_buf b) (sb_ebuf b) cnt.
Definition vsnprintf (fuel : nat) (m : mem) (buf n : Z) (fmt : list Z) (ap : list varg) :
    fres (Z * mem) :=
  let b := mkSprintbuf m buf (buf + n - 1) 0 in
  if (buf =? 0) || (n <? 1) then FDone (- E_INVAL, m)
  else
    match vprintfmt sprintputch fuel (lview fmt) 0 ap b with
    | FDone b => FDone (sb_cnt b, store8 (sb_mem b) (sb_buf b) 0)
    | FBadArg => FBadArg
    | FNoFuel => FNoFuel
    end.

(** ** readline *)
Definition BUFLEN : Z := 1024.
Inductive rl_result : Type :=
| RLine (line : list Z)           (* [return buf] *)
| RNull (c : Z).                  (* end of file or read error [c] *)

(** [input] is what successive [getchar] calls return, [i] the index into
    [buf] and [line] its first [i] characters; [echo] collects the
    [cputchar] calls.  [None]: the input ran out before the call returned. *)
Fixpoint readline_loop (input : list Z) (echoing : bool) (i : Z) (line echo : list Z) :
    option (rl_result * list Z * list Z) :=
  match input with
  | [] => None
  | c :: input' =>
      if c <? 0 then Some (RNull c, echo, input')
      else if (c =? 8) || (c =? 127) then
        if i >? 0
        then readline_loop input' echoing (i - 1) (removelast line)
               (if echoing then echo ++ [8] else echo)
        else readline_loop input' echoing i line echo
      else if (c >=? 32) && (i <? BUFLEN - 1) then
        readline_loop input' echoing (i + 1) (line ++ [u8 c])
          (if echoing then echo ++ [c] else echo)
      else if (c =? 10) || (c =? 13) then
        Some (RLine line, (if echoing then echo ++ [10] else echo), input')
      else readline_loop input' echoing i line echo
  end.
Definition readline (input : list Z) (echoing : bool) :=
  readline_loop input echoing 0 [] [].

(** * Theorems *)

(** [putch] called on each character of [out], in order. *)
Definition feed {P} (putch : Z -> P -> P) (out : list Z) (pd : P) : P :=
  foldl (fun pd ch => putch ch pd) pd out.

Lemma feed_app {P} (putch : Z -> P -> P) o1 o2 pd :
  feed putch (o1 ++ o2) pd = feed putch o2 (feed putch o1 pd).
Proof. apply foldl_app. Qed.
Lemma feed_emit o pd : feed emit o pd = pd ++ o.
Proof.
  revert pd. induction o as [|c o IH]; intros pd; [by rewrite app_nil_r|].
  change (feed emit (c :: o) pd) with (feed emit o (emit c pd)).
  rewrite IH. unfold emit. by rewrite <- app_assoc.
Qed.

Lemma put_n_feed {P} (putch : Z -> P -> P) n c pd :
  put_n putch n c pd = feed putch (replicate n c) pd.
Proof. revert pd. induction n as [|n IH]; intros pd; simpl; [done|]. by rewrite IH. Qed.

(** ** Numbers *)

(** The number a digit sequence denotes, most significant digit first. *)
Definition digits_val (base : Z) (ds : list Z) : Z :=
  foldl (fun acc d => acc * base + d) 0 ds.

Lemma digits_val_snoc base ds d :
  digits_val base (ds ++ [d]) = digits_val base ds * base + d.
Proof. unfold digits_val. by rewrite foldl_app. Qed.

(** [ds] is the base-[base] numeral of [num]: digits in range, no leading
    zero (except for 0 itself), and the right value. *)
Definition numeral (base num : Z) (ds : list Z) : Prop :=
  digits_val base ds = num /\ Forall (fun d => 0 <= d < base) ds /\
  (exists d ds', ds = d :: ds' /\ (d = 0 -> num = 0 /\ ds' = [])).

Lemma numeral_snoc base num ds : 2 <= base -> base <= num ->
  numeral base (num / base) ds -> numeral base num (ds ++ [num mod base]).
Proof.
  intros Hb Hn (Hv & Hr & d & ds' & -> & Hz).
  pose proof (Z.mod_pos_bound num base ltac:(lia)).
  pose proof (Z.div_mod num base ltac:(lia)).
  assert (1 <= num / base) by (apply Z.div_le_lower_bound; lia).
  split_and!.
  - rewrite digits_val_snoc, Hv. lia.
  - apply Forall_app. split; [done|]. by constructor.
  - exists d, (ds' ++ [num mod base]). split; [done|]. intros ->. lia.
Qed.

Lemma numeral_single base num : 0 <= num < base -> numeral base num [num mod base].
Proof.
  intros Hn. rewrite Z.mod_small by lia. split_and!.
  - unfold digits_val. simpl. lia.
  - by constructor.
  - exists num, []. split; [done|]. intros; split; [lia|done].
Qed.

Lemma printnum_rec_S {P} (putch : Z -> P -> P) f num base width padc pd :
  printnum_rec putch (S f) num base width padc pd =
  putch (digit_char (num mod base))
    (if num >=? base
     then printnum_rec putch f (num / base) base (width - 1) padc pd
     else put_n putch (Z.to_nat (width - 1)) padc pd).
Proof. done. Qed.

Lemma printnum_rec_spec {P} (putch : Z -> P -> P) f num base width padc pd :
  2 <= base -> 0 <= num < 2 ^ Z.of_nat (S f) ->
  exists ds, numeral base num ds /\ (length ds <= S f)%nat /\
    printnum_rec putch (S f) num base width padc pd =
    feed putch (replicate (Z.to_nat (width - Z.of_nat (length ds))) padc ++
                (digit_char <$> ds)) pd.
Proof.
  intros Hb. revert num width. induction f as [|f IH]; intros num width Hn.
  all: rewrite printnum_rec_S, Z.geb_leb; destruct (Z.leb_spec base num) as [Hc|Hc];
    [|exists [num mod base]; rewrite put_n_feed, feed_app;
      split; [apply numeral_single; lia|split; [simpl; lia|done]]].
  - exfalso. change (2 ^ Z.of_nat 1) with 2 in Hn. lia.
  - destruct (IH (num / base) (width - 1)) as (ds & Hds & Hlen & Heq).
    { rewrite Nat2Z.inj_succ, Z.pow_succ_r in Hn by lia. split; [apply Z.div_pos; lia|].
      apply Z.div_lt_upper_bound; [lia|]. nia. }
    exists (ds ++ [num mod base]). split; [by apply numeral_snoc|]. split.
    + rewrite length_app. simpl. lia.
    + rewrite length_app, fmap_app, app_assoc, feed_app, Heq. simpl.
      by replace (width - 1 - Z.of_nat (length ds)) with
        (width - Z.of_nat (length ds + 1)) by lia.
Qed.

Lemma printnum_feed {P} (putch : Z -> P -> P) num base width padc pd :
  2 <= base -> 0 <= num < 2 ^ 32 ->
  exists ds, numeral base num ds /\ (length ds <= 33)%nat /\
    printnum putch num base width padc pd =
    feed putch (replicate (Z.to_nat (width - Z.of_nat (length ds))) padc ++
                (digit_char <$> ds)) pd.
Proof.
  intros Hb Hn. unfold printnum. rewrite u32_small by lia.
  apply printnum_rec_spec; [done|]. change (2 ^ Z.of_nat 33) with (2 ^ 33). lia.
Qed.

(** ** Every callback sees the same characters

    A map [h] between cookies that commutes with the callbacks commutes with
    the whole formatter, so each user of it is a fold of its callback over
    the character stream of [format]. *)
Definition fres_map {P Q} (h : P -> Q) (r : fres P) : fres Q :=
  match r with FDone pd => FDone (h pd) | FBadArg => FBadArg | FNoFuel => FNoFuel end.

Section morphism.
Context {P Q : Type} (put1 : Z -> P -> P) (put2 : Z -> Q -> Q) (h : P -> Q).
Hypothesis h_put : forall c p, h (put1 c p) = put2 c (h p).

Lemma put_n_morph n c p : put_n put2 n c (h p) = h (put_n put1 n c p).
Proof. revert p. induction n as [|n IH]; intros p; simpl; [done|]. by rewrite <- h_put. Qed.

Lemma printnum_morph num base width padc p :
  printnum put2 num base width padc (h p) = h (printnum put1 num base width padc p).
Proof.
  unfold printnum. generalize (u32 num) as k. generalize 33%nat as f. intros f.
  revert width p. induction f as [|f IH]; intros width p k; [done|].
  rewrite !printnum_rec_S. destruct (k >=? base).
  - by rewrite IH, h_put.
  - by rewrite put_n_morph, h_put.
Qed.

Lemma put_str_morph s prec width alt p :
  put_str put2 s prec width alt (h p) =
  let '(w, p') := put_str put1 s prec width alt p in (w, h p').
Proof.
  revert prec width p. induction s as [|b s IH]; intros prec width p; simpl; [done|].
  destruct (_ || _); [|done]. destruct (alt && _); by rewrite <- h_put, IH.
Qed.

Lemma fmt_s_morph sp s p : fmt_s put2 sp s (h p) = h (fmt_s put1 sp s p).
Proof.
  unfold fmt_s. destruct ((sp_width sp >? 0) && _).
  - rewrite put_n_morph, put_str_morph. destruct (put_str put1 _ _ _ _ _) as [w p'].
    by rewrite put_n_morph.
  - rewrite put_str_morph. destruct (put_str put1 _ _ _ _ _) as [w p'].
    by rewrite put_n_morph.
Qed.

Lemma vprintfmt_morph_both f :
  (forall fmt i ap p,
    vprintfmt put2 f fmt i ap (h p) = fres_map h (vprintfmt put1 f fmt i ap p)) /\
  (forall fmt i ap sp p,
    reswitch put2 f fmt i ap sp (h p) = fres_map h (reswitch put1 f fmt i ap sp p)).
Proof.
  induction f as [|f [IHv IHr]]; [done|]. split.
  - intros fmt i ap p. simpl.
    repeat case_match; try done. by rewrite <- h_put.
  - intros fmt i ap sp p. destruct sp as [padc width prec lflag alt]. simpl.
    repeat match goal with
    | |- context [if ?b then _ else _] => destruct b
    | |- context [match ?ap with [] => _ | _ => _ end] => destruct ap as [|[] ?]
    | |- context [match getint ?a ?l with _ => _ end] => destruct (getint a l) as [[]|]
    | |- context [match getuint ?a ?l with _ => _ end] => destruct (getuint a l) as [[]|]
    | |- context [match scan_precision ?a ?b ?c ?d ?e with _ => _ end] =>
        destruct (scan_precision a b c d e) as [[]|]
    | |- context [match error_string ?a with _ => _ end] => destruct (error_string a)
    end; try done; rewrite <- ?h_put, ?fmt_s_morph, ?printnum_morph, ?IHv, ?IHr; try done.
    all: repeat match goal with
    | |- context [match fres_map h ?r with _ => _ end] => destruct r; simpl
    end; by rewrite ?IHv.
Qed.
End morphism.

Lemma vprintfmt_format {P} (putch : Z -> P -> P) f fmt ap pd :
  vprintfmt putch f (lview fmt) 0 ap pd =
  fres_map (fun out => feed putch out pd) (format f fmt ap).
Proof.
  unfold format.
  rewrite <- (proj1 (vprintfmt_morph_both emit putch (fun out => feed putch out pd)
    ltac:(intros c o; unfold emit; by rewrite feed_app) f)). done.
Qed.

(** A fold invariant for a callback. *)
Lemma feed_ind {P} (putch : Z -> P -> P) (I : list Z -> P -> Prop) pd :
  I [] pd -> (forall o c p, I o p -> I (o ++ [c]) (putch c p)) ->
  forall out, I out (feed putch out pd).
Proof.
  intros H0 Hs out. induction out as [|c out IH] using rev_ind; [done|].
  rewrite feed_app. by apply Hs.
Qed.

Lemma uputch_inv out :
  let b := feed uputch out (mkPrintbuf 0 0 [] []) in
  concat (pb_calls b) ++ pb_buf b = u8 <$> out /\ pb_cnt b = Z.of_nat (length out) /\
  pb_idx b = Z.of_nat (length (pb_buf b)) /\ (length (pb_buf b) < 255)%nat /\
  Forall (fun c => length c = 255%nat) (pb_calls b).
Proof.
  apply (feed_ind uputch (fun out b =>
    concat (pb_calls b) ++ pb_buf b = u8 <$> out /\ pb_cnt b = Z.of_nat (length out) /\
    pb_idx b = Z.of_nat (length (pb_buf b)) /\ (length (pb_buf b) < 255)%nat /\
    Forall (fun c => length c = 255%nat) (pb_calls b))); [by repeat constructor|].
  intros o c [idx cnt buf calls] (Hc & Hn & Hi & Hb & HF). simpl in *.
  unfold uputch. simpl. rewrite fmap_app, <- Hc, length_app. simpl.
  destruct (Z.eqb_spec (idx + 1) (256 - 1)); simpl.
  - split_and!; [|lia|done|lia|].
    + by rewrite concat_app, app_nil_r; simpl; rewrite app_nil_r, app_assoc.
    + apply Forall_app. split; [done|]. constructor; [|done]. rewrite length_app. simpl. lia.
  - rewrite length_app. simpl. split_and!; [by rewrite app_assoc|lia|lia|lia|done].
Qed.

(** What the buffer of [vsnprintf] holds after the characters [out]. *)
Definition sprint_ok (m : mem) (buf n : Z) (out : list Z) (b : sprintbuf) : Prop :=
  sb_cnt b = Z.of_nat (length out) /\ sb_ebuf b = buf + n - 1 /\
  sb_buf b = buf + Z.min (n - 1) (Z.of_nat (length out)) /\
  forall a, load8 (sb_mem b) a =
    if decide (buf <= a < buf + Z.min (n - 1) (Z.of_nat (length out)))
    then u8 (default 0 (out !! Z.to_nat (a - buf))) else load8 m a.

Lemma sprint_inv m buf n out : 1 <= n ->
  sprint_ok m buf n out (feed sprintputch out (mkSprintbuf m buf (buf + n - 1) 0)).
Proof.
  intros Hn. apply (feed_ind sprintputch (sprint_ok m buf n)); unfold sprint_ok; simpl.
  { split_and!; [done|done|lia|]. intros a. by rewrite decide_False by lia. }
  intros o c [sm sb se sc] (Hc & He & Hb & Hm). simpl in *. subst sc se sb.
  unfold sprintputch. simpl. rewrite length_app. simpl.
  destruct (Z.ltb_spec (buf + Z.min (n - 1) (Z.of_nat (length o))) (buf + n - 1)); simpl.
  - split_and!; [lia|done|lia|]. intros a.
    rewrite load8_store8, Hm. cases_lia.
    + rewrite lookup_app_r by lia. replace (Z.to_nat (a - buf) - length o)%nat with 0%nat by lia.
      done.
    + rewrite lookup_app_l by lia. done.
  - split_and!; [lia|done|lia|]. intros a. rewrite Hm.
    replace (Z.min (n - 1) (Z.of_nat (length o + 1)))
      with (Z.min (n - 1) (Z.of_nat (length o))) by lia.
    case_decide; [|done]. by rewrite lookup_app_l by lia.
Qed.

(** ** Termination

    The [default] case moves [fmt] back to just past the ['%'], so the scan
    is not monotone; each character is nevertheless passed at most twice. *)
Section termination.
Context {P : Type} (putch : Z -> P -> P) (v : Z -> Z) (L : Z).
Hypothesis HL : 0 <= L.
Hypothesis v_end : v L = 0.
Hypothesis v_in : forall i, 0 <= i < L -> 0 < v i < 256.

Let ends (ap : list varg) (f : nat) (i : Z) : Prop :=
  forall pd, vprintfmt putch f v i ap pd <> FNoFuel.
Let plain (k j : Z) : Prop := forall q, k <= q < j -> v q <> 37.

Lemma literal_ends ap k j f : 0 <= k <= j -> j <= L -> plain k j ->
  (forall f', Z.of_nat f - (j - k) <= Z.of_nat f' -> ends ap f' j) ->
  j - k <= Z.of_nat f -> ends ap f k.
Proof.
  intros Hk Hj Hp. remember (Z.to_nat (j - k)) as n eqn:Hn. revert k f Hk Hp Hn.
  induction n as [|n IH]; intros k f Hk Hp Hn He Hf.
  { replace k with j by lia. apply He. lia. }
  destruct f as [|f]; [lia|]. intros pd. simpl.
  pose proof (Hp k ltac:(lia)). pose proof (v_in k ltac:(lia)).
  rewrite (proj2 (Z.eqb_neq (v k) 37)), (proj2 (Z.eqb_neq (v k) 0)) by lia.
  apply (IH (k + 1)); [lia| |lia| |lia].
  - intros q Hq. apply Hp. lia.
  - intros f' Hf'. apply He. lia.
Qed.

Lemma back_up_spec n p j : p < j -> v p = 37 -> plain (p + 1) j ->
  j - p <= Z.of_nat n -> back_up n v j = p + 1.
Proof.
  revert j. induction n as [|n IH]; intros j Hpj Hp Hpl Hn; [lia|]. simpl.
  destruct (Z.eqb_spec (v (j - 1)) 37) as [He|He].
  - destruct (decide (j - 1 = p)); [lia|]. destruct (Hpl (j - 1)); [lia|done].
  - destruct (decide (j - 1 = p)) as [<-|]; [done|].
    apply IH; [lia|done| |lia]. intros q Hq. apply Hpl. lia.
Qed.

Lemma scan_precision_spec f i ch prec : 0 <= i <= L -> L - i < Z.of_nat f ->
  exists i' prec', scan_precision f v i ch prec = Some (i', prec') /\
    i <= i' <= L /\ plain i i'.
Proof.
  revert i ch prec. induction f as [|f IH]; intros i ch prec Hi Hf; [lia|]. simpl.
  destruct ((s8 (v i) <? 48) || (s8 (v i) >? 57)) eqn:Hd.
  { eexists _, _. split; [done|]. split; [lia|]. intros q Hq. lia. }
  apply orb_false_iff in Hd as [Hd%Z.ltb_ge _].
  destruct (decide (i = L)) as [->|].
  { rewrite v_end in Hd. by vm_compute in Hd. }
  destruct (IH (i + 1) (s8 (v i)) (s32 (prec * 10 + ch - 48))) as (i' & p' & -> & Hi' & Hp');
    [lia|lia|].
  eexists _, _. split; [done|]. split; [lia|]. intros q Hq.
  destruct (decide (q = i)) as [->|]; [|apply Hp'; lia].
  intros E. rewrite E in Hd. by vm_compute in Hd.
Qed.

(** The two formats [%e] prints with. *)
Lemma d_ends f i err pd : v i = 37 -> v (i + 1) = 100 -> v (i + 2) = 0 ->
  (3 <= f)%nat -> vprintfmt putch f v i [VInt err] pd <> FNoFuel.
Proof.
  intros H0 H1 H2 Hf. do 3 (destruct f as [|f]; [lia|]).
  cbn [vprintfmt]. rewrite H0. cbn [reswitch]. rewrite H1. simpl.
  replace (i + 1 + 1) with (i + 2) by lia. rewrite H2. by case_match.
Qed.
Lemma s_ends f i s pd : v i = 37 -> v (i + 1) = 115 -> v (i + 2) = 0 ->
  (3 <= f)%nat -> vprintfmt putch f v i [VStr s] pd <> FNoFuel.
Proof.
  intros H0 H1 H2 Hf. do 3 (destruct f as [|f]; [lia|]).
  cbn [vprintfmt]. rewrite H0. cbn [reswitch]. rewrite H1. simpl.
  replace (i + 1 + 1) with (i + 2) by lia. by rewrite H2.
Qed.
End termination.

Lemma lview_in l i : Forall (fun c => 0 < c < 256) l -> 0 <= i < Z.of_nat (length l) ->
  0 < lview l i < 256.
Proof.
  intros HF Hi. unfold lview. rewrite (proj2 (Z.ltb_ge i 0)) by lia.
  destruct (lookup_lt_is_Some_2 l (Z.to_nat i)) as [c Hc]; [lia|].
  rewrite Hc. simpl. by eapply Forall_lookup in HF.
Qed.
Lemma lview_end l : lview l (Z.of_nat (length l)) = 0.
Proof.
  unfold lview. rewrite (proj2 (Z.ltb_ge _ 0)) by lia.
  rewrite Nat2Z.id. by rewrite (proj2 (lookup_ge_None l _)) by lia.
Qed.

Lemma sub_error_ends {P} (putch : Z -> P -> P) (f : nat) err pd : (20 <= f)%nat ->
  vprintfmt putch f (lview (str_codes "error %d")) 0 [VInt err] pd <> FNoFuel.
Proof.
  intros Hf. apply (literal_ends putch _ 8) with (j := 6); try lia.
  - intros i Hi. apply (lview_in (str_codes "error %d")); [|done].
    by repeat constructor.
  - intros q Hq. assert (q = 0 \/ q = 1 \/ q = 2 \/ q = 3 \/ q = 4 \/ q = 5) as Hc by lia.
    by destruct Hc as [-> | [-> | [-> | [-> | [-> | ->]]]]].
  - intros f' Hf' pd'. apply d_ends; [done..|lia].
Qed.

Section termination_main.
Context {P : Type} (putch : Z -> P -> P) (v : Z -> Z) (L : Z).
Hypothesis HL : 0 <= L.
Hypothesis v_end : v L = 0.
Hypothesis v_in : forall i, 0 <= i < L -> 0 < v i < 256.

Let enough (f : nat) (i : Z) : Prop := 2 * (L - i) + 25 <= Z.of_nat f.

(** Behind a ['%'] at [p], at position [j], nothing but flags between. *)
Lemma reswitch_ends p (IH : forall i f ap pd, p < i <= L -> enough f i ->
    vprintfmt putch f v i ap pd <> FNoFuel) f j ap sp pd :
  v p = 37 -> 0 <= p < j -> j <= L -> (forall q, p + 1 <= q < j -> v q <> 37) ->
  2 * L - j - p + 25 <= Z.of_nat f ->
  reswitch putch f v j ap sp pd <> FNoFuel.
Proof.
  intros Hp. revert j ap sp pd.
  induction f as [|f IHf]; intros j ap sp pd Hj HjL Hpl Hf; [lia|].
  destruct (decide (v j = 37)) as [H37|H37].
  { destruct sp as [padc width prec lflag alt]. cbn [reswitch]. rewrite H37. simpl.
    apply IH; [destruct (decide (j = L)); [congruence|lia]|unfold enough; lia]. }
  assert (Hpl' : forall q, p + 1 <= q < j + 1 -> v q <> 37).
  { intros q Hq. destruct (decide (q = j)) as [->|]; [done|]. apply Hpl. lia. }
  assert (Hdef : forall pd', vprintfmt putch f v
            (back_up (Z.to_nat (j + 1)) v (j + 1 - 1)) ap pd' <> FNoFuel).
  { intros pd'. replace (j + 1 - 1) with j by lia.
    rewrite (back_up_spec v (Z.to_nat (j + 1)) p j); [|lia|done|done|lia].
    apply (literal_ends putch v L v_in ap (p + 1) j); [lia|lia|done| |lia].
    intros f' Hf' pd''. apply IH; [lia|]. unfold enough. lia. }
  destruct (decide (j = L)) as [->|HjL'].
  { destruct sp as [padc width prec lflag alt]. cbn [reswitch]. rewrite v_end. simpl.
    apply Hdef. }
  assert (Hgo : forall ap' pd', vprintfmt putch f v (j + 1) ap' pd' <> FNoFuel).
  { intros. apply IH; [lia|]. unfold enough. lia. }
  assert (Hre : forall ap' sp' pd', reswitch putch f v (j + 1) ap' sp' pd' <> FNoFuel).
  { intros. apply IHf; [lia|lia|done|lia]. }
  destruct (scan_precision_spec v L v_end f (j + 1) (v j) 0) as
    (i' & prec' & Hscan & Hi' & Hpi'); [lia|lia|].
  assert (Hre' : forall ap' sp' pd', reswitch putch f v i' ap' sp' pd' <> FNoFuel).
  { intros. apply IHf; [lia|lia| |lia]. intros q Hq.
    destruct (decide (q < j + 1)); [apply Hpl'; lia|apply Hpi'; lia]. }
  destruct sp as [padc width prec lflag alt]. cbn [reswitch]. rewrite Hscan.
  repeat match goal with
  | |- (if ?b then _ else _) <> _ => destruct b
  | |- match ?ap with [] => _ | _ => _ end <> _ => destruct ap as [|[] ?]
  | |- match getint ?a ?l with _ => _ end <> _ => destruct (getint a l) as [[]|]
  | |- match getuint ?a ?l with _ => _ end <> _ => destruct (getuint a l) as [[]|]
  end; auto; try discriminate.
  assert (Hsub : forall r : fres P, r <> FNoFuel ->
    match r with FDone pd => vprintfmt putch f v (j + 1) ap pd | r => r end <> FNoFuel).
  { intros [] ?; auto. }
  apply Hsub.
  destruct (if _ >=? MAXERROR then None else _) as [p'|].
  - apply s_ends; [done..|lia].
  - apply sub_error_ends. lia.
Qed.

Lemma vprintfmt_ends n : forall i f ap pd, L - i <= Z.of_nat n -> 0 <= i <= L ->
  enough f i -> vprintfmt putch f v i ap pd <> FNoFuel.
Proof.
  induction n as [n IHn] using lt_wf_ind. intros i f ap pd Hn Hi Hf. unfold enough in *.
  destruct f as [|f]; [lia|]. cbn [vprintfmt].
  destruct (Z.eqb_spec (v i) 37) as [Hp|Hp].
  - apply (reswitch_ends i); [|done|lia|destruct (decide (i = L)); [congruence|lia]
      |intros; lia|lia].
    intros i' f' ap' pd' Hi' Hf'.
    apply (IHn (Z.to_nat (L - i'))); [lia|lia|lia|done].
  - destruct (Z.eqb_spec (v i) 0); [discriminate|].
    destruct (decide (i = L)); [congruence|].
    apply (IHn (Z.to_nat (L - (i + 1)))); [lia|lia|lia|lia].
Qed.
End termination_main.

(** ** Reading a printed number back *)

Lemma digit_char_strtol d : 0 <= d < 16 -> strtol_digit (digit_char d) = Some d.
Proof.
  intros Hd. assert (In d (seqZ 0 16)) as Hin.
  { apply list_elem_of_In, elem_of_seqZ. lia. }
  vm_compute in Hin. repeat (destruct Hin as [<-|Hin]; [done|]). done.
Qed.
Lemma digit_char_range d : 0 <= d < 16 -> 48 <= digit_char d <= 102.
Proof.
  intros Hd. assert (In d (seqZ 0 16)) as Hin.
  { apply list_elem_of_In, elem_of_seqZ. lia. }
  vm_compute in Hin. repeat (destruct Hin as [<-|Hin]; [by vm_compute; split|]). done.
Qed.
Lemma digit_char_not_x d : 0 <= d < 16 -> digit_char d <> 120.
Proof. intros Hd. pose proof (digit_char_range d Hd). lia. Qed.

Lemma lview_lookup l i c : 0 <= i -> l !! Z.to_nat i = Some c -> lview l i = c.
Proof. intros Hi Hc. unfold lview. by rewrite (proj2 (Z.ltb_ge i 0)), Hc by lia. Qed.

Lemma foldl_val_mono base ds acc : 2 <= base -> 0 <= acc ->
  Forall (fun d => 0 <= d < base) ds ->
  acc <= foldl (fun acc d => acc * base + d) acc ds.
Proof.
  intros Hb. revert acc. induction ds as [|d ds IH]; intros acc Ha HF; simpl; [lia|].
  apply Forall_cons in HF as [Hd HF]. etrans; [|apply IH; [nia|done]]. nia.
Qed.

Lemma strtol_loop_digits f pre ds base acc :
  2 <= base <= 16 -> 0 <= acc -> Forall (fun d => 0 <= d < base) ds ->
  foldl (fun acc d => acc * base + d) acc ds < 2 ^ 31 -> (length ds < f)%nat ->
  strtol_loop f (lview (pre ++ (digit_char <$> ds))) base (Z.of_nat (length pre)) acc =
  Some (foldl (fun acc d => acc * base + d) acc ds,
        Z.of_nat (length pre + length ds)).
Proof.
  intros Hb. revert f pre acc. induction ds as [|d ds IH]; intros [|f] pre acc Ha HF Hlt Hf;
    simpl in Hf; try lia; cbn [strtol_loop].
  - rewrite fmap_nil, app_nil_r, lview_end. simpl. by rewrite Nat.add_0_r.
  - apply Forall_cons in HF as [Hd HF]. rewrite fmap_cons.
    rewrite (lview_lookup _ (Z.of_nat (length pre)) (digit_char d)); [|lia|].
    2:{ rewrite Nat2Z.id, lookup_app_r by lia. by rewrite Nat.sub_diag. }
    rewrite digit_char_strtol by lia. rewrite Z.geb_leb, (proj2 (Z.leb_gt base d)) by lia.
    cbn [foldl] in *. assert (0 <= acc * base) by nia.
    pose proof (foldl_val_mono base ds (acc * base + d) ltac:(lia) ltac:(lia) HF).
    rewrite (s32_small (acc * base)), (s32_small (acc * base + d)) by lia.
    replace (pre ++ digit_char d :: (digit_char <$> ds))
      with ((pre ++ [digit_char d]) ++ (digit_char <$> ds)) by (by rewrite <- app_assoc).
    replace (Z.of_nat (length pre) + 1) with (Z.of_nat (length (pre ++ [digit_char d])))
      by (rewrite length_app; simpl; lia).
    rewrite IH; [|nia|done|done|lia]. rewrite length_app. simpl. do 2 f_equal. lia.
Qed.

#[local] Arguments strtol_loop : simpl never.

(** Printing a number and parsing it back is the identity: for every
    base from 2 to 16 and every value that fits a positive [long], [strtol]
    on what [printnum] printed returns the value and stops at the end. *)
Theorem strtol_printnum num base :
  2 <= base <= 16 -> 0 <= num < 2 ^ 31 ->
  let s := printnum emit num base 0 32 [] in
  strtol (length s + 2) (lview s) base = Some (num, Z.of_nat (length s)).
Proof.
  intros Hb Hn s. subst s.
  destruct (printnum_feed emit num base 0 32 [] ltac:(lia) ltac:(lia))
    as (ds & (Hv & HF & d & ds' & -> & Hz) & _ & ->).
  rewrite feed_emit. replace (Z.to_nat (0 - _)) with 0%nat by (simpl; lia).
  cbn [replicate]. rewrite !app_nil_l, fmap_cons.
  set (s := digit_char d :: (digit_char <$> ds')).
  assert (Hd : 0 <= d < base) by (by apply Forall_cons in HF as [? _]).
  pose proof (digit_char_range d ltac:(lia)) as Hdc.
  assert (Hs0 : lview s 0 = digit_char d) by done.
  assert (Hs1 : lview s 1 <> 120).
  { destruct ds' as [|d' ds']; [done|].
    replace (lview s 1) with (digit_char d') by done. apply digit_char_not_x.
    apply Forall_cons in HF as [_ HF]. apply Forall_cons in HF as [? _]. lia. }
  unfold strtol. remember (length s + 1)%nat as n eqn:Hlen.
  replace (length s + 2)%nat with (S n) by lia.
  cbn [skip_blank]. rewrite Hs0.
  rewrite (proj2 (Z.eqb_neq _ 32)), (proj2 (Z.eqb_neq _ 9)) by lia. simpl mbind.
  rewrite !Hs0, (proj2 (Z.eqb_neq _ 43)), (proj2 (Z.eqb_neq _ 45)) by lia.
  change (0 + 1) with 1. rewrite (proj2 (Z.eqb_neq (lview s 1) 120)) by done.
  rewrite !andb_false_r, (proj2 (Z.eqb_neq base 0)) by lia. cbn [andb].
  pose proof (strtol_loop_digits (S n) [] (d :: ds') base 0 Hb ltac:(lia) HF)
    as Hloop. unfold digits_val in Hv. rewrite Hv, app_nil_l, fmap_cons in Hloop.
  fold s in Hloop. change (Z.of_nat (length [])) with 0 in Hloop. rewrite Hloop; [|lia|subst n s; simpl; rewrite length_fmap; lia].
  simpl. subst s. simpl. by rewrite length_fmap.
Qed.
Lemma strtol_printnum_witness :
  let s := printnum emit 48879 16 0 32 [] in
  s = str_codes "beef" /\ strtol (length s + 2) (lview s) 16 = Some (48879, 4).
Proof. split; [vm_compute; reflexivity|apply (strtol_printnum 48879 16); lia]. Defined.

(** ** The users of the formatter *)

(** C24. [vsnprintf] never writes outside its buffer.  It returns the length
    of the whole output; the buffer receives the first [n-1] characters of
    it and a NUL right behind them, and no other byte of memory changes. *)
Theorem vsnprintf_bounded fuel m buf n fmt ap out :
  buf <> 0 -> 1 <= n -> format fuel fmt ap = FDone out ->
  let k := Z.min (n - 1) (Z.of_nat (length out)) in
  exists m', vsnprintf fuel m buf n fmt ap = FDone (Z.of_nat (length out), m') /\
    (forall i c, 0 <= i < k -> out !! Z.to_nat i = Some c -> load8 m' (buf + i) = u8 c) /\
    load8 m' (buf + k) = 0 /\
    (forall a, a < buf \/ buf + k < a -> load8 m' a = load8 m a).
Proof.
  intros Hb Hn Hfmt k. unfold vsnprintf. cbv zeta.
  rewrite (proj2 (Z.eqb_neq buf 0)), (proj2 (Z.ltb_ge n 1)) by lia. simpl.
  rewrite vprintfmt_format, Hfmt. simpl.
  pose proof (sprint_inv m buf n out Hn) as (Hc & _ & Hbuf & Hm).
  destruct (feed sprintputch out _) as [sm sb se sc]. simpl in *. subst sb sc.
  eexists. split; [done|]. split_and!.
  - intros i c Hi Hout. rewrite load8_store8_ne by lia. rewrite Hm, decide_True by lia.
    by replace (buf + i - buf) with i by lia; rewrite Hout.
  - subst k. by rewrite load8_store8_eq.
  - intros a Ha. rewrite load8_store8_ne by lia. rewrite Hm, decide_False by lia. done.
Qed.
Lemma vsnprintf_bounded_witness :
  exists m', vsnprintf 40 ∅ 500 4 (str_codes "%d-%x") [VInt 42; VInt 255]
    = FDone (5, m') /\ load8 m' 503 = 0 /\ load8 m' 504 = load8 ∅ 504.
Proof.
  destruct (vsnprintf_bounded 40 ∅ 500 4 (str_codes "%d-%x") [VInt 42; VInt 255]
    (str_codes "42-ff")) as (m' & Hr & _ & Hnul & Hout); [lia|lia|by vm_compute|].
  exists m'. split; [exact Hr|]. split; [exact Hnul|]. apply Hout. right. by vm_compute.
Defined.

(** The user-level [cprintf] loses and reorders nothing: the system
    calls it makes carry, in order, exactly the formatted characters, none
    carries more than its 256-byte buffer holds, and the count returned is
    the number of characters. *)
Theorem vcprintf_output fuel fmt ap out :
  format fuel fmt ap = FDone out ->
  exists calls, vcprintf fuel fmt ap = FDone (calls, Z.of_nat (length out)) /\
    concat calls = u8 <$> out /\ Forall (fun c => length c <= 255)%nat calls.
Proof.
  intros Hfmt. unfold vcprintf. rewrite vprintfmt_format, Hfmt. simpl.
  destruct (uputch_inv out) as (Hc & Hn & _ & Hb & HF).
  eexists. split; [by rewrite Hn|]. split.
  - rewrite concat_app. simpl. by rewrite app_nil_r.
  - apply Forall_app. split; [|constructor; [lia|done]].
    eapply Forall_impl; [exact HF|]. simpl. lia.
Qed.
Lemma vcprintf_output_witness :
  exists calls, vcprintf 40 (str_codes "[%5s]") [VStr (Some (str_codes "ab"))]
    = FDone (calls, 7) /\ concat calls = u8 <$> str_codes "[   ab]" /\
    Forall (fun c => length c <= 255)%nat calls.
Proof.
  apply (vcprintf_output 40 (str_codes "[%5s]") [VStr (Some (str_codes "ab"))]
    (str_codes "[   ab]")). by vm_compute.
Defined.

(** The buffer of [vfprintf] while every [write] succeeds in full. *)
Lemma fputch_inv write out :
  (forall w c, write w c = Z.of_nat (length c)) ->
  let b := feed (fputch write) out (mkFprintbuf 0 0 1 [] []) in
  concat (fp_world b) ++ fp_buf b = u8 <$> out /\ fp_error b = 1 /\
  fp_idx b = Z.of_nat (length (fp_buf b)) /\
  fp_result b = Z.of_nat (length (concat (fp_world b))) /\ (length (fp_buf b) < 256)%nat.
Proof.
  intros Hw. apply (feed_ind (fputch write) (fun out b =>
    concat (fp_world b) ++ fp_buf b = u8 <$> out /\ fp_error b = 1 /\
    fp_idx b = Z.of_nat (length (fp_buf b)) /\
    fp_result b = Z.of_nat (length (concat (fp_world b))) /\
    (length (fp_buf b) < 256)%nat)); [repeat split; simpl; lia|].
  intros o c [idx res err buf w] (Hc & He & Hi & Hr & Hb). simpl in *.
  unfold fputch, writebuf. simpl. rewrite fmap_app, <- Hc.
  destruct (Z.eqb_spec (idx + 1) 256); simpl.
  - subst err. simpl. rewrite Hw, length_app. simpl.
    replace (Z.of_nat (length buf + 1)) with (idx + 1) by lia. rewrite Z.eqb_refl. simpl.
    rewrite Z.gtb_ltb, (proj2 (Z.ltb_lt 0 (idx + 1))) by lia.
    rewrite concat_app. simpl. rewrite !app_nil_r, app_assoc, !length_app. simpl.
    split_and!; [done|done|done|lia|lia].
  - rewrite length_app, app_assoc. simpl. split_and!; [done|done|lia|done|lia].
Qed.

(** [fprintf] on a descriptor whose [write] accepts everything writes
    exactly the formatted characters, in order and in chunks of at most 256,
    and returns their number; for empty output it returns 1, the initial
    value of its error field. *)
Theorem vfprintf_output write fuel fmt ap out :
  (forall w c, write w c = Z.of_nat (length c)) -> format fuel fmt ap = FDone out ->
  exists chunks, vfprintf write fuel fmt ap =
      FDone (if decide (out = []) then 1 else Z.of_nat (length out), chunks) /\
    concat chunks = u8 <$> out.
Proof.
  intros Hw Hfmt. unfold vfprintf. rewrite vprintfmt_format, Hfmt. simpl.
  destruct (fputch_inv write out Hw) as (Hc & He & Hi & Hr & _).
  destruct (feed _ out _) as [idx res err buf w]. simpl in *. subst err.
  assert (Hlen : Z.of_nat (length out) = res + idx).
  { apply (f_equal length) in Hc. rewrite length_app, length_fmap in Hc. lia. }
  assert (Hout : out = [] <-> res + idx = 0).
  { rewrite <- Hlen. split; [by intros ->|]. destruct out; [done|simpl; lia]. }
  eexists. split.
  - f_equal. f_equal. unfold writebuf. simpl.
    destruct (Z.gtb_spec idx 0); simpl.
    + rewrite Hw, <- Hi, Z.gtb_ltb, (proj2 (Z.ltb_lt 0 idx)) by lia. simpl.
      rewrite (proj2 (Z.eqb_neq (res + idx) 0)) by lia. simpl.
      rewrite decide_False by (rewrite Hout; lia). lia.
    + destruct (Z.eqb_spec res 0); simpl.
      * rewrite decide_True by (apply Hout; lia). done.
      * rewrite decide_False by (rewrite Hout; lia). lia.
  - unfold writebuf. destruct (Z.gtb_spec idx 0); simpl.
    + rewrite concat_app. simpl. by rewrite app_nil_r.
    + destruct buf; [|simpl in *; lia]. by rewrite app_nil_r in Hc.
Qed.
Lemma vfprintf_output_witness :
  exists chunks, vfprintf (fun _ c => Z.of_nat (length c)) 40 (str_codes "%c%u") [VInt 65; VInt 7]
    = FDone (2, chunks) /\ concat chunks = u8 <$> str_codes "A7".
Proof.
  apply (vfprintf_output (fun _ c => Z.of_nat (length c)) 40 (str_codes "%c%u")
    [VInt 65; VInt 7] (str_codes "A7")); [done|by vm_compute].
Defined.

(** C25. The formatter terminates on every format string and every argument
    list: although an unknown conversion moves the format pointer backwards,
    twice the length of the format plus 25 steps always suffice. *)
Theorem format_terminates fuel fmt ap :
  Forall (fun c => 0 < c < 256) fmt -> (2 * length fmt + 25 <= fuel)%nat ->
  format fuel fmt ap <> FNoFuel.
Proof.
  intros HF Hf. unfold format.
  apply (vprintfmt_ends emit (lview fmt) (Z.of_nat (length fmt))) with (n := length fmt);
    [apply lview_end|intros i Hi; by apply lview_in|lia..].
Qed.
Lemma format_terminates_witness :
  format 29 (str_codes "%y") [] <> FNoFuel /\ format 29 (str_codes "%y") [] = FDone (str_codes "%y").
Proof.
  split; [|by vm_compute].
  apply format_terminates; [by vm_compute; repeat constructor|vm_compute; lia].
Defined.

Lemma readline_loop_bound input echoing i line echo r echo' rest :
  readline_loop input echoing i line echo = Some (RLine r, echo', rest) ->
  i = Z.of_nat (length line) -> i <= BUFLEN - 1 ->
  Forall (fun c => c < 256) input -> Forall (fun c => 32 <= c < 256) line ->
  Z.of_nat (length r) <= BUFLEN - 1 /\ Forall (fun c => 32 <= c < 256) r.
Proof.
  revert i line echo. induction input as [|c input IH]; intros i line echo Hr Hi Hb HF Hl;
    [done|]. simpl in Hr. apply Forall_cons in HF as [Hc HF].
  destruct (c <? 0); [done|]. destruct (_ || _).
  { destruct (Z.gtb_spec i 0); [|by eapply IH].
    destruct line as [|x line] using rev_ind; [simpl in *; lia|]. clear IHline.
    rewrite removelast_last in Hr. rewrite length_app in Hi. simpl in Hi.
    apply Forall_app in Hl as [Hl _]. eapply IH; [exact Hr|lia|lia|done|done]. }
  destruct ((c >=? 32) && _) eqn:Hin.
  { zbool. eapply IH; [exact Hr|rewrite length_app; simpl; lia|lia|done|].
    apply Forall_app. split; [done|]. constructor; [|done]. rewrite u8_small; lia. }
  destruct (_ || _); [|by eapply IH]. injection Hr as <- <- <-. by split; [lia|].
Qed.

(** [readline] stays inside its 1024-byte buffer whatever is typed,
    backspaces included: a returned line has at most 1023 characters (the
    NUL fits), all of them printable. *)
Theorem readline_bounded input echoing line echo rest :
  Forall (fun c => c < 256) input ->
  readline input echoing = Some (RLine line, echo, rest) ->
  Z.of_nat (length line) <= BUFLEN - 1 /\ Forall (fun c => 32 <= c < 256) line.
Proof. intros HF Hr. by eapply readline_loop_bound in Hr. Qed.
Lemma readline_bounded_witness :
  Z.of_nat (length [97; 99]) <= BUFLEN - 1 /\ Forall (fun c => 32 <= c < 256) [97; 99].
Proof.
  apply (readline_bounded [8; 97; 98; 127; 99; 10; 100] true [97; 99] [97; 98; 8; 99; 10] [100]);
    [by repeat constructor|by vm_compute].
Defined.
