(* ===== verification/FsMach.v ===== *)
(** * The machine the file server runs on: block cache and IDE disk

    The server of src/src/damnfs.c works on the disk through memory: block
    [n] appears at [DISKMAP + n * BLKSIZE], brought in by the page-fault
    handler [bc_pgfault] and written back by [flush_block].  The operations
    of the file system ([DamnFS.v]) are programs ([prog]) over loads, stores,
    moves and flushes; this file gives them two interpretations:
    - [run_paged], the code's own: cached pages, faults, dirty bits, disk;
    - [run_flat]: one flat memory holding every block, and the disk.
    [paging_transparent] shows that a program that succeeds on the flat
    machine succeeds on the paged one with the same result and corresponding
    states, so the theorems on the file system are proved on the flat one. *)
From S2P Require Import Prelude Layout Mem CString.

(** ** damnfs.h *)
Definition MAXINODENUM : Z := 128.
Definition MAXBLKNUM : Z := 4096.
Definition MAXNAMELEN : Z := 16.
Definition DAMN_MAGIC : Z := 0x89ABCDEF.
Definition BLKSIZE : Z := PGSIZE.
Definition INSIZE : Z := 32.
Definition DIRESIZE : Z := 18.                 (* sizeof(struct DirEntry), packed *)
Definition NDIRECT : Z := 13.
Definition BLKFILES : Z := BLKSIZE / DIRESIZE.
Definition DISKMAP : Z := 0x10000000.
Definition DISKSIZE : Z := 0x11002000.
Definition FTYPE_REG : Z := 102.
Definition FTYPE_DIR : Z := 100.
Definition MAXPATHLEN : Z := 128.

(** [struct DamnSuper]: the offsets of its fields. *)
Definition s_magic (sup : Z) : Z := sup.
Definition s_in_num (sup : Z) : Z := sup + 4.
Definition s_blk_num (sup : Z) : Z := sup + 6.
Definition s_blk_ocp (sup i : Z) : Z := sup + 16 + 4 * i.
Definition s_in_ocp (sup i : Z) : Z := sup + 16 + 4 * (MAXBLKNUM / 32) + 4 * i.
(** [struct DamnInode] and [struct DirEntry]. *)
Definition i_type (ip : Z) : Z := ip.
Definition i_size (ip : Z) : Z := ip + 2.
Definition i_blk_used (ip : Z) : Z := ip + 4.
Definition i_blk_ind (ip k : Z) : Z := ip + 6 + 2 * k.
Definition d_name (ep : Z) : Z := ep.
Definition d_in_ind (ep : Z) : Z := ep + MAXNAMELEN.

(** ** Programs *)

Inductive prog (A : Type) : Type :=
| Done (a : A)
| Panics (msg : string)                        (* [panic(msg)] *)
| OutOfFuel                                    (* a loop exceeded its fuel *)
| Load (a : Z) (k : Z -> prog A)               (* read a byte *)
| Store (a v : Z) (k : prog A)                 (* write a byte *)
| Move (dst src n : Z) (k : prog A)            (* [memmove(dst, src, n)] *)
| Flush (a : Z) (k : prog A)                   (* [flush_block(a)] *)
| GetSuper (k : Z -> prog A)                   (* the global [super] *)
| SetSuper (v : Z) (k : prog A)
| GetInodes (k : Z -> prog A)                  (* the global [inodes] *)
| SetInodes (v : Z) (k : prog A).
Arguments Done {A} a.
Arguments Panics {A} msg.
Arguments OutOfFuel {A}.
Arguments Load {A} a k.
Arguments Store {A} a v k.
Arguments Move {A} dst src n k.
Arguments Flush {A} a k.
Arguments GetSuper {A} k.
Arguments SetSuper {A} v k.
Arguments GetInodes {A} k.
Arguments SetInodes {A} v k.

Fixpoint prog_bind {A B} (k : A -> prog B) (p : prog A) : prog B :=
  match p with
  | Done a => k a
  | Panics msg => Panics msg
  | OutOfFuel => OutOfFuel
  | Load a h => Load a (fun v => prog_bind k (h v))
  | Store a v h => Store a v (prog_bind k h)
  | Move d s n h => Move d s n (prog_bind k h)
  | Flush a h => Flush a (prog_bind k h)
  | GetSuper h => GetSuper (fun v => prog_bind k (h v))
  | SetSuper v h => SetSuper v (prog_bind k h)
  | GetInodes h => GetInodes (fun v => prog_bind k (h v))
  | SetInodes v h => SetInodes v (prog_bind k h)
  end.
#[export] Instance prog_ret : MRet prog := fun _ a => Done a.
#[export] Instance prog_mbind : MBind prog := fun _ _ k p => prog_bind k p.

Definition ld8 (a : Z) : prog Z := Load a Done.
Definition ld16 (a : Z) : prog Z :=
  x ← ld8 a; y ← ld8 (a + 1); mret (x + 256 * y).
Definition ld32 (a : Z) : prog Z :=
  x ← ld16 a; y ← ld16 (a + 2); mret (x + 65536 * y).
Definition st8 (a v : Z) : prog unit := Store a v (Done tt).
Definition st16 (a v : Z) : prog unit := st8 a v;; st8 (a + 1) (v / 256).
Definition st32 (a v : Z) : prog unit := st16 a v;; st16 (a + 2) (v / 65536).
Definition move (dst src n : Z) : prog unit := Move dst src n (Done tt).
Definition flush (a : Z) : prog unit := Flush a (Done tt).
Definition get_super : prog Z := GetSuper Done.
Definition get_inodes : prog Z := GetInodes Done.

(** [for (i = i0; n more times; i++)], [Some v] being an early [return v]. *)
Fixpoint pfor {R} (n : nat) (i : Z) (body : Z -> prog (option R)) : prog (option R) :=
  match n with
  | O => mret None
  | S n' =>
      r ← body i;
      match r with
      | Some v => mret (Some v)
      | None => pfor n' (i + 1) body
      end
  end.

(** ** Addresses and the free map, as pure functions of a memory *)

Definition window (a : Z) : bool := (DISKMAP <=? a) && (a <? DISKMAP + DISKSIZE).
(** [((uint32_t)addr - DISKMAP) / BLKSIZE] *)
Definition blk_of (a : Z) : Z := u32 (a - DISKMAP) / BLKSIZE.
Definition blk_addr (b : Z) : Z := DISKMAP + b * BLKSIZE.

Definition blk_num (m : mem) (sup : Z) : Z := load16 m (s_blk_num sup).
Definition in_num (m : mem) (sup : Z) : Z := load16 m (s_in_num sup).
Definition blk_free (m : mem) (sup b : Z) : bool :=
  if b >=? blk_num m sup then false
  else Z.land (load32 m (s_blk_ocp sup (b / 32))) (Z.shiftl 1 (b mod 32)) =? 0.

(** The bitmap word of block [b] lies in the first block of the disk. *)
Definition bitmap_here (b : Z) : bool := b / 32 <? (BLKSIZE - 16) / 4.

(** Copies [n] bytes of [src] from [s] to [d] in [m]. *)
Fixpoint blit (n : nat) (m : mem) (d : Z) (src : mem) (s : Z) : mem :=
  match n with
  | O => m
  | S n' => blit n' (store8 m d (load8 src s)) (d + 1) src (s + 1)
  end.

(** ** The paged machine *)

Record paged : Type := mkPaged {
  pg_mem : mem;                    (* the address space *)
  pg_disk : mem;                   (* the disk, byte [n * BLKSIZE + o] *)
  pg_mapped : gset Z;              (* blocks present in the cache: PTE_P *)
  pg_dirty : gset Z;               (* blocks written since: PTE_D *)
  pg_super : Z; pg_inodes : Z }.

(** The kernel and the disk driver as the server sees them: the return codes
    of [sys_page_alloc], [sys_page_map], [ide_read] and [ide_write] for a
    block, which may depend on everything that happened before. *)
Class Host : Type := {
  host_page_alloc : paged -> Z -> Z;
  host_page_map : paged -> Z -> Z;
  host_ide_read : paged -> Z -> Z;
  host_ide_write : paged -> Z -> Z }.
(** A machine with memory to spare and a disk without errors. *)
Class HostOK `{Host} : Prop := {
  page_alloc_ok s b : 0 <= host_page_alloc s b;
  page_map_ok s b : 0 <= host_page_map s b;
  ide_read_ok s b : 0 <= host_ide_read s b;
  ide_write_ok s b : 0 <= host_ide_write s b }.

Abbreviation PM := (ST Empty_set paged).

Section paged_machine.
Context `{Host}.

Definition set_clean (b : Z) (s : paged) : paged :=
  mkPaged (pg_mem s) (pg_disk s) (pg_mapped s) (pg_dirty s ∖ {[b]})
    (pg_super s) (pg_inodes s).
Definition set_dirty (b : Z) (s : paged) : paged :=
  mkPaged (pg_mem s) (pg_disk s) (pg_mapped s) ({[b]} ∪ pg_dirty s)
    (pg_super s) (pg_inodes s).
Definition set_mem (m : mem) (s : paged) : paged :=
  mkPaged m (pg_disk s) (pg_mapped s) (pg_dirty s) (pg_super s) (pg_inodes s).
(** [ide_read]: the block's sectors go to its page, which they dirty. *)
Definition read_in (b : Z) (s : paged) : paged :=
  mkPaged (blit (Z.to_nat BLKSIZE) (pg_mem s) (blk_addr b) (pg_disk s) (b * BLKSIZE))
    (pg_disk s) ({[b]} ∪ pg_mapped s) ({[b]} ∪ pg_dirty s) (pg_super s) (pg_inodes s).
(** [ide_write] *)
Definition write_out (b : Z) (s : paged) : paged :=
  mkPaged (pg_mem s)
    (blit (Z.to_nat BLKSIZE) (pg_disk s) (b * BLKSIZE) (pg_mem s) (blk_addr b))
    (pg_mapped s) (pg_dirty s) (pg_super s) (pg_inodes s).

(** With [super] set, the handler reads the super block: if that is not
    cached, or the bitmap word lies beyond it, the handler faults inside
    itself. *)
Definition bc_pgfault (a : Z) : PM unit :=
  s ← st_get;
  let blockno := blk_of a in
  if negb (window a) then st_panic "page fault in FS" else
  let mounted := negb (pg_super s =? 0) in
  st_assert (negb mounted || (bool_decide (0 ∈ pg_mapped s) && bitmap_here blockno))
    "fault in the fault handler";;
  if mounted && (blockno >=? blk_num (pg_mem s) (pg_super s))
  then st_panic "reading non-existent block" else
  if host_page_alloc s blockno <? 0
  then st_panic "bg_pgfault: can't allocate new page for disk block" else
  if host_ide_read s blockno <? 0
  then st_panic "bg_pgfault: failed to read disk block" else
  st_mod (read_in blockno);;
  s ← st_get;
  if host_page_map s blockno <? 0
  then st_panic "bg_pgfault: failed to mark disk page as non dirty" else
  st_mod (set_clean blockno);;
  s ← st_get;
  if mounted && blk_free (pg_mem s) (pg_super s) blockno
  then st_panic "reading free block" else mret tt.

Definition va_is_mapped (s : paged) (a : Z) : bool := bool_decide (blk_of a ∈ pg_mapped s).
Definition va_is_dirty (s : paged) (a : Z) : bool := bool_decide (blk_of a ∈ pg_dirty s).

(** An access to [a]: nothing is mapped at page 0, the server's own text,
    data, stack and message pages always are, and an access to a block that
    is not cached traps to the handler. *)
Definition touch (a : Z) : PM unit :=
  s ← st_get;
  if window a then (if va_is_mapped s a then mret tt else bc_pgfault a)
  else if a <? PGSIZE then bc_pgfault a else mret tt.

Fixpoint touch_range (n : nat) (a : Z) : PM unit :=
  match n with
  | O => mret tt
  | S n' => touch a;; touch_range n' (a + 1)
  end.
Fixpoint dirty_range (n : nat) (a : Z) (s : paged) : paged :=
  match n with
  | O => s
  | S n' => dirty_range n' (a + 1) (if window a then set_dirty (blk_of a) s else s)
  end.

Definition flush_block (addr : Z) : PM unit :=
  s ← st_get;
  let blockno := blk_of addr in
  if negb (window addr) then st_panic "flush_block of bad va" else
  if negb (va_is_mapped s addr) || negb (va_is_dirty s addr) then mret tt else
  if host_ide_write s blockno <? 0 then st_panic "flush_block : ide_write" else
  st_mod (write_out blockno);;
  s ← st_get;
  if host_page_map s blockno <? 0 then st_panic "flush_block : sys_page_map" else
  st_mod (set_clean blockno).

Fixpoint run_paged {A} (p : prog A) : PM A :=
  match p with
  | Done a => mret a
  | Panics msg => st_panic msg
  | OutOfFuel => st_nofuel
  | Load a k =>
      touch a;; s ← st_get; run_paged (k (load8 (pg_mem s) a))
  | Store a v k =>
      touch a;;
      st_mod (fun s => let s := set_mem (store8 (pg_mem s) a v) s in
                       if window a then set_dirty (blk_of a) s else s);;
      run_paged k
  | Move d a n k =>
      touch_range (Z.to_nat n) a;; touch_range (Z.to_nat n) d;;
      st_mod (fun s => dirty_range (Z.to_nat n) d
                         (set_mem (memmove (pg_mem s) d a n) s));;
      run_paged k
  | Flush a k => flush_block a;; run_paged k
  | GetSuper k => s ← st_get; run_paged (k (pg_super s))
  | SetSuper v k =>
      st_mod (fun s => mkPaged (pg_mem s) (pg_disk s) (pg_mapped s) (pg_dirty s)
                         v (pg_inodes s));; run_paged k
  | GetInodes k => s ← st_get; run_paged (k (pg_inodes s))
  | SetInodes v k =>
      st_mod (fun s => mkPaged (pg_mem s) (pg_disk s) (pg_mapped s) (pg_dirty s)
                         (pg_super s) v);; run_paged k
  end.
End paged_machine.

(** ** The flat machine *)

Record flat : Type := mkFlat {
  fl_mem : mem; fl_disk : mem; fl_super : Z; fl_inodes : Z }.
Abbreviation FM := (ST Empty_set flat).

(** An access the paged machine serves whatever its cache holds. *)
Definition flat_ok (f : flat) (a : Z) : bool :=
  if window a then
    (fl_super f =? 0) ||
    (bitmap_here (blk_of a) && (blk_of a <? blk_num (fl_mem f) (fl_super f)) &&
     negb (blk_free (fl_mem f) (fl_super f) (blk_of a)))
  else PGSIZE <=? a.
Fixpoint flat_range_ok (n : nat) (f : flat) (a : Z) : bool :=
  match n with
  | O => true
  | S n' => flat_ok f a && flat_range_ok n' f (a + 1)
  end.
Definition fset_mem (m : mem) (f : flat) : flat :=
  mkFlat m (fl_disk f) (fl_super f) (fl_inodes f).
Definition fflush (b : Z) (f : flat) : flat :=
  mkFlat (fl_mem f)
    (blit (Z.to_nat BLKSIZE) (fl_disk f) (b * BLKSIZE) (fl_mem f) (blk_addr b))
    (fl_super f) (fl_inodes f).

(** It describes a mounted file system: [super] is not assigned. *)
Fixpoint run_flat {A} (p : prog A) : FM A :=
  match p with
  | Done a => mret a
  | Panics msg => st_panic msg
  | OutOfFuel => st_nofuel
  | Load a k =>
      f ← st_get; st_assert (flat_ok f a) "load";; run_flat (k (load8 (fl_mem f) a))
  | Store a v k =>
      f ← st_get; st_assert (flat_ok f a) "store";;
      st_mod (fset_mem (store8 (fl_mem f) a v));; run_flat k
  | Move d a n k =>
      f ← st_get;
      st_assert ((0 <=? n) && (0 <=? a) && (0 <=? d) && (a + n <=? 2 ^ 32) && (d + n <=? 2 ^ 32) &&
                 flat_range_ok (Z.to_nat n) f a && flat_range_ok (Z.to_nat n) f d) "memmove";;
      st_mod (fset_mem (memmove (fl_mem f) d a n));; run_flat k
  | Flush a k =>
      st_assert (window a) "flush";; st_mod (fflush (blk_of a));; run_flat k
  | GetSuper k => f ← st_get; run_flat (k (fl_super f))
  | SetSuper v k => st_crash "remount"
  | GetInodes k => f ← st_get; run_flat (k (fl_inodes f))
  | SetInodes v k =>
      st_mod (fun f => mkFlat (fl_mem f) (fl_disk f) (fl_super f) v);; run_flat k
  end.

(** * Theorems *)

Lemma load8_blit n m d src s a :
  load8 (blit n m d src s) a =
  if decide (d <= a < d + Z.of_nat n) then load8 src (s + (a - d)) else load8 m a.
Proof.
  revert m d s. induction n as [|n IH]; intros m d s; simpl.
  { by rewrite decide_False by lia. }
  rewrite IH. destruct (decide (a = d)) as [->|].
  - rewrite decide_False, decide_True by lia. rewrite load8_store8_eq.
    rewrite u8_small by apply load8_bound. f_equal. lia.
  - rewrite load8_store8_ne by lia. cases_lia; f_equal; lia.
Qed.
#[global] Arguments blit : simpl never.

Lemma window_iff a : window a = true <-> DISKMAP <= a < DISKMAP + DISKSIZE.
Proof. unfold window. rewrite andb_true_iff, Z.leb_le, Z.ltb_lt. done. Qed.
Lemma window_spec a : window a = true ->
  DISKMAP <= a < DISKMAP + DISKSIZE /\ blk_of a = (a - DISKMAP) / BLKSIZE /\
  0 <= blk_of a < DISKSIZE / BLKSIZE /\
  blk_addr (blk_of a) <= a < blk_addr (blk_of a) + BLKSIZE.
Proof.
  intros [H1 H2]%window_iff. unfold blk_of. rewrite u32_small
    by (unfold DISKMAP, DISKSIZE in *; lia).
  unfold blk_addr, BLKSIZE, PGSIZE, DISKMAP, DISKSIZE in *.
  repeat split; zdiv.
Qed.
Lemma blk_addr_of b o : 0 <= b < DISKSIZE / BLKSIZE -> 0 <= o < BLKSIZE ->
  window (blk_addr b + o) = true /\ blk_of (blk_addr b + o) = b.
Proof.
  intros Hb Ho. assert (Hw : window (blk_addr b + o) = true).
  { apply window_iff. unfold blk_addr, BLKSIZE, PGSIZE, DISKMAP, DISKSIZE in *. zdiv. }
  split; [done|]. apply window_spec in Hw as (_ & -> & _).
  unfold blk_addr, BLKSIZE, PGSIZE in *. zdiv.
Qed.

(** What the server reads at [a]: the cached page, or what the fault handler
    would bring in. *)
Definition vload8 (s : paged) (a : Z) : Z :=
  if window a && negb (va_is_mapped s a)
  then load8 (pg_disk s) (a - DISKMAP) else load8 (pg_mem s) a.

(** The correspondence of the two machines. *)
Record paged_flat (s : paged) (f : flat) : Prop := {
  pf_mem : forall a, vload8 s a = load8 (fl_mem f) a;
  pf_disk : mem_eq (pg_disk s) (fl_disk f);
  pf_super : pg_super s = fl_super f;
  pf_inodes : pg_inodes s = fl_inodes f;
  (* a page that is not dirty holds what the disk holds *)
  pf_clean : forall b o, b ∈ pg_mapped s -> b ∉ pg_dirty s -> 0 <= o < BLKSIZE ->
    load8 (pg_mem s) (blk_addr b + o) = load8 (pg_disk s) (b * BLKSIZE + o);
  pf_range : forall b, b ∈ pg_mapped s -> 0 <= b < DISKSIZE / BLKSIZE;
  (* once mounted, the super block is cached *)
  pf_mounted : pg_super s = 0 \/ (pg_super s = DISKMAP /\ 0 ∈ pg_mapped s) }.

Definition present (s : paged) (a : Z) : Prop := window a = true -> blk_of a ∈ pg_mapped s.

Lemma vload8_present s a : present s a -> vload8 s a = load8 (pg_mem s) a.
Proof.
  intros Hp. unfold vload8, va_is_mapped. destruct (window a) eqn:Hw; [|done].
  by rewrite bool_decide_eq_true_2 by auto.
Qed.
Lemma vload8_absent s a : window a = true -> blk_of a ∉ pg_mapped s ->
  vload8 s a = load8 (pg_disk s) (a - DISKMAP).
Proof.
  intros Hw Hp. unfold vload8, va_is_mapped. by rewrite Hw, bool_decide_eq_false_2.
Qed.

Lemma block0_present s a : 0 ∈ pg_mapped s -> DISKMAP <= a < DISKMAP + BLKSIZE -> present s a.
Proof.
  intros H0 Ha Hw. apply window_spec in Hw as (_ & -> & _).
  replace ((a - DISKMAP) / BLKSIZE) with 0; [done|].
  unfold BLKSIZE, PGSIZE in *. zdiv.
Qed.

Lemma load32_ext m1 m2 a :
  (forall i, 0 <= i < 4 -> load8 m1 (a + i) = load8 m2 (a + i)) -> load32 m1 a = load32 m2 a.
Proof.
  intros H. unfold load32, load16. rewrite <- (Z.add_0_r a) at 1 5.
  replace (a + 2 + 1) with (a + 3) by lia. by rewrite !H by lia.
Qed.
Lemma load16_ext m1 m2 a :
  load8 m1 a = load8 m2 a -> load8 m1 (a + 1) = load8 m2 (a + 1) -> load16 m1 a = load16 m2 a.
Proof. intros H1 H2. unfold load16. by rewrite H1, H2. Qed.

(** The handler's view of the free map depends on the super block only. *)
Lemma blk_num_ext m1 m2 :
  (forall a, DISKMAP <= a < DISKMAP + BLKSIZE -> load8 m1 a = load8 m2 a) ->
  blk_num m1 DISKMAP = blk_num m2 DISKMAP.
Proof.
  intros H. apply load16_ext; apply H; unfold s_blk_num, BLKSIZE, PGSIZE; lia.
Qed.
Lemma blk_free_ext m1 m2 b : 0 <= b -> bitmap_here b = true ->
  (forall a, DISKMAP <= a < DISKMAP + BLKSIZE -> load8 m1 a = load8 m2 a) ->
  blk_free m1 DISKMAP b = blk_free m2 DISKMAP b.
Proof.
  intros Hb0 Hb H. unfold blk_free. rewrite (blk_num_ext m1 m2 H).
  destruct (_ >=? _); [done|]. do 2 f_equal. apply load32_ext.
  intros i Hi. apply H. unfold bitmap_here in Hb. zbool.
  unfold s_blk_ocp, BLKSIZE, PGSIZE in *. zdiv.
Qed.

(** ** Faults are transparent *)

(** Membership in the sets of cached and dirty blocks. *)
Ltac in_cache := cbn [set_clean read_in pg_mapped pg_dirty] in *;
  repeat (setoid_rewrite elem_of_union || setoid_rewrite elem_of_difference
          || setoid_rewrite elem_of_singleton);
  repeat match goal with
  | H : ~ (_ ∈ _ ∖ _) |- _ => rewrite elem_of_difference in H
  | H : ~ (_ /\ _ ∉ {[_]}) |- _ => rewrite elem_of_singleton in H
  | H : context [_ ∈ _ ∪ _] |- _ => rewrite elem_of_union in H
  | H : context [_ ∈ {[_]}] |- _ => rewrite elem_of_singleton in H
  end; first [tauto | intuition congruence].

Section transparency.
Context {host : Host} {host_ok : HostOK}.
Implicit Types (s : paged) (f : flat).

Definition same_but_cache s s' : Prop := forall a, vload8 s' a = vload8 s a.

(** Bringing in a block leaves everything the server can read as it was. *)
Lemma read_in_flat s f b : paged_flat s f -> 0 <= b < DISKSIZE / BLKSIZE ->
  b ∉ pg_mapped s -> paged_flat (set_clean b (read_in b s)) f.
Proof.
  intros [Hm Hd Hs Hi Hc Hr Hmt] Hb Hnb. split; try done.
  - intros a. rewrite <- Hm. unfold vload8, va_is_mapped. simpl.
    rewrite load8_blit. change (Z.of_nat (Z.to_nat BLKSIZE)) with BLKSIZE.
    destruct (window a) eqn:Hw; simpl.
    + pose proof (window_spec a Hw) as (_ & Heq & _ & Hin).
      destruct (decide (blk_of a = b)) as [<-|Hne].
      * rewrite bool_decide_eq_true_2 by in_cache. rewrite decide_True by lia.
        rewrite bool_decide_eq_false_2 by done. simpl. f_equal. unfold blk_addr. lia.
      * rewrite decide_False.
        2:{ intros Ha. apply Hne. replace a with (blk_addr b + (a - blk_addr b)) by lia.
            apply blk_addr_of; lia. }
        rewrite (bool_decide_ext (blk_of a ∈ {[b]} ∪ pg_mapped s) (blk_of a ∈ pg_mapped s))
          by in_cache. done.
    + rewrite decide_False; [done|]. intros Ha.
      destruct (blk_addr_of b (a - blk_addr b)) as [Hw' _]; [done|lia|].
      replace (blk_addr b + (a - blk_addr b)) with a in Hw' by lia. congruence.
  - simpl. intros b' o Hb' Hnd Ho. rewrite load8_blit.
    change (Z.of_nat (Z.to_nat BLKSIZE)) with BLKSIZE.
    destruct (decide (b' = b)) as [->|Hne].
    + rewrite decide_True by lia. f_equal. lia.
    + rewrite decide_False; [apply Hc; in_cache|].
      unfold blk_addr, BLKSIZE, PGSIZE in *. lia.
  - simpl. intros b' [->%elem_of_singleton|Hb']%elem_of_union; [done|by apply Hr].
  - simpl. destruct Hmt as [|[]]; [by left|right]. split; [done|in_cache].
Qed.

Lemma mounted_block0 s f a : paged_flat s f -> pg_super s = DISKMAP -> 0 ∈ pg_mapped s ->
  DISKMAP <= a < DISKMAP + BLKSIZE -> load8 (pg_mem s) a = load8 (fl_mem f) a.
Proof.
  intros HR Hs H0 Ha. rewrite <- (pf_mem s f HR).
  symmetry. by apply vload8_present, block0_present.
Qed.

Lemma touch_spec s f a : paged_flat s f -> flat_ok f a = true ->
  wp (touch a)
    (fun _ s' => paged_flat s' f /\ present s' a /\ pg_mapped s ⊆ pg_mapped s')
    (fun _ _ => False) s.
Proof.
  intros HR Hok. unfold touch. wp_step; cbv beta. wp_step; cbv beta.
  destruct (window a) eqn:Hw.
  2:{ unfold flat_ok in Hok. rewrite Hw in Hok. zbool. rewrite (proj2 (Z.ltb_ge _ _)) by done.
      wp_step. split; [done|]. split; [|done]. intros ?. congruence. }
  unfold va_is_mapped. case_bool_decide as Hin.
  - wp_step. split; [done|]. split; [|done]. by intros _.
  - pose proof (window_spec a Hw) as (_ & _ & Hb & _).
    pose proof (read_in_flat s f (blk_of a) HR Hb Hin) as HR'.
    unfold bc_pgfault. rewrite Hw. simpl. wp_step; cbv beta. wp_step; cbv beta. wp_step.
    unfold flat_ok in Hok. rewrite Hw, <- (pf_super s f HR) in Hok.
    assert (Hsup : pg_super s = 0 \/
      (pg_super s = DISKMAP /\ 0 ∈ pg_mapped s /\ bitmap_here (blk_of a) = true /\
       (blk_of a <? blk_num (fl_mem f) DISKMAP) = true /\
       blk_free (fl_mem f) DISKMAP (blk_of a) = false)).
    { destruct (pf_mounted s f HR) as [|[Hs H0]]; [by left|right].
      rewrite Hs in Hok. zbool. destruct Hok; [done|]. zbool.
      split_and!; try done. by apply Z.ltb_lt. }
    assert (Hne : forall m, 0 <= m -> (m <? 0) = false) by (intros; by apply Z.ltb_ge).
    apply wp_assert.
    { destruct Hsup as [->|(-> & H0 & -> & _)]; [done|]. by rewrite bool_decide_eq_true_2. }
    assert (Hnum : (negb (pg_super s =? 0) &&
      (blk_of a >=? blk_num (pg_mem s) (pg_super s))) = false).
    { destruct Hsup as [->|(Hs & H0 & _ & Hlt & _)]; [done|]. rewrite Hs.
      rewrite (blk_num_ext (pg_mem s) (fl_mem f)) by (intros; by apply mounted_block0).
      zbool. rewrite Z.geb_leb. apply andb_false_iff. right. by apply Z.leb_gt. }
    rewrite Hnum, Hne by apply page_alloc_ok. rewrite Hne by apply ide_read_ok.
    do 4 (wp_step; cbv beta).
    rewrite Hne by apply page_map_ok.
    do 4 (wp_step; cbv beta).
    assert (Hfree : (negb (pg_super s =? 0) &&
      blk_free (pg_mem (set_clean (blk_of a) (read_in (blk_of a) s)))
        (pg_super (set_clean (blk_of a) (read_in (blk_of a) s))) (blk_of a)) = false).
    { destruct Hsup as [->|(Hs & H0 & Hbm & _ & Hfr)]; [done|].
      change (pg_super (set_clean _ _)) with (pg_super s). rewrite Hs.
      rewrite (blk_free_ext _ (fl_mem f)); [by rewrite Hfr|lia|done|].
      intros. apply mounted_block0; [done|done| |done]. in_cache. }
    rewrite Hfree. wp_step. split; [done|]. split; [|apply union_subseteq_r].
    intros _. in_cache.
Qed.

Lemma flat_range_okP n f a : flat_range_ok n f a = true <->
  forall i, 0 <= i < Z.of_nat n -> flat_ok f (a + i) = true.
Proof.
  revert a. induction n as [|n IH]; intros a; simpl; [split; [lia|done]|].
  rewrite andb_true_iff, IH. split.
  - intros [H0 HI] i Hi. destruct (decide (i = 0)) as [->|]; [by rewrite Z.add_0_r|].
    replace (a + i) with (a + 1 + (i - 1)) by lia. apply HI. lia.
  - intros HI. split; [rewrite <- (Z.add_0_r a); apply HI; lia|].
    intros i Hi. replace (a + 1 + i) with (a + (i + 1)) by lia. apply HI. lia.
Qed.

Lemma present_mono s s' a : pg_mapped s ⊆ pg_mapped s' -> present s a -> present s' a.
Proof. intros Hsub Hp Hw. by apply Hsub, Hp. Qed.

Lemma touch_range_spec n s f a : paged_flat s f -> flat_range_ok n f a = true ->
  wp (touch_range n a)
    (fun _ s' => paged_flat s' f /\ pg_mapped s ⊆ pg_mapped s' /\
                 forall i, 0 <= i < Z.of_nat n -> present s' (a + i))
    (fun _ _ => False) s.
Proof.
  revert s a. induction n as [|n IH]; intros s a HR Hok; simpl in *.
  { wp_step. split; [done|]. split; [done|lia]. }
  apply andb_true_iff in Hok as [Hok Hoks]. wp_step.
  eapply wp_mono; [by apply touch_spec| |done]. intros _ s1 (HR1 & Hp1 & Hsub1).
  eapply wp_mono; [by apply IH| |done]. intros _ s2 (HR2 & Hsub2 & Hp2).
  split; [done|]. split; [set_solver|]. intros i Hi.
  destruct (decide (i = 0)) as [->|].
  - rewrite Z.add_0_r. by eapply present_mono.
  - replace (a + i) with (a + 1 + (i - 1)) by lia. apply Hp2. lia.
Qed.

Definition set_mem_dirty (m : mem) (D : gset Z) s : paged :=
  mkPaged m (pg_disk s) (pg_mapped s) D (pg_super s) (pg_inodes s).

Lemma dirty_range_spec n a s m : exists D,
  dirty_range n a (set_mem m s) = set_mem_dirty m D s /\ pg_dirty s ⊆ D /\
  forall i, 0 <= i < Z.of_nat n -> window (a + i) = true -> blk_of (a + i) ∈ D.
Proof.
  change (set_mem m s) with (set_mem_dirty m (pg_dirty s) s).
  generalize (pg_dirty s) as D0. revert a.
  induction n as [|n IH]; intros a D0; simpl; [exists D0; split; [done|split; [done|lia]]|].
  destruct (window a) eqn:Hw.
  - destruct (IH (a + 1) ({[blk_of a]} ∪ D0)) as (D & Heq & Hsub & Hin).
    exists D. split; [exact Heq|]. split; [set_solver|]. intros i Hi Hwi.
    destruct (decide (i = 0)) as [->|]; [rewrite Z.add_0_r; set_solver|].
    replace (a + i) with (a + 1 + (i - 1)) in * by lia. apply Hin; [lia|done].
  - destruct (IH (a + 1) D0) as (D & Heq & Hsub & Hin).
    exists D. split; [exact Heq|]. split; [done|]. intros i Hi Hwi.
    destruct (decide (i = 0)) as [->|]; [rewrite Z.add_0_r in Hwi; congruence|].
    replace (a + i) with (a + 1 + (i - 1)) in * by lia. apply Hin; [lia|done].
Qed.

(** Writing a set [W] of addresses, all present, in both machines. *)
Lemma write_flat s f m fm D (W : Z -> Prop) :
  paged_flat s f -> pg_dirty s ⊆ D ->
  (forall a, W a -> present s a /\ (window a = true -> blk_of a ∈ D) /\
                    load8 m a = load8 fm a) ->
  (forall a, ~ W a -> load8 m a = load8 (pg_mem s) a /\ load8 fm a = load8 (fl_mem f) a) ->
  (forall a, W a \/ ~ W a) ->
  paged_flat (set_mem_dirty m D s) (fset_mem fm f).
Proof.
  intros [Hm Hd Hs Hi Hc Hr Hmt] HD HW HnW HWdec. split; try done.
  - intros a. simpl. destruct (HWdec a) as [Ha|Ha].
    + destruct (HW a Ha) as (Hp & _ & <-). by apply (vload8_present (set_mem_dirty m D s)).
    + destruct (HnW a Ha) as (Hm' & ->). rewrite <- Hm.
      unfold vload8, va_is_mapped. simpl. by rewrite Hm'.
  - simpl. intros b o Hb HnD Ho. destruct (HWdec (blk_addr b + o)) as [Ha|Ha].
    + exfalso. destruct (HW _ Ha) as (_ & HbD & _). apply HnD.
      destruct (blk_addr_of b o (Hr b Hb) Ho) as [Hw Hbo]. rewrite <- Hbo. by apply HbD.
    + rewrite (proj1 (HnW _ Ha)). apply Hc; [done|set_solver|done].
Qed.
(** Writing a block back when both copies of it agree. *)
Lemma same_disk_flat s f b : paged_flat s f -> 0 <= b < DISKSIZE / BLKSIZE ->
  (b ∈ pg_mapped s -> b ∉ pg_dirty s) -> paged_flat s (fflush b f).
Proof.
  intros [Hm Hd Hs Hi Hc Hr Hmt] Hb Hcl. split; try done.
  intros a. simpl. rewrite load8_blit. change (Z.of_nat (Z.to_nat BLKSIZE)) with BLKSIZE.
  case_decide as Ha; [|apply Hd].
  assert (Ho : 0 <= a - b * BLKSIZE < BLKSIZE) by lia. rewrite <- Hm.
  destruct (blk_addr_of b (a - b * BLKSIZE) Hb Ho) as [Hw Hbo].
  destruct (decide (b ∈ pg_mapped s)) as [Hin|Hin].
  - rewrite vload8_present by (intros _; by rewrite Hbo).
    rewrite Hc by auto. f_equal. lia.
  - rewrite vload8_absent by (rewrite ?Hbo; done). f_equal. unfold blk_addr. lia.
Qed.

Lemma write_out_flat s f b : paged_flat s f -> 0 <= b < DISKSIZE / BLKSIZE ->
  b ∈ pg_mapped s -> paged_flat (set_clean b (write_out b s)) (fflush b f).
Proof.
  intros [Hm Hd Hs Hi Hc Hr Hmt] Hb Hin.
  assert (Hblk : forall o, 0 <= o < BLKSIZE ->
    load8 (fl_mem f) (blk_addr b + o) = load8 (pg_mem s) (blk_addr b + o)).
  { intros o Ho. rewrite <- Hm. apply vload8_present. intros _.
    by rewrite (proj2 (blk_addr_of b o Hb Ho)). }
  split; try done.
  - intros a. rewrite <- Hm. unfold vload8, va_is_mapped. simpl.
    destruct (window a && _) eqn:Hw; [|done].
    apply andb_true_iff in Hw as [Hw Hna]. apply negb_true_iff, bool_decide_eq_false in Hna.
    apply window_spec in Hw as (_ & _ & _ & Hwb). rewrite load8_blit.
    change (Z.of_nat (Z.to_nat BLKSIZE)) with BLKSIZE. rewrite decide_False; [done|].
    intros Ha. apply Hna. replace (blk_of a) with b; [done|].
    unfold blk_addr, BLKSIZE, PGSIZE in *. lia.
  - intros a. simpl. rewrite !load8_blit. case_decide as Ha; [|apply Hd].
    change (Z.of_nat (Z.to_nat BLKSIZE)) with BLKSIZE in Ha. symmetry. apply Hblk. lia.
  - simpl. intros b' o Hb' Hnd Ho. rewrite load8_blit.
    change (Z.of_nat (Z.to_nat BLKSIZE)) with BLKSIZE.
    destruct (decide (b' = b)) as [->|Hne].
    + rewrite decide_True by lia. f_equal. lia.
    + rewrite decide_False by (unfold BLKSIZE, PGSIZE in *; lia).
      apply Hc; [done| |done]. in_cache.
Qed.

Lemma flush_spec s f a : paged_flat s f -> window a = true ->
  wp (flush_block a) (fun _ s' => paged_flat s' (fflush (blk_of a) f)) (fun _ _ => False) s.
Proof.
  intros HR Hw. pose proof (window_spec a Hw) as (_ & _ & Hb & _).
  unfold flush_block. wp_step; cbv beta. wp_step; cbv beta. rewrite Hw. simpl.
  unfold va_is_mapped, va_is_dirty.
  assert (Hne : forall m, 0 <= m -> (m <? 0) = false) by (intros; by apply Z.ltb_ge).
  case_bool_decide as Hin; case_bool_decide as Hdi; simpl;
    try (wp_step; by apply same_disk_flat).
  rewrite Hne by apply ide_write_ok. do 4 (wp_step; cbv beta).
  rewrite Hne by apply page_map_ok. wp_step. by apply write_out_flat.
Qed.

Lemma flat_ok_pos f a : flat_ok f a = true -> PGSIZE <= a.
Proof.
  unfold flat_ok. destruct (window a) eqn:Hw; [|intros; by zbool].
  apply window_iff in Hw. unfold DISKMAP, PGSIZE in *. lia.
Qed.

Lemma store_flat s f a v : paged_flat s f -> present s a ->
  paged_flat (let s := set_mem (store8 (pg_mem s) a v) s in
              if window a then set_dirty (blk_of a) s else s)
    (fset_mem (store8 (fl_mem f) a v) f).
Proof.
  intros HR Hp.
  assert (Heq : (let s := set_mem (store8 (pg_mem s) a v) s in
                 if window a then set_dirty (blk_of a) s else s) =
                set_mem_dirty (store8 (pg_mem s) a v)
                  (if window a then {[blk_of a]} ∪ pg_dirty s else pg_dirty s) s)
    by (by destruct (window a)).
  rewrite Heq. apply (write_flat s f _ _ _ (fun b => b = a)); [done| | | |intros b; lia].
  - destruct (window a); set_solver.
  - intros b ->. split; [done|]. split; [intros ->; set_solver|]. by rewrite !load8_store8_eq.
  - intros b Hb. by rewrite !load8_store8_ne by congruence.
Qed.

Lemma move_flat s f d a n : paged_flat s f ->
  0 <= n -> 0 <= a -> 0 <= d -> a + n <= 2 ^ 32 -> d + n <= 2 ^ 32 ->
  (forall i, 0 <= i < n -> present s (a + i)) ->
  (forall i, 0 <= i < n -> present s (d + i)) ->
  paged_flat (dirty_range (Z.to_nat n) d (set_mem (memmove (pg_mem s) d a n) s))
    (fset_mem (memmove (fl_mem f) d a n) f).
Proof.
  intros HR Hn Ha Hd Han Hdn Hpa Hpd.
  destruct (dirty_range_spec (Z.to_nat n) d s (memmove (pg_mem s) d a n))
    as (D & -> & Hsub & Hin).
  apply (write_flat s f _ _ _ (fun b => d <= b < d + n)); [done|done| | |intros b; lia].
  - intros b Hb. replace b with (d + (b - d)) by lia.
    split; [apply Hpd; lia|]. split; [apply Hin; lia|].
    rewrite !memmove_load8 by lia. rewrite !decide_True by lia.
    rewrite <- (pf_mem s f HR). symmetry. apply vload8_present, Hpa. lia.
  - intros b Hb. rewrite !memmove_load8 by lia. by rewrite !decide_False by lia.
Qed.
End transparency.

Lemma paged_run_flat {host : Host} {host_ok : HostOK} {A} (p : prog A) s f a f' :
  paged_flat s f -> run_flat p f = Ret a f' ->
  exists s', run_paged p s = Ret a s' /\ paged_flat s' f'.
Proof.
  intros HR0 Hf0. cut (wp (run_paged p) (fun a' s' => a' = a /\ paged_flat s' f')
                       (fun _ _ => False) s).
  { intros (a' & s' & Hr & -> & HR')%wp_ret_inv. by exists s'. }
  revert s f HR0 Hf0. induction p as [b|msg| |x k IH|x v k IH|d x n k IH|x k IH|k IH|v k IH|k IH|v k IH];
    intros s f HR Hf; simpl in *; try discriminate.
  - wp_step. injection Hf as <- <-. done.
  - wp_step. unfold mbind, ST_bind, st_bind, st_get, st_assert in Hf.
    destruct (flat_ok f x) eqn:Hok; [|done].
    eapply wp_mono; [by apply touch_spec| |done]. intros _ s1 (HR1 & Hp1 & _).
    do 2 (wp_step; cbv beta). rewrite <- vload8_present by done.
    rewrite (pf_mem s1 f HR1). by eapply IH.
  - wp_step. unfold mbind, ST_bind, st_bind, st_get, st_assert, st_mod in Hf.
    destruct (flat_ok f x) eqn:Hok; [|done].
    eapply wp_mono; [by apply touch_spec| |done]. intros _ s1 (HR1 & Hp1 & _).
    do 2 (wp_step; cbv beta). eapply IH; [|exact Hf]. by apply store_flat.
  - wp_step. unfold mbind, ST_bind, st_bind, st_get, st_assert, st_mod in Hf.
    destruct (_ && flat_range_ok _ f d) eqn:Hok; [|done]. zbool.
    eapply wp_mono; [by apply touch_range_spec| |done]. intros _ s1 (HR1 & _ & Hp1).
    wp_step. eapply wp_mono; [by apply touch_range_spec| |done]. intros _ s2 (HR2 & Hsub & Hp2).
    do 2 (wp_step; cbv beta). eapply IH; [|exact Hf].
    rewrite Z2Nat.id in * by done. apply move_flat; try done.
    intros i Hi. eapply present_mono; [done|]. by apply Hp1.
  - wp_step. unfold mbind, ST_bind, st_bind, st_assert, st_mod in Hf.
    destruct (window x) eqn:Hw; [|done].
    eapply wp_mono; [by apply flush_spec| |done]. intros [] s1 HR1. by eapply IH.
  - do 2 (wp_step; cbv beta). rewrite (pf_super s f HR). by eapply IH.
  - do 2 (wp_step; cbv beta). rewrite (pf_inodes s f HR). by eapply IH.
  - do 2 (wp_step; cbv beta). eapply IH; [|exact Hf]. by destruct HR.
Qed.

(** The paged machine runs a sequence of programs in sequence. *)
Lemma pwp_bind {host : Host} {A B} (p : prog A) (k : A -> prog B) Q s :
  wp (run_paged p) (fun a s' => wp (run_paged (k a)) Q (fun _ _ => False) s') (fun _ _ => False) s ->
  wp (run_paged (p ≫= k)) Q (fun _ _ => False) s.
Proof.
  revert s.
  induction p as [a|msg| |x h IH|x v h IH|d x n h IH|x h IH|h IH|v h IH|h IH|v h IH];
    intros s Hp; simpl in *; try done.
  all: repeat (apply wp_bind; apply wp_bind_inv in Hp;
    eapply wp_mono; [exact Hp| |done]; clear Hp; cbv beta; intros ? ? Hp); by apply IH.
Qed.

(** A host without failures, and a machine with nothing cached. *)
#[export] Instance quiet_host : Host :=
  Build_Host (fun _ _ => 0) (fun _ _ => 0) (fun _ _ => 0) (fun _ _ => 0).
#[export] Instance quiet_host_ok : HostOK.
Proof. by constructor. Qed.
Definition blank_paged : paged := mkPaged ∅ ∅ ∅ ∅ 0 0.
Definition blank_flat : flat := mkFlat ∅ ∅ 0 0.
Lemma blank_paged_flat : paged_flat blank_paged blank_flat.
Proof.
  split; try done; try set_solver.
  all: first [by left | intros a; unfold vload8; by destruct (_ && _)].
Qed.

(** C5. The block cache is transparent: a file-system program that succeeds
    on the flat machine, where every block simply is in memory, succeeds on
    the paged machine with its faults, dirty bits and write-backs, from any
    corresponding cache state, with the same result and in corresponding
    states (memory, disk, and clean pages equal to their blocks). *)
Theorem paging_transparent {host : Host} {host_ok : HostOK} {A} (p : prog A) s f a f' :
  paged_flat s f -> run_flat p f = Ret a f' ->
  exists s', run_paged p s = Ret a s' /\ paged_flat s' f'.
Proof. apply paged_run_flat. Qed.
Lemma paging_transparent_witness : exists f' s',
  run_paged (st8 (DISKMAP + 5) 7;; flush DISKMAP;; ld8 (DISKMAP + 5)) blank_paged = Ret 7 s' /\
  paged_flat s' f'.
Proof.
  eexists. apply (paging_transparent _ blank_paged blank_flat 7 _ blank_paged_flat).
  vm_compute. reflexivity.
Defined.
