(* ===== verification/DamnFS.v ===== *)
(** * The file system: src/src/damnfs.c

    The operations of the file server, as programs over the disk window
    ([FsMach.v]).  A pointer into the window is its address.  Paths and
    names, which live in the server's own stack and message pages, are lists
    of character codes without the NUL.  An [int] function with an out
    parameter returns [inl r] where the C returns the error [r < 0] and
    [inr p] where it stores [p] and returns 0.  Console output is left out. *)
From S2P Require Import Prelude Layout Mem CString FsMach.

(** Enough for a loop over a 16-bit counter. *)
Definition loop_fuel : nat := Z.to_nat 65537.

(** [for (i = i0; cond; i++) body], the condition evaluated every time. *)
Fixpoint ploop {R} (fuel : nat) (i : Z) (cond : Z -> prog bool)
    (body : Z -> prog (option R)) : prog (option R) :=
  match fuel with
  | O => OutOfFuel
  | S f =>
      c ← cond i;
      if (c : bool) then
        r ← body i;
        match r with
        | Some v => mret (Some v)
        | None => ploop f (i + 1) cond body
        end
      else mret None
  end.

(** ** Super block *)

Definition check_super : prog unit :=
  sup ← get_super;
  magic ← ld32 (s_magic sup);
  if negb (magic =? DAMN_MAGIC) then Panics "bad file system magic number" else
  n ← ld16 (s_blk_num sup);
  if n >? DISKSIZE / BLKSIZE then Panics "file system is too large" else mret tt.

Definition diskaddr (blockno : Z) : prog Z :=
  sup ← get_super;
  if sup =? 0 then mret (u32 (DISKMAP + blockno * BLKSIZE)) else
  n ← ld16 (s_blk_num sup);
  if blockno >=? n then Panics "bad block number in diskaddr"
  else mret (u32 (DISKMAP + blockno * BLKSIZE)).

(** ** Free bitmaps *)

Definition block_is_free (blockno : Z) : prog bool :=
  sup ← get_super;
  if sup =? 0 then mret false else
  n ← ld16 (s_blk_num sup);
  if blockno >=? n then mret false else
  w ← ld32 (s_blk_ocp sup (blockno / 32));
  mret (Z.land w (Z.shiftl 1 (blockno mod 32)) =? 0).

Definition free_block (blockno : Z) : prog unit :=
  if blockno =? 0 then Panics "attempt to free zero block" else
  sup ← get_super;
  w ← ld32 (s_blk_ocp sup (blockno / 32));
  st32 (s_blk_ocp sup (blockno / 32)) (Z.land w (Z.lnot (Z.shiftl 1 (blockno mod 32))));;
  flush sup.

Definition inode_is_free (inodeno : Z) : prog bool :=
  sup ← get_super;
  if sup =? 0 then mret false else
  n ← ld16 (s_in_num sup);
  if inodeno >=? n then mret false else
  w ← ld32 (s_in_ocp sup (inodeno / 32));
  mret (Z.land w (Z.shiftl 1 (inodeno mod 32)) =? 0).

Definition free_inode (inodeno : Z) : prog unit :=
  if inodeno =? 0 then Panics "attempt to free zero inode" else
  sup ← get_super;
  w ← ld32 (s_in_ocp sup (inodeno / 32));
  st32 (s_in_ocp sup (inodeno / 32)) (Z.land w (Z.lnot (Z.shiftl 1 (inodeno mod 32))));;
  flush sup.

Definition alloc_block : prog Z :=
  r ← ploop loop_fuel 0
    (fun blockno => sup ← get_super; n ← ld16 (s_blk_num sup); mret (blockno <? n))
    (fun blockno =>
       free ← block_is_free (u16 blockno);
       if (free : bool) then
         sup ← get_super;
         w ← ld32 (s_blk_ocp sup (blockno / 32));
         st32 (s_blk_ocp sup (blockno / 32)) (Z.lor w (Z.shiftl 1 (blockno mod 32)));;
         flush sup;;
         mret (Some blockno)
       else mret None);
  mret (default (- E_NO_DISK) r).

Definition alloc_inode : prog Z :=
  r ← ploop loop_fuel 0
    (fun inodeno => sup ← get_super; n ← ld16 (s_in_num sup); mret (inodeno <? n))
    (fun inodeno =>
       free ← inode_is_free (u16 inodeno);
       if (free : bool) then
         sup ← get_super;
         w ← ld32 (s_in_ocp sup (inodeno / 32));
         st32 (s_in_ocp sup (inodeno / 32)) (Z.lor w (Z.shiftl 1 (inodeno mod 32)));;
         flush sup;;
         mret (Some inodeno)
       else mret None);
  mret (default (- E_NO_INODE) r).

(** [bc_init] reads a byte of block 0; the choice of the drive and the
    registration of the handler are the machine's.  A [volatile] object read
    for its effect faults its block in. *)
Definition bc_init : prog unit :=
  a ← diskaddr 0;
  _ ← ld8 a;
  mret tt.
Definition fs_init : prog unit :=
  bc_init;;
  a ← diskaddr 0;
  SetSuper a (
    sup ← get_super;
    _ ← ld32 (s_magic sup);
    a ← diskaddr 1;
    SetInodes a (
      ins ← get_inodes;
      _ ← ld8 ins;
      mret tt)).

(** ** Blocks of a file *)

(** [&inodes[n]], and [&inodes[f->in_ind]] *)
Definition inode_of (n : Z) : prog Z := ins ← get_inodes; mret (ins + INSIZE * n).
Definition entry_inode (f : Z) : prog Z := n ← ld16 (d_in_ind f); inode_of n.

Definition file_block_walk (inode blockind : Z) : Z + Z :=
  if blockind <? NDIRECT then inr (i_blk_ind inode blockind) else inl (- E_INVAL).

Definition file_get_block (inode blockind : Z) : prog (Z + Z) :=
  match file_block_walk inode blockind with
  | inl r => mret (inl r)
  | inr slot =>
      b ← ld16 slot;
      fail ← (if b =? 0 then
                r ← alloc_block;
                if r <? 0 then mret (Some r) else
                st16 slot r;;
                used ← ld16 (i_blk_used inode);
                st16 (i_blk_used inode) (used + 1);;
                mret None
              else mret None);
      match fail with
      | Some r => mret (inl r)
      | None =>
          b ← ld16 slot;
          blk ← diskaddr b;
          flush inode;;
          mret (inr blk)
      end
  end.

(** ** Strings in the window *)

(** [strcmp(a, name)] for a string [a] in the window: never reads past the
    first difference. *)
Fixpoint fs_strcmp (a : Z) (name : list Z) : prog Z :=
  match name with
  | [] => x ← ld8 a; mret (x - 0)
  | c :: name' =>
      x ← ld8 a;
      if negb (x =? 0) && (x =? c) then fs_strcmp (a + 1) name' else mret (x - u8 c)
  end.
Fixpoint fs_strcpy (a : Z) (name : list Z) : prog unit :=
  match name with
  | [] => st8 a 0
  | c :: name' => st8 a c;; fs_strcpy (a + 1) name'
  end.

(** ** Directories *)

Definition dir_lookup (dir : Z) (name : list Z) : prog (Z + Z) :=
  nblock ← ld16 (i_blk_used dir);
  r ← pfor (Z.to_nat nblock) 0 (fun i =>
    g ← file_get_block dir i;
    match g with
    | inl r => mret (Some (inl r))
    | inr f =>
        pfor (Z.to_nat BLKFILES) 0 (fun j =>
          c ← fs_strcmp (d_name (f + DIRESIZE * j)) name;
          if c =? 0 then mret (Some (inr (f + DIRESIZE * j))) else mret None)
    end);
  mret (default (inl (- E_NOT_FOUND)) r).

Definition dir_alloc_entry (dir : Z) : prog (Z + Z) :=
  nblock ← ld16 (i_blk_used dir);
  r ← pfor (Z.to_nat nblock) 0 (fun i =>
    g ← file_get_block dir i;
    match g with
    | inl r => mret (Some (inl r))
    | inr f =>
        pfor (Z.to_nat BLKFILES) 0 (fun j =>
          c ← ld8 (d_name (f + DIRESIZE * j));
          if c =? 0 then
            size ← ld16 (i_size dir);
            st16 (i_size dir) (size + DIRESIZE);;
            mret (Some (inr (f + DIRESIZE * j)))
          else mret None)
    end);
  match r with
  | Some r => mret r
  | None =>
      used ← ld16 (i_blk_used dir);
      st16 (i_blk_used dir) (used + 1);;
      size ← ld16 (i_size dir);
      st16 (i_size dir) (size + DIRESIZE);;
      g ← file_get_block dir nblock;
      match g with
      | inl r => mret (inl r)
      | inr f => mret (inr f)
      end
  end.

(** ** Paths *)

Fixpoint skip_slash (p : list Z) : list Z :=
  match p with
  | c :: p' => if c =? 47 then skip_slash p' else p
  | [] => []
  end.
(** The loop that moves [path] up to the next slash or the end: the element
    passed over, and the rest. *)
Fixpoint path_elem (p : list Z) : list Z * list Z :=
  match p with
  | c :: p' => if c =? 47 then ([], p) else let '(e, r) := path_elem p' in (c :: e, r)
  | [] => ([], [])
  end.

Definition name_is_valid (name : list Z) : bool :=
  if (Z.of_nat (length name) >=? MAXNAMELEN) || bool_decide (name = [46; 46])
     || bool_decide (name = [46]) then false
  else forallb (fun c => negb ((c =? 47) || (c =? 32))) name.

(** What [walk_path] leaves behind: its result, [*pdir], [*pf] and what it
    copied into [lastelem]. *)
Record walk_res : Type := mkWalk {
  w_r : Z; w_dir : Z; w_pf : Z; w_last : option (list Z) }.

Fixpoint walk_loop (fuel : nat) (path : list Z) (dir f entry : Z) : prog walk_res :=
  match path with
  | [] => mret (mkWalk 0 dir entry None)
  | _ =>
      match fuel with
      | O => OutOfFuel
      | S fuel' =>
          let dir := f in
          let '(name, path) := path_elem path in
          if Z.of_nat (length name) >=? MAXNAMELEN
          then mret (mkWalk (- E_BAD_PATH) 0 0 None) else
          let path := skip_slash path in
          ty ← ld16 (i_type dir);
          if negb (ty =? FTYPE_DIR) then mret (mkWalk (- E_NOT_FOUND) 0 0 None) else
          l ← dir_lookup dir name;
          match l with
          | inl r =>
              if (r =? - E_NOT_FOUND) && bool_decide (path = [])
              then mret (mkWalk r dir 0 (Some name))
              else mret (mkWalk r 0 0 None)
          | inr entry =>
              f ← entry_inode entry;
              walk_loop fuel' path dir f entry
          end
      end
  end.
Definition walk_path (path : list Z) : prog walk_res :=
  match path with
  | 47 :: _ =>
      let path := skip_slash path in
      f ← inode_of 0;
      walk_loop (length path) path 0 f 0
  | _ => mret (mkWalk (- E_BAD_PATH) 0 0 None)
  end.

(** ** Files *)

Definition file_flush (f : Z) : prog unit :=
  inode ← entry_inode f;
  _ ← ploop (R := unit) loop_fuel 0
    (fun i => size ← ld16 (i_size inode); mret (i <? (size + BLKSIZE - 1) / BLKSIZE))
    (fun i =>
       match file_block_walk inode (u16 i) with
       | inl _ => mret None
       | inr slot =>
           b ← ld16 slot;
           if b =? 0 then mret None else
           b ← ld16 slot;
           a ← diskaddr b;
           flush a;;
           mret None
       end);
  flush inode;;
  flush f.

Definition file_free_block (f blockno : Z) : prog Z :=
  inode ← entry_inode f;
  match file_block_walk inode blockno with
  | inl r => mret r
  | inr slot =>
      b ← ld16 slot;
      if b =? 0 then mret 0 else
      b ← ld16 slot;
      free_block b;;
      st16 slot 0;;
      mret 0
  end.

Definition file_truncate_blocks (f newsize : Z) : prog unit :=
  inode ← entry_inode f;
  size ← ld16 (i_size inode);
  let old_nblocks := u16 ((size + BLKSIZE - 1) / BLKSIZE) in
  let new_nblocks := u16 (Z.quot (newsize + BLKSIZE - 1) BLKSIZE) in
  _ ← pfor (R := unit) (Z.to_nat (old_nblocks - new_nblocks)) new_nblocks
    (fun bno => _ ← file_free_block f bno; mret None);
  mret tt.

Definition file_set_size (f newsize : Z) : prog Z :=
  inode ← entry_inode f;
  size ← ld16 (i_size inode);
  (if size >? newsize then file_truncate_blocks f newsize else mret tt);;
  st16 (i_size inode) newsize;;
  flush f;;
  mret 0.

(** [pos / BLKSIZE] and [pos % BLKSIZE] are C's, rounding toward zero; the
    comparison of [pos] with [offset + count] and the [MIN] are unsigned. *)
Definition blk_off (pos : Z) : Z := Z.rem pos BLKSIZE.
Definition chunk (pos stop : Z) : Z :=
  s32 (Z.min (u32 (BLKSIZE - blk_off pos)) (u32 (stop - pos))).

Fixpoint file_read_loop (fuel : nat) (inode buf pos stop : Z) : prog (option Z) :=
  if u32 pos <? u32 stop then
    match fuel with
    | O => OutOfFuel
    | S fuel' =>
        g ← file_get_block inode (u16 (Z.quot pos BLKSIZE));
        match g with
        | inl r => mret (Some r)
        | inr blk =>
            let bn := chunk pos stop in
            move buf (blk + blk_off pos) (u32 bn);;
            file_read_loop fuel' inode (buf + bn) (s32 (pos + bn)) stop
        end
    end
  else mret None.
Definition file_read (f buf count offset : Z) : prog Z :=
  inode ← entry_inode f;
  size ← ld16 (i_size inode);
  if offset >=? size then mret 0 else
  size ← ld16 (i_size inode);
  let count := Z.min count (u32 (size - offset)) in
  r ← file_read_loop 32 inode buf offset (offset + count);
  mret (default (s32 count) r).

Fixpoint file_write_loop (fuel : nat) (inode buf pos stop : Z) : prog (option Z) :=
  if u32 pos <? u32 stop then
    match fuel with
    | O => OutOfFuel
    | S fuel' =>
        g ← file_get_block inode (u16 (Z.quot pos BLKSIZE));
        match g with
        | inl r => mret (Some r)
        | inr blk =>
            let bn := chunk pos stop in
            move (blk + blk_off pos) buf (u32 bn);;
            file_write_loop fuel' inode (buf + bn) (s32 (pos + bn)) stop
        end
    end
  else mret None.
Definition file_write (f buf count offset : Z) : prog Z :=
  inode ← entry_inode f;
  size ← ld16 (i_size inode);
  r ← (if u32 (offset + count) >? size then file_set_size f (s32 (offset + count)) else mret 0);
  if r <? 0 then mret r else
  r ← file_write_loop 32 inode buf offset (offset + count);
  match r with
  | Some r => mret r
  | None => file_flush f;; mret (s32 count)
  end.

Definition file_create (path : list Z) (type : Z) : prog (Z + Z) :=
  w ← walk_path path;
  if w_r w =? 0 then mret (inl (- E_FILE_EXISTS)) else
  if negb (w_r w =? - E_NOT_FOUND) || (w_dir w =? 0) then mret (inl (w_r w)) else
  let name := default [] (w_last w) in
  if negb (name_is_valid name) then mret (inl (- E_BAD_NAME)) else
  e ← dir_alloc_entry (w_dir w);
  match e with
  | inl r => mret (inl r)
  | inr entry =>
      r ← alloc_inode;
      if r <? 0 then mret (inl r) else
      let inodeno := u16 r in
      inode ← inode_of inodeno;
      fail ← (if type =? FTYPE_DIR then
                g ← file_get_block inode 0;
                match g with
                | inl r => free_inode inodeno;; mret (Some r)
                | inr blk =>
                    fs_strcpy (d_name blk) [46; 46];;
                    fs_strcpy (d_name (blk + DIRESIZE)) [46];;
                    st16 (d_in_ind (blk + DIRESIZE)) inodeno;;
                    st16 (d_in_ind blk) inodeno;;
                    st16 (i_size inode) (2 * DIRESIZE);;
                    mret None
                end
              else mret None);
      match fail with
      | Some r => mret (inl r)
      | None =>
          fs_strcpy (d_name entry) name;;
          st16 (d_in_ind entry) inodeno;;
          st16 (i_type inode) type;;
          file_flush entry;;
          mret (inr entry)
      end
  end.

Definition file_remove (path : list Z) : prog Z :=
  w ← walk_path path;
  if w_r w <? 0 then mret (w_r w) else
  let f := w_pf w in
  _ ← file_set_size f 0;
  st8 (d_name f) 0;;
  inode ← entry_inode f;
  st16 (i_size inode) 0;;
  flush f;;
  ins ← get_inodes;
  flush ins;;
  mret 0.

(** The result, and the entry stored in [*pf]. *)
Definition file_open (path : list Z) : prog (Z * Z) :=
  w ← walk_path path;
  mret (w_r w, w_pf w).

Definition fs_sync : prog unit :=
  _ ← ploop (R := unit) loop_fuel 1
    (fun i => sup ← get_super; n ← ld16 (s_blk_num sup); mret (i <? n))
    (fun i => a ← diskaddr i; flush a;; mret None);
  mret tt.
