(* ===== verification/FsLogic.v ===== *)
(** * Reasoning about file-system programs on the flat machine

    [fwp p Q f]: run on the flat machine from [f], the program [p] returns
    and its result and final state satisfy [Q]; it does not panic, fault or
    run out of fuel.  The rules of the primitives, and what it takes for an
    address to be accessible in a well-formed file system. *)
From S2P Require Import Prelude Layout Mem CString FsMach DamnFS.

Definition fwp {A} (p : prog A) (Q : A -> flat -> Prop) (f : flat) : Prop :=
  wp (run_flat p) Q (fun _ _ => False) f.

Section rules.
Context {A B : Type}.
Implicit Types (f : flat).

Lemma fwp_ret (a : A) Q f : Q a f -> fwp (mret a) Q f.
Proof. intros HQ. by apply wp_ret. Qed.

Lemma fwp_mono (p : prog A) (Q Q' : A -> flat -> Prop) f :
  fwp p Q f -> (forall a f', Q a f' -> Q' a f') -> fwp p Q' f.
Proof. intros Hp HQ. by eapply wp_mono. Qed.

Lemma fwp_bind (p : prog A) (k : A -> prog B) Q f :
  fwp p (fun a f' => fwp (k a) Q f') f -> fwp (p ≫= k) Q f.
Proof.
  unfold fwp. revert f.
  induction p as [a|msg| |x h IH|x v h IH|d x n h IH|x h IH|h IH|v h IH|h IH|v h IH];
    intros f Hp; simpl in *; try done.
  all: repeat (apply wp_bind; apply wp_bind_inv in Hp;
    eapply wp_mono; [exact Hp| |done]; clear Hp; cbv beta; intros ? ? Hp); by apply IH.
Qed.

Lemma fwp_inv (p : prog A) Q f : fwp p Q f -> exists a f', run_flat p f = Ret a f' /\ Q a f'.
Proof. apply wp_ret_inv. Qed.

Lemma fwp_get_super Q f : Q (fl_super f) f -> fwp get_super Q f.
Proof. intros HQ. unfold fwp. simpl. by repeat wp_step. Qed.
Lemma fwp_get_inodes Q f : Q (fl_inodes f) f -> fwp get_inodes Q f.
Proof. intros HQ. unfold fwp. simpl. by repeat wp_step. Qed.

Lemma fwp_ld8 a Q f : flat_ok f a = true -> Q (load8 (fl_mem f) a) f -> fwp (ld8 a) Q f.
Proof.
  intros Hok HQ. unfold fwp, ld8. simpl. do 2 (wp_step; cbv beta). wp_step.
  apply wp_assert; [done|]. by wp_step.
Qed.
Lemma fwp_st8 a v Q f : flat_ok f a = true ->
  Q tt (fset_mem (store8 (fl_mem f) a v) f) -> fwp (st8 a v) Q f.
Proof.
  intros Hok HQ. unfold fwp, st8. simpl. do 2 (wp_step; cbv beta). wp_step.
  apply wp_assert; [done|]. wp_step. wp_step. by wp_step.
Qed.
Lemma fwp_flush a Q f : window a = true -> Q tt (fflush (blk_of a) f) -> fwp (flush a) Q f.
Proof.
  intros Hok HQ. unfold fwp, flush. simpl. wp_step.
  apply wp_assert; [done|]. wp_step. wp_step. by wp_step.
Qed.
Lemma fwp_move d s n Q f :
  0 <= n -> 0 <= s -> 0 <= d -> s + n <= 2 ^ 32 -> d + n <= 2 ^ 32 ->
  (forall i, 0 <= i < n -> flat_ok f (s + i) = true) ->
  (forall i, 0 <= i < n -> flat_ok f (d + i) = true) ->
  Q tt (fset_mem (memmove (fl_mem f) d s n) f) -> fwp (move d s n) Q f.
Proof.
  intros Hn Hs Hd Hsn Hdn Hos Hod HQ. unfold fwp, move. simpl.
  do 2 (wp_step; cbv beta). wp_step. apply wp_assert; [|wp_step; wp_step; by wp_step].
  rewrite !andb_true_iff, !flat_range_okP, !Z.leb_le.
  split_and!; try lia; intros i Hi; [apply Hos|apply Hod]; lia.
Qed.
End rules.
Section rules2.
Implicit Types (f : flat).
Lemma fwp_ld16 a Q f : flat_ok f a = true -> flat_ok f (a + 1) = true ->
  Q (load16 (fl_mem f) a) f -> fwp (ld16 a) Q f.
Proof. intros. apply fwp_bind, fwp_ld8; [done|]. apply fwp_bind, fwp_ld8; done. Qed.
Lemma fwp_ld32 a Q f : (forall i, 0 <= i < 4 -> flat_ok f (a + i) = true) ->
  Q (load32 (fl_mem f) a) f -> fwp (ld32 a) Q f.
Proof.
  intros Hok HQ. pose proof (Hok 0) as H0. rewrite Z.add_0_r in H0.
  apply fwp_bind, fwp_ld16; [apply H0; lia|apply Hok; lia|].
  apply fwp_bind, fwp_ld16; [apply Hok; lia| |done].
  replace (a + 2 + 1) with (a + 3) by lia. apply Hok. lia.
Qed.

(** A wide store goes byte by byte: each byte must stay accessible while
    some of the others are already written. *)
Definition between (m m1 m2 : mem) : Prop :=
  forall x, load8 m x = load8 m1 x \/ load8 m x = load8 m2 x.

Lemma fset_mem_twice m1 m2 f : fset_mem m1 (fset_mem m2 f) = fset_mem m1 f.
Proof. done. Qed.

Lemma fwp_st16 a v Q f :
  (forall m, between m (fl_mem f) (store16 (fl_mem f) a v) ->
    flat_ok (fset_mem m f) a = true /\ flat_ok (fset_mem m f) (a + 1) = true) ->
  Q tt (fset_mem (store16 (fl_mem f) a v) f) -> fwp (st16 a v) Q f.
Proof.
  intros Hok HQ. apply fwp_bind, fwp_st8.
  { apply (Hok (fl_mem f)). intros x. by left. }
  apply fwp_st8.
  - apply (Hok (store8 (fl_mem f) a v)). intros x. unfold store16.
    destruct (decide (x = a + 1)) as [->|].
    + left. apply load8_store8_ne. lia.
    + right. by rewrite (load8_store8_ne _ (a + 1)) by lia.
  - done.
Qed.
Lemma fwp_st32 a v Q f :
  (forall m i, 0 <= i < 4 -> between m (fl_mem f) (store32 (fl_mem f) a v) ->
    flat_ok (fset_mem m f) (a + i) = true) ->
  Q tt (fset_mem (store32 (fl_mem f) a v) f) -> fwp (st32 a v) Q f.
Proof.
  intros Hok HQ. unfold store32 in *. apply fwp_bind, fwp_st16.
  - intros m Hm. assert (Hb : between m (fl_mem f)
      (store16 (store16 (fl_mem f) a v) (a + 2) (v / 65536))).
    { intros x. destruct (Hm x) as [->| ->]; [by left|].
      destruct (decide (a <= x < a + 2)).
      - right. symmetry. apply load8_store16_ne. lia.
      - left. apply load8_store16_ne. lia. }
    split; [rewrite <- (Z.add_0_r a)|]; (apply Hok; [lia|done]).
  - apply fwp_st16; [|by rewrite fset_mem_twice].
    intros m Hm. rewrite fset_mem_twice. assert (Hb : between m (fl_mem f)
      (store16 (store16 (fl_mem f) a v) (a + 2) (v / 65536))).
    { intros x. destruct (Hm x) as [Hx|Hx]; [|by right].
      simpl in Hx. rewrite Hx. destruct (decide (a <= x < a + 2)).
      - right. symmetry. apply load8_store16_ne. lia.
      - left. apply load8_store16_ne. lia. }
    split; [|replace (a + 2 + 1) with (a + 3) by lia]; (apply Hok; [lia|done]).
Qed.

(** The loop rule of [ploop], the bound on the number of rounds coming
    from the condition. *)
Lemma fwp_ploop {R} (I : Z -> flat -> Prop) (N : Z) fuel i cond
    (body : Z -> prog (option R)) Q f :
  (forall j g, I j g -> j <= N) -> I i f -> N - i < Z.of_nat fuel ->
  (forall j g, i <= j -> I j g ->
    fwp (cond j) (fun c g' =>
      if (c : bool) then j < N /\ fwp (body j) (fun r g'' =>
             match r with Some v => Q (Some v) g'' | None => I (j + 1) g'' end) g'
      else Q None g') g) ->
  fwp (ploop fuel i cond body) Q f.
Proof.
  intros HN. revert i f. induction fuel as [|n IH]; intros i f HI Hf Hstep; simpl;
    pose proof (HN i f HI) as Hi0; [lia|].
  specialize (Hstep i f ltac:(lia) HI) as Hs.
  - apply fwp_bind. eapply fwp_mono; [exact Hs|]. intros [] g; [|by apply fwp_ret].
    intros [Hi Hb]. apply fwp_bind. eapply fwp_mono; [exact Hb|].
    intros [v|] g' Hg; [by apply fwp_ret|]. apply IH; [done|lia|].
    intros j g'' Hj. apply Hstep. lia.
Qed.

Lemma fwp_pfor {R} (I : Z -> flat -> Prop) n i (body : Z -> prog (option R)) Q f :
  I i f ->
  (forall j g, i <= j < i + Z.of_nat n -> I j g ->
    fwp (body j) (fun r g' => match r with
                              | Some v => Q (Some v) g'
                              | None => I (j + 1) g'
                              end) g) ->
  (forall g, I (i + Z.of_nat n) g -> Q None g) ->
  fwp (pfor n i body) Q f.
Proof.
  revert i f. induction n as [|n IH]; intros i f HI Hbody Hend; simpl.
  { apply fwp_ret, Hend. by replace (i + Z.of_nat 0) with i by lia. }
  apply fwp_bind. eapply fwp_mono; [apply Hbody; [lia|done]|].
  intros [v|] g Hg; [by apply fwp_ret|]. apply IH; [done| |].
  - intros j g' Hj. apply Hbody. lia.
  - intros g' Hg'. apply Hend.
    by replace (i + Z.of_nat (S n)) with (i + 1 + Z.of_nat n) by lia.
Qed.
End rules2.

(** ** Bitmaps *)

(** Bit [c] of the bitmap at [base]. *)
Definition bit_used (m : mem) (base c : Z) : bool :=
  Z.testbit (load8 m (base + c / 8)) (c mod 8).
(** The bitmaps of blocks and of inodes, in the super block. *)
Definition BLK_MAP : Z := DISKMAP + 16.
Definition INO_MAP : Z := DISKMAP + 528.
Abbreviation used m b := (bit_used m BLK_MAP b).
Abbreviation ino_used m n := (bit_used m INO_MAP n).

Lemma bit_used_word m base c : 0 <= c ->
  Z.testbit (load32 m (base + 4 * (c / 32))) (c mod 32) = bit_used m base c.
Proof.
  intros Hc. unfold bit_used.
  replace (base + c / 8) with (base + 4 * (c / 32) + c mod 32 / 8) by zdiv.
  rewrite <- load32_byte by zdiv. unfold u8.
  rewrite Z.mod_pow2_bits_low by zdiv. rewrite Z.div_pow2_bits by zdiv. f_equal. zdiv.
Qed.

Lemma bit_used_store32 m base b v c : 0 <= b -> 0 <= c ->
  bit_used (store32 m (base + 4 * (b / 32)) v) base c =
  if c / 32 =? b / 32 then Z.testbit (u32 v) (c mod 32) else bit_used m base c.
Proof.
  intros Hb Hc. rewrite <- !bit_used_word by done. destruct (Z.eqb_spec (c / 32) (b / 32)) as [->|].
  - by rewrite load32_store32_eq.
  - by rewrite load32_store32_ne by lia.
Qed.

Lemma same_bit b c : c / 32 = b / 32 -> (c mod 32 =? b mod 32) = bool_decide (c = b).
Proof. intros H. case_bool_decide; [subst; by rewrite Z.eqb_refl|]. apply Z.eqb_neq. zdiv. Qed.

Lemma bit_used_set m base b c : 0 <= b -> 0 <= c ->
  bit_used (store32 m (base + 4 * (b / 32))
    (Z.lor (load32 m (base + 4 * (b / 32))) (Z.shiftl 1 (b mod 32)))) base c =
  bit_used m base c || bool_decide (c = b).
Proof.
  intros Hb Hc. rewrite bit_used_store32 by done.
  destruct (Z.eqb_spec (c / 32) (b / 32)) as [He|].
  - rewrite u32_small by (apply (bit_set_bound _ _ 32); [zdiv|apply load32_bound]).
    rewrite bit_set by zdiv. rewrite <- He at 1. by rewrite bit_used_word, same_bit by done.
  - rewrite bool_decide_eq_false_2 by congruence. by rewrite orb_false_r.
Qed.
Lemma bit_used_clear m base b c : 0 <= b -> 0 <= c ->
  bit_used (store32 m (base + 4 * (b / 32))
    (Z.land (load32 m (base + 4 * (b / 32))) (Z.lnot (Z.shiftl 1 (b mod 32))))) base c =
  bit_used m base c && negb (bool_decide (c = b)).
Proof.
  intros Hb Hc. rewrite bit_used_store32 by done.
  destruct (Z.eqb_spec (c / 32) (b / 32)) as [He|].
  - rewrite u32_small by (apply (bit_clear_bound _ _ 32); [zdiv|apply load32_bound]).
    rewrite bit_clear by zdiv. rewrite <- He at 1. by rewrite bit_used_word, same_bit by done.
  - rewrite bool_decide_eq_false_2 by congruence. by rewrite andb_true_r.
Qed.
Lemma bit_used_ext m1 m2 base c : load8 m1 (base + c / 8) = load8 m2 (base + c / 8) ->
  bit_used m1 base c = bit_used m2 base c.
Proof. unfold bit_used. by intros ->. Qed.

Lemma blk_free_used m b : 0 <= b ->
  blk_free m DISKMAP b = (b <? blk_num m DISKMAP) && negb (used m b).
Proof.
  intros Hb. unfold blk_free. rewrite Z.geb_leb. destruct (Z.leb_spec (blk_num m DISKMAP) b).
  - by rewrite (proj2 (Z.ltb_ge _ _)).
  - rewrite (proj2 (Z.ltb_lt _ _)) by done. rewrite bit_test by zdiv.
    change (s_blk_ocp DISKMAP (b / 32)) with (BLK_MAP + 4 * (b / 32)).
    by rewrite bit_used_word.
Qed.

(** ** A mounted file system *)

Record fs_ok (f : flat) : Prop := {
  ok_super : fl_super f = DISKMAP;
  ok_inodes : fl_inodes f = blk_addr 1;
  ok_blk_num : 2 <= blk_num (fl_mem f) DISKMAP <= MAXBLKNUM;
  ok_in_num : in_num (fl_mem f) DISKMAP <= MAXINODENUM;
  ok_used0 : used (fl_mem f) 0 = true;      (* the super block *)
  ok_used1 : used (fl_mem f) 1 = true }.    (* the inode table *)
#[export] Hint Resolve ok_super ok_inodes ok_used0 ok_used1 : dos.

Definition live (m : mem) (b : Z) : Prop :=
  0 <= b < blk_num m DISKMAP /\ used m b = true.

Lemma blk_range b : 0 <= b < MAXBLKNUM -> 0 <= b < DISKSIZE / BLKSIZE.
Proof. unfold MAXBLKNUM. change (DISKSIZE / BLKSIZE) with 69634. lia. Qed.

Lemma flat_ok_live f b o : fl_super f = DISKMAP -> blk_num (fl_mem f) DISKMAP <= MAXBLKNUM ->
  live (fl_mem f) b -> 0 <= o < BLKSIZE -> flat_ok f (blk_addr b + o) = true.
Proof.
  intros Hs Hn [Hb Hu] Ho. destruct (blk_addr_of b o) as [Hw Hbo]; [apply blk_range; lia|done|].
  unfold flat_ok. rewrite Hw, Hs, Hbo, blk_free_used, Hu by lia.
  rewrite andb_false_r, (proj2 (Z.ltb_lt _ _)) by lia. simpl. rewrite !andb_true_r.
  unfold bitmap_here. apply Z.ltb_lt. unfold MAXBLKNUM, BLKSIZE, PGSIZE in *. zdiv.
Qed.

Lemma live0 f : fs_ok f -> live (fl_mem f) 0.
Proof. intros Hf. split; [pose proof (ok_blk_num f Hf); lia|by apply ok_used0]. Qed.
Lemma live1 f : fs_ok f -> live (fl_mem f) 1.
Proof. intros Hf. split; [pose proof (ok_blk_num f Hf); lia|by apply ok_used1]. Qed.

Lemma flat_ok_at f a : fs_ok f -> window a = true -> live (fl_mem f) (blk_of a) ->
  flat_ok f a = true.
Proof.
  intros Hf Hw Hl. pose proof (window_spec a Hw) as (_ & _ & _ & Ha).
  replace a with (blk_addr (blk_of a) + (a - blk_addr (blk_of a))) by lia.
  apply flat_ok_live; [by apply ok_super|apply (ok_blk_num f Hf)|done|lia].
Qed.

Lemma flat_ok_super f a : fs_ok f -> DISKMAP <= a < DISKMAP + BLKSIZE -> flat_ok f a = true.
Proof.
  intros Hf Ha. replace a with (blk_addr 0 + (a - DISKMAP)) by (unfold blk_addr; lia).
  apply flat_ok_live; [by apply ok_super|apply (ok_blk_num f Hf)|by apply live0|lia].
Qed.
Lemma flat_ok_itable f a : fs_ok f -> blk_addr 1 <= a < blk_addr 1 + BLKSIZE -> flat_ok f a = true.
Proof.
  intros Hf Ha. replace a with (blk_addr 1 + (a - blk_addr 1)) by lia.
  apply flat_ok_live; [by apply ok_super|apply (ok_blk_num f Hf)|by apply live1|lia].
Qed.

(** The parts of memory [fs_ok] and [live] look at. *)
Lemma live_ext m1 m2 b : 0 <= b < MAXBLKNUM ->
  (forall x, DISKMAP <= x < INO_MAP -> load8 m1 x = load8 m2 x) -> live m1 b -> live m2 b.
Proof.
  intros Hb H [Hn Hu]. unfold BLK_MAP, INO_MAP, MAXBLKNUM, MAXINODENUM in *. split.
  - replace (blk_num m2 DISKMAP) with (blk_num m1 DISKMAP); [done|].
    apply load16_ext; apply H; unfold s_blk_num; lia.
  - rewrite <- Hu. symmetry. apply bit_used_ext, H. unfold BLK_MAP. zdiv.
Qed.
Lemma fs_ok_ext f f' : fs_ok f -> fl_super f' = fl_super f -> fl_inodes f' = fl_inodes f ->
  (forall x, DISKMAP <= x < DISKMAP + BLKSIZE -> load8 (fl_mem f') x = load8 (fl_mem f) x) ->
  fs_ok f'.
Proof.
  intros [Hs Hi Hb Hn H0 H1] Hs' Hi' H.
  assert (Heq : forall a, DISKMAP <= a < DISKMAP + BLKSIZE - 1 ->
    load16 (fl_mem f') a = load16 (fl_mem f) a).
  { intros a Ha. apply load16_ext; apply H; lia. }
  unfold BLKSIZE, PGSIZE in *.
  split; [congruence|congruence|..]; unfold blk_num, in_num, s_blk_num, s_in_num in *.
  - rewrite Heq; [done|lia].
  - rewrite Heq; [done|lia].
  - rewrite <- H0. apply bit_used_ext, H. unfold BLK_MAP. zdiv.
  - rewrite <- H1. apply bit_used_ext, H. unfold BLK_MAP. zdiv.
Qed.

(** One step of a program under [fwp]; accesses leave their side condition. *)
Ltac fstep :=
  lazymatch goal with
  | |- fwp (_ ≫= _) _ _ => apply fwp_bind
  | |- fwp (mret _) _ _ => apply fwp_ret
  | |- fwp get_super _ _ => apply fwp_get_super
  | |- fwp get_inodes _ _ => apply fwp_get_inodes
  | |- fwp (ld8 _) _ _ => apply fwp_ld8
  | |- fwp (ld16 _) _ _ => apply fwp_ld16
  | |- fwp (ld32 _) _ _ => apply fwp_ld32
  | |- fwp (flush _) _ _ => apply fwp_flush
  end; cbv beta.

(** A word of the super block past its header, and the flush behind it. *)
Lemma fwp_st32_super f a v Q : fs_ok f ->
  BLK_MAP <= a -> a + 4 <= DISKMAP + BLKSIZE ->
  used (store32 (fl_mem f) a v) 0 = true ->
  Q tt (fset_mem (store32 (fl_mem f) a v) f) -> fwp (st32 a v) Q f.
Proof.
  intros Hf Ha Ha4 Hu HQ. apply fwp_st32; [|done]. intros m i Hi Hm.
  replace (a + i) with (blk_addr 0 + (a + i - DISKMAP)) by (unfold blk_addr; lia).
  assert (Hn : blk_num m DISKMAP = blk_num (fl_mem f) DISKMAP).
  { apply load16_ext; [destruct (Hm (s_blk_num DISKMAP)) as [-> | ->]
      |destruct (Hm (s_blk_num DISKMAP + 1)) as [-> | ->]]; try done;
      apply load8_store32_ne; unfold s_blk_num, BLK_MAP in *; lia. }
  unfold BLK_MAP in *.
  apply flat_ok_live; simpl; [by apply ok_super|rewrite Hn; apply (ok_blk_num f Hf)| |lia].
  split; simpl; [rewrite Hn; pose proof (ok_blk_num f Hf); lia|].
  destruct (Hm (BLK_MAP + 0 / 8)) as [He|He].
  - rewrite (bit_used_ext _ _ _ _ He). by apply ok_used0.
  - by rewrite (bit_used_ext _ _ _ _ He).
Qed.

(** The first block, and the block of an address. *)
Lemma blk_of_super : blk_of DISKMAP = 0.
Proof. done. Qed.
Lemma window_super : window DISKMAP = true.
Proof. done. Qed.
