(* ===== verification/FsBitmap.v ===== *)
(** * Allocation of blocks and inodes: the bitmaps of damnfs.c

    [alloc_block]/[alloc_inode] and [free_block]/[free_inode] are the same
    code over the two bitmaps of the super block, so their specification is
    proved once, for a bitmap described by where its length and its bits
    are, and instantiated. *)
From S2P Require Import Prelude Layout Mem CString FsMach DamnFS FsLogic.

(** What changing bit [b] of the bitmap at [base] to [v] means: that bit
    changes, the rest of memory does not, and the super block is on disk. *)
Record bm_update (base nbits b : Z) (v : bool) (f f' : flat) : Prop := {
  bu_bits : forall c, 0 <= c < nbits ->
    bit_used (fl_mem f') base c = if decide (c = b) then v else bit_used (fl_mem f) base c;
  bu_frame : forall x, x < base \/ base + nbits / 8 <= x ->
    load8 (fl_mem f') x = load8 (fl_mem f) x;
  bu_disk : forall x, load8 (fl_disk f') x =
    if decide (0 <= x < BLKSIZE) then load8 (fl_mem f') (DISKMAP + x) else load8 (fl_disk f) x;
  bu_super : fl_super f' = fl_super f;
  bu_inodes : fl_inodes f' = fl_inodes f }.

(** The code shared by the block and the inode functions. *)
Section code.
Context (nump : Z -> Z) (wordp : Z -> Z -> Z).
Definition bm_is_free (b : Z) : prog bool :=
  sup ← get_super;
  if sup =? 0 then mret false else
  n ← ld16 (nump sup);
  if b >=? n then mret false else
  w ← ld32 (wordp sup (b / 32));
  mret (Z.land w (Z.shiftl 1 (b mod 32)) =? 0).
Definition bm_alloc (err : Z) : prog Z :=
  r ← ploop loop_fuel 0
    (fun b => sup ← get_super; n ← ld16 (nump sup); mret (b <? n))
    (fun b =>
       free ← bm_is_free (u16 b);
       if (free : bool) then
         sup ← get_super;
         w ← ld32 (wordp sup (b / 32));
         st32 (wordp sup (b / 32)) (Z.lor w (Z.shiftl 1 (b mod 32)));;
         flush sup;;
         mret (Some b)
       else mret None);
  mret (default (- err) r).
Definition bm_free (b : Z) : prog unit :=
  sup ← get_super;
  w ← ld32 (wordp sup (b / 32));
  st32 (wordp sup (b / 32)) (Z.land w (Z.lnot (Z.shiftl 1 (b mod 32))));;
  flush sup.
End code.

Lemma alloc_block_bm : alloc_block = bm_alloc s_blk_num s_blk_ocp E_NO_DISK.
Proof. done. Qed.
Lemma alloc_inode_bm : alloc_inode = bm_alloc s_in_num s_in_ocp E_NO_INODE.
Proof. done. Qed.

Section bitmap.
Context (nump : Z -> Z) (wordp : Z -> Z -> Z) (base nbits : Z).
Hypothesis wordp_eq : forall k, wordp DISKMAP k = base + 4 * k.
Hypothesis nump_in : DISKMAP <= nump DISKMAP < BLK_MAP - 1.
Hypothesis base_in : BLK_MAP <= base.
Hypothesis nbits_in : 0 < nbits /\ nbits mod 32 = 0 /\ base + nbits / 8 <= DISKMAP + BLKSIZE.
(** The block bitmap, or a bitmap disjoint from it. *)
Hypothesis base_blk : base = BLK_MAP \/ BLK_MAP + 4 <= base.

Let num (f : flat) : Z := load16 (fl_mem f) (nump DISKMAP).

Lemma word_in b : 0 <= b < nbits ->
  base <= base + 4 * (b / 32) /\ base + 4 * (b / 32) + 4 <= base + nbits / 8.
Proof. zdiv. Qed.

Lemma bm_ld f b Q : fs_ok f -> 0 <= b < nbits ->
  Q (load32 (fl_mem f) (base + 4 * (b / 32))) f -> fwp (ld32 (wordp DISKMAP (b / 32))) Q f.
Proof.
  intros Hf Hb HQ. rewrite wordp_eq. fstep; [|done]. intros i Hi.
  pose proof (word_in b Hb). unfold BLK_MAP in *. apply flat_ok_super; [done|lia].
Qed.
Lemma bm_num f Q : fs_ok f -> Q (num f) f -> fwp (ld16 (nump DISKMAP)) Q f.
Proof.
  intros Hf HQ. unfold BLK_MAP, BLKSIZE, PGSIZE in *.
  fstep; [apply flat_ok_super; [done|unfold BLKSIZE, PGSIZE; lia]..|done].
Qed.

Lemma bm_is_free_spec f b : fs_ok f -> num f <= nbits -> 0 <= b ->
  fwp (bm_is_free nump wordp b)
    (fun r f' => f' = f /\ r = ((b <? num f) && negb (bit_used (fl_mem f) base b))) f.
Proof.
  intros Hf Hn Hb. unfold bm_is_free. fstep. fstep. rewrite (ok_super f Hf).
  change (DISKMAP =? 0) with false. cbv iota. fstep. apply bm_num; [done|]. rewrite Z.geb_leb.
  destruct (Z.leb_spec (num f) b).
  - fstep. by rewrite (proj2 (Z.ltb_ge _ _)).
  - fstep. apply bm_ld; [done|lia|]. fstep. split; [done|].
    rewrite bit_test, bit_used_word by zdiv. by rewrite (proj2 (Z.ltb_lt _ _)).
Qed.

(** Writing back a word of the bitmap with bit [b] set to [v]. *)
Lemma bm_write f b v w (Q : unit -> flat -> Prop) : fs_ok f -> 0 <= b < nbits ->
  (forall c, 0 <= c -> bit_used (store32 (fl_mem f) (base + 4 * (b / 32)) w) base c =
     if decide (c = b) then v else bit_used (fl_mem f) base c) ->
  (v = true \/ base <> BLK_MAP \/ b <> 0) ->
  (forall f', bm_update base nbits b v f f' -> Q tt f') ->
  fwp (st32 (wordp DISKMAP (b / 32)) w) (fun _ g => fwp (flush DISKMAP) Q g) f.
Proof.
  intros Hf Hb Hbit Hv HQ. pose proof (word_in b Hb) as [Hlo Hhi]. rewrite wordp_eq.
  apply fwp_st32_super; [done|lia|lia| |].
  { destruct (decide (base = BLK_MAP)) as [Heq|Hne].
    - rewrite <- Heq, Hbit by lia. case_decide as Hc; [|rewrite Heq; by apply ok_used0].
      destruct Hv as [-> |[]]; [done|done|congruence].
    - rewrite <- (ok_used0 f Hf). apply bit_used_ext, load8_store32_ne.
      change (0 / 8) with 0. lia. }
  fstep; [done|]. rewrite blk_of_super. apply HQ. split; try done; simpl.
  - intros c Hc. apply Hbit. lia.
  - intros x Hx. apply load8_store32_ne. lia.
  - intros x. rewrite load8_blit. change (Z.of_nat (Z.to_nat BLKSIZE)) with BLKSIZE.
    change (0 * BLKSIZE) with 0. change (blk_addr 0) with DISKMAP.
    case_decide; case_decide; f_equal; lia.
Qed.

Lemma bm_alloc_spec f err : fs_ok f -> num f <= nbits ->
  fwp (bm_alloc nump wordp err)
    (fun r f' =>
      (r = - err /\ f' = f /\ forall c, 0 <= c < num f -> bit_used (fl_mem f) base c = true) \/
      (0 <= r < num f /\ bit_used (fl_mem f) base r = false /\
       (forall c, 0 <= c < r -> bit_used (fl_mem f) base c = true) /\
       bm_update base nbits r true f f')) f.
Proof.
  intros Hf Hn. pose proof (load16_bound (fl_mem f) (nump DISKMAP)) as Hnb. fold (num f) in Hnb.
  unfold bm_alloc. fstep.
  apply (fwp_ploop (fun i g => g = f /\ 0 <= i <= num f /\
    forall c, 0 <= c < i -> bit_used (fl_mem f) base c = true) (num f)).
  - intros i g. lia.
  - split; [done|]. split; [lia|]. intros c Hc. lia.
  - unfold loop_fuel. lia.
  - intros i g Hi0 (-> & Hi & Hall). fstep. fstep. rewrite (ok_super f Hf). fstep.
    apply bm_num; [done|]. fstep. destruct (Z.ltb_spec i (num f)) as [Hlt|Hge].
    2:{ fstep. left. split; [done|]. split; [done|]. intros c Hc. apply Hall. lia. }
    split; [done|]. fstep. rewrite u16_small by lia.
    eapply fwp_mono; [apply bm_is_free_spec; [done|done|lia]|]. intros r g (-> & ->).
    rewrite (proj2 (Z.ltb_lt _ _)) by done. cbn [andb].
    destruct (bit_used (fl_mem f) base i) eqn:Hu; cbn [negb].
    { fstep. split; [done|]. split; [lia|]. intros c Hc.
      destruct (decide (c = i)) as [->|]; [done|]. apply Hall. lia. }
    fstep. fstep. rewrite (ok_super f Hf). fstep. apply bm_ld; [done|lia|].
    fstep. eapply fwp_mono; [apply (bm_write f i true)|].
    + done.
    + lia.
    + intros c Hc. rewrite bit_used_set by lia. case_decide as Hci.
      * by rewrite bool_decide_eq_true_2, orb_true_r.
      * by rewrite bool_decide_eq_false_2, orb_false_r.
    + by left.
    + intros f' Hu'. instantiate (1 := fun _ f' => bm_update base nbits i true f f'). done.
    + cbv beta. intros [] g Hg. fstep. eapply fwp_mono; [exact Hg|]. cbv beta. intros [] f1 Hu1. fstep. fstep.
      right. done.
Qed.

Lemma bm_free_spec f b : fs_ok f -> 0 <= b < nbits -> (base <> BLK_MAP \/ b <> 0) ->
  fwp (bm_free wordp b) (fun _ f' => bm_update base nbits b false f f') f.
Proof.
  intros Hf Hb Hb0. unfold bm_free. fstep. fstep. rewrite (ok_super f Hf). fstep.
  apply bm_ld; [done|done|]. fstep.
  apply (bm_write f b false); [done|done| |by right|done].
  intros c Hc. rewrite bit_used_clear by lia. case_decide as Hci.
  - by rewrite bool_decide_eq_true_2, andb_false_r.
  - by rewrite bool_decide_eq_false_2, andb_true_r.
Qed.
End bitmap.

(** ** Blocks and inodes *)

Lemma bm_update_ok base nbits b v f f' : fs_ok f -> bm_update base nbits b v f f' ->
  base = BLK_MAP /\ nbits = MAXBLKNUM /\ 0 <= b < MAXBLKNUM /\ (v = true \/ 2 <= b) \/
  base = INO_MAP /\ nbits = MAXINODENUM ->
  fs_ok f'.
Proof.
  intros [Hs Hi Hb Hn H0 H1] [Hbits Hfr _ Hs' Hi'] Hc.
  unfold BLK_MAP, INO_MAP, MAXBLKNUM, MAXINODENUM in *.
  assert (Heq : forall a, DISKMAP <= a < DISKMAP + 15 ->
    load16 (fl_mem f') a = load16 (fl_mem f) a).
  { intros a Ha. apply load16_ext; apply Hfr; zdiv. }
  unfold blk_num, in_num, s_blk_num, s_in_num in *.
  split; [congruence|congruence|..]; unfold blk_num, in_num, s_blk_num, s_in_num.
  - rewrite Heq; [done|lia].
  - rewrite Heq; [done|lia].
  - destruct Hc as [(-> & -> & Hbr & Hv)|(-> & ->)].
    + rewrite Hbits by lia. case_decide; [|done]. destruct Hv; [done|lia].
    + rewrite <- H0. apply bit_used_ext, Hfr. left. unfold BLK_MAP. change (0 / 8) with 0. lia.
  - destruct Hc as [(-> & -> & Hbr & Hv)|(-> & ->)].
    + rewrite Hbits by lia. case_decide; [|done]. destruct Hv; [done|lia].
    + rewrite <- H1. apply bit_used_ext, Hfr. left. unfold BLK_MAP. change (1 / 8) with 0. lia.
Qed.

Lemma alloc_block_fwp f : fs_ok f ->
  fwp alloc_block (fun r f' =>
    (r = - E_NO_DISK /\ f' = f /\
     forall c, 0 <= c < blk_num (fl_mem f) DISKMAP -> used (fl_mem f) c = true) \/
    (2 <= r < blk_num (fl_mem f) DISKMAP /\ used (fl_mem f) r = false /\
     (forall c, 0 <= c < r -> used (fl_mem f) c = true) /\
     bm_update BLK_MAP MAXBLKNUM r true f f' /\ fs_ok f')) f.
Proof.
  intros Hf. pose proof (ok_blk_num f Hf) as Hn. rewrite alloc_block_bm.
  eapply fwp_mono; [apply (bm_alloc_spec s_blk_num s_blk_ocp BLK_MAP MAXBLKNUM); try done|].
  - by left.
  - exact (proj2 Hn).
  - intros r f' [H|(Hr & Hu & Hall & Hup)]; [by left|right].
    change (load16 (fl_mem f) (s_blk_num DISKMAP)) with (blk_num (fl_mem f) DISKMAP) in *.
    assert (2 <= r).
    { destruct (decide (r = 0)) as [->|]; [by rewrite (ok_used0 f Hf) in Hu|].
      destruct (decide (r = 1)) as [->|]; [by rewrite (ok_used1 f Hf) in Hu|]. lia. }
    split; [lia|]. split; [done|]. split; [done|]. split; [done|].
    eapply bm_update_ok; [exact Hf|exact Hup|]. left. split_and!; [done|done|lia|lia|by left].
Qed.

Lemma free_block_fwp f b : fs_ok f -> 2 <= b < MAXBLKNUM ->
  fwp (free_block b) (fun _ f' => bm_update BLK_MAP MAXBLKNUM b false f f' /\ fs_ok f') f.
Proof.
  intros Hf Hb. unfold free_block. rewrite (proj2 (Z.eqb_neq b 0)) by lia.
  eapply fwp_mono; [apply (bm_free_spec s_blk_ocp BLK_MAP MAXBLKNUM);
    first [done|lia|by left|right; lia]|].
  - intros [] f' Hup. split; [done|]. eapply bm_update_ok; [exact Hf|exact Hup|].
    left. split_and!; [done|done|lia|lia|right; lia].
Qed.

Lemma alloc_inode_fwp f : fs_ok f ->
  fwp alloc_inode (fun r f' =>
    (r = - E_NO_INODE /\ f' = f /\
     forall c, 0 <= c < in_num (fl_mem f) DISKMAP -> ino_used (fl_mem f) c = true) \/
    (0 <= r < in_num (fl_mem f) DISKMAP /\ ino_used (fl_mem f) r = false /\
     (forall c, 0 <= c < r -> ino_used (fl_mem f) c = true) /\
     bm_update INO_MAP MAXINODENUM r true f f' /\ fs_ok f')) f.
Proof.
  intros Hf. pose proof (ok_in_num f Hf) as Hn. rewrite alloc_inode_bm.
  eapply fwp_mono; [apply (bm_alloc_spec s_in_num s_in_ocp INO_MAP MAXINODENUM); try done|].
  - by right.
  - intros r f' [H|(Hr & Hu & Hall & Hup)]; [by left|right].
    change (load16 (fl_mem f) (s_in_num DISKMAP)) with (in_num (fl_mem f) DISKMAP) in *.
    split; [done|]. split; [done|]. split; [done|]. split; [done|].
    eapply bm_update_ok; [exact Hf|exact Hup|by right].
Qed.

Lemma free_inode_fwp f n : fs_ok f -> 0 < n < MAXINODENUM ->
  fwp (free_inode n) (fun _ f' => bm_update INO_MAP MAXINODENUM n false f f' /\ fs_ok f') f.
Proof.
  intros Hf Hb. unfold free_inode. rewrite (proj2 (Z.eqb_neq n 0)) by lia.
  eapply fwp_mono; [apply (bm_free_spec s_in_ocp INO_MAP MAXINODENUM);
    first [done|lia|by left|by right]|].
  - intros [] f' Hup. split; [done|]. eapply bm_update_ok; [exact Hf|exact Hup|by right].
Qed.
