(* ===== verification/FsFile.v ===== *)
(** * Files: block allocation, reading, writing and flushing

    The specification of [file_get_block], [file_read], [file_write],
    [file_flush] and [fs_sync] of damnfs.c on the flat machine, in terms of
    the bytes of a file ([fdata]) and of the blocks that are on disk
    ([synced]). *)
From S2P Require Import Prelude Layout Mem CString FsMach DamnFS FsLogic FsBitmap.

(** ** Inodes *)

Definition inode_ptr (ip : Z) : Prop :=
  exists n, 0 <= n < MAXINODENUM /\ ip = blk_addr 1 + INSIZE * n.
Definition isize (m : mem) (ip : Z) : Z := load16 m (i_size ip).
Definition slot (m : mem) (ip k : Z) : Z := load16 m (i_blk_ind ip k).
(** Byte [i] of the file. *)
Definition fdata (m : mem) (ip i : Z) : Z :=
  load8 m (blk_addr (slot m ip (i / BLKSIZE)) + i mod BLKSIZE).

(** The blocks of a file are allocated, beyond the metadata, and distinct. *)
Record file_wf (m : mem) (ip : Z) : Prop := {
  wf_live : forall k, 0 <= k < NDIRECT -> slot m ip k <> 0 ->
    2 <= slot m ip k /\ live m (slot m ip k);
  wf_inj : forall k k', 0 <= k < NDIRECT -> 0 <= k' < NDIRECT -> slot m ip k <> 0 ->
    slot m ip k = slot m ip k' -> k = k' }.

Lemma inode_ptr_in ip o : inode_ptr ip -> 0 <= o < INSIZE ->
  blk_addr 1 <= ip + o < blk_addr 1 + BLKSIZE.
Proof.
  intros (n & Hn & ->) Ho. unfold INSIZE, MAXINODENUM, BLKSIZE, PGSIZE in *. lia.
Qed.
Lemma inode_ptr_window ip o : inode_ptr ip -> 0 <= o < INSIZE ->
  window (ip + o) = true /\ blk_of (ip + o) = 1.
Proof.
  intros Hip Ho. pose proof (inode_ptr_in ip o Hip Ho).
  replace (ip + o) with (blk_addr 1 + (ip + o - blk_addr 1)) by lia.
  apply blk_addr_of; [apply blk_range; done|lia].
Qed.
Lemma inode_ptr_flush ip : inode_ptr ip -> window ip = true /\ blk_of ip = 1.
Proof.
  intros Hip. rewrite <- (Z.add_0_r ip). by apply inode_ptr_window.
Qed.

(** A field of an inode, read and written. *)
Lemma fwp_ld16_inode f ip o Q : fs_ok f -> inode_ptr ip -> 0 <= o -> o + 2 <= INSIZE ->
  Q (load16 (fl_mem f) (ip + o)) f -> fwp (ld16 (ip + o)) Q f.
Proof.
  intros Hf Hip Ho Ho2 HQ. fstep; [..|done].
  - apply flat_ok_itable; [done|apply inode_ptr_in; [done|lia]].
  - replace (ip + o + 1) with (ip + (o + 1)) by lia.
    apply flat_ok_itable; [done|apply inode_ptr_in; [done|lia]].
Qed.
(** Writes beyond the super block keep the file system well-formed. *)
Lemma fs_ok_above f m : fs_ok f ->
  (forall x, DISKMAP <= x < blk_addr 1 -> load8 m x = load8 (fl_mem f) x) ->
  fs_ok (fset_mem m f).
Proof. intros Hf H. by apply (fs_ok_ext f). Qed.
Lemma fwp_st16_inode f ip o v Q : fs_ok f -> inode_ptr ip -> 0 <= o -> o + 2 <= INSIZE ->
  Q tt (fset_mem (store16 (fl_mem f) (ip + o) v) f) -> fwp (st16 (ip + o) v) Q f.
Proof.
  intros Hf Hip Ho Ho2 HQ. apply fwp_st16; [|done]. intros m Hm.
  assert (Hok : fs_ok (fset_mem m f)).
  { apply fs_ok_above; [done|]. intros x Hx. pose proof (inode_ptr_in ip o Hip ltac:(lia)).
    destruct (Hm x) as [-> | ->]; [done|]. apply load8_store16_ne. lia. }
  split; [|replace (ip + o + 1) with (ip + (o + 1)) by lia];
    (apply flat_ok_itable; [done|apply inode_ptr_in; [done|lia]]).
Qed.

Lemma fwp_diskaddr f b Q : fs_ok f -> 0 <= b < blk_num (fl_mem f) DISKMAP ->
  Q (blk_addr b) f -> fwp (diskaddr b) Q f.
Proof.
  intros Hf Hb HQ. pose proof (ok_blk_num f Hf) as Hn. unfold diskaddr.
  fstep. fstep. rewrite (ok_super f Hf). change (DISKMAP =? 0) with false. cbv iota.
  fstep. fstep.
  - apply flat_ok_super; [done|unfold s_blk_num, BLKSIZE, PGSIZE; lia].
  - apply flat_ok_super; [done|unfold s_blk_num, BLKSIZE, PGSIZE; lia].
  - fold (blk_num (fl_mem f) DISKMAP). rewrite Z.geb_leb, (proj2 (Z.leb_gt _ _)) by lia.
    fstep. rewrite u32_small; [done|].
    unfold DISKMAP, BLKSIZE, PGSIZE, MAXBLKNUM in *. lia.
Qed.

(** Flushing changes the disk only. *)
Definition synced (f : flat) (b : Z) : Prop := forall o, 0 <= o < BLKSIZE ->
  load8 (fl_disk f) (b * BLKSIZE + o) = load8 (fl_mem f) (blk_addr b + o).
Lemma fflush_synced b f : synced (fflush b f) b.
Proof.
  intros o Ho. simpl. rewrite load8_blit. change (Z.of_nat (Z.to_nat BLKSIZE)) with BLKSIZE.
  rewrite decide_True by lia. f_equal. lia.
Qed.
Lemma fflush_synced_mono b c f : synced f c -> synced (fflush b f) c.
Proof.
  intros Hc o Ho. simpl. rewrite load8_blit. change (Z.of_nat (Z.to_nat BLKSIZE)) with BLKSIZE.
  case_decide as Hx; [|by apply Hc].
  assert (b = c) as -> by (unfold BLKSIZE, PGSIZE in *; lia). f_equal. lia.
Qed.
Lemma fflush_ok b f : fs_ok f -> fs_ok (fflush b f).
Proof. intros Hf. by apply (fs_ok_ext f). Qed.
#[export] Hint Resolve fflush_ok fflush_synced fflush_synced_mono : dos.

(** ** file_get_block *)

(** The state after allocating block [b] to slot [k]. *)
Definition slot_set (ip k b : Z) (f : flat) : flat :=
  let m := store16 (fl_mem f) (ip + (6 + 2 * k)) b in
  fset_mem (store16 m (ip + 4) (load16 m (ip + 4) + 1)) f.

Lemma file_get_block_range ip k f : NDIRECT <= k ->
  fwp (file_get_block ip k) (fun r f' => r = inl (- E_INVAL) /\ f' = f) f.
Proof.
  intros Hk. unfold file_get_block, file_block_walk.
  rewrite (proj2 (Z.ltb_ge _ _)) by done. by fstep.
Qed.

Lemma file_get_block_fwp ip k f : fs_ok f -> inode_ptr ip -> 0 <= k < NDIRECT ->
  slot (fl_mem f) ip k < blk_num (fl_mem f) DISKMAP ->
  fwp (file_get_block ip k) (fun r f' =>
    (slot (fl_mem f) ip k <> 0 /\ r = inr (blk_addr (slot (fl_mem f) ip k)) /\ f' = fflush 1 f) \/
    (slot (fl_mem f) ip k = 0 /\ r = inl (- E_NO_DISK) /\ f' = f /\
     forall c, 0 <= c < blk_num (fl_mem f) DISKMAP -> used (fl_mem f) c = true) \/
    (slot (fl_mem f) ip k = 0 /\ exists b f1,
       2 <= b < blk_num (fl_mem f) DISKMAP /\ used (fl_mem f) b = false /\
       bm_update BLK_MAP MAXBLKNUM b true f f1 /\ fs_ok f1 /\
       r = inr (blk_addr b) /\ f' = fflush 1 (slot_set ip k b f1))) f.
Proof.
  intros Hf Hip Hk Hlt. pose proof (ok_blk_num f Hf) as Hnum.
  unfold file_get_block, file_block_walk. rewrite (proj2 (Z.ltb_lt _ _)) by lia. cbv iota.
  unfold slot in *. unfold i_blk_ind in *. rewrite <- Z.add_assoc in *.
  assert (Ho : 6 + 2 * k + 2 <= INSIZE) by (unfold INSIZE, NDIRECT in *; lia).
  destruct (inode_ptr_flush ip Hip) as [Hw Hb1].
  pose proof (load16_bound (fl_mem f) (ip + (6 + 2 * k))) as Hsl.
  fstep. apply fwp_ld16_inode; [done|done|lia|done|]. fstep.
  destruct (Z.eqb_spec (load16 (fl_mem f) (ip + (6 + 2 * k))) 0) as [H0|H0].
  2:{ fstep. fstep. apply fwp_ld16_inode; [done|done|lia|done|]. fstep.
      apply fwp_diskaddr; [done|lia|]. fstep. fstep; [done|]. fstep. rewrite Hb1. by left. }
  fstep. eapply fwp_mono; [by apply alloc_block_fwp|]. cbv beta.
  intros b f1 [(-> & -> & Hfull)|(Hb & Hu & _ & Hup & Hf1)].
  { change (- E_NO_DISK <? 0) with true. cbv iota. fstep. fstep. right. by left. }
  rewrite (proj2 (Z.ltb_ge b 0)) by lia.
  pose proof (bu_frame _ _ _ _ _ _ Hup) as Hfr.
  assert (Hnum1 : blk_num (fl_mem f1) DISKMAP = blk_num (fl_mem f) DISKMAP).
  { apply load16_ext; apply Hfr; left; unfold BLK_MAP, s_blk_num; lia. }
  fstep. apply fwp_st16_inode; [done|done|lia|done|]. fstep.
  set (f2 := fset_mem (store16 (fl_mem f1) (ip + (6 + 2 * k)) b) f1).
  assert (Hf2 : fs_ok f2).
  { apply fs_ok_above; [done|]. intros x Hx. apply load8_store16_ne.
    pose proof (inode_ptr_in ip 0 Hip). unfold INSIZE in *. lia. }
  change (i_blk_used ip) with (ip + 4).
  apply fwp_ld16_inode; [done|done|lia|done|]. fstep.
  apply fwp_st16_inode; [done|done|lia|done|].
  set (f3 := fset_mem (store16 (fl_mem f2) (ip + 4) _) f2).
  assert (Hf3 : fs_ok f3).
  { apply fs_ok_above; [done|]. intros x Hx. apply load8_store16_ne.
    pose proof (inode_ptr_in ip 0 Hip). unfold INSIZE in *. lia. }
  assert (Hn3 : blk_num (fl_mem f3) DISKMAP = blk_num (fl_mem f) DISKMAP).
  { rewrite <- Hnum1. pose proof (inode_ptr_in ip 0 Hip) as Hin. unfold INSIZE in *.
    unfold blk_num, s_blk_num. simpl. change (blk_addr 1) with (DISKMAP + 4096) in *.
    by rewrite !load16_store16_ne by lia. }
  fstep. fstep. apply fwp_ld16_inode; [done|done|lia|done|].
  assert (Hs3 : load16 (fl_mem f3) (ip + (6 + 2 * k)) = b).
  { simpl. rewrite load16_store16_ne, load16_store16_eq by lia.
    apply u16_small. unfold MAXBLKNUM in *. lia. }
  fstep. rewrite Hs3. apply fwp_diskaddr; [done|rewrite Hn3; lia|]. fstep. fstep; [done|].
  fstep. rewrite Hb1. right. right. split; [done|]. by exists b, f1.
Qed.

(** ** What a write may change *)

(** From [f] to [g], only the bitmap, the block list of inode [ip] and the
    blocks of [ip] changed; blocks were taken from the free ones, none was
    given back or moved. *)
Record grows (ip : Z) (f g : flat) : Prop := {
  gr_ok : fs_ok g;
  gr_wf : file_wf (fl_mem g) ip;
  gr_num : blk_num (fl_mem g) DISKMAP = blk_num (fl_mem f) DISKMAP;
  gr_used : forall b, 0 <= b < MAXBLKNUM -> used (fl_mem f) b = true -> used (fl_mem g) b = true;
  gr_slot : forall k, 0 <= k < NDIRECT -> slot (fl_mem f) ip k <> 0 ->
    slot (fl_mem g) ip k = slot (fl_mem f) ip k;
  gr_new : forall k, 0 <= k < NDIRECT -> slot (fl_mem f) ip k = 0 -> slot (fl_mem g) ip k <> 0 ->
    used (fl_mem f) (slot (fl_mem g) ip k) = false;
  gr_frame : forall x, x < BLK_MAP \/ INO_MAP <= x -> x < ip + 4 \/ ip + INSIZE <= x ->
    (forall k, 0 <= k < NDIRECT -> slot (fl_mem g) ip k <> 0 ->
       x < blk_addr (slot (fl_mem g) ip k) \/ blk_addr (slot (fl_mem g) ip k) + BLKSIZE <= x) ->
    load8 (fl_mem g) x = load8 (fl_mem f) x }.

Lemma live_bound m b : blk_num m DISKMAP <= MAXBLKNUM -> live m b -> 0 <= b < MAXBLKNUM.
Proof. intros Hn [Hb _]. lia. Qed.

Lemma grows_refl ip f : fs_ok f -> file_wf (fl_mem f) ip -> grows ip f f.
Proof. intros Hf Hwf. by split. Qed.

Lemma grows_trans ip f g h : grows ip f g -> grows ip g h -> grows ip f h.
Proof.
  intros [Hg Hwg Hn1 Hu1 Hs1 Hw1 Hf1] [Hh Hwh Hn2 Hu2 Hs2 Hw2 Hf2].
  split; [done|done|congruence|auto|..].
  - intros k Hk Hne. pose proof (Hs1 k Hk Hne) as E. rewrite Hs2; congruence.
  - intros k Hk H0 Hne. destruct (decide (slot (fl_mem g) ip k = 0)) as [Hg0|Hg0].
    + specialize (Hw2 k Hk Hg0 Hne).
      destruct (used (fl_mem f) (slot (fl_mem h) ip k)) eqn:Hu; [|done].
      rewrite Hu1 in Hw2; [done| |done].
      destruct (wf_live _ _ Hwh k Hk Hne) as [_ Hl].
      eapply live_bound; [|exact Hl]. apply (ok_blk_num h Hh).
    + rewrite Hs2 in * by done. by apply Hw1.
  - intros x Hx1 Hx2 Hx3. rewrite Hf2, Hf1; [done|done|done| |done|done|done].
    intros k Hk Hg0. rewrite <- Hs2 by done. apply Hx3; [done|]. by rewrite Hs2.
Qed.

(** The file's attributes survive. *)
Lemma grows_size ip f g : inode_ptr ip -> grows ip f g ->
  isize (fl_mem g) ip = isize (fl_mem f) ip.
Proof.
  intros Hip Hg. pose proof (inode_ptr_in ip 0 Hip ltac:(done)) as Hin.
  assert (H : forall x, ip <= x < ip + 4 -> load8 (fl_mem g) x = load8 (fl_mem f) x).
  { intros x Hx. change (blk_addr 1) with (DISKMAP + 4096) in Hin.
    apply (gr_frame ip f g Hg).
    - right. unfold INO_MAP. lia.
    - lia.
    - intros k Hk Hne. destruct (wf_live _ _ (gr_wf ip f g Hg) k Hk Hne) as [H2 _].
      left. unfold INSIZE, BLKSIZE, PGSIZE, blk_addr in *. destruct Hip as (n & Hn & ->).
      unfold MAXINODENUM, INSIZE, blk_addr, BLKSIZE, PGSIZE in *. lia. }
  apply load16_ext; apply H; unfold i_size; lia.
Qed.

(** *** file_get_block, for a file *)

Lemma slot_set_slot ip k b f j : 0 <= k < NDIRECT -> 0 <= j < NDIRECT ->
  slot (fl_mem (slot_set ip k b f)) ip j =
  if decide (j = k) then u16 b else slot (fl_mem f) ip j.
Proof.
  intros Hk Hj. unfold slot, slot_set, i_blk_ind. simpl. rewrite <- Z.add_assoc.
  rewrite load16_store16_ne by lia. case_decide as Hjk; [subst|].
  - by rewrite load16_store16_eq.
  - by rewrite load16_store16_ne by lia.
Qed.
Lemma slot_set_frame ip k b f x : 0 <= k < NDIRECT -> x < ip + 4 \/ ip + INSIZE <= x ->
  load8 (fl_mem (slot_set ip k b f)) x = load8 (fl_mem f) x.
Proof.
  intros Hk Hx. unfold slot_set, INSIZE, NDIRECT in *. simpl.
  rewrite !load8_store16_ne by lia. done.
Qed.

Lemma get_block_grows ip k b f f1 : fs_ok f -> inode_ptr ip -> file_wf (fl_mem f) ip ->
  0 <= k < NDIRECT -> slot (fl_mem f) ip k = 0 -> 2 <= b < blk_num (fl_mem f) DISKMAP ->
  used (fl_mem f) b = false -> bm_update BLK_MAP MAXBLKNUM b true f f1 -> fs_ok f1 ->
  let g := fflush 1 (slot_set ip k b f1) in
  slot (fl_mem g) ip k = b /\ grows ip f g /\
  forall x, x < BLK_MAP \/ INO_MAP <= x -> x < ip + 4 \/ ip + INSIZE <= x ->
    load8 (fl_mem g) x = load8 (fl_mem f) x.
Proof.
  intros Hf Hip Hwf Hk H0 Hb Hu Hup Hf1 g. pose proof (ok_blk_num f Hf) as Hnum.
  pose proof (inode_ptr_in ip 0 Hip ltac:(done)) as Hin.
  pose proof (inode_ptr_in ip 31 Hip ltac:(done)) as Hin'.
  change (blk_addr 1) with (DISKMAP + 4096) in Hin, Hin'.
  assert (Hlow : forall x, x < DISKMAP + 4096 -> load8 (fl_mem g) x = load8 (fl_mem f1) x).
  { intros x Hx. apply slot_set_frame; [done|lia]. }
  assert (Hfr : forall x, x < BLK_MAP \/ INO_MAP <= x -> load8 (fl_mem f1) x = load8 (fl_mem f) x).
  { intros x Hx. apply (bu_frame _ _ _ _ _ _ Hup).
    change (MAXBLKNUM / 8) with 512. unfold INO_MAP, BLK_MAP in *. lia. }
  assert (Hslot1 : forall j, 0 <= j < NDIRECT -> slot (fl_mem f1) ip j = slot (fl_mem f) ip j).
  { intros j Hj. unfold INO_MAP, NDIRECT in *.
    apply load16_ext; apply Hfr; right; unfold i_blk_ind, INO_MAP; lia. }
  assert (Hslot : forall j, 0 <= j < NDIRECT -> slot (fl_mem g) ip j =
    if decide (j = k) then b else slot (fl_mem f) ip j).
  { intros j Hj. change (fl_mem g) with (fl_mem (slot_set ip k b f1)).
    rewrite slot_set_slot by done. case_decide; [|by apply Hslot1].
    apply u16_small. unfold MAXBLKNUM in *. lia. }
  assert (Hn : blk_num (fl_mem g) DISKMAP = blk_num (fl_mem f) DISKMAP).
  { apply load16_ext; rewrite Hlow by (unfold s_blk_num; lia); apply Hfr; left;
      unfold s_blk_num, BLK_MAP; lia. }
  assert (Hused : forall c, 0 <= c < MAXBLKNUM -> used (fl_mem g) c =
    if decide (c = b) then true else used (fl_mem f) c).
  { intros c Hc. rewrite <- (bu_bits _ _ _ _ _ _ Hup) by done. apply bit_used_ext, Hlow.
    unfold BLK_MAP, MAXBLKNUM in *. zdiv. }
  split; [rewrite Hslot by done; by rewrite decide_True|].
  assert (Hframe : forall x, x < BLK_MAP \/ INO_MAP <= x -> x < ip + 4 \/ ip + INSIZE <= x ->
    load8 (fl_mem g) x = load8 (fl_mem f) x).
  { intros x Hx1 Hx2. rewrite <- Hfr by done. by apply slot_set_frame. }
  split; [|done]. split; [| |done| | | |intros; by apply Hframe].
  - apply (fs_ok_ext f1); [done|done|done|]. intros x Hx. apply Hlow.
    unfold BLKSIZE, PGSIZE in *. lia.
  - assert (Hold : forall j, 0 <= j < NDIRECT -> slot (fl_mem f) ip j <> 0 ->
        2 <= slot (fl_mem f) ip j /\ live (fl_mem g) (slot (fl_mem f) ip j) /\
        slot (fl_mem f) ip j <> b).
    { intros j Hj Hne. destruct (wf_live _ _ Hwf j Hj Hne) as [H2 [Hl Hlu]].
      split; [done|]. split; [|congruence]. split; [by rewrite Hn|].
      rewrite Hused by lia. by case_decide. }
    split.
    + intros j Hj. rewrite Hslot by done. case_decide as Hjk; [|intros H; by destruct (Hold j Hj H) as (? & ? & _)].
      intros _. split; [lia|]. split; [rewrite Hn; lia|]. rewrite Hused by lia.
      by rewrite decide_True.
    + intros j j' Hj Hj'. rewrite !Hslot by done. repeat case_decide; subst; try done.
      * intros _ Heq. destruct (Hold j') as (_ & _ & ?); congruence || lia.
      * intros _ Heq. destruct (Hold j) as (_ & _ & ?); congruence || lia.
      * by apply (wf_inj _ _ Hwf).
  - intros c Hc Hcu. rewrite Hused by done. by case_decide.
  - intros j Hj Hne. rewrite Hslot by done. case_decide; [congruence|done].
  - intros j Hj Hz. rewrite Hslot by done. case_decide; [done|congruence].
Qed.

(** Only the bitmap and the block list of [ip] changed. *)
Definition meta_only (ip : Z) (f g : flat) : Prop :=
  forall x, x < BLK_MAP \/ INO_MAP <= x -> x < ip + 4 \/ ip + INSIZE <= x ->
    load8 (fl_mem g) x = load8 (fl_mem f) x.
Definition disk_full (f : flat) : Prop :=
  forall c, 0 <= c < blk_num (fl_mem f) DISKMAP -> used (fl_mem f) c = true.

Lemma grows_fflush ip b f : fs_ok f -> file_wf (fl_mem f) ip -> grows ip f (fflush b f).
Proof. intros Hf Hwf. split; try done. by apply fflush_ok. Qed.

Lemma get_block_file ip k f : fs_ok f -> inode_ptr ip -> file_wf (fl_mem f) ip ->
  0 <= k < NDIRECT ->
  fwp (file_get_block ip k) (fun r g =>
    (r = inl (- E_NO_DISK) /\ g = f /\ slot (fl_mem f) ip k = 0 /\ disk_full f) \/
    (r = inr (blk_addr (slot (fl_mem g) ip k)) /\ slot (fl_mem g) ip k <> 0 /\
     grows ip f g /\ meta_only ip f g)) f.
Proof.
  intros Hf Hip Hwf Hk. eapply fwp_mono; [apply file_get_block_fwp; [done|done|done|]|].
  { destruct (decide (slot (fl_mem f) ip k = 0)) as [->|Hne].
    - pose proof (ok_blk_num f Hf). lia.
    - destruct (wf_live _ _ Hwf k Hk Hne) as [_ [Hl _]]. lia. }
  intros r g [(Hne & -> & ->)|[(H0 & -> & -> & Hfull)|(H0 & b & f1 & Hb & Hu & Hup & Hf1 & -> & ->)]].
  - right. split; [done|]. split; [done|]. split; [by apply grows_fflush|done].
  - left. done.
  - right. destruct (get_block_grows ip k b f f1) as (Hs & Hg & Hm); try done.
    rewrite Hs. split; [done|]. split; [lia|]. done.
Qed.

(** ** Reading and writing data *)

Lemma blk_addr_mono b c : b <= c -> blk_addr b <= blk_addr c.
Proof. unfold blk_addr, BLKSIZE, PGSIZE. lia. Qed.
Lemma inode_below ip : inode_ptr ip -> DISKMAP + 4096 <= ip /\ ip + INSIZE <= blk_addr 2.
Proof.
  intros (n & Hn & ->). unfold blk_addr, INSIZE, MAXINODENUM, BLKSIZE, PGSIZE in *. lia.
Qed.

(** A data block lies beyond every inode and the bitmaps. *)
Lemma data_above m ip k : file_wf m ip -> 0 <= k < NDIRECT -> slot m ip k <> 0 ->
  blk_addr 2 <= blk_addr (slot m ip k).
Proof. intros Hwf Hk Hne. apply blk_addr_mono. by apply (wf_live _ _ Hwf). Qed.

Lemma meta_only_data ip f g k o : inode_ptr ip -> file_wf (fl_mem f) ip -> meta_only ip f g ->
  0 <= k < NDIRECT -> slot (fl_mem f) ip k <> 0 -> 0 <= o ->
  load8 (fl_mem g) (blk_addr (slot (fl_mem f) ip k) + o) =
  load8 (fl_mem f) (blk_addr (slot (fl_mem f) ip k) + o).
Proof.
  intros Hip Hwf Hm Hk Hne Ho. pose proof (data_above _ _ k Hwf Hk Hne) as Ha.
  destruct (inode_below ip Hip) as [H1 H2].
  apply Hm; [right; unfold INO_MAP, INSIZE in *; lia|lia].
Qed.

(** The client's buffer: outside the disk window. *)
Definition client (buf n : Z) : Prop :=
  0 <= n /\ PGSIZE <= buf /\ buf + n <= 2 ^ 32 /\
  (buf + n <= DISKMAP \/ DISKMAP + DISKSIZE <= buf).
Lemma client_ok f buf n i : client buf n -> 0 <= i < n -> flat_ok f (buf + i) = true.
Proof.
  intros (Hn & Hlo & Hhi & Hw) Hi. unfold flat_ok.
  destruct (window (buf + i)) eqn:E; [apply window_iff in E; lia|]. apply Z.leb_le. lia.
Qed.
Lemma client_sub buf n i k : client buf n -> 0 <= i -> 0 <= k -> i + k <= n ->
  client (buf + i) k.
Proof. unfold client. lia. Qed.

Lemma file_block_ok f ip k o : fs_ok f -> file_wf (fl_mem f) ip -> 0 <= k < NDIRECT ->
  slot (fl_mem f) ip k <> 0 -> 0 <= o < BLKSIZE ->
  flat_ok f (blk_addr (slot (fl_mem f) ip k) + o) = true.
Proof.
  intros Hf Hwf Hk Hne Ho. destruct (wf_live _ _ Hwf k Hk Hne) as [_ Hl].
  apply flat_ok_live; [by apply ok_super|apply (ok_blk_num f Hf)|done|done].
Qed.
Lemma file_block_range f ip k : fs_ok f -> file_wf (fl_mem f) ip -> 0 <= k < NDIRECT ->
  slot (fl_mem f) ip k <> 0 ->
  blk_addr 2 <= blk_addr (slot (fl_mem f) ip k) /\
  blk_addr (slot (fl_mem f) ip k) + BLKSIZE <= DISKMAP + DISKSIZE.
Proof.
  intros Hf Hwf Hk Hne. destruct (wf_live _ _ Hwf k Hk Hne) as [H2 [Hl _]].
  pose proof (ok_blk_num f Hf). unfold blk_addr, BLKSIZE, PGSIZE, DISKSIZE, MAXBLKNUM in *. lia.
Qed.

(** Storing into block [k] of the file. *)
Lemma grows_data ip k f m : fs_ok f -> inode_ptr ip -> file_wf (fl_mem f) ip ->
  0 <= k < NDIRECT -> slot (fl_mem f) ip k <> 0 ->
  (forall x, x < blk_addr (slot (fl_mem f) ip k) \/
             blk_addr (slot (fl_mem f) ip k) + BLKSIZE <= x ->
     load8 m x = load8 (fl_mem f) x) ->
  grows ip f (fset_mem m f) /\
  (forall j, 0 <= j < NDIRECT -> slot m ip j = slot (fl_mem f) ip j).
Proof.
  intros Hf Hip Hwf Hk Hne Hm. pose proof (data_above _ _ k Hwf Hk Hne) as Ha.
  destruct (inode_below ip Hip) as [H1 H2].
  assert (Hlow : forall x, x < blk_addr 2 -> load8 m x = load8 (fl_mem f) x).
  { intros x Hx. apply Hm. lia. }
  assert (Hsl : forall j, 0 <= j < NDIRECT -> slot m ip j = slot (fl_mem f) ip j).
  { intros j Hj. unfold INSIZE, NDIRECT in *.
    apply load16_ext; apply Hlow; unfold i_blk_ind; lia. }
  assert (Hn : blk_num m DISKMAP = blk_num (fl_mem f) DISKMAP).
  { apply load16_ext; apply Hlow; unfold s_blk_num, blk_addr, BLKSIZE, PGSIZE; lia. }
  assert (Hus : forall b, 0 <= b < MAXBLKNUM -> used m b = used (fl_mem f) b).
  { intros b Hb. apply bit_used_ext, Hlow. unfold BLK_MAP, blk_addr, MAXBLKNUM, BLKSIZE, PGSIZE in *.
    zdiv. }
  split; [|done]. split; simpl; [| |done| | | |].
  - apply fs_ok_above; [done|]. intros x Hx. apply Hlow. unfold blk_addr, BLKSIZE, PGSIZE in *. lia.
  - split; simpl.
    + intros j Hj. rewrite Hsl by done. intros Hj0. destruct (wf_live _ _ Hwf j Hj Hj0) as [Hj2 Hl].
      split; [done|]. pose proof (ok_blk_num f Hf). destruct Hl as [Hl Hlu].
      split; [by rewrite Hn|]. rewrite Hus; [done|lia].
    + intros j j' Hj Hj'. rewrite !Hsl by done. by apply (wf_inj _ _ Hwf).
  - intros b Hb. by rewrite Hus.
  - intros j Hj Hj0. by apply Hsl.
  - intros j Hj Hj0. rewrite Hsl by done. congruence.
  - intros x _ _ Hx. apply Hm. specialize (Hx k Hk). rewrite Hsl in Hx by done. by apply Hx.
Qed.

Definition MAXFILE : Z := NDIRECT * BLKSIZE.

Lemma chunk_eq pos stop : 0 <= pos < stop -> stop <= MAXFILE ->
  chunk pos stop = Z.min (BLKSIZE - pos mod BLKSIZE) (stop - pos) /\
  blk_off pos = pos mod BLKSIZE /\ u16 (Z.quot pos BLKSIZE) = pos / BLKSIZE /\
  0 <= pos / BLKSIZE < NDIRECT /\ 0 < chunk pos stop.
Proof.
  intros Hp Hs. unfold MAXFILE, NDIRECT, BLKSIZE, PGSIZE in *.
  assert (Ho : blk_off pos = pos mod 4096)
    by (unfold blk_off, BLKSIZE, PGSIZE; rewrite Z.rem_mod_nonneg; lia).
  assert (Hc : chunk pos stop = Z.min (4096 - pos mod 4096) (stop - pos)).
  { unfold chunk. rewrite Ho. unfold BLKSIZE, PGSIZE.
    rewrite !u32_small by zdiv. apply s32_small. zdiv. }
  rewrite Hc. rewrite Z.quot_div_nonneg by lia. rewrite u16_small by zdiv.
  split_and!; try done; zdiv.
Qed.

Lemma slot_disjoint m ip i j o : file_wf m ip -> 0 <= i < NDIRECT -> 0 <= j < NDIRECT ->
  slot m ip i <> 0 -> i <> j -> 0 <= o < BLKSIZE ->
  ~ (blk_addr (slot m ip j) <= blk_addr (slot m ip i) + o < blk_addr (slot m ip j) + BLKSIZE).
Proof.
  intros Hwf Hi Hj Hne Hij Ho Hc. apply Hij, (wf_inj _ _ Hwf); try done.
  unfold blk_addr, BLKSIZE, PGSIZE in *. lia.
Qed.

Lemma write_chunk f ip buf pos n : fs_ok f -> inode_ptr ip -> file_wf (fl_mem f) ip ->
  let k := pos / BLKSIZE in
  0 <= k < NDIRECT -> slot (fl_mem f) ip k <> 0 -> client buf n ->
  0 < n <= BLKSIZE - pos mod BLKSIZE ->
  let d := blk_addr (slot (fl_mem f) ip k) + pos mod BLKSIZE in
  let g := fset_mem (memmove (fl_mem f) d buf n) f in
  grows ip f g /\
  (forall j, 0 <= j < NDIRECT -> slot (fl_mem g) ip j = slot (fl_mem f) ip j) /\
  (forall i, 0 <= i < MAXFILE -> slot (fl_mem f) ip (i / BLKSIZE) <> 0 ->
     fdata (fl_mem g) ip i = if decide (pos <= i < pos + n)
                             then load8 (fl_mem f) (buf + (i - pos)) else fdata (fl_mem f) ip i).
Proof.
  intros Hf Hip Hwf k Hk Hne (Hn0 & Hlo & Hhi & _) Hn d g.
  pose proof (Z.mod_pos_bound pos BLKSIZE ltac:(done)) as Hmod.
  pose proof (file_block_range f ip k Hf Hwf Hk Hne) as [Hr1 Hr2].
  assert (Hmm : forall x, load8 (fl_mem g) x =
    if decide (d <= x < d + n) then load8 (fl_mem f) (buf + (x - d)) else load8 (fl_mem f) x).
  { intros x. subst d. unfold PGSIZE in Hlo. apply memmove_load8; try lia.
    - change (blk_addr 2) with (DISKMAP + 8192) in Hr1. unfold DISKMAP in Hr1. lia.
    - change (DISKMAP + DISKSIZE) with 553656320 in Hr2. lia. }
  destruct (grows_data ip k f (fl_mem g) Hf Hip Hwf Hk Hne) as [Hg Hsl].
  { intros x Hx. rewrite Hmm, decide_False; [done|]. subst d. lia. }
  split; [exact Hg|]. split; [exact Hsl|]. intros i Hi Hi0.
  assert (Hik : 0 <= i / BLKSIZE < NDIRECT) by (unfold MAXFILE, BLKSIZE, PGSIZE, NDIRECT in *; zdiv).
  unfold fdata. rewrite Hsl by done. rewrite Hmm.
  destruct (decide (i / BLKSIZE = k)) as [Heq|Hneq].
  - rewrite Heq. subst d k.
    assert (He : i mod BLKSIZE - pos mod BLKSIZE = i - pos) by (unfold BLKSIZE, PGSIZE in *; zdiv).
    repeat case_decide; try lia; f_equal; lia.
  - pose proof (slot_disjoint _ _ (i / BLKSIZE) k (i mod BLKSIZE) Hwf Hik Hk Hi0 Hneq
      ltac:(by apply Z.mod_pos_bound)) as Hdis.
    rewrite decide_False by (subst d; lia). rewrite decide_False; [done|].
    subst k. unfold BLKSIZE, PGSIZE in *. zdiv.
Qed.

(** The bytes of the range are those of the buffer, the others are kept. *)
Definition wrote (ip buf pos stop : Z) (f g : flat) : Prop :=
  forall i, 0 <= i < MAXFILE ->
    if decide (pos <= i < stop)
    then slot (fl_mem g) ip (i / BLKSIZE) <> 0 /\
         fdata (fl_mem g) ip i = load8 (fl_mem f) (buf + (i - pos))
    else slot (fl_mem f) ip (i / BLKSIZE) <> 0 ->
         fdata (fl_mem g) ip i = fdata (fl_mem f) ip i.

Lemma wrote_none ip buf pos stop f : stop <= pos -> wrote ip buf pos stop f f.
Proof. intros H i Hi. by rewrite decide_False by lia. Qed.

Lemma grows_client ip f g buf n i : inode_ptr ip -> grows ip f g -> client buf n -> 0 <= i < n ->
  load8 (fl_mem g) (buf + i) = load8 (fl_mem f) (buf + i).
Proof.
  intros Hip Hg (_ & _ & _ & Hw) Hi. destruct (inode_below ip Hip) as [H1 H2].
  change (blk_addr 2) with (DISKMAP + 8192) in H2. unfold DISKSIZE, INSIZE in *.
  apply (gr_frame ip f g Hg).
  - unfold BLK_MAP, INO_MAP. lia.
  - unfold INSIZE. lia.
  - intros k Hk Hne.
    destruct (file_block_range g ip k (gr_ok _ _ _ Hg) (gr_wf _ _ _ Hg) Hk Hne) as [Hr1 Hr2].
    change (blk_addr 2) with (DISKMAP + 8192) in Hr1. unfold DISKSIZE in *. lia.
Qed.

Lemma meta_only_fdata ip f g i : inode_ptr ip -> file_wf (fl_mem f) ip -> grows ip f g ->
  meta_only ip f g -> 0 <= i < MAXFILE -> slot (fl_mem f) ip (i / BLKSIZE) <> 0 ->
  fdata (fl_mem g) ip i = fdata (fl_mem f) ip i.
Proof.
  intros Hip Hwf Hg Hm Hi Hne.
  assert (Hik : 0 <= i / BLKSIZE < NDIRECT) by (unfold MAXFILE, BLKSIZE, PGSIZE, NDIRECT in *; zdiv).
  unfold fdata. rewrite (gr_slot _ _ _ Hg) by done.
  apply meta_only_data; try done. by apply Z.mod_pos_bound.
Qed.

Lemma wrote_cons ip buf pos n stop f f1 f2 g :
  inode_ptr ip -> file_wf (fl_mem f) ip -> grows ip f f1 -> meta_only ip f f1 ->
  grows ip f f2 -> grows ip f2 g -> client buf (stop - pos) ->
  0 <= pos -> 0 < n <= BLKSIZE - pos mod BLKSIZE -> pos + n <= stop ->
  slot (fl_mem f1) ip (pos / BLKSIZE) <> 0 ->
  (forall j, 0 <= j < NDIRECT -> slot (fl_mem f2) ip j = slot (fl_mem f1) ip j) ->
  (forall i, 0 <= i < MAXFILE -> slot (fl_mem f1) ip (i / BLKSIZE) <> 0 ->
     fdata (fl_mem f2) ip i = if decide (pos <= i < pos + n)
                              then load8 (fl_mem f1) (buf + (i - pos)) else fdata (fl_mem f1) ip i) ->
  wrote ip (buf + n) (pos + n) stop f2 g -> wrote ip buf pos stop f g.
Proof.
  intros Hip Hwf Hg1 Hm1 Hg2 Hg3 Hc Hp Hn Hps Hne Hsl2 Hd2 Hw i Hi. specialize (Hw i Hi).
  assert (Hb : BLKSIZE = 4096) by done.
  assert (Hik : 0 <= i / BLKSIZE < NDIRECT)
    by (unfold MAXFILE, NDIRECT in *; rewrite Hb in *; zdiv).
  destruct (decide (pos + n <= i < stop)) as [Hin|Hout].
  { destruct Hw as [Hg0 ->]. rewrite decide_True by lia. split; [done|].
    replace (buf + n + (i - (pos + n))) with (buf + (i - pos)) by lia.
    apply (grows_client ip f f2 buf (stop - pos)); try done. lia. }
  assert (Hk : slot (fl_mem f1) ip (i / BLKSIZE) <> 0 -> fdata (fl_mem g) ip i =
    if decide (pos <= i < pos + n) then load8 (fl_mem f1) (buf + (i - pos))
    else fdata (fl_mem f1) ip i).
  { intros Hi0. rewrite Hw by (by rewrite Hsl2). by apply Hd2. }
  destruct (decide (pos <= i < stop)) as [Hin|Hin].
  - assert (Hi0 : slot (fl_mem f1) ip (i / BLKSIZE) <> 0).
    { replace (i / BLKSIZE) with (pos / BLKSIZE); [done|]. rewrite Hb in *. zdiv. }
    split.
    + rewrite (gr_slot _ _ _ Hg3) by (rewrite ?Hsl2; done). by rewrite Hsl2.
    + rewrite Hk by done. rewrite decide_True by lia.
      apply (grows_client ip f f1 buf (stop - pos)); try done. lia.
  - intros Hi0. rewrite Hk by (by rewrite (gr_slot _ _ _ Hg1)).
    rewrite decide_False by lia. by apply meta_only_fdata.
Qed.

Lemma file_write_loop_fwp fuel ip buf pos stop f :
  fs_ok f -> inode_ptr ip -> file_wf (fl_mem f) ip ->
  0 <= pos <= stop -> stop <= MAXFILE -> client buf (stop - pos) ->
  (pos < stop -> stop - pos + pos mod BLKSIZE <= BLKSIZE * Z.of_nat fuel) ->
  fwp (file_write_loop fuel ip buf pos stop) (fun r g =>
    grows ip f g /\
    ((r = Some (- E_NO_DISK) /\ disk_full g /\
      exists upto, pos <= upto < stop /\ wrote ip buf pos upto f g) \/
     (r = None /\ wrote ip buf pos stop f g))) f.
Proof.
  revert buf pos f. induction fuel as [|fuel IH]; intros buf pos f Hf Hip Hwf Hp Hs Hc Hfu;
    unfold file_write_loop; fold file_write_loop;
    (rewrite !u32_small by (unfold MAXFILE, NDIRECT, BLKSIZE, PGSIZE in *; lia));
    (destruct (Z.ltb_spec pos stop) as [Hlt|Hge];
     [|fstep; split; [by apply grows_refl|right; split; [done|apply wrote_none; lia]]]).
  { specialize (Hfu Hlt). pose proof (Z.mod_pos_bound pos BLKSIZE ltac:(done)). lia. }
  destruct (chunk_eq pos stop ltac:(lia) Hs) as (Hch & Hoff & -> & Hk & Hn0).
  rewrite Hoff. set (n := chunk pos stop) in *. set (k := pos / BLKSIZE) in *.
  pose proof (Z.mod_pos_bound pos BLKSIZE ltac:(done)) as Hmod.
  assert (Hn : n <= stop - pos /\ n <= BLKSIZE - pos mod BLKSIZE) by lia.
  assert (Hb : BLKSIZE = 4096) by done. unfold MAXFILE in Hs. unfold NDIRECT in Hs.
  rewrite (u32_small n), (s32_small (pos + n)) by lia.
  fstep. eapply fwp_mono; [by apply get_block_file|]. cbv beta.
  intros r f1 [(-> & -> & _ & Hfull)|(-> & Hne & Hg1 & Hm1)].
  { fstep. split; [by apply grows_refl|left]. split; [done|]. split; [done|].
    exists pos. split; [lia|apply wrote_none; lia]. }
  pose proof (gr_ok _ _ _ Hg1) as Hf1. pose proof (gr_wf _ _ _ Hg1) as Hwf1.
  assert (Hcn : client buf n) by (unfold client in *; lia).
  pose proof (write_chunk f1 ip buf pos n Hf1 Hip Hwf1 Hk Hne Hcn ltac:(lia)) as (Hg2 & Hsl2 & Hd2).
  fold k in Hg2, Hsl2, Hd2.
  set (f2 := fset_mem (memmove (fl_mem f1)
    (blk_addr (slot (fl_mem f1) ip k) + pos mod BLKSIZE) buf n) f1) in *.
  fstep. pose proof (file_block_range f1 ip k Hf1 Hwf1 Hk Hne) as [Hr1 Hr2].
  change (DISKMAP + DISKSIZE) with 553656320 in Hr2.
  change (blk_addr 2) with 268443648 in Hr1.
  apply fwp_move; try (unfold client, PGSIZE in Hcn; lia).
  { intros i Hi. by eapply client_ok. }
  { intros i Hi. rewrite <- Z.add_assoc. apply file_block_ok; try done. lia. }
  assert (Hg12 : grows ip f f2) by (by eapply grows_trans).
  eapply fwp_mono; [apply (IH (buf + n) (pos + n) f2)|].
  - apply (gr_ok _ _ _ Hg12).
  - done.
  - apply (gr_wf _ _ _ Hg12).
  - lia.
  - unfold MAXFILE, NDIRECT. lia.
  - apply (client_sub buf (stop - pos)); [done|lia|lia|lia].
  - intros Hlt2. specialize (Hfu Hlt). rewrite Hb in *. clear - Hlt2 Hch Hn0 Hfu Hlt Hmod. zdiv.
  - intros r g [Hg3 Hr]. split; [by eapply grows_trans|].
    destruct Hr as [(-> & Hfull & upto & Hup & Hw)|[-> Hw]]; [left|right]; (split; [done|]).
    + split; [done|]. exists upto. split; [lia|].
      assert (client buf (upto - pos)) by (clear -Hc Hup Hn0; unfold client in *; lia).
      eapply (wrote_cons ip buf pos n upto f f1 f2 g); try done; lia.
    + eapply (wrote_cons ip buf pos n stop f f1 f2 g); try done; lia.
Qed.
