(* ===== verification/FsRW.v ===== *)
(** * Reading and writing whole ranges: file_flush, file_write, file_read *)
From S2P Require Import Prelude Layout Mem CString FsMach DamnFS FsLogic FsBitmap FsFile.

(** ** Directory entries *)

(** [e] points at a directory entry, in a live block that is not one of the
    blocks of the file it names; [ip] is the inode it names. *)
Record entry_at (m : mem) (e ip : Z) : Prop := {
  en_lo : blk_addr (blk_of e) <= e;
  en_hi : e + DIRESIZE <= blk_addr (blk_of e) + BLKSIZE;
  en_blk : 2 <= blk_of e < MAXBLKNUM;
  en_live : live m (blk_of e);
  en_ip : ip = blk_addr 1 + INSIZE * load16 m (d_in_ind e);
  en_ino : load16 m (d_in_ind e) < MAXINODENUM;
  en_sep : forall k, 0 <= k < NDIRECT -> slot m ip k <> 0 -> slot m ip k <> blk_of e }.

Lemma entry_inode_ptr m e ip : entry_at m e ip -> inode_ptr ip.
Proof.
  intros H. exists (load16 m (d_in_ind e)). split; [|apply (en_ip _ _ _ H)].
  pose proof (load16_bound m (d_in_ind e)). pose proof (en_ino _ _ _ H). lia.
Qed.
Lemma entry_ok f e ip o : fs_ok f -> entry_at (fl_mem f) e ip -> 0 <= o < DIRESIZE ->
  flat_ok f (e + o) = true.
Proof.
  intros Hf [Hlo Hhi Hb Hl _ _ _] Ho.
  replace (e + o) with (blk_addr (blk_of e) + (e + o - blk_addr (blk_of e))) by lia.
  apply flat_ok_live; [by apply ok_super|apply (ok_blk_num f Hf)|done|lia].
Qed.
Lemma entry_window m e ip : entry_at m e ip -> window e = true.
Proof.
  intros [Hlo Hhi Hb _ _ _ _].
  replace e with (blk_addr (blk_of e) + (e - blk_addr (blk_of e))) by lia.
  unfold DIRESIZE in *. apply blk_addr_of; [apply blk_range; lia|lia].
Qed.
Lemma fwp_entry_inode f e ip Q : fs_ok f -> entry_at (fl_mem f) e ip -> Q ip f ->
  fwp (entry_inode e) Q f.
Proof.
  intros Hf He HQ. unfold entry_inode, inode_of, d_in_ind, MAXNAMELEN. fstep. fstep.
  - by eapply entry_ok.
  - rewrite <- Z.add_assoc. by eapply entry_ok.
  - fstep. fstep. fstep. rewrite (ok_inodes f Hf). by rewrite (en_ip _ _ _ He) in HQ.
Qed.

(** The entry is the same where the bytes it depends on are. *)
Lemma entry_at_ext m m' e ip : entry_at m e ip ->
  live m' (blk_of e) ->
  (forall x, blk_addr (blk_of e) <= x < blk_addr (blk_of e) + BLKSIZE -> load8 m' x = load8 m x) ->
  (forall k, 0 <= k < NDIRECT -> slot m' ip k <> 0 -> slot m' ip k <> blk_of e) ->
  entry_at m' e ip.
Proof.
  intros [Hlo Hhi Hb Hl Hip Hi Hs] Hl' Hm Hs'. unfold DIRESIZE in *.
  assert (He : load16 m' (d_in_ind e) = load16 m (d_in_ind e))
    by (apply load16_ext; apply Hm; unfold d_in_ind, MAXNAMELEN; lia).
  split; try done; by rewrite He.
Qed.

Lemma grows_entry ip f g e : fs_ok f -> grows ip f g -> entry_at (fl_mem f) e ip ->
  entry_at (fl_mem g) e ip.
Proof.
  intros Hf Hg He. destruct (en_live _ _ _ He) as [Hl Hlu]. pose proof (en_blk _ _ _ He) as Hb.
  assert (Hsep : forall k, 0 <= k < NDIRECT -> slot (fl_mem g) ip k <> 0 ->
    slot (fl_mem g) ip k <> blk_of e).
  { intros k Hk Hne. destruct (decide (slot (fl_mem f) ip k = 0)) as [H0|H0].
    - pose proof (gr_new _ _ _ Hg k Hk H0 Hne) as Hu. intros Heq. rewrite Heq in Hu. congruence.
    - rewrite (gr_slot _ _ _ Hg) by done. by apply (en_sep _ _ _ He). }
  eapply entry_at_ext; [exact He| | |done].
  - split; [by rewrite (gr_num _ _ _ Hg)|]. apply (gr_used _ _ _ Hg); [lia|done].
  - intros x Hx. destruct (inode_below ip (entry_inode_ptr _ _ _ He)) as [H1 H2].
    pose proof (blk_addr_mono 2 (blk_of e) ltac:(lia)) as H3.
    unfold INSIZE, BLKSIZE, PGSIZE in *. apply (gr_frame _ _ _ Hg).
    + right. unfold INO_MAP. lia.
    + unfold INSIZE. lia.
    + intros k Hk Hne. specialize (Hsep k Hk Hne). unfold blk_addr, BLKSIZE, PGSIZE in *. lia.
Qed.

(** ** file_flush *)

(** Nothing but the disk changed, and what was on disk still is. *)
Record flushes (f g : flat) : Prop := {
  fl_same_mem : fl_mem g = fl_mem f;
  fl_same_super : fl_super g = fl_super f;
  fl_same_inodes : fl_inodes g = fl_inodes f;
  fl_mono : forall b, synced f b -> synced g b }.
Lemma flushes_refl f : flushes f f.
Proof. done. Qed.
Lemma flushes_fflush f g b : flushes f g -> flushes f (fflush b g).
Proof. intros [Hm Hs Hi Hy]. split; try done. intros c Hc. by apply fflush_synced_mono, Hy. Qed.
Lemma flushes_ok f g : fs_ok f -> flushes f g -> fs_ok g.
Proof. intros Hf [Hm Hs Hi _]. apply (fs_ok_ext f); try done. by rewrite Hm. Qed.

Definition nblocks (size : Z) : Z := (size + BLKSIZE - 1) / BLKSIZE.

Lemma file_flush_fwp f e ip : fs_ok f -> entry_at (fl_mem f) e ip -> file_wf (fl_mem f) ip ->
  fwp (file_flush e) (fun _ g =>
    flushes f g /\ synced g 1 /\ synced g (blk_of e) /\
    forall k, 0 <= k < NDIRECT -> k < nblocks (isize (fl_mem f) ip) ->
      slot (fl_mem f) ip k <> 0 -> synced g (slot (fl_mem f) ip k)) f.
Proof.
  intros Hf He Hwf. pose proof (entry_inode_ptr _ _ _ He) as Hip.
  pose proof (load16_bound (fl_mem f) (i_size ip)) as Hsz. change (load16 _ _) with (isize (fl_mem f) ip) in Hsz.
  destruct (inode_ptr_flush ip Hip) as [Hw1 Hb1].
  unfold file_flush. fstep. eapply fwp_entry_inode; [done|done|]. fstep.
  apply (fwp_ploop (fun i g => 0 <= i <= nblocks (isize (fl_mem f) ip) /\ flushes f g /\
    forall k, 0 <= k < NDIRECT -> k < i -> slot (fl_mem f) ip k <> 0 ->
      synced g (slot (fl_mem f) ip k)) (nblocks (isize (fl_mem f) ip))).
  - intros i g. lia.
  - split; [unfold nblocks, BLKSIZE, PGSIZE; zdiv|]. split; [done|lia].
  - unfold loop_fuel, nblocks, BLKSIZE, PGSIZE. zdiv.
  - intros i g _ (Hi & Hg & Hk). pose proof (flushes_ok _ _ Hf Hg) as Hgok.
    pose proof (fl_same_mem _ _ Hg) as Hm.
    fstep. apply fwp_ld16_inode; [done|done|done|done|]. fstep. rewrite Hm.
    change (load16 (fl_mem f) (ip + 2)) with (isize (fl_mem f) ip).
    fold (nblocks (isize (fl_mem f) ip)).
    destruct (Z.ltb_spec i (nblocks (isize (fl_mem f) ip))) as [Hlt|Hge].
    2:{ fstep. fstep; [done|]. fstep; [by eapply entry_window|]. rewrite Hb1.
        split; [by do 2 apply flushes_fflush|]. split; [auto with dos|]. split; [auto with dos|].
        intros k Hk1 Hk2 Hk3. do 2 apply fflush_synced_mono. apply Hk; [done|lia|done]. }
    split; [done|]. rewrite u16_small by (unfold nblocks, BLKSIZE, PGSIZE in *; zdiv).
    unfold file_block_walk. destruct (Z.ltb_spec i NDIRECT) as [Hin|Hout].
    2:{ fstep. split; [lia|]. split; [done|]. intros k Hk1 Hk2. apply Hk; [done|lia]. }
    change (i_blk_ind ip i) with (ip + 6 + 2 * i). rewrite <- Z.add_assoc.
    assert (Hio : 6 + 2 * i + 2 <= INSIZE) by (unfold INSIZE, NDIRECT in *; lia).
    fstep. apply fwp_ld16_inode; [done|done|lia|done|]. rewrite Hm.
    assert (Hsl : load16 (fl_mem f) (ip + (6 + 2 * i)) = slot (fl_mem f) ip i)
      by (unfold slot, i_blk_ind; f_equal; lia).
    rewrite Hsl. destruct (Z.eqb_spec (slot (fl_mem f) ip i) 0) as [H0|H0].
    { fstep. split; [lia|]. split; [done|]. intros k Hk1 Hk2 Hk3.
      destruct (decide (k = i)) as [->|]; [done|]. apply Hk; [done|lia|done]. }
    fstep. apply fwp_ld16_inode; [done|done|lia|done|]. rewrite Hm, Hsl.
    destruct (wf_live _ _ Hwf i ltac:(lia) H0) as [H2 [Hl Hlu]].
    pose proof (blk_range (slot (fl_mem f) ip i)) as Hr. pose proof (ok_blk_num f Hf).
    destruct (blk_addr_of (slot (fl_mem f) ip i) 0) as [Hw Hbo]; [apply Hr; lia|done|].
    rewrite Z.add_0_r in Hw, Hbo.
    fstep. apply fwp_diskaddr; [done|rewrite Hm; lia|]. fstep. fstep; [done|]. fstep. rewrite Hbo.
    split; [lia|]. split; [by apply flushes_fflush|]. intros k Hk1 Hk2 Hk3.
    destruct (decide (k = i)) as [->|]; [auto with dos|].
    apply fflush_synced_mono, Hk; [done|lia|done].
Qed.

(** ** Growing a file *)

(** Only the size of inode [ip] changed in memory. *)
Definition size_only (ip size : Z) (f g : flat) : Prop :=
  fl_super g = fl_super f /\ fl_inodes g = fl_inodes f /\ isize (fl_mem g) ip = size /\
  forall x, x < ip + 2 \/ ip + 4 <= x -> load8 (fl_mem g) x = load8 (fl_mem f) x.

Lemma size_only_keeps ip size f g e : fs_ok f -> entry_at (fl_mem f) e ip ->
  file_wf (fl_mem f) ip -> size_only ip size f g ->
  fs_ok g /\ entry_at (fl_mem g) e ip /\ file_wf (fl_mem g) ip /\
  (forall k, 0 <= k < NDIRECT -> slot (fl_mem g) ip k = slot (fl_mem f) ip k) /\
  (forall i, 0 <= i < MAXFILE -> slot (fl_mem f) ip (i / BLKSIZE) <> 0 ->
     fdata (fl_mem g) ip i = fdata (fl_mem f) ip i).
Proof.
  intros Hf He Hwf (Hs & Hi & _ & Hm). pose proof (entry_inode_ptr _ _ _ He) as Hip.
  destruct (inode_below ip Hip) as [H1 H2]. unfold INSIZE in *.
  pose proof (en_blk _ _ _ He) as Hb. pose proof (ok_blk_num f Hf) as Hn.
  assert (Hlow : forall x, DISKMAP <= x < DISKMAP + 4096 -> load8 (fl_mem g) x = load8 (fl_mem f) x)
    by (intros x Hx; apply Hm; lia).
  assert (Hsl : forall k, 0 <= k < NDIRECT -> slot (fl_mem g) ip k = slot (fl_mem f) ip k)
    by (intros k Hk; apply load16_ext; apply Hm; unfold i_blk_ind; lia).
  assert (Hlive : forall b, 0 <= b < MAXBLKNUM -> live (fl_mem f) b -> live (fl_mem g) b).
  { intros b Hbb. apply live_ext; [done|]. intros x Hx. symmetry. apply Hlow.
    unfold INO_MAP in *. lia. }
  split; [by apply (fs_ok_ext f)|]. split; [|split; [|split; [done|]]].
  - pose proof (blk_addr_mono 2 (blk_of e) ltac:(lia)) as H3.
    eapply entry_at_ext; [exact He| | |].
    + apply Hlive; [lia|apply (en_live _ _ _ He)].
    + intros x Hx. apply Hm. lia.
    + intros k Hk. rewrite Hsl by done. by apply (en_sep _ _ _ He).
  - split.
    + intros k Hk. rewrite Hsl by done. intros Hne.
      destruct (wf_live _ _ Hwf k Hk Hne) as [Hk2 Hl]. split; [done|].
      apply Hlive; [destruct Hl; lia|done].
    + intros k k' Hk Hk'. rewrite !Hsl by done. by apply (wf_inj _ _ Hwf).
  - intros i Hi' Hne.
    assert (Hik : 0 <= i / BLKSIZE < NDIRECT) by (unfold MAXFILE, BLKSIZE, PGSIZE, NDIRECT in *; zdiv).
    unfold fdata. rewrite Hsl by done. apply Hm. right.
    pose proof (data_above _ _ _ Hwf Hik Hne). pose proof (Z.mod_pos_bound i BLKSIZE ltac:(done)). lia.
Qed.

(** [file_set_size] when the file does not shrink. *)
Lemma file_set_size_grow f e ip size : fs_ok f -> entry_at (fl_mem f) e ip ->
  isize (fl_mem f) ip <= size < 65536 ->
  fwp (file_set_size e size) (fun r g => r = 0 /\ size_only ip size f g) f.
Proof.
  intros Hf He Hsz. pose proof (entry_inode_ptr _ _ _ He) as Hip.
  pose proof (load16_bound (fl_mem f) (ip + 2)) as Hb16.
  unfold file_set_size. fstep. eapply fwp_entry_inode; [done|done|]. fstep.
  apply fwp_ld16_inode; [done|done|done|done|].
  change (load16 (fl_mem f) (ip + 2)) with (isize (fl_mem f) ip) in *.
  rewrite Z.gtb_ltb, (proj2 (Z.ltb_ge _ _)) by lia.
  fstep. fstep. fstep. apply fwp_st16_inode; [done|done|done|done|].
  fstep. fstep; [by eapply entry_window|]. fstep. split; [done|].
  split; [done|]. split; [done|]. simpl. split.
  - unfold isize, i_size. rewrite load16_store16_eq. apply u16_small. lia.
  - intros x Hx. apply load8_store16_ne. lia.
Qed.

(** ** file_write *)

Definition in_range_synced (g : flat) (ip pos stop : Z) : Prop :=
  forall i, pos <= i < stop -> synced g (slot (fl_mem g) ip (i / BLKSIZE)).

(** No byte outside the disk window changed. *)
Definition outside_same (f g : flat) : Prop :=
  forall x, window x = false -> load8 (fl_mem g) x = load8 (fl_mem f) x.
Lemma grows_outside ip f g : inode_ptr ip -> grows ip f g -> outside_same f g.
Proof.
  intros Hip Hg x Hx. destruct (inode_below ip Hip) as [H1 H2].
  assert (Ho : x < DISKMAP \/ DISKMAP + DISKSIZE <= x).
  { destruct (decide (DISKMAP <= x < DISKMAP + DISKSIZE)) as [Hin|]; [|lia].
    apply window_iff in Hin. congruence. }
  change (blk_addr 2) with (DISKMAP + 8192) in H2.
  unfold INSIZE in *. apply (gr_frame _ _ _ Hg).
  - unfold BLK_MAP, INO_MAP, DISKSIZE in *. lia.
  - unfold INSIZE, DISKSIZE in *. lia.
  - intros k Hk Hne. pose proof (file_block_range _ _ _ (gr_ok _ _ _ Hg) (gr_wf _ _ _ Hg) Hk Hne) as [Hr1 Hr2].
    change (blk_addr 2) with (DISKMAP + 8192) in Hr1. lia.
Qed.

(** What belongs to other files: every block in use that is not the file's, the
    other inodes, the super block and the bits of the blocks in use. *)
Record others_kept (ip : Z) (f g : flat) : Prop := {
  ot_block : forall b o, 2 <= b < MAXBLKNUM -> used (fl_mem f) b = true ->
    (forall k, 0 <= k < NDIRECT -> slot (fl_mem f) ip k <> b) -> 0 <= o < BLKSIZE ->
    load8 (fl_mem g) (blk_addr b + o) = load8 (fl_mem f) (blk_addr b + o);
  ot_meta : forall x, x < BLK_MAP \/ INO_MAP <= x -> x < ip + 2 \/ ip + INSIZE <= x ->
    x < blk_addr 2 -> load8 (fl_mem g) x = load8 (fl_mem f) x;
  ot_used : forall b, 0 <= b < MAXBLKNUM -> used (fl_mem f) b = true -> used (fl_mem g) b = true }.
Lemma grows_others ip size f f1 g : inode_ptr ip -> size_only ip size f f1 ->
  (forall k, 0 <= k < NDIRECT -> slot (fl_mem f1) ip k = slot (fl_mem f) ip k) ->
  grows ip f1 g -> others_kept ip f g.
Proof.
  intros Hip (_ & _ & _ & Hm1) Hsl1 Hg. destruct (inode_below ip Hip) as [H1 H2].
  change (blk_addr 2) with (DISKMAP + 8192) in *. unfold INSIZE in *.
  assert (Hu1 : forall b, 0 <= b < MAXBLKNUM -> used (fl_mem f1) b = used (fl_mem f) b).
  { intros b Hb. apply bit_used_ext, Hm1. unfold BLK_MAP, MAXBLKNUM in *. zdiv. }
  split.
  - intros b o Hb Hu Hno Ho. set (x := blk_addr b + o).
    assert (Hx : DISKMAP + 8192 <= x) by (unfold x, blk_addr, BLKSIZE, PGSIZE in *; lia).
    rewrite (gr_frame _ _ _ Hg); [apply Hm1; lia|unfold INO_MAP; lia|unfold INSIZE; lia|].
    intros k Hk Hne. assert (slot (fl_mem g) ip k <> b).
    { destruct (decide (slot (fl_mem f1) ip k = 0)) as [H0|H0].
      - pose proof (gr_new _ _ _ Hg k Hk H0 Hne) as Hu'. intros E. rewrite E, Hu1 in Hu' by lia. congruence.
      - rewrite (gr_slot _ _ _ Hg), Hsl1 by done. by apply Hno. }
    unfold x, blk_addr, BLKSIZE, PGSIZE in *. lia.
  - unfold INSIZE. intros x Hx Hi Hlt. change (blk_addr 2) with (DISKMAP + 8192) in Hlt. rewrite (gr_frame _ _ _ Hg); [apply Hm1; lia|done|unfold INSIZE; lia|].
    intros k Hk Hne. destruct (file_block_range _ _ _ (gr_ok _ _ _ Hg) (gr_wf _ _ _ Hg) Hk Hne) as [Hr _].
    change (blk_addr 2) with (DISKMAP + 8192) in Hr. lia.
  - intros b Hb Hu. apply (gr_used _ _ _ Hg); [done|]. by rewrite Hu1.
Qed.

Lemma wrote_size ip size buf n pos stop f f1 g :
  inode_ptr ip -> client buf n -> stop <= pos + n -> size_only ip size f f1 ->
  (forall k, 0 <= k < NDIRECT -> slot (fl_mem f1) ip k = slot (fl_mem f) ip k) ->
  (forall i, 0 <= i < MAXFILE -> slot (fl_mem f) ip (i / BLKSIZE) <> 0 ->
     fdata (fl_mem f1) ip i = fdata (fl_mem f) ip i) ->
  wrote ip buf pos stop f1 g -> wrote ip buf pos stop f g.
Proof.
  intros Hip Hc Hn (_ & _ & _ & Hm1) Hsl1 Hd1 Hw i Hi. specialize (Hw i Hi).
  assert (0 <= i / BLKSIZE < NDIRECT)
    by (unfold MAXFILE, NDIRECT in *; change BLKSIZE with 4096 in *; zdiv).
  case_decide as Hin.
  - destruct Hw as [Hw0 ->]. split; [done|]. apply Hm1.
    destruct Hc as (_ & _ & _ & Hcw). destruct (inode_below ip Hip) as [H1 H2].
    change (blk_addr 2) with (DISKMAP + 8192) in H2. unfold INSIZE, DISKSIZE in *. lia.
  - rewrite Hsl1 in Hw by done. intros Hne. rewrite <- Hd1 by done. by apply Hw.
Qed.

Lemma file_write_fwp f e ip buf count offset :
  fs_ok f -> entry_at (fl_mem f) e ip -> file_wf (fl_mem f) ip ->
  client buf count -> 0 <= offset -> offset + count <= MAXFILE ->
  fwp (file_write e buf count offset) (fun r g =>
    fs_ok g /\ file_wf (fl_mem g) ip /\ entry_at (fl_mem g) e ip /\
    isize (fl_mem g) ip = Z.max (isize (fl_mem f) ip) (offset + count) /\
    (forall i, 0 <= i < MAXFILE -> slot (fl_mem f) ip (i / BLKSIZE) <> 0 ->
       slot (fl_mem g) ip (i / BLKSIZE) = slot (fl_mem f) ip (i / BLKSIZE)) /\
    outside_same f g /\ others_kept ip f g /\
    ((r = - E_NO_DISK /\ disk_full g /\
      exists upto, offset <= upto < offset + count /\ wrote ip buf offset upto f g) \/
     (r = count /\ wrote ip buf offset (offset + count) f g /\
      in_range_synced g ip offset (offset + count) /\ synced g 1 /\ synced g (blk_of e)))) f.
Proof.
  intros Hf He Hwf Hc Ho Hoc. pose proof (entry_inode_ptr _ _ _ He) as Hip.
  pose proof (load16_bound (fl_mem f) (ip + 2)) as Hb16.
  change (load16 (fl_mem f) (ip + 2)) with (isize (fl_mem f) ip) in Hb16.
  assert (HM : MAXFILE = 53248) by done.
  assert (Hcount : 0 <= count) by (by destruct Hc).
  unfold file_write. fstep. eapply fwp_entry_inode; [done|done|]. fstep.
  apply fwp_ld16_inode; [done|done|done|done|].
  change (load16 (fl_mem f) (ip + 2)) with (isize (fl_mem f) ip).
  rewrite u32_small, !s32_small by lia. fstep.
  set (nsize := Z.max (isize (fl_mem f) ip) (offset + count)).
  apply fwp_mono with (fun r f1 => r = 0 /\ size_only ip nsize f f1).
  { rewrite Z.gtb_ltb. destruct (Z.ltb_spec (isize (fl_mem f) ip) (offset + count)).
    - unfold nsize. rewrite Z.max_r by lia. apply file_set_size_grow; [done|done|lia].
    - fstep. split; [done|]. split; [done|]. split; [done|]. split; [unfold nsize; lia|done]. }
  intros r f1 [-> Hso]. change (0 <? 0) with false. cbv iota.
  destruct (size_only_keeps _ _ _ _ _ Hf He Hwf Hso) as (Hf1 & He1 & Hwf1 & Hsl1 & Hd1).
  pose proof Hso as (_ & _ & Hsz1 & Hm1).
  fstep. eapply fwp_mono; [apply file_write_loop_fwp; try done; try lia|].
  { by replace (offset + count - offset) with count by lia. }
  { intros _. pose proof (Z.mod_pos_bound offset BLKSIZE ltac:(done)).
    change BLKSIZE with 4096 in *. lia. }
  cbv beta. intros r g [Hg Hr].
  pose proof (grows_entry _ _ _ _ Hf1 Hg He1) as Heg.
  pose proof (grows_size _ _ _ Hip Hg) as Hszg. rewrite Hsz1 in Hszg.
  assert (Hslg : forall i, 0 <= i < MAXFILE -> slot (fl_mem f) ip (i / BLKSIZE) <> 0 ->
       slot (fl_mem g) ip (i / BLKSIZE) = slot (fl_mem f) ip (i / BLKSIZE)).
  { intros i Hi. change BLKSIZE with 4096. rewrite HM in Hi.
    assert (0 <= i / 4096 < NDIRECT) by (unfold NDIRECT; zdiv).
    rewrite <- (Hsl1 (i / 4096)) by done. by apply (gr_slot _ _ _ Hg). }
  assert (Hout : outside_same f g).
  { intros x Hx. rewrite (grows_outside _ _ _ Hip Hg x Hx). apply Hm1.
    destruct (inode_below ip Hip) as [H1 H2]. unfold INSIZE, DISKSIZE in *.
    change (blk_addr 2) with (DISKMAP + 8192) in H2.
    destruct (decide (DISKMAP <= x < DISKMAP + DISKSIZE)) as [Hin|]; [apply window_iff in Hin; congruence|].
    unfold DISKSIZE in *. lia. }
  pose proof (grows_others ip nsize f f1 g Hip Hso Hsl1 Hg) as Hot.
  assert (Hws : forall upto, upto <= offset + count -> wrote ip buf offset upto f1 g ->
    wrote ip buf offset upto f g) by (intros upto Hup; by apply (wrote_size ip nsize buf count offset upto f f1)).
  destruct Hr as [(-> & Hfull & upto & Hup & Hw)|[-> Hw]].
  { fstep. split; [apply (gr_ok _ _ _ Hg)|]. split; [apply (gr_wf _ _ _ Hg)|].
    split_and!; try done. left. split_and!; [done|done|]. exists upto. split; [done|]. apply Hws; [lia|done]. }
  specialize (Hws (offset + count) ltac:(lia) Hw).
  fstep. eapply fwp_mono; [apply file_flush_fwp; [apply (gr_ok _ _ _ Hg)|exact Heg|apply (gr_wf _ _ _ Hg)]|].
  cbv beta. intros [] h (Hh & Hy1 & Hye & Hyk). fstep.
  pose proof (flushes_ok _ _ (gr_ok _ _ _ Hg) Hh) as Hokh. pose proof (fl_same_mem _ _ Hh) as Hmh.
  assert (Hot' : others_kept ip f h) by (destruct Hot; split; by rewrite Hmh).
  unfold in_range_synced, wrote, outside_same in *. rewrite Hmh. split; [done|].
  split; [apply (gr_wf _ _ _ Hg)|]. split_and!; try done. right. split_and!; try done.
  intros i Hi. specialize (Hw i ltac:(lia)). rewrite decide_True in Hw by lia.
  apply Hyk; [change BLKSIZE with 4096; unfold NDIRECT; zdiv| |apply Hw].
  rewrite Hszg. unfold nblocks, nsize. change BLKSIZE with 4096. zdiv.
Qed.

(** ** file_read *)

Definition client_only (buf n : Z) (f g : flat) : Prop :=
  forall x, x < buf \/ buf + n <= x -> load8 (fl_mem g) x = load8 (fl_mem f) x.
Definition has_blocks (m : mem) (ip pos stop : Z) : Prop :=
  forall i, pos <= i < stop -> slot m ip (i / BLKSIZE) <> 0.

(** The file system is the same where the disk window is. *)
Lemma window_same_keeps ip f g : fs_ok f -> inode_ptr ip -> file_wf (fl_mem f) ip ->
  (forall x, window x = true -> load8 (fl_mem g) x = load8 (fl_mem f) x) ->
  fl_super g = fl_super f -> fl_inodes g = fl_inodes f ->
  fs_ok g /\ file_wf (fl_mem g) ip /\
  (forall k, 0 <= k < NDIRECT -> slot (fl_mem g) ip k = slot (fl_mem f) ip k) /\
  (forall i, 0 <= i < MAXFILE -> slot (fl_mem f) ip (i / BLKSIZE) <> 0 ->
     fdata (fl_mem g) ip i = fdata (fl_mem f) ip i).
Proof.
  intros Hf Hip Hwf Hw Hs Hi. pose proof (ok_blk_num f Hf) as Hn.
  assert (Hlow : forall x, DISKMAP <= x < DISKMAP + 8192 -> load8 (fl_mem g) x = load8 (fl_mem f) x).
  { intros x Hx. apply Hw, window_iff. unfold DISKSIZE. lia. }
  destruct (inode_below ip Hip) as [H1 H2]. change (blk_addr 2) with (DISKMAP + 8192) in H2.
  unfold INSIZE in *.
  assert (Hsl : forall k, 0 <= k < NDIRECT -> slot (fl_mem g) ip k = slot (fl_mem f) ip k).
  { intros k Hk. unfold NDIRECT in *. apply load16_ext; apply Hlow; unfold i_blk_ind; lia. }
  split; [|split; [|split; [done|]]].
  - apply (fs_ok_ext f); try done. intros x Hx. apply Hlow. unfold BLKSIZE, PGSIZE in *. lia.
  - split.
    + intros k Hk. rewrite Hsl by done. intros Hne.
      destruct (wf_live _ _ Hwf k Hk Hne) as [Hk2 Hl]. split; [done|].
      eapply live_ext; [|intros; symmetry; apply Hlow; unfold INO_MAP in *; lia|exact Hl].
      destruct Hl; lia.
    + intros k k' Hk Hk'. rewrite !Hsl by done. by apply (wf_inj _ _ Hwf).
  - intros i Hi' Hne.
    assert (Hik : 0 <= i / BLKSIZE < NDIRECT) by (unfold MAXFILE, BLKSIZE, PGSIZE, NDIRECT in *; zdiv).
    unfold fdata. rewrite Hsl by done. apply Hw, window_iff.
    pose proof (file_block_range _ _ _ Hf Hwf Hik Hne) as [Hr1 Hr2].
    change (blk_addr 2) with (DISKMAP + 8192) in Hr1.
    pose proof (Z.mod_pos_bound i BLKSIZE ltac:(done)). lia.
Qed.

(** Writing the client's buffer leaves the file system alone. *)
Lemma client_only_window buf n f g x : client buf n -> client_only buf n f g ->
  window x = true -> load8 (fl_mem g) x = load8 (fl_mem f) x.
Proof. intros (_ & _ & _ & Hc) Hm [H1 H2]%window_iff. apply Hm. lia. Qed.
Lemma client_only_keeps ip buf n f g : fs_ok f -> inode_ptr ip -> file_wf (fl_mem f) ip ->
  client buf n -> client_only buf n f g -> fl_super g = fl_super f -> fl_inodes g = fl_inodes f ->
  fs_ok g /\ file_wf (fl_mem g) ip /\
  (forall k, 0 <= k < NDIRECT -> slot (fl_mem g) ip k = slot (fl_mem f) ip k) /\
  (forall i, 0 <= i < MAXFILE -> slot (fl_mem f) ip (i / BLKSIZE) <> 0 ->
     fdata (fl_mem g) ip i = fdata (fl_mem f) ip i).
Proof. intros Hf Hip Hwf Hc Hm. apply window_same_keeps; [done..|]. intros x. by eapply client_only_window. Qed.

Lemma read_chunk f ip buf pos n : fs_ok f -> file_wf (fl_mem f) ip ->
  let k := pos / BLKSIZE in
  0 <= k < NDIRECT -> slot (fl_mem f) ip k <> 0 -> client buf n ->
  0 < n <= BLKSIZE - pos mod BLKSIZE ->
  let s := blk_addr (slot (fl_mem f) ip k) + pos mod BLKSIZE in
  let g := fset_mem (memmove (fl_mem f) buf s n) f in
  client_only buf n f g /\
  (forall i, pos <= i < pos + n -> load8 (fl_mem g) (buf + (i - pos)) = fdata (fl_mem f) ip i).
Proof.
  intros Hf Hwf k Hk Hne (Hn0 & Hlo & Hhi & _) Hn s g.
  pose proof (Z.mod_pos_bound pos BLKSIZE ltac:(done)) as Hmod.
  pose proof (file_block_range f ip k Hf Hwf Hk Hne) as [Hr1 Hr2].
  assert (Hmm : forall x, load8 (fl_mem g) x =
    if decide (buf <= x < buf + n) then load8 (fl_mem f) (s + (x - buf)) else load8 (fl_mem f) x).
  { intros x. subst s. unfold PGSIZE in Hlo. apply memmove_load8; try lia.
    - change (blk_addr 2) with 268443648 in Hr1. lia.
    - change (DISKMAP + DISKSIZE) with 553656320 in Hr2. lia. }
  split.
  - intros x Hx. by rewrite Hmm, decide_False by lia.
  - intros i Hi. rewrite Hmm, decide_True by lia. unfold fdata.
    assert (Heq : i / BLKSIZE = k /\ i mod BLKSIZE = pos mod BLKSIZE + (i - pos))
      by (subst k; change BLKSIZE with 4096 in *; zdiv).
    destruct Heq as [-> ->]. f_equal. subst s. lia.
Qed.

Lemma file_read_loop_fwp fuel ip buf pos stop f :
  fs_ok f -> inode_ptr ip -> file_wf (fl_mem f) ip -> has_blocks (fl_mem f) ip pos stop ->
  0 <= pos <= stop -> stop <= MAXFILE -> client buf (stop - pos) ->
  (pos < stop -> stop - pos + pos mod BLKSIZE <= BLKSIZE * Z.of_nat fuel) ->
  fwp (file_read_loop fuel ip buf pos stop) (fun r g =>
    r = None /\ fs_ok g /\ file_wf (fl_mem g) ip /\ client_only buf (stop - pos) f g /\
    forall i, pos <= i < stop -> load8 (fl_mem g) (buf + (i - pos)) = fdata (fl_mem f) ip i) f.
Proof.
  revert buf pos f. induction fuel as [|fuel IH]; intros buf pos f Hf Hip Hwf Hbl Hp Hs Hc Hfu;
    unfold file_read_loop; fold file_read_loop;
    (rewrite !u32_small by (unfold MAXFILE, NDIRECT, BLKSIZE, PGSIZE in *; lia));
    (destruct (Z.ltb_spec pos stop) as [Hlt|Hge];
     [|fstep; split_and!; [done|done|done|done|intros; lia]]).
  { specialize (Hfu Hlt). pose proof (Z.mod_pos_bound pos BLKSIZE ltac:(done)). lia. }
  destruct (chunk_eq pos stop ltac:(lia) Hs) as (Hch & Hoff & -> & Hk & Hn0).
  rewrite Hoff. set (n := chunk pos stop) in *. set (k := pos / BLKSIZE) in *.
  pose proof (Z.mod_pos_bound pos BLKSIZE ltac:(done)) as Hmod.
  assert (Hn : n <= stop - pos /\ n <= BLKSIZE - pos mod BLKSIZE) by lia.
  assert (Hb : BLKSIZE = 4096) by done. unfold MAXFILE in Hs. unfold NDIRECT in Hs.
  rewrite (u32_small n), (s32_small (pos + n)) by lia.
  assert (Hne : slot (fl_mem f) ip k <> 0) by (apply Hbl; lia).
  fstep. eapply fwp_mono; [apply file_get_block_fwp; [done|done|done|]|].
  { destruct (wf_live _ _ Hwf k Hk Hne) as [_ [Hl _]]. lia. }
  cbv beta. intros r f1 [(_ & -> & ->)|[(H0 & _)|(H0 & _)]]; [|done|done].
  assert (Hcn : client buf n) by (unfold client in *; lia).
  assert (Hf1 : fs_ok (fflush 1 f)) by (by apply fflush_ok).
  destruct (read_chunk (fflush 1 f) ip buf pos n Hf1 Hwf Hk Hne Hcn ltac:(lia)) as [Hco Hrd].
  fold k in Hco, Hrd. simpl fl_mem in Hco, Hrd |- *.
  pose proof (file_block_range f ip k Hf Hwf Hk Hne) as [Hr1 Hr2].
  change (DISKMAP + DISKSIZE) with 553656320 in Hr2.
  change (blk_addr 2) with 268443648 in Hr1.
  fstep. apply fwp_move; try (unfold client, PGSIZE in Hcn; lia).
  { intros i Hi. rewrite <- Z.add_assoc. apply (file_block_ok (fflush 1 f)); try done. lia. }
  { intros i Hi. by eapply client_ok. }
  set (f2 := fset_mem _ _). change (client_only buf n f f2) in Hco.
  destruct (client_only_keeps ip buf n f f2 Hf Hip Hwf Hcn Hco) as (Hf2 & Hwf2 & Hsl2 & Hd2);
    [done|done|].
  assert (Hik : forall i, pos <= i < stop -> 0 <= i / BLKSIZE < NDIRECT)
    by (intros i Hi; unfold NDIRECT; rewrite Hb in *; zdiv).
  eapply fwp_mono; [apply (IH (buf + n) (pos + n) f2); [done|done|done| |lia| | |]|].
  - intros i Hi. rewrite Hsl2 by (apply Hik; lia). apply Hbl. lia.
  - unfold MAXFILE, NDIRECT. lia.
  - apply (client_sub buf (stop - pos)); [done|lia|lia|lia].
  - intros Hlt2. specialize (Hfu Hlt). rewrite Hb in *. clear - Hlt2 Hch Hn0 Hfu Hlt Hmod. zdiv.
  - intros r g (-> & Hg & Hwg & Hcg & Hrg). split; [done|]. split; [done|]. split; [done|]. split.
    + intros x Hx. rewrite Hcg, Hco; [done|lia|lia].
    + intros i Hi. destruct (decide (i < pos + n)) as [Hin|Hin].
      * rewrite Hcg by lia. apply Hrd. lia.
      * replace (buf + (i - pos)) with (buf + n + (i - (pos + n))) by lia.
        rewrite Hrg by lia. apply Hd2; [unfold MAXFILE, NDIRECT; lia|]. apply Hbl. lia.
Qed.

Lemma file_read_fwp f e ip buf count offset :
  fs_ok f -> entry_at (fl_mem f) e ip -> file_wf (fl_mem f) ip ->
  isize (fl_mem f) ip <= MAXFILE -> 0 <= offset -> 0 <= count < 2 ^ 32 ->
  let n := Z.max 0 (Z.min count (isize (fl_mem f) ip - offset)) in
  client buf n -> has_blocks (fl_mem f) ip offset (offset + n) ->
  fwp (file_read e buf count offset) (fun r g =>
    r = n /\ fs_ok g /\ file_wf (fl_mem g) ip /\ client_only buf n f g /\
    forall i, offset <= i < offset + n ->
      load8 (fl_mem g) (buf + (i - offset)) = fdata (fl_mem f) ip i) f.
Proof.
  intros Hf He Hwf Hsz Ho Hcnt n Hc Hbl. pose proof (entry_inode_ptr _ _ _ He) as Hip.
  pose proof (load16_bound (fl_mem f) (ip + 2)) as Hb16.
  change (load16 (fl_mem f) (ip + 2)) with (isize (fl_mem f) ip) in Hb16.
  assert (HM : MAXFILE = 53248) by done.
  unfold file_read. fstep. eapply fwp_entry_inode; [done|done|]. fstep.
  apply fwp_ld16_inode; [done|done|done|done|].
  change (load16 (fl_mem f) (ip + 2)) with (isize (fl_mem f) ip).
  rewrite Z.geb_leb. destruct (Z.leb_spec (isize (fl_mem f) ip) offset).
  { fstep. assert (n = 0) as -> by lia. split_and!; [done|done|done|done|intros; lia]. }
  fstep. apply fwp_ld16_inode; [done|done|done|done|].
  change (load16 (fl_mem f) (ip + 2)) with (isize (fl_mem f) ip).
  rewrite u32_small by lia.
  assert (Hn : Z.min count (isize (fl_mem f) ip - offset) = n) by lia. rewrite Hn.
  fstep. eapply fwp_mono; [apply file_read_loop_fwp; try done; try lia|].
  { by replace (offset + n - offset) with n by lia. }
  { intros _. pose proof (Z.mod_pos_bound offset BLKSIZE ltac:(done)).
    change BLKSIZE with 4096 in *. lia. }
  cbv beta. intros r g (-> & Hg & Hwg & Hcg & Hrg). fstep. simpl.
  replace (offset + n - offset) with n in Hcg by lia.
  split; [rewrite s32_small; lia|]. done.
Qed.
