(* ===== verification/FsTrunc.v ===== *)
(** * Truncation: file_free_block, file_truncate_blocks, file_set_size *)
From S2P Require Import Prelude Layout Mem CString FsMach DamnFS FsLogic FsBitmap FsFile FsRW.

(** From [f] to [g], the slots [lo <= k < hi] of inode [ip] were emptied and
    their blocks given back; nothing else changed but the bitmap. *)
Record freed (ip lo hi : Z) (f g : flat) : Prop := {
  fr_ok : fs_ok g;
  fr_slot : forall k, 0 <= k < NDIRECT ->
    slot (fl_mem g) ip k = if decide (lo <= k < hi) then 0 else slot (fl_mem f) ip k;
  fr_used : forall b, 0 <= b < MAXBLKNUM ->
    (used (fl_mem g) b = true <-> used (fl_mem f) b = true /\
      forall k, 0 <= k < NDIRECT -> lo <= k < hi -> slot (fl_mem f) ip k <> 0 ->
        slot (fl_mem f) ip k <> b);
  fr_frame : forall x, x < BLK_MAP \/ INO_MAP <= x -> x < ip + 6 \/ ip + INSIZE <= x ->
    load8 (fl_mem g) x = load8 (fl_mem f) x }.

Lemma freed_num ip lo hi f g : inode_ptr ip -> freed ip lo hi f g ->
  blk_num (fl_mem g) DISKMAP = blk_num (fl_mem f) DISKMAP.
Proof.
  intros Hip Hg. destruct (inode_below ip Hip) as [H1 _].
  apply load16_ext; apply (fr_frame _ _ _ _ _ Hg); unfold s_blk_num, BLK_MAP; lia.
Qed.

Lemma freed_entry ip lo hi f g e : freed ip lo hi f g -> entry_at (fl_mem f) e ip ->
  file_wf (fl_mem f) ip -> entry_at (fl_mem g) e ip.
Proof.
  intros Hg He Hwf. pose proof (entry_inode_ptr _ _ _ He) as Hip.
  destruct (en_live _ _ _ He) as [Hl Hu]. pose proof (en_blk _ _ _ He) as Hb.
  destruct (inode_below ip Hip) as [H1 H2].
  pose proof (blk_addr_mono 2 (blk_of e) ltac:(lia)) as H3. unfold INSIZE in *.
  eapply entry_at_ext; [exact He| | |].
  - split; [by rewrite (freed_num _ _ _ _ _ Hip Hg)|].
    apply (fr_used _ _ _ _ _ Hg); [lia|]. split; [done|].
    intros k Hk _ Hne. by apply (en_sep _ _ _ He).
  - intros x Hx. apply (fr_frame _ _ _ _ _ Hg); [right; unfold INO_MAP; lia|unfold INSIZE; lia].
  - intros k Hk. rewrite (fr_slot _ _ _ _ _ Hg) by done. case_decide; [done|].
    by apply (en_sep _ _ _ He).
Qed.

Lemma freed_refl ip lo hi f : fs_ok f -> hi <= lo -> freed ip lo hi f f.
Proof.
  intros Hf Hlh. split; [done| | |done].
  - intros k Hk. by rewrite decide_False by lia.
  - intros b Hb. split; [|by intros []]. intros Hu. split; [done|]. intros k Hk Hlo. lia.
Qed.

(** An empty slot, or one past the last, has nothing to free. *)
Lemma freed_skip ip lo j f g : lo <= j -> freed ip lo j f g ->
  (0 <= j < NDIRECT -> slot (fl_mem f) ip j = 0) -> freed ip lo (j + 1) f g.
Proof.
  intros Hj [Hg Hs Hu Hfr] H0. split; [done| | |done].
  - intros k Hk. rewrite Hs by done. repeat case_decide; try lia.
    assert (k = j) as -> by lia. by apply H0.
  - intros b Hb. rewrite Hu by done. apply and_iff_compat_l. split; intros H k Hk Hlo Hne.
    + destruct (decide (k = j)) as [->|]; [by rewrite H0 in Hne|]. apply H; [done|lia|done].
    + apply H; [done|lia|done].
Qed.

(** The state after freeing the block of slot [j]. *)
Lemma freed_step ip lo j f g g1 : inode_ptr ip -> file_wf (fl_mem f) ip -> fs_ok f ->
  0 <= lo <= j -> j < NDIRECT -> slot (fl_mem f) ip j <> 0 -> freed ip lo j f g ->
  bm_update BLK_MAP MAXBLKNUM (slot (fl_mem f) ip j) false g g1 -> fs_ok g1 ->
  freed ip lo (j + 1) f (fset_mem (store16 (fl_mem g1) (ip + (6 + 2 * j)) 0) g1).
Proof.
  intros Hip Hwf Hf Hj Hjn Hne Hg Hup Hg1. pose proof (fr_slot _ _ _ _ _ Hg) as Hs.
  destruct (inode_below ip Hip) as [H1 H2]. unfold INSIZE, NDIRECT in *.
  assert (Hg1m : forall x, x < BLK_MAP \/ INO_MAP <= x ->
    load8 (fl_mem g1) x = load8 (fl_mem g) x).
  { intros x Hx. apply (bu_frame _ _ _ _ _ _ Hup). change (MAXBLKNUM / 8) with 512.
    unfold INO_MAP, BLK_MAP in *. lia. }
  assert (Hlow : forall x, x < DISKMAP + 4096 ->
    load8 (store16 (fl_mem g1) (ip + (6 + 2 * j)) 0) x = load8 (fl_mem g1) x)
    by (intros x Hx; apply load8_store16_ne; lia).
  split; simpl.
  - apply fs_ok_above; [done|]. intros x Hx. apply Hlow. by apply Hx.
  - intros k Hk. unfold slot, i_blk_ind. rewrite <- Z.add_assoc.
    destruct (decide (k = j)) as [->|Hkj].
    + rewrite load16_store16_eq. by rewrite decide_True by lia.
    + rewrite load16_store16_ne by lia.
      assert (Hk1 : load16 (fl_mem g1) (ip + (6 + 2 * k)) = slot (fl_mem g) ip k).
      { unfold slot, i_blk_ind. rewrite <- Z.add_assoc.
        apply load16_ext; apply Hg1m; unfold INO_MAP; lia. }
      rewrite Hk1, (Hs k Hk). unfold slot, i_blk_ind. rewrite <- Z.add_assoc.
      repeat case_decide; lia || done.
  - intros b Hb. rewrite (bit_used_ext _ (fl_mem g1)).
    2:{ apply Hlow. unfold BLK_MAP, MAXBLKNUM in *. zdiv. }
    rewrite (bu_bits _ _ _ _ _ _ Hup) by done. case_decide as Hbj.
    + split; [done|]. intros [_ H]. exfalso. apply (H j); unfold NDIRECT; try lia; done.
    + rewrite (fr_used _ _ _ _ _ Hg) by done. apply and_iff_compat_l.
      split; intros H k Hk Hlo Hk0.
      * destruct (decide (k = j)) as [->|]; [congruence|]. apply H; [done|lia|done].
      * apply H; [done|lia|done].
  - intros x Hx1 Hx2. unfold INSIZE in Hx2. rewrite load8_store16_ne by lia. rewrite Hg1m by done.
    apply (fr_frame _ _ _ _ _ Hg); [done|unfold INSIZE; lia].
Qed.

Lemma file_free_block_fwp e ip lo j f g : fs_ok f -> entry_at (fl_mem f) e ip ->
  file_wf (fl_mem f) ip -> 0 <= lo <= j -> freed ip lo j f g ->
  fwp (file_free_block e j) (fun _ h => freed ip lo (j + 1) f h) g.
Proof.
  intros Hf He Hwf Hj Hg. pose proof (entry_inode_ptr _ _ _ He) as Hip.
  pose proof (freed_entry _ _ _ _ _ _ Hg He Hwf) as Heg. pose proof (fr_ok _ _ _ _ _ Hg) as Hgok.
  unfold file_free_block. fstep. eapply fwp_entry_inode; [done|done|].
  unfold file_block_walk. destruct (Z.ltb_spec j NDIRECT) as [Hjn|Hjn].
  2:{ fstep. apply freed_skip; [lia|done|lia]. }
  assert (Hio : 6 + 2 * j + 2 <= INSIZE) by (unfold INSIZE, NDIRECT in *; lia).
  assert (Hsl : load16 (fl_mem g) (ip + (6 + 2 * j)) = slot (fl_mem f) ip j).
  { pose proof (fr_slot _ _ _ _ _ Hg j ltac:(lia)) as H. rewrite decide_False in H by lia.
    rewrite <- H. unfold slot, i_blk_ind. by rewrite Z.add_assoc. }
  change (i_blk_ind ip j) with (ip + 6 + 2 * j). rewrite <- Z.add_assoc.
  fstep. apply fwp_ld16_inode; [done|done|lia|done|]. rewrite Hsl.
  destruct (Z.eqb_spec (slot (fl_mem f) ip j) 0) as [H0|H0].
  { fstep. apply freed_skip; [lia|done|done]. }
  destruct (wf_live _ _ Hwf j ltac:(lia) H0) as [H2 [Hl Hlu]]. pose proof (ok_blk_num f Hf) as Hn.
  fstep. apply fwp_ld16_inode; [done|done|lia|done|]. rewrite Hsl.
  fstep. eapply fwp_mono; [apply free_block_fwp; [done|lia]|].
  cbv beta. intros [] g1 [Hup Hg1].
  fstep. apply fwp_st16_inode; [done|done|lia|done|]. fstep. by eapply freed_step.
Qed.

(** [file_set_size] when the file shrinks: the blocks past the new end are
    free again and no others, the kept blocks are untouched. *)
Lemma file_set_size_shrink f e ip size : fs_ok f -> entry_at (fl_mem f) e ip ->
  file_wf (fl_mem f) ip -> 0 <= size < isize (fl_mem f) ip ->
  fwp (file_set_size e size) (fun r g =>
    r = 0 /\ isize (fl_mem g) ip = size /\ exists g0,
    freed ip (nblocks size) (nblocks (isize (fl_mem f) ip)) f g0 /\ size_only ip size g0 g) f.
Proof.
  intros Hf He Hwf Hsz. pose proof (entry_inode_ptr _ _ _ He) as Hip.
  pose proof (load16_bound (fl_mem f) (ip + 2)) as Hb16.
  change (load16 (fl_mem f) (ip + 2)) with (isize (fl_mem f) ip) in *.
  unfold file_set_size. fstep. eapply fwp_entry_inode; [done|done|]. fstep.
  apply fwp_ld16_inode; [done|done|done|done|].
  change (load16 (fl_mem f) (ip + 2)) with (isize (fl_mem f) ip) in *.
  rewrite Z.gtb_ltb, (proj2 (Z.ltb_lt _ _)) by lia. unfold file_truncate_blocks.
  fstep. fstep. eapply fwp_entry_inode; [done|done|]. fstep.
  apply fwp_ld16_inode; [done|done|done|done|].
  change (load16 (fl_mem f) (ip + 2)) with (isize (fl_mem f) ip) in *.
  rewrite Z.quot_div_nonneg by (unfold BLKSIZE, PGSIZE; lia).
  fold (nblocks (isize (fl_mem f) ip)). fold (nblocks size).
  assert (Hnb : 0 <= nblocks size <= nblocks (isize (fl_mem f) ip) /\
    nblocks (isize (fl_mem f) ip) <= 16) by (unfold nblocks; change BLKSIZE with 4096; zdiv).
  rewrite !u16_small by lia. fstep.
  apply (fwp_pfor (fun j g => nblocks size <= j /\ freed ip (nblocks size) j f g)).
  - split; [lia|]. by apply freed_refl.
  - intros j g Hj [Hlo Hg]. fstep.
    eapply fwp_mono; [apply (file_free_block_fwp e ip (nblocks size) j f g); try done; lia|].
    cbv beta. intros r h Hh. fstep. split; [lia|done].
  - intros g [_ Hg]. fstep. fstep.
    replace (nblocks size + _) with (nblocks (isize (fl_mem f) ip)) in Hg by lia.
    apply fwp_st16_inode; [apply (fr_ok _ _ _ _ _ Hg)|done|done|done|].
    fstep. fstep; [by eapply entry_window|]. fstep. split; [done|].
    assert (Hs : isize (store16 (fl_mem g) (ip + 2) size) ip = size).
    { unfold isize, i_size. rewrite load16_store16_eq. apply u16_small. lia. }
    split; [done|]. exists g. split; [done|]. split; [done|]. split; [done|]. split; [done|].
    intros x Hx. apply load8_store16_ne. lia.
Qed.
