(* ===== verification/FsDir.v ===== *)
(** * Directories and paths: dir_lookup, walk_path, name_is_valid

    [dir_find] (the first entry of a directory with a given name) and
    [walk_spec] (the resolution of a list of path elements) are pure
    functions of the disk's contents; the code is shown to compute them. *)
From S2P Require Import Prelude Layout Mem CString FsMach DamnFS FsLogic FsBitmap FsFile FsRW.

(** ** The abstract directory *)

(** The string at [a] is [name]. *)
Fixpoint named (m : mem) (a : Z) (name : list Z) : bool :=
  match name with
  | [] => load8 m a =? 0
  | c :: name' => (load8 m a =? c) && named m (a + 1) name'
  end.

Definition i_used (m : mem) (ip : Z) : Z := load16 m (i_blk_used ip).
Definition i_kind (m : mem) (ip : Z) : Z := load16 m (i_type ip).
(** The entries of block [i] and of the whole directory, in order. *)
Definition block_dents (m : mem) (ip i : Z) : list Z :=
  (fun j => blk_addr (slot m ip i) + DIRESIZE * j) <$> seqZ 0 BLKFILES.
Definition dents_upto (m : mem) (ip n : Z) : list Z :=
  seqZ 0 n ≫= block_dents m ip.
Definition dents (m : mem) (ip : Z) : list Z := dents_upto m ip (i_used m ip).
Definition dir_find (m : mem) (ip : Z) (name : list Z) : option Z :=
  find (fun e => named m (d_name e) name) (dents m ip).

Record dir_wf (m : mem) (ip : Z) : Prop := {
  dw_file : file_wf m ip;
  dw_used : i_used m ip <= NDIRECT;
  dw_slots : forall k, 0 <= k < i_used m ip -> slot m ip k <> 0 }.

Definition name_ok (name : list Z) : Prop :=
  Forall (fun c => 0 < c < 256) name /\ Z.of_nat (length name) < MAXNAMELEN.

(** ** strcmp on a name *)

Lemma fs_strcmp_fwp f a name :
  (forall i, 0 <= i <= Z.of_nat (length name) -> flat_ok f (a + i) = true) ->
  Forall (fun c => 0 < c < 256) name ->
  fwp (fs_strcmp a name) (fun r g => g = f /\ (r =? 0) = named (fl_mem f) a name) f.
Proof.
  revert a. induction name as [|c name IH]; intros a Hok HF; cbn [fs_strcmp named].
  - fstep. fstep; [rewrite <- (Z.add_0_r a); apply Hok; simpl; lia|].
    fstep. split; [done|]. by rewrite Z.sub_0_r.
  - apply Forall_cons in HF as [Hc HF]. fstep.
    fstep; [rewrite <- (Z.add_0_r a); apply Hok; simpl; lia|].
    destruct (Z.eqb_spec (load8 (fl_mem f) a) c) as [He|He].
    + rewrite (proj2 (Z.eqb_neq (load8 (fl_mem f) a) 0)) by lia. cbn [negb andb].
      eapply fwp_mono; [apply IH; [|done]|done]. intros i Hi.
      replace (a + 1 + i) with (a + (i + 1)) by lia. apply Hok. simpl. lia.
    + rewrite andb_false_r. cbn [andb]. fstep. split; [done|]. rewrite u8_small by lia.
      apply Z.eqb_neq. lia.
Qed.

(** Its verdict is the library's [strcmp] on the same bytes. *)
Lemma named_cstr m a name i : Forall (fun c => 0 < c < 256) name ->
  named m (a + i) name = true <-> cstr_at (view m a) i name.
Proof.
  revert i. induction name as [|c name IH]; intros i HF; simpl.
  - apply Z.eqb_eq.
  - apply Forall_cons in HF as [Hc HF]. rewrite andb_true_iff, Z.eqb_eq.
    replace (a + i + 1) with (a + (i + 1)) by lia. rewrite IH by done. naive_solver.
Qed.

(** ** dir_lookup *)

(** A loop that looks for the first index satisfying [b]. *)
Lemma fwp_pfor_find {R} n i (body : Z -> prog (option R)) (b : Z -> bool) (v : Z -> R) f :
  (forall j, i <= j < i + Z.of_nat n ->
     fwp (body j) (fun r g => g = f /\ r = if b j then Some (v j) else None) f) ->
  fwp (pfor n i body) (fun r g => g = f /\ r = v <$> find b (seqZ i (Z.of_nat n))) f.
Proof.
  revert i. induction n as [|n IH]; intros i Hb; cbn [pfor].
  { by fstep. }
  rewrite seqZ_cons by lia. replace (Z.pred (Z.of_nat (S n))) with (Z.of_nat n) by lia.
  cbn [find]. fstep. eapply fwp_mono; [apply Hb; lia|]. cbv beta. intros r g [-> ->].
  destruct (b i); [by fstep|]. apply IH. intros j Hj. apply Hb. lia.
Qed.

Lemma find_map {A B} (g : A -> B) (b : B -> bool) l :
  find b (g <$> l) = g <$> find (fun x => b (g x)) l.
Proof. induction l as [|x l IH]; simpl; [done|]. by destruct (b (g x)). Qed.
Lemma find_app {A} (b : A -> bool) l1 l2 :
  find b (l1 ++ l2) = match find b l1 with Some x => Some x | None => find b l2 end.
Proof. induction l1 as [|x l IH]; simpl; [done|]. by destruct (b x). Qed.

Lemma dents_upto_S m ip i : 0 <= i ->
  dents_upto m ip (i + 1) = dents_upto m ip i ++ block_dents m ip i.
Proof.
  intros Hi. unfold dents_upto. rewrite seqZ_app by lia. rewrite bind_app.
  change (seqZ (0 + i) 1) with [0 + i]. cbn [mbind list_bind].
  by rewrite app_nil_r, Z.add_0_l.
Qed.
Lemma find_dents_prefix (b : Z -> bool) m ip i n e : 0 <= i <= n ->
  find b (dents_upto m ip i) = Some e -> find b (dents_upto m ip n) = Some e.
Proof.
  intros Hi He. unfold dents_upto in *. replace n with (i + (n - i)) by lia.
  rewrite seqZ_app, bind_app, find_app by lia. by rewrite He.
Qed.

Lemma dent_ok f ip i j o : fs_ok f -> dir_wf (fl_mem f) ip -> 0 <= i < i_used (fl_mem f) ip ->
  0 <= j < BLKFILES -> 0 <= o < DIRESIZE ->
  flat_ok f (blk_addr (slot (fl_mem f) ip i) + DIRESIZE * j + o) = true.
Proof.
  intros Hf Hd Hi Hj Ho. rewrite <- Z.add_assoc. pose proof (dw_used _ _ Hd).
  apply file_block_ok; [done|apply (dw_file _ _ Hd)|lia|by apply (dw_slots _ _ Hd)|].
  change BLKFILES with 227 in Hj. unfold DIRESIZE in *. change BLKSIZE with 4096. lia.
Qed.

Lemma dir_lookup_fwp f ip name : fs_ok f -> inode_ptr ip -> dir_wf (fl_mem f) ip -> name_ok name ->
  fwp (dir_lookup ip name) (fun r g => flushes f g /\
    r = match dir_find (fl_mem f) ip name with
        | Some e => inr e
        | None => inl (- E_NOT_FOUND)
        end) f.
Proof.
  intros Hf Hip Hd [Hnm Hlen]. pose proof (load16_bound (fl_mem f) (ip + 4)) as Hub.
  change (load16 (fl_mem f) (ip + 4)) with (i_used (fl_mem f) ip) in Hub.
  unfold dir_lookup. fstep. apply fwp_ld16_inode; [done|done|done|done|].
  change (load16 (fl_mem f) (ip + 4)) with (i_used (fl_mem f) ip). fstep.
  set (b := fun e => named (fl_mem f) (d_name e) name).
  apply (fwp_pfor (fun i g => flushes f g /\ 0 <= i /\
    find b (dents_upto (fl_mem f) ip i) = None)).
  - split; [done|]. split; [lia|done].
  - intros i g Hi (Hg & Hi0 & Hnone). pose proof (flushes_ok _ _ Hf Hg) as Hgok.
    pose proof (fl_same_mem _ _ Hg) as Hm. pose proof (dw_used _ _ Hd) as Hus.
    assert (Hiu : 0 <= i < i_used (fl_mem f) ip) by lia.
    pose proof (dw_slots _ _ Hd i Hiu) as Hne.
    destruct (wf_live _ _ (dw_file _ _ Hd) i ltac:(lia) Hne) as [_ [Hl _]].
    fstep. eapply fwp_mono; [apply file_get_block_fwp; [done|done|lia|rewrite Hm; lia]|].
    rewrite Hm. cbv beta.
    intros r g1 [(_ & -> & ->)|[(H0 & _)|(H0 & _)]]; [|done|done].
    assert (Hg1 : flushes f (fflush 1 g)) by (by apply flushes_fflush).
    eapply fwp_mono; [apply (fwp_pfor_find (R := Z + Z) (Z.to_nat BLKFILES) 0 _
      (fun j => b (blk_addr (slot (fl_mem f) ip i) + DIRESIZE * j))
      (fun j => inr (blk_addr (slot (fl_mem f) ip i) + DIRESIZE * j)))|].
    { intros j Hj. rewrite Z2Nat.id in Hj by done. fstep.
      eapply fwp_mono; [apply fs_strcmp_fwp; [|done]|].
      - intros o Ho. pose proof (dent_ok f ip i j o Hf Hd Hiu ltac:(lia)) as Hok.
        unfold flat_ok in *. simpl. rewrite Hm, (fl_same_super _ _ Hg).
        unfold d_name. apply Hok. unfold MAXNAMELEN, DIRESIZE in *. lia.
      - cbv beta. intros r g2 [-> Hr]. simpl in Hr. rewrite Hm in Hr. unfold b. rewrite <- Hr.
        destruct (r =? 0); by fstep. }
    cbv beta. intros r g2 [-> ->]. rewrite Z2Nat.id by done.
    pose proof (find_map (fun j => blk_addr (slot (fl_mem f) ip i) + DIRESIZE * j) b
      (seqZ 0 BLKFILES)) as Hfm.
    fold (block_dents (fl_mem f) ip i) in Hfm.
    destruct (find _ (seqZ 0 BLKFILES)) as [j|] eqn:Hfj;
      cbn [fmap option_fmap option_map] in Hfm |- *.
    + fstep. split; [done|]. cbn [default].
      assert (Hpre : find b (dents_upto (fl_mem f) ip (i + 1)) =
        Some (blk_addr (slot (fl_mem f) ip i) + DIRESIZE * j))
        by (by rewrite dents_upto_S, find_app, Hnone, Hfm by lia).
      unfold dir_find, dents. fold b.
      rewrite (find_dents_prefix b _ _ (i + 1) (i_used (fl_mem f) ip) _ ltac:(lia) Hpre). done.
    + split; [done|]. split; [lia|]. by rewrite dents_upto_S, find_app, Hnone, Hfm by lia.
  - intros g (Hg & _ & Hnone). fstep. split; [done|]. rewrite Z2Nat.id in Hnone by lia.
    unfold dir_find, dents. fold b. rewrite Z.add_0_l in Hnone. by rewrite Hnone.
Qed.

(** ** Paths *)

(** The elements of a path: the maximal runs without a slash. *)
Fixpoint split_slash (p : list Z) : list (list Z) :=
  match p with
  | [] => [[]]
  | c :: p' =>
      if c =? 47 then [] :: split_slash p'
      else match split_slash p' with
           | [] => [[c]]
           | e :: es => (c :: e) :: es
           end
  end.
Definition elems (p : list Z) : list (list Z) :=
  filter (fun e => e <> []) (split_slash p).

Lemma split_slash_nonempty p : split_slash p <> [].
Proof. destruct p as [|c p]; simpl; [done|]. destruct (c =? 47); [done|]. by destruct (split_slash p). Qed.

Lemma elems_slash p : elems (47 :: p) = elems p.
Proof. unfold elems. cbn [split_slash]. rewrite Z.eqb_refl. by rewrite filter_cons_False by auto. Qed.
Lemma elems_skip p : elems (skip_slash p) = elems p.
Proof.
  induction p as [|c p IH]; cbn [skip_slash]; [done|].
  destruct (Z.eqb_spec c 47) as [->|]; [|done]. by rewrite elems_slash.
Qed.
Lemma path_elem_split p : split_slash p =
  let '(e, r) := path_elem p in
  e :: match r with [] => [] | _ :: r' => split_slash r' end.
Proof.
  induction p as [|c p IH]; cbn [split_slash path_elem]; [done|].
  destruct (c =? 47); [done|]. rewrite IH. by destruct (path_elem p).
Qed.
Lemma path_elem_rest p e r : path_elem p = (e, r) ->
  p = e ++ r /\ (r = [] \/ exists r', r = 47 :: r') /\ ~ In 47 e.
Proof.
  revert e. induction p as [|c p IH]; intros e; cbn [path_elem].
  { injection 1 as <- <-. auto. }
  destruct (Z.eqb_spec c 47) as [->|Hc].
  { injection 1 as <- <-. split; [done|]. split; [right; by eexists|by intros []]. }
  destruct (path_elem p) as [e' r'] eqn:Hp. injection 1 as <- <-.
  destruct (IH e' eq_refl) as (-> & Hr & Hn). split; [done|]. split; [done|].
  by intros [|].
Qed.
Lemma elems_cons p e r : path_elem p = (e, r) -> e <> [] -> elems p = e :: elems r.
Proof.
  intros Hp He. pose proof (path_elem_rest _ _ _ Hp) as (_ & Hr & _).
  unfold elems. rewrite path_elem_split, Hp. rewrite filter_cons_True by done. f_equal.
  destruct Hr as [->|[r' ->]]; [done|]. cbn [split_slash]. rewrite Z.eqb_refl.
  by rewrite filter_cons_False by auto.
Qed.
(** A path that does not begin with a slash is empty or has a first element. *)
Lemma skip_slash_head p : skip_slash p = [] \/ exists c q, skip_slash p = c :: q /\ c <> 47.
Proof.
  induction p as [|c p IH]; cbn [skip_slash]; [by left|].
  destruct (Z.eqb_spec c 47); [done|]. right. by exists c, p.
Qed.
Lemma elems_nil p : elems p = [] <-> skip_slash p = [].
Proof.
  rewrite <- elems_skip. split; [|by intros ->].
  destruct (skip_slash_head p) as [->|(c & q & -> & Hc)]; [done|].
  intros H. destruct (path_elem (c :: q)) as [e r] eqn:Hp.
  rewrite (elems_cons _ e r) in H; [done|done|]. cbn [path_elem] in Hp.
  rewrite (proj2 (Z.eqb_neq c 47)) in Hp by done. destruct (path_elem q). by injection Hp as <- _.
Qed.

(** ** walk_path *)

(** What [walk_path] computes, as a function of the disk's contents and of
    the elements still to resolve: [f] is the inode reached so far, [entry]
    the entry that led there and [dir] the directory it is in. *)
Fixpoint walk_spec (m : mem) (es : list (list Z)) (dir f entry : Z) : walk_res :=
  match es with
  | [] => mkWalk 0 dir entry None
  | name :: es' =>
      if Z.of_nat (length name) >=? MAXNAMELEN then mkWalk (- E_BAD_PATH) 0 0 None
      else if negb (i_kind m f =? FTYPE_DIR) then mkWalk (- E_NOT_FOUND) 0 0 None
      else match dir_find m f name with
           | None => if bool_decide (es' = []) then mkWalk (- E_NOT_FOUND) f 0 (Some name)
                     else mkWalk (- E_NOT_FOUND) 0 0 None
           | Some e => walk_spec m es' f (blk_addr 1 + INSIZE * load16 m (d_in_ind e)) e
           end
  end.

(** Every directory is well-formed and its entries name existing inodes. *)
Definition tree_wf (m : mem) : Prop := forall ip, inode_ptr ip -> i_kind m ip = FTYPE_DIR ->
  dir_wf m ip /\ forall e, e ∈ dents m ip -> load16 m (d_in_ind e) < MAXINODENUM.

Lemma in_dents m ip e : e ∈ dents m ip -> exists i j,
  0 <= i < i_used m ip /\ 0 <= j < BLKFILES /\ e = blk_addr (slot m ip i) + DIRESIZE * j.
Proof.
  unfold dents, dents_upto, block_dents. rewrite list_elem_of_bind. intros (i & He & Hi).
  apply list_elem_of_fmap in He as (j & -> & Hj). apply elem_of_seqZ in Hi, Hj.
  exists i, j. split; [lia|]. split; [lia|done].
Qed.
Lemma dir_find_in m ip name e : dir_find m ip name = Some e ->
  e ∈ dents m ip /\ named m e name = true.
Proof. intros [H1 H2]%find_some. by split; [apply list_elem_of_In|]. Qed.

Lemma name_ok_path p e r : Forall (fun c => 0 < c < 256) p -> path_elem p = (e, r) ->
  Z.of_nat (length e) < MAXNAMELEN -> name_ok e /\ Forall (fun c => 0 < c < 256) r.
Proof.
  intros HF Hp Hl. apply path_elem_rest in Hp as (-> & _ & _).
  apply Forall_app in HF as [HF1 HF2]. by split.
Qed.

Lemma skip_slash_suffix p : exists s, p = s ++ skip_slash p.
Proof.
  induction p as [|c p [s IH]]; cbn [skip_slash]; [by exists []|].
  destruct (c =? 47); [exists (c :: s); simpl; by f_equal|by exists []].
Qed.
Lemma Forall_skip (P : Z -> Prop) p : Forall P p -> Forall P (skip_slash p).
Proof. destruct (skip_slash_suffix p) as [s Hs]. rewrite Hs at 1. by intros [_ H]%Forall_app. Qed.
Lemma skip_slash_length p : (length (skip_slash p) <= length p)%nat.
Proof.
  destruct (skip_slash_suffix p) as [s Hs]. rewrite Hs at 2. rewrite length_app. lia.
Qed.

Lemma walk_loop_fwp fuel path dir ip entry f g :
  fs_ok f -> flushes f g -> tree_wf (fl_mem f) -> inode_ptr ip ->
  Forall (fun c => 0 < c < 256) path -> (length path <= fuel)%nat ->
  skip_slash path = path ->
  fwp (walk_loop fuel path dir ip entry) (fun r h => flushes f h /\
    r = walk_spec (fl_mem f) (elems path) dir ip entry) g.
Proof.
  intros Hf. revert path dir ip entry g.
  induction fuel as [|fuel IH]; intros path dir ip entry g Hg Ht Hip HF Hfu Hsk.
  { destruct path; [|simpl in Hfu; lia]. cbn [walk_loop]. by fstep. }
  destruct path as [|c path'] eqn:Hpath; [by cbn [walk_loop]; fstep|]. rewrite <- Hpath in *.
  assert (Hne : exists e r, path_elem path = (e, r) /\ e <> []).
  { rewrite Hpath in *. destruct (skip_slash_head (c :: path')) as [H|(c' & q & H & Hc)];
      rewrite Hsk in H; [done|]. injection H as <- <-. cbn [path_elem].
    rewrite (proj2 (Z.eqb_neq c 47)) by done. destruct (path_elem path'). by eexists _, _. }
  destruct Hne as (e & r & Hp & He).
  assert (Hwalk : walk_loop (S fuel) path dir ip entry =
    if Z.of_nat (length e) >=? MAXNAMELEN then mret (mkWalk (- E_BAD_PATH) 0 0 None) else
    ty ← ld16 (i_type ip);
    if negb (ty =? FTYPE_DIR) then mret (mkWalk (- E_NOT_FOUND) 0 0 None) else
    l ← dir_lookup ip e;
    match l with
    | inl r' =>
        if (r' =? - E_NOT_FOUND) && bool_decide (skip_slash r = [])
        then mret (mkWalk r' ip 0 (Some e)) else mret (mkWalk r' 0 0 None)
    | inr entry => f ← entry_inode entry; walk_loop fuel (skip_slash r) ip f entry
    end) by (rewrite Hpath in *; cbn [walk_loop]; by rewrite Hp).
  rewrite Hwalk, (elems_cons path e r) by done. cbn [walk_spec].
  rewrite Z.geb_leb. destruct (Z.leb_spec MAXNAMELEN (Z.of_nat (length e))) as [Hl|Hl]; [by fstep|].
  destruct (name_ok_path _ _ _ HF Hp Hl) as [Hnm HFr].
  pose proof (flushes_ok _ _ Hf Hg) as Hgok. pose proof (fl_same_mem _ _ Hg) as Hm.
  fstep. change (i_type ip) with ip. rewrite <- (Z.add_0_r ip) at 1.
  apply fwp_ld16_inode; [done|done|done|done|]. rewrite Hm, Z.add_0_r.
  change (load16 (fl_mem f) ip) with (i_kind (fl_mem f) ip).
  destruct (Z.eqb_spec (i_kind (fl_mem f) ip) FTYPE_DIR) as [Hk|Hk]; cbn [negb]; [|by fstep].
  destruct (Ht ip Hip Hk) as [Hdw Hin]. fstep.
  eapply fwp_mono; [apply dir_lookup_fwp; rewrite ?Hm; done|]. rewrite Hm. cbv beta.
  intros l h [Hh ->]. assert (Hfh : flushes f h).
  { destruct Hg as [? ? ? Hgm], Hh as [? ? ? Hhm]. split; [congruence..|auto]. }
  destruct (dir_find (fl_mem f) ip e) as [en|] eqn:Hfind.
  2:{ change (- E_NOT_FOUND =? - E_NOT_FOUND) with true. cbn [andb].
      rewrite (bool_decide_ext (skip_slash r = []) (elems r = [])) by (by rewrite elems_nil).
      destruct (decide (elems r = []));
        [rewrite !bool_decide_eq_true_2 by done|rewrite !bool_decide_eq_false_2 by done]; by fstep. }
  apply dir_find_in in Hfind as [Hen _]. specialize (Hin en Hen).
  destruct (in_dents _ _ _ Hen) as (i & j & Hi & Hj & Heq).
  assert (Hok : forall o, 0 <= o < DIRESIZE -> flat_ok h (en + o) = true).
  { intros o Ho. rewrite Heq. pose proof (dent_ok h ip i j o) as Hd.
    rewrite (fl_same_mem _ _ Hfh) in Hd. apply Hd; try done. by apply (flushes_ok f). }
  pose proof (fl_same_mem _ _ Hfh) as Hmh.
  fstep. unfold entry_inode, inode_of. fstep. unfold d_in_ind, MAXNAMELEN in *.
  fstep; [by apply Hok|rewrite <- Z.add_assoc; by apply Hok|].
  fstep. fstep. fstep. rewrite (fl_same_inodes _ _ Hfh), (ok_inodes f Hf), Hmh.
  rewrite <- (elems_skip r). apply IH; try done.
  - exists (load16 (fl_mem f) (en + 16)). split; [|done].
    pose proof (load16_bound (fl_mem f) (en + 16)). lia.
  - by apply Forall_skip.
  - pose proof (path_elem_rest _ _ _ Hp) as (Hpe & _). apply (f_equal length) in Hpe.
    rewrite length_app in Hpe. pose proof (skip_slash_length r).
    destruct e; [done|]. simpl in Hpe. lia.
  - destruct (skip_slash_head r) as [->|(c' & q & -> & Hc)]; [done|].
    cbn [skip_slash]. by rewrite (proj2 (Z.eqb_neq c' 47)).
Qed.
