(* ===== verification/FsProps.v ===== *)
(** * The file server's guarantees: blocks, files and durability

    The theorems on damnfs.c, with a small formatted disk ([demo_fs]) on
    which each of them is instantiated. *)
From S2P Require Import Prelude Layout Mem CString FsMach DamnFS FsLogic FsBitmap FsFile FsRW FsTrunc FsDir.

(** ** A small disk

    Eight blocks, four inodes; the root directory (inode 0, block 2) holds
    the file [a] (inode 1), whose block 3 holds [hi]. *)
Fixpoint poke16 (m : mem) (l : list (Z * Z)) : mem :=
  match l with
  | [] => m
  | (a, v) :: l' => poke16 (store16 m a v) l'
  end.
Definition demo_mem : mem := poke16 ∅ [
  (s_magic DISKMAP, DAMN_MAGIC); (s_magic DISKMAP + 2, DAMN_MAGIC / 65536);
  (s_in_num DISKMAP, 4); (s_blk_num DISKMAP, 8); (BLK_MAP, 15); (INO_MAP, 3);
  (blk_addr 1, FTYPE_DIR); (blk_addr 1 + 2, 18); (blk_addr 1 + 4, 1); (blk_addr 1 + 6, 2);
  (blk_addr 1 + 32, FTYPE_REG); (blk_addr 1 + 34, 2); (blk_addr 1 + 36, 1); (blk_addr 1 + 38, 3);
  (blk_addr 2, 97); (blk_addr 2 + 16, 1); (blk_addr 3, 104 + 256 * 105);
  (* a client's buffer, outside the disk window *)
  (8192, 120 + 256 * 121)].
Definition demo_fs : flat := mkFlat demo_mem ∅ DISKMAP (blk_addr 1).
Definition demo_entry : Z := blk_addr 2.
Definition demo_inode : Z := blk_addr 1 + 32.

Lemma range_check (P : Z -> Prop) (b : Z -> bool) n :
  (forall k, b k = true -> P k) -> forallb b (seqZ 0 n) = true ->
  forall k, 0 <= k < n -> P k.
Proof.
  intros HP Hall k Hk. apply HP. rewrite forallb_forall in Hall.
  apply Hall, list_elem_of_In, elem_of_seqZ. lia.
Qed.

Lemma demo_ok : fs_ok demo_fs.
Proof. split; vm_compute; try done; by split. Qed.
Lemma demo_slots k : 0 <= k < NDIRECT ->
  slot demo_mem demo_inode k = if k =? 0 then 3 else 0.
Proof.
  apply (range_check (fun k => slot demo_mem demo_inode k = if k =? 0 then 3 else 0)
    (fun k => slot demo_mem demo_inode k =? if k =? 0 then 3 else 0)).
  - intros j. apply Z.eqb_eq.
  - by vm_compute.
Qed.
Lemma demo_wf : file_wf demo_mem demo_inode.
Proof.
  split.
  - intros k Hk. rewrite demo_slots by done. destruct (Z.eqb_spec k 0); [|done]. intros _.
    split; [lia|]. split; by vm_compute.
  - intros k k' Hk Hk'. rewrite !demo_slots by done.
    destruct (Z.eqb_spec k 0), (Z.eqb_spec k' 0); lia.
Qed.
Lemma demo_entry_at : entry_at demo_mem demo_entry demo_inode.
Proof.
  split.
  - by vm_compute.
  - by vm_compute.
  - by vm_compute.
  - by vm_compute; repeat split.
  - by vm_compute.
  - by vm_compute.
  - intros k Hk. rewrite demo_slots by done. destruct (Z.eqb_spec k 0); [|done].
    intros _. by vm_compute.
Qed.
Lemma demo_client buf n : 4096 <= buf -> 0 <= n -> buf + n <= 268435456 -> client buf n.
Proof. unfold client, PGSIZE, DISKMAP. lia. Qed.

(** The same disk with its blocks cached and not yet written back. *)
Definition demo_paged : paged :=
  mkPaged demo_mem ∅ (list_to_set (seqZ 0 8)) (list_to_set (seqZ 0 8)) DISKMAP (blk_addr 1).
Lemma demo_mem_dom a : DISKMAP + 8 * BLKSIZE <= a -> load8 demo_mem a = 0.
Proof.
  intros Ha. unfold load8. destruct (demo_mem !! a) as [v|] eqn:Hv; [|done].
  assert (Hf : map_Forall (fun a (_ : Z) => a < DISKMAP + 8 * BLKSIZE) demo_mem)
    by (apply (bool_decide_eq_true_1 _); by vm_compute).
  apply Hf in Hv. lia.
Qed.
Lemma demo_cached b : b ∈ pg_mapped demo_paged <-> 0 <= b < 8.
Proof. unfold demo_paged. cbn [pg_mapped]. rewrite elem_of_list_to_set, elem_of_seqZ. lia. Qed.
Lemma demo_paged_flat : paged_flat demo_paged demo_fs.
Proof.
  split; try done.
  - intros a. unfold vload8, va_is_mapped. destruct (window a) eqn:Hw; [|done].
    case_bool_decide as Hb; simpl; [done|]. rewrite demo_mem_dom; [done|].
    apply window_spec in Hw as (_ & _ & Hb0 & Ha & _). rewrite demo_cached in Hb.
    unfold blk_addr, BLKSIZE, PGSIZE in *. lia.
  - intros b Hb. apply demo_cached in Hb. change (DISKSIZE / BLKSIZE) with 69634. lia.
  - right. split; [done|]. by apply demo_cached.
Qed.

(** ** Data *)

(** The program of a client that writes a range and reads it back. *)
Definition write_then_read (e buf1 buf2 count offset : Z) : prog Z :=
  r ← file_write e buf1 count offset;
  if r <? 0 then mret r else file_read e buf2 count offset.

(** C1. What is written is what is read back, on the paged machine, with
    its faults and write-backs: for every range inside the 13 blocks of a
    file, growing the file or not, [file_write] followed by [file_read] of
    the same range either reports that the disk is full or returns the byte
    count and leaves in the second buffer the bytes of the first. *)
Theorem file_write_then_read {host : Host} {host_ok : HostOK} s f e ip buf1 buf2 count offset :
  paged_flat s f -> fs_ok f -> entry_at (fl_mem f) e ip -> file_wf (fl_mem f) ip ->
  isize (fl_mem f) ip <= MAXFILE ->
  client buf1 count -> client buf2 count -> 0 <= offset -> offset + count <= MAXFILE ->
  exists r s', run_paged (write_then_read e buf1 buf2 count offset) s = Ret r s' /\
    (r = - E_NO_DISK \/
     r = count /\ forall i, 0 <= i < count -> vload8 s' (buf2 + i) = vload8 s (buf1 + i)).
Proof.
  intros HR Hf He Hwf Hsz Hc1 Hc2 Ho Hoc. assert (Hcnt : 0 <= count) by (by destruct Hc1).
  assert (HM : MAXFILE = 53248) by done.
  cut (fwp (write_then_read e buf1 buf2 count offset) (fun r g =>
    r = - E_NO_DISK \/ r = count /\
      forall i, 0 <= i < count -> load8 (fl_mem g) (buf2 + i) = load8 (fl_mem f) (buf1 + i)) f).
  { intros (r & g & Hr & HQ)%fwp_inv. destruct (paged_run_flat _ _ _ _ _ HR Hr) as (s' & Hs' & HR').
    exists r, s'. split; [done|]. destruct HQ as [|[-> HQ]]; [by left|right]. split; [done|].
    intros i Hi. rewrite (pf_mem _ _ HR), (pf_mem _ _ HR'). by apply HQ. }
  unfold write_then_read. fstep.
  eapply fwp_mono; [by apply file_write_fwp|]. cbv beta.
  intros r g (Hg & Hwg & Heg & Hszg & _ & _ & _ & [[-> _]|[-> [Hw _]]]).
  { change (- E_NO_DISK <? 0) with true. cbv iota. fstep. by left. }
  rewrite (proj2 (Z.ltb_ge count 0)) by lia.
  destruct (decide (count = 0)) as [->|Hne].
  - eapply fwp_mono; [apply file_read_fwp; try done; try lia|].
    + replace (Z.max 0 _) with 0 by lia. done.
    + intros i Hi. lia.
    + intros r h (-> & _). right. split; [lia|]. intros i Hi. lia.
  - assert (Hn : Z.max 0 (Z.min count (isize (fl_mem g) ip - offset)) = count) by lia.
    eapply fwp_mono; [apply file_read_fwp; try done; try lia|].
    + by rewrite Hn.
    + rewrite Hn. intros i Hi. specialize (Hw i ltac:(lia)). rewrite decide_True in Hw by done.
      apply Hw.
    + rewrite Hn. intros r h (-> & _ & _ & _ & Hrd). right. split; [done|]. intros i Hi.
      specialize (Hw (offset + i) ltac:(lia)). rewrite decide_True in Hw by lia.
      destruct Hw as [_ Hw]. replace (offset + i - offset) with i in Hw by lia.
      rewrite <- Hw, <- (Hrd (offset + i)) by lia. f_equal. lia.
Qed.
Lemma file_write_then_read_witness : exists r s',
  run_paged (write_then_read demo_entry 8192 8448 2 4095) demo_paged = Ret r s' /\
  (r = - E_NO_DISK \/
   r = 2 /\ forall i, 0 <= i < 2 -> vload8 s' (8448 + i) = vload8 demo_paged (8192 + i)).
Proof.
  apply (file_write_then_read demo_paged demo_fs demo_entry demo_inode 8192 8448 2 4095).
  - exact demo_paged_flat.
  - exact demo_ok.
  - exact demo_entry_at.
  - exact demo_wf.
  - by vm_compute.
  - by apply demo_client.
  - by apply demo_client.
  - lia.
  - by vm_compute.
Defined.

(** C7. [file_write] of a range inside the 13 blocks of a file.  In every
    case the size has grown to cover the range and no further, no existing
    block of the file has moved, no memory outside the disk window has changed,
    and nothing of other files has: no block in use, no other inode, not the
    super block, and no block in use has become free.  Then either the call
    returns the count, the bytes of the range are those of the buffer, every
    other byte of the file is as before, and the inode, the directory entry and
    every block of the range are on disk when it returns; or the disk is full,
    the call returns [- E_NO_DISK], a proper prefix of the range, possibly
    empty, has been written, and nothing is promised to be on disk: the size
    claims bytes the file does not have. *)
Theorem file_write_durable f e ip buf count offset :
  fs_ok f -> entry_at (fl_mem f) e ip -> file_wf (fl_mem f) ip ->
  client buf count -> 0 <= offset -> offset + count <= MAXFILE ->
  fwp (file_write e buf count offset) (fun r g =>
    fs_ok g /\ file_wf (fl_mem g) ip /\ entry_at (fl_mem g) e ip /\
    isize (fl_mem g) ip = Z.max (isize (fl_mem f) ip) (offset + count) /\
    (forall i, 0 <= i < MAXFILE -> slot (fl_mem f) ip (i / BLKSIZE) <> 0 ->
       slot (fl_mem g) ip (i / BLKSIZE) = slot (fl_mem f) ip (i / BLKSIZE)) /\
    outside_same f g /\ others_kept ip f g /\
    ((r = - E_NO_DISK /\ disk_full g /\
      exists upto, offset <= upto < offset + count /\ wrote ip buf offset upto f g) \/
     (r = count /\ wrote ip buf offset (offset + count) f g /\
      in_range_synced g ip offset (offset + count) /\ synced g 1 /\ synced g (blk_of e)))) f.
Proof. apply file_write_fwp. Qed.
(** Two bytes written at offset 1 of the file [a]: its block holds ["hxy"] and
    the block of the root directory is as before. *)
Lemma file_write_durable_witness :
  fwp (file_write demo_entry 8192 2 1) (fun r g =>
    isize (fl_mem g) demo_inode = 3 /\
    load8 (fl_mem g) (blk_addr 2) = 97 /\
    (r = - E_NO_DISK \/
     (r = 2 /\ load8 (fl_mem g) (blk_addr 3) = 104 /\ load8 (fl_mem g) (blk_addr 3 + 1) = 120 /\
      load8 (fl_mem g) (blk_addr 3 + 2) = 121 /\ synced g 3))) demo_fs.
Proof.
  eapply fwp_mono; [apply (file_write_durable demo_fs demo_entry demo_inode 8192 2 1)|].
  - exact demo_ok.
  - exact demo_entry_at.
  - exact demo_wf.
  - by apply demo_client.
  - lia.
  - by vm_compute.
  - intros r g (_ & _ & _ & Hsz & Hsl & _ & Hot & H). split; [rewrite Hsz; vm_compute; reflexivity|].
    assert (Hk : slot (fl_mem g) demo_inode 0 = 3).
    { apply (Hsl 0); [by vm_compute|by vm_compute]. }
    split.
    { rewrite <- (Z.add_0_r (blk_addr 2)). rewrite (ot_block _ _ _ Hot 2 0); [by vm_compute|done|by vm_compute| |done].
      intros k Hk0. change (fl_mem demo_fs) with demo_mem. rewrite demo_slots by done. by destruct (k =? 0). }
    destruct H as [(-> & _)|(-> & Hw & Hsy & _)]; [by left|right]. split; [done|].
    assert (Hd : forall i, 0 <= i < 3 -> fdata (fl_mem g) demo_inode i = load8 (fl_mem g) (blk_addr 3 + i)).
    { intros i Hi. unfold fdata. rewrite Z.div_small, Z.mod_small by (change BLKSIZE with 4096; lia). by rewrite Hk. }
    split_and!.
    + rewrite <- (Z.add_0_r (blk_addr 3)), <- Hd by lia. specialize (Hw 0 ltac:(done)).
      rewrite decide_False in Hw by lia. rewrite Hw; by vm_compute.
    + rewrite <- Hd by lia. destruct (Hw 1 ltac:(done)) as [_ ->]. by vm_compute.
    + rewrite <- Hd by lia. destruct (Hw 2 ltac:(done)) as [_ ->]. by vm_compute.
    + specialize (Hsy 1 ltac:(lia)). change (1 / BLKSIZE) with 0 in Hsy. by rewrite Hk in Hsy.
Defined.

(** [file_read] returns the bytes of the file: the count is cut at the
    end of the file, the buffer receives exactly those bytes of the range and
    nothing outside the buffer changes in memory. *)
Theorem file_read_exact f e ip buf count offset :
  fs_ok f -> entry_at (fl_mem f) e ip -> file_wf (fl_mem f) ip ->
  isize (fl_mem f) ip <= MAXFILE -> 0 <= offset -> 0 <= count < 2 ^ 32 ->
  let n := Z.max 0 (Z.min count (isize (fl_mem f) ip - offset)) in
  client buf n -> has_blocks (fl_mem f) ip offset (offset + n) ->
  fwp (file_read e buf count offset) (fun r g =>
    r = n /\ fs_ok g /\ file_wf (fl_mem g) ip /\ client_only buf n f g /\
    forall i, offset <= i < offset + n ->
      load8 (fl_mem g) (buf + (i - offset)) = fdata (fl_mem f) ip i) f.
Proof. apply file_read_fwp. Qed.
Lemma file_read_exact_witness :
  fwp (file_read demo_entry 8192 10 0) (fun r g =>
    r = 2 /\ fs_ok g /\ file_wf (fl_mem g) demo_inode /\ client_only 8192 2 demo_fs g /\
    forall i, 0 <= i < 0 + 2 ->
      load8 (fl_mem g) (8192 + (i - 0)) = fdata demo_mem demo_inode i) demo_fs.
Proof.
  apply (file_read_exact demo_fs demo_entry demo_inode 8192 10 0).
  - exact demo_ok.
  - exact demo_entry_at.
  - exact demo_wf.
  - by vm_compute.
  - lia.
  - lia.
  - by apply demo_client.
  - intros i Hi. change (slot demo_mem demo_inode (i / BLKSIZE) <> 0).
    change (Z.max 0 _) with 2 in Hi. rewrite Z.div_small by (change BLKSIZE with 4096; lia).
    by vm_compute.
Defined.

Lemma file_write_loop_S n inode buf pos stop : file_write_loop (S n) inode buf pos stop =
  if u32 pos <? u32 stop then
    g ← file_get_block inode (u16 (Z.quot pos BLKSIZE));
    match g with
    | inl r => mret (Some r)
    | inr blk =>
        move (blk + blk_off pos) buf (u32 (chunk pos stop));;
        file_write_loop n inode (buf + chunk pos stop) (s32 (pos + chunk pos stop)) stop
    end
  else mret None.
Proof. done. Qed.

(** A write that starts past the last direct block fails with
    [E_INVAL], but only after the recorded size of the file has been set to
    the end of the range: the file then claims bytes it does not have. *)
Theorem file_write_too_far f e ip buf count offset :
  fs_ok f -> entry_at (fl_mem f) e ip -> file_wf (fl_mem f) ip ->
  MAXFILE <= offset -> 0 < count -> offset + count < 65536 ->
  isize (fl_mem f) ip < offset + count ->
  fwp (file_write e buf count offset) (fun r g =>
    r = - E_INVAL /\ isize (fl_mem g) ip = offset + count) f.
Proof.
  intros Hf He Hwf Ho Hc Hoc Hsz. pose proof (entry_inode_ptr _ _ _ He) as Hip.
  assert (HM : MAXFILE = 53248) by done.
  unfold file_write. fstep. eapply fwp_entry_inode; [done|done|]. fstep.
  apply fwp_ld16_inode; [done|done|done|done|].
  change (load16 (fl_mem f) (ip + 2)) with (isize (fl_mem f) ip).
  rewrite (u32_small (offset + count)), (s32_small (offset + count)), Z.gtb_ltb,
    (proj2 (Z.ltb_lt _ _)) by lia. fstep.
  pose proof (load16_bound (fl_mem f) (ip + 2)) as Hb16.
  change (load16 (fl_mem f) (ip + 2)) with (isize (fl_mem f) ip) in Hb16.
  eapply fwp_mono; [apply (file_set_size_grow f e ip (offset + count)); try done; lia|].
  cbv beta. intros r g [-> (_ & _ & Hs & _)]. change (0 <? 0) with false. cbv iota. fstep.
  rewrite file_write_loop_S, (u32_small offset), (u32_small (offset + count)), (proj2 (Z.ltb_lt _ _)) by lia.
  assert (Hk : u16 (offset ÷ BLKSIZE) = offset / BLKSIZE /\ NDIRECT <= offset / BLKSIZE).
  { rewrite Z.quot_div_nonneg by (unfold BLKSIZE, PGSIZE; lia).
    change BLKSIZE with 4096. unfold NDIRECT. rewrite u16_small; zdiv. }
  destruct Hk as [-> Hk]. fstep. eapply fwp_mono; [by apply file_get_block_range|].
  cbv beta. intros r g1 [-> ->]. cbv iota. fstep. fstep. done.
Qed.
Lemma file_write_too_far_witness :
  fwp (file_write demo_entry 8192 1 53248) (fun r g =>
    r = - E_INVAL /\ isize (fl_mem g) demo_inode = 53249) demo_fs.
Proof.
  apply (file_write_too_far demo_fs demo_entry demo_inode 8192 1 53248);
    [exact demo_ok|exact demo_entry_at|exact demo_wf|by vm_compute|lia|lia|by vm_compute].
Defined.

(** C20. Truncation gives back exactly the blocks past the new end: their
    slots are empty and their bits clear, every other block of the disk keeps
    its state, the kept slots are untouched, and the size is the new one. *)
Theorem file_set_size_truncates f e ip size : fs_ok f -> entry_at (fl_mem f) e ip ->
  file_wf (fl_mem f) ip -> 0 <= size < isize (fl_mem f) ip ->
  fwp (file_set_size e size) (fun r g =>
    r = 0 /\ isize (fl_mem g) ip = size /\
    (forall k, 0 <= k < NDIRECT -> slot (fl_mem g) ip k =
       if decide (nblocks size <= k < nblocks (isize (fl_mem f) ip)) then 0
       else slot (fl_mem f) ip k) /\
    (forall b, 0 <= b < MAXBLKNUM -> (used (fl_mem g) b = true <-> used (fl_mem f) b = true /\
       forall k, 0 <= k < NDIRECT -> nblocks size <= k < nblocks (isize (fl_mem f) ip) ->
         slot (fl_mem f) ip k <> 0 -> slot (fl_mem f) ip k <> b)) /\
    (forall x, x < BLK_MAP \/ INO_MAP <= x -> x < ip + 2 \/ ip + INSIZE <= x ->
       load8 (fl_mem g) x = load8 (fl_mem f) x)) f.
Proof.
  intros Hf He Hwf Hsz. pose proof (entry_inode_ptr _ _ _ He) as Hip.
  destruct (inode_below ip Hip) as [H1 H2].
  eapply fwp_mono; [by eapply file_set_size_shrink|]. cbv beta.
  intros r g (-> & Hs & g0 & Hfr & (_ & _ & _ & Hm)). split; [done|]. split; [done|].
  split; [|split].
  - intros k Hk. rewrite <- (fr_slot _ _ _ _ _ Hfr) by done.
    unfold INSIZE, NDIRECT in *. apply load16_ext; apply Hm; unfold i_blk_ind; lia.
  - intros b Hb. rewrite <- (fr_used _ _ _ _ _ Hfr) by done.
    rewrite (bit_used_ext (fl_mem g) (fl_mem g0)); [done|]. apply Hm.
    unfold BLK_MAP, MAXBLKNUM in *. zdiv.
  - intros x Hx1 Hx2. unfold INSIZE in *. rewrite Hm by lia.
    apply (fr_frame _ _ _ _ _ Hfr); [done|unfold INSIZE; lia].
Qed.
Lemma file_set_size_truncates_witness :
  fwp (file_set_size demo_entry 0) (fun r g => r = 0 /\ used (fl_mem g) 3 = false) demo_fs.
Proof.
  eapply fwp_mono; [apply (file_set_size_truncates demo_fs demo_entry demo_inode 0)|].
  - exact demo_ok.
  - exact demo_entry_at.
  - exact demo_wf.
  - by vm_compute.
  - intros r g (-> & _ & _ & Hu & _). split; [done|].
    destruct (used (fl_mem g) 3) eqn:E; [|done]. apply (Hu 3) in E as [_ E]; [|by vm_compute].
    exfalso. by apply (E 0); vm_compute.
Defined.
