(* ===== verification/Console.v ===== *)
(** * The console: src/src/console.c

    The input ring buffer and the drivers that fill it (keyboard and serial
    line), and the text-mode screen.  What the devices have ready is part of
    the state ([kbd_in], [ser_in]: the bytes successive port reads return);
    waiting for the transmitter to be ready and the cursor registers of the
    video controller are left out.  [uint8_t] tables are lists of character
    codes with the named exceptions, as in the source. *)
From S2P Require Import Prelude Printf.

Definition CRT_ROWS : Z := 25.
Definition CRT_COLS : Z := 80.
Definition CRT_SIZE : Z := CRT_ROWS * CRT_COLS.
Definition CONSBUFSIZE : Z := 512.

Record console : Type := mkConsole {
  c_buf : gmap Z Z; c_rpos : Z; c_wpos : Z;      (* the input buffer [cons] *)
  kbd_in : list Z; shift : Z;                     (* keyboard *)
  serial_exists : bool; ser_in : list Z; ser_out : list Z;   (* serial line *)
  crt_buf : gmap Z Z; crt_pos : Z;                (* screen *)
  rebooted : bool }.

(** ** Keyboard *)
Definition KEY_HOME : Z := 0xE0.
Definition KEY_END : Z := 0xE1.
Definition KEY_UP : Z := 0xE2.
Definition KEY_DN : Z := 0xE3.
Definition KEY_LF : Z := 0xE4.
Definition KEY_RT : Z := 0xE5.
Definition KEY_PGUP : Z := 0xE6.
Definition KEY_PGDN : Z := 0xE7.
Definition KEY_INS : Z := 0xE8.
Definition KEY_DEL : Z := 0xE9.
Definition SHIFT : Z := 1.
Definition CTL : Z := 2.
Definition ALT : Z := 4.
Definition CAPSLOCK : Z := 8.
Definition NUMLOCK : Z := 16.
Definition SCROLLLOCK : Z := 32.
Definition E0ESC : Z := 64.

(** A 256-entry table: the leading entries in order, then named ones. *)
Definition table (front : list Z) (named : list (Z * Z)) (i : Z) : Z :=
  match find (fun e => fst e =? i) named with
  | Some e => snd e
  | None => default 0 (front !! Z.to_nat i)
  end.
Definition shiftcode : Z -> Z := table []
  [(0x1D, CTL); (0x2A, SHIFT); (0x36, SHIFT); (0x38, ALT); (0x9D, CTL); (0xB8, ALT)].
Definition togglecode : Z -> Z := table []
  [(0x3A, CAPSLOCK); (0x45, NUMLOCK); (0x46, SCROLLLOCK)].

Definition keypad : list (Z * Z) :=
  [(0xC7, KEY_HOME); (0x9C, 10); (0xB5, 47); (0xC8, KEY_UP); (0xC9, KEY_PGUP); (0xCB, KEY_LF);
   (0xCD, KEY_RT); (0xCF, KEY_END); (0xD0, KEY_DN); (0xD1, KEY_PGDN); (0xD2, KEY_INS);
   (0xD3, KEY_DEL)].
Definition keypad_digits : list Z :=
  [0;0;0;0;0;0;0;0; 0;0;0;0;0] ++ str_codes "789-456+1230." ++ [0;0;0;0].
Definition normalmap : Z -> Z := table
  ([0; 0x1B] ++ str_codes "1234567890-=" ++ [8; 9] ++ str_codes "qwertyuiop[]" ++ [10; 0] ++
   str_codes "asdfghjkl;'`" ++ [0] ++ str_codes "\zxcvbnm,./" ++ [0] ++ str_codes "*" ++ [0; 32] ++
   keypad_digits) keypad.
Definition shiftmap : Z -> Z := table
  ([0; 27] ++ str_codes "!@#$%^&*()_+" ++ [8; 9] ++ str_codes "QWERTYUIOP{}" ++ [10; 0] ++
   str_codes "ASDFGHJKL:" ++ [34] ++ str_codes "~" ++ [0] ++ str_codes "|ZXCVBNM<>?" ++ [0] ++
   str_codes "*" ++ [0; 32] ++ keypad_digits) keypad.
(** [C(x)], stored in a byte. *)
Definition ctrl (s : string) : list Z := (fun c => u8 (c - 64)) <$> str_codes s.
Definition ctlmap : Z -> Z := table
  (replicate 16 0 ++ ctrl "QWERTYUIOP" ++ [0; 0; 13; 0] ++ ctrl "ASDFGHJKL" ++ [0; 0; 0; 0] ++
   ctrl "\ZXCVBNM" ++ [0; 0] ++ ctrl "/" ++ [0; 0])
  [(0x97, KEY_HOME); (0xB5, u8 (47 - 64)); (0xC8, KEY_UP); (0xC9, KEY_PGUP); (0xCB, KEY_LF);
   (0xCD, KEY_RT); (0xCF, KEY_END); (0xD0, KEY_DN); (0xD1, KEY_PGDN); (0xD2, KEY_INS);
   (0xD3, KEY_DEL)].
Definition charcode (k : Z) : Z -> Z :=
  if k =? 0 then normalmap else if k =? 1 then shiftmap else ctlmap.

(** ** Screen and serial output *)

Definition set_out (o : list Z) (c : console) : console :=
  mkConsole (c_buf c) (c_rpos c) (c_wpos c) (kbd_in c) (shift c) (serial_exists c) (ser_in c)
    (ser_out c ++ o) (crt_buf c) (crt_pos c) (rebooted c).
Definition set_crt (b : gmap Z Z) (p : Z) (c : console) : console :=
  mkConsole (c_buf c) (c_rpos c) (c_wpos c) (kbd_in c) (shift c) (serial_exists c) (ser_in c)
    (ser_out c) b p (rebooted c).

Definition serial_putc (ch : Z) (c : console) : console :=
  if ch =? 8 then set_out [u8 ch; 32; u8 ch] c else set_out [u8 ch] c.

(** [memmove] of the lower rows up, and a blank last row. *)
Fixpoint scroll_rows (n : nat) (i : Z) (old new : gmap Z Z) : gmap Z Z :=
  match n with
  | O => new
  | S n' => scroll_rows n' (i + 1) old
              (<[i := default 0 (old !! (i + CRT_COLS))]> new)
  end.
Fixpoint blank_row (n : nat) (i : Z) (b : gmap Z Z) : gmap Z Z :=
  match n with
  | O => b
  | S n' => blank_row n' (i + 1) (<[i := Z.lor 0x0700 32]> b)
  end.
Definition cga_scroll (c : console) : console :=
  if crt_pos c >=? CRT_SIZE then
    let b := scroll_rows (Z.to_nat (CRT_SIZE - CRT_COLS)) 0 (crt_buf c) (crt_buf c) in
    let b := blank_row (Z.to_nat CRT_COLS) (CRT_SIZE - CRT_COLS) b in
    set_crt b (u16 (crt_pos c - CRT_COLS)) c
  else c.
(** The attribute of the character: black on white unless one is given. *)
Definition cga_attr (ch : Z) : Z :=
  if Z.land (u32 ch) (u32 (Z.lnot 0xFF)) =? 0 then Z.lor ch 0x0700 else ch.
(** [cga_putc] of anything but a tab. *)
Definition cga_putc1 (ch : Z) (c : console) : console :=
  let ch := cga_attr ch in
  let k := Z.land ch 0xff in
  let c :=
    if k =? 8 then
      if crt_pos c >? 0
      then let p := crt_pos c - 1 in
           set_crt (<[p := u16 (Z.lor (Z.land ch (Z.lnot 0xff)) 32)]> (crt_buf c)) p c
      else c
    else if k =? 10 then
      let p := u16 (crt_pos c + CRT_COLS) in set_crt (crt_buf c) (u16 (p - p mod CRT_COLS)) c
    else if k =? 13 then
      set_crt (crt_buf c) (u16 (crt_pos c - crt_pos c mod CRT_COLS)) c
    else set_crt (<[crt_pos c := u16 ch]> (crt_buf c)) (u16 (crt_pos c + 1)) c in
  cga_scroll c.
Definition cons_putc1 (ch : Z) (c : console) : console := cga_putc1 ch (serial_putc ch c).
(** A tab is four blanks through [cons_putc], which is not called again. *)
Definition cga_putc (ch : Z) (c : console) : console :=
  if Z.land ch 0xff =? 9
  then cga_scroll (cons_putc1 32 (cons_putc1 32 (cons_putc1 32 (cons_putc1 32 c))))
  else cga_putc1 ch c.
Definition cons_putc (ch : Z) (c : console) : console := cga_putc ch (serial_putc ch c).
Definition cputchar (ch : Z) (c : console) : console := cons_putc ch c.
Fixpoint printstr_loop (n : nat) (s : list Z) (c : console) : console :=
  match n, s with
  | S n', ch :: s' => printstr_loop n' s' (cons_putc (s8 ch) c)
  | _, _ => c
  end.
Definition printstr (s : list Z) (c : console) : console := printstr_loop 100 s c.

(** ** Input *)

Definition set_kbd (l : list Z) (sh : Z) (c : console) : console :=
  mkConsole (c_buf c) (c_rpos c) (c_wpos c) l sh (serial_exists c) (ser_in c)
    (ser_out c) (crt_buf c) (crt_pos c) (rebooted c).
Definition set_ser (l : list Z) (c : console) : console :=
  mkConsole (c_buf c) (c_rpos c) (c_wpos c) (kbd_in c) (shift c) (serial_exists c) l
    (ser_out c) (crt_buf c) (crt_pos c) (rebooted c).
Definition set_ring (b : gmap Z Z) (r w : Z) (c : console) : console :=
  mkConsole b r w (kbd_in c) (shift c) (serial_exists c) (ser_in c)
    (ser_out c) (crt_buf c) (crt_pos c) (rebooted c).
Definition set_reboot (c : console) : console :=
  mkConsole (c_buf c) (c_rpos c) (c_wpos c) (kbd_in c) (shift c) (serial_exists c) (ser_in c)
    (ser_out c) (crt_buf c) (crt_pos c) true.

Definition serial_proc_data (c : console) : Z * console :=
  match ser_in c with
  | [] => (-1, c)
  | b :: l => (u8 b, set_ser l c)
  end.

Definition kbd_proc_data (c : console) : Z * console :=
  match kbd_in c with
  | [] => (-1, c)
  | b :: l =>
      let data := u8 b in
      let sh := shift c in
      if data =? 0xE0 then (0, set_kbd l (Z.lor sh E0ESC) c)
      else if negb (Z.land data 0x80 =? 0) then
        let data := if negb (Z.land sh E0ESC =? 0) then data else Z.land data 0x7F in
        (0, set_kbd l (Z.land sh (Z.lnot (Z.lor (shiftcode data) E0ESC))) c)
      else
        let '(data, sh) := if negb (Z.land sh E0ESC =? 0)
          then (Z.lor data 0x80, Z.land sh (Z.lnot E0ESC)) else (data, sh) in
        let sh := Z.lor sh (shiftcode data) in
        let sh := Z.lxor sh (togglecode data) in
        let ch := charcode (Z.land sh (Z.lor CTL SHIFT)) data in
        let ch :=
          if negb (Z.land sh CAPSLOCK =? 0) then
            if (97 <=? ch) && (ch <=? 122) then ch + (65 - 97)
            else if (65 <=? ch) && (ch <=? 90) then ch + (97 - 65) else ch
          else ch in
        let c := set_kbd l sh c in
        if (Z.land (Z.lnot sh) (Z.lor CTL ALT) =? 0) && (ch =? KEY_DEL)
        then (ch, set_reboot (printstr (str_codes "Rebooting!" ++ [10]) c))
        else (ch, c)
  end.

(** [while ((c = proc()) != -1)]; a device that has [n] bytes ready ends the
    loop after at most [n + 1] calls. *)
Fixpoint cons_intr (fuel : nat) (proc : console -> Z * console) (c : console) : console :=
  match fuel with
  | O => c
  | S f =>
      let '(ch, c) := proc c in
      if ch =? -1 then c
      else if ch =? 0 then cons_intr f proc c
      else
        let b := <[c_wpos c := u8 ch]> (c_buf c) in
        let w := u32 (c_wpos c + 1) in
        cons_intr f proc (set_ring b (c_rpos c) (if w =? CONSBUFSIZE then 0 else w) c)
  end.
Definition serial_intr (c : console) : console :=
  if serial_exists c then cons_intr (S (length (ser_in c))) serial_proc_data c else c.
Definition kbd_intr (c : console) : console :=
  cons_intr (S (length (kbd_in c))) kbd_proc_data c.

Definition cons_getc (c : console) : Z * console :=
  let c := kbd_intr (serial_intr c) in
  if negb (c_rpos c =? c_wpos c) then
    let ch := default 0 (c_buf c !! c_rpos c) in
    let r := u32 (c_rpos c + 1) in
    (ch, set_ring (c_buf c) (if r =? CONSBUFSIZE then 0 else r) (c_wpos c) c)
  else (0, c).

(** ** The screen *)

(** The cursor is on the screen and only screen cells were written. *)
Definition screen_ok (c : console) : Prop :=
  0 <= crt_pos c < CRT_SIZE /\ forall i, is_Some (crt_buf c !! i) -> 0 <= i < CRT_SIZE.

Lemma scroll_rows_dom n i old new :
  0 <= i -> i + Z.of_nat n <= CRT_SIZE ->
  (forall j, is_Some (new !! j) -> 0 <= j < CRT_SIZE) ->
  forall j, is_Some (scroll_rows n i old new !! j) -> 0 <= j < CRT_SIZE.
Proof.
  revert i new. induction n as [|n IH]; intros i new Hi Hn Hnew j; simpl; [apply Hnew|].
  apply IH; [lia|lia|]. intros k. destruct (decide (k = i)) as [->|].
  - intros _. lia.
  - rewrite lookup_insert_ne by done. apply Hnew.
Qed.
Lemma blank_row_dom n i b :
  0 <= i -> i + Z.of_nat n <= CRT_SIZE ->
  (forall j, is_Some (b !! j) -> 0 <= j < CRT_SIZE) ->
  forall j, is_Some (blank_row n i b !! j) -> 0 <= j < CRT_SIZE.
Proof.
  revert i b. induction n as [|n IH]; intros i b Hi Hn Hb j; simpl; [apply Hb|].
  apply IH; [lia|lia|]. intros k. destruct (decide (k = i)) as [->|].
  - intros _. lia.
  - rewrite lookup_insert_ne by done. apply Hb.
Qed.

Lemma cga_scroll_ok c :
  0 <= crt_pos c <= CRT_SIZE ->
  (forall i, is_Some (crt_buf c !! i) -> 0 <= i < CRT_SIZE) -> screen_ok (cga_scroll c).
Proof.
  intros Hp Hb. unfold cga_scroll, screen_ok.
  destruct (crt_pos c >=? CRT_SIZE) eqn:E; zbool; [|split; [lia|done]].
  cbn [set_crt crt_pos crt_buf]. split.
  - rewrite u16_small; unfold CRT_SIZE, CRT_ROWS, CRT_COLS in *; lia.
  - assert (CRT_SIZE = 2000 /\ CRT_COLS = 80) as [-> ->] by done.
    apply blank_row_dom; [lia|done|]. by apply scroll_rows_dom.
Qed.

Lemma insert_cell_ok (b : gmap Z Z) p v :
  0 <= p < CRT_SIZE -> (forall i, is_Some (b !! i) -> 0 <= i < CRT_SIZE) ->
  forall i, is_Some (<[p := v]> b !! i) -> 0 <= i < CRT_SIZE.
Proof.
  intros Hp Hb i. destruct (decide (i = p)) as [->|]; [done|].
  rewrite lookup_insert_ne by done. apply Hb.
Qed.

Lemma cga_putc1_ok ch c : screen_ok c -> screen_ok (cga_putc1 ch c).
Proof.
  intros [Hp Hb]. unfold cga_putc1. cbv zeta.
  assert (Hs : CRT_SIZE = 2000) by done. assert (Hc : CRT_COLS = 80) by done.
  destruct (_ =? 8) eqn:?; [destruct (crt_pos c >? 0) eqn:?; zbool|
    destruct (_ =? 10) eqn:?; [|destruct (_ =? 13) eqn:?]]; apply cga_scroll_ok;
    cbn [set_crt crt_pos crt_buf]; try done; try lia.
  - apply insert_cell_ok; [lia|done].
  - rewrite Hc, !u16_small; [zdiv|zdiv|rewrite u16_small; zdiv].
  - rewrite Hc, u16_small; zdiv.
  - rewrite u16_small; lia.
  - by apply insert_cell_ok.
Qed.

Lemma serial_putc_screen ch c : screen_ok c -> screen_ok (serial_putc ch c).
Proof. unfold serial_putc, screen_ok. by case_match. Qed.

Lemma cons_putc1_ok ch c : screen_ok c -> screen_ok (cons_putc1 ch c).
Proof. intros. by apply cga_putc1_ok, serial_putc_screen. Qed.

Lemma cons_putc_ok ch c : screen_ok c -> screen_ok (cons_putc ch c).
Proof.
  intros H. unfold cons_putc, cga_putc. case_match.
  - assert (screen_ok (cons_putc1 32 (cons_putc1 32 (cons_putc1 32 (cons_putc1 32
      (serial_putc ch c)))))) as [? ?] by auto 10 using cons_putc1_ok, serial_putc_screen.
    apply cga_scroll_ok; [lia|done].
  - by apply cga_putc1_ok, serial_putc_screen.
Qed.

(** Output never leaves the screen: from a state whose cursor is on the
    screen, printing any sequence of characters - tabs, new lines, carriage
    returns and backspaces included - ends with the cursor on the screen and
    has written only the 2000 cells of the video memory. *)
Theorem output_stays_on_screen (s : list Z) (c : console) :
  screen_ok c -> screen_ok (foldl (fun c ch => cputchar ch c) c s).
Proof.
  revert c. induction s as [|ch s IH]; intros c H; [done|]. by apply IH, cons_putc_ok.
Qed.

(** A printable character lands in the cell under the cursor, in black
    on white, and the cursor moves one cell on; every other cell keeps its
    contents (no scrolling when the cursor is not in the last cell). *)
Theorem putc_prints (ch : Z) (c : console) :
  0 <= crt_pos c < CRT_SIZE - 1 -> 32 <= ch < 127 ->
  crt_pos (cputchar ch c) = crt_pos c + 1 /\
  crt_buf (cputchar ch c) = <[crt_pos c := ch + 0x0700]> (crt_buf c) /\
  ser_out (cputchar ch c) = ser_out c ++ [ch].
Proof.
  intros Hp Hch. unfold cputchar, cons_putc, cga_putc.
  assert (Hs : CRT_SIZE = 2000) by done.
  assert (H0 : Z.land ch 255 = ch).
  { change 255 with (Z.ones 8). rewrite Z.land_ones, Z.mod_small; lia. }
  assert (Ha : cga_attr ch = ch + 0x0700).
  { unfold cga_attr. rewrite u32_small by lia.
    assert (Z.land ch (u32 (Z.lnot 255)) = 0) as ->.
    { apply testbit_ext. intros i Hi. rewrite Z.land_spec, Z.bits_0.
      destruct (decide (i < 8)).
      - change (u32 (Z.lnot 255)) with (Z.shiftl (Z.ones 24) 8).
        rewrite Z.shiftl_spec_low by lia. apply andb_false_r.
      - by rewrite (testbit_high ch 8 i) by lia. }
    change (0 =? 0) with true. cbv iota.
    rewrite Z.lor_comm, (lor_disjoint_add _ _ 8); [lia|lia|lia|done]. }
  rewrite H0. rewrite (proj2 (Z.eqb_neq ch 9)) by lia.
  unfold serial_putc. rewrite (proj2 (Z.eqb_neq ch 8)) by lia.
  unfold cga_putc1. rewrite Ha. cbv zeta.
  assert (Z.land (ch + 0x0700) 255 = ch) as ->.
  { change 255 with (Z.ones 8). rewrite Z.land_ones by lia.
    replace (ch + 0x0700) with (ch + 7 * 2 ^ 8) by lia.
    rewrite Z.mod_add by lia. apply Z.mod_small. lia. }
  rewrite (proj2 (Z.eqb_neq ch 8)), (proj2 (Z.eqb_neq ch 10)), (proj2 (Z.eqb_neq ch 13)) by lia.
  cbn [set_out crt_pos crt_buf]. unfold cga_scroll. cbn [set_crt crt_pos].
  rewrite (u16_small (crt_pos c + 1)) by lia.
  destruct (crt_pos c + 1 >=? CRT_SIZE) eqn:E; zbool; [lia|].
  cbn [set_crt set_out crt_pos crt_buf ser_out]. rewrite u16_small, u8_small by lia. done.
Qed.

(** ** The input queue *)

(** The bytes waiting in the buffer: the [n] ones from read position [r] on. *)
Definition ring_at (r i : Z) : Z := (r + i) mod CONSBUFSIZE.
Definition waiting (c : console) : Z := (c_wpos c - c_rpos c) mod CONSBUFSIZE.
Definition pending (c : console) : list Z :=
  (fun i => default 0 (c_buf c !! ring_at (c_rpos c) i)) <$> seqZ 0 (waiting c).
Definition ring_ok (c : console) : Prop :=
  0 <= c_rpos c < CONSBUFSIZE /\ 0 <= c_wpos c < CONSBUFSIZE.

(** The queue operations on the ring. *)
Definition ring_push (ch : Z) (c : console) : console :=
  let w := u32 (c_wpos c + 1) in
  set_ring (<[c_wpos c := u8 ch]> (c_buf c)) (c_rpos c) (if w =? CONSBUFSIZE then 0 else w) c.

Lemma ring_next p : 0 <= p < CONSBUFSIZE ->
  (if u32 (p + 1) =? CONSBUFSIZE then 0 else u32 (p + 1)) = (p + 1) mod CONSBUFSIZE.
Proof.
  intros Hp. unfold CONSBUFSIZE in *.
  rewrite u32_small by lia. destruct (_ =? _) eqn:E; zbool; zdiv.
Qed.

Lemma ring_push_pending ch c :
  ring_ok c -> waiting c < CONSBUFSIZE - 1 ->
  ring_ok (ring_push ch c) /\ pending (ring_push ch c) = pending c ++ [u8 ch].
Proof.
  intros [Hr Hw] Hn. unfold ring_push, ring_ok. cbv zeta.
  rewrite (ring_next (c_wpos c)) by done. cbn [set_ring c_rpos c_wpos].
  split; [split; [done|apply Z.mod_pos_bound; done]|].
  assert (Hwt : waiting (set_ring (<[c_wpos c := u8 ch]> (c_buf c)) (c_rpos c)
    ((c_wpos c + 1) mod CONSBUFSIZE) c) = waiting c + 1).
  { unfold waiting in *. cbn [set_ring c_rpos c_wpos]. unfold CONSBUFSIZE in *. zdiv. }
  unfold pending. rewrite Hwt. cbn [set_ring c_rpos c_buf].
  assert (Hw0 : 0 <= waiting c) by (apply Z.mod_pos_bound; done).
  rewrite seqZ_app, fmap_app by lia. f_equal.
  - apply list_fmap_ext. intros k i Hk. apply lookup_seqZ in Hk as [-> Hk].
    rewrite lookup_insert_ne; [done|].
    unfold ring_at, waiting, CONSBUFSIZE in *. zdiv.
  - simpl. do 2 f_equal. unfold ring_at.
    replace ((c_rpos c + (Z.of_nat 0 + (0 + waiting c))) mod CONSBUFSIZE) with (c_wpos c).
    2:{ unfold waiting, CONSBUFSIZE in *. zdiv. }
    by rewrite lookup_insert_eq.
Qed.

(** Printing neither reads nor changes the input side of the console: it
    commutes with any change of the ring and of the serial line's input. *)
Definition set_in (b : gmap Z Z) (r w : Z) (l : list Z) (c : console) : console :=
  set_ring b r w (set_ser l c).

Section printing_frame.
Context (b : gmap Z Z) (r w : Z) (l : list Z).
Implicit Types c : console.

Lemma serial_putc_set_in ch c :
  serial_putc ch (set_in b r w l c) = set_in b r w l (serial_putc ch c).
Proof. unfold serial_putc. by case_match. Qed.
Lemma cga_scroll_set_in c : cga_scroll (set_in b r w l c) = set_in b r w l (cga_scroll c).
Proof. unfold cga_scroll. cbn [set_in set_ring set_ser crt_pos]. by case_match. Qed.
Lemma cga_putc1_set_in ch c :
  cga_putc1 ch (set_in b r w l c) = set_in b r w l (cga_putc1 ch c).
Proof.
  unfold cga_putc1. rewrite <- cga_scroll_set_in. f_equal.
  cbn [set_in set_ring set_ser crt_pos crt_buf]. by repeat case_match.
Qed.
Lemma cons_putc1_set_in ch c :
  cons_putc1 ch (set_in b r w l c) = set_in b r w l (cons_putc1 ch c).
Proof. unfold cons_putc1. by rewrite serial_putc_set_in, cga_putc1_set_in. Qed.
Lemma cons_putc_set_in ch c :
  cons_putc ch (set_in b r w l c) = set_in b r w l (cons_putc ch c).
Proof.
  unfold cons_putc, cga_putc. rewrite serial_putc_set_in. case_match.
  - by rewrite !cons_putc1_set_in, cga_scroll_set_in.
  - apply cga_putc1_set_in.
Qed.
Lemma printstr_set_in s c :
  printstr s (set_in b r w l c) = set_in b r w l (printstr s c).
Proof.
  unfold printstr. generalize 100%nat. intros n. revert s c.
  induction n as [|n IH]; intros [|ch s] c; try done. simpl. by rewrite cons_putc_set_in, IH.
Qed.

Lemma set_reboot_in c : set_reboot (set_in b r w l c) = set_in b r w l (set_reboot c).
Proof. by destruct c. Qed.
Lemma set_kbd_in k sh c : set_kbd k sh (set_in b r w l c) = set_in b r w l (set_kbd k sh c).
Proof. done. Qed.

(** The keyboard handler likewise. *)
Lemma kbd_set_in c :
  kbd_proc_data (set_in b r w l c) =
  (fst (kbd_proc_data c), set_in b r w l (snd (kbd_proc_data c))).
Proof.
  unfold kbd_proc_data. cbn [set_in set_ring set_ser kbd_in shift].
  destruct (kbd_in c) as [|k ks]; [done|]. cbv zeta.
  case_match; [done|]. case_match; [done|]. case_match.
  destruct (_ && (_ =? KEY_DEL)); [|done]. cbn [fst snd]. f_equal.
  by rewrite set_kbd_in, printstr_set_in, set_reboot_in.
Qed.
End printing_frame.

(** What printing leaves alone. *)
Definition inputs_of (c : console) := (c_buf c, c_rpos c, c_wpos c, kbd_in c, ser_in c, serial_exists c).
Lemma cga_scroll_inputs c : inputs_of (cga_scroll c) = inputs_of c.
Proof. unfold cga_scroll. by case_match. Qed.
Lemma serial_putc_inputs ch c : inputs_of (serial_putc ch c) = inputs_of c.
Proof. unfold serial_putc. by case_match. Qed.
Lemma cga_putc1_inputs ch c : inputs_of (cga_putc1 ch c) = inputs_of c.
Proof. unfold cga_putc1. rewrite cga_scroll_inputs. by repeat case_match. Qed.
Lemma cons_putc_inputs ch c : inputs_of (cons_putc ch c) = inputs_of c.
Proof.
  unfold cons_putc, cga_putc, cons_putc1.
  case_match; rewrite ?cga_scroll_inputs;
    repeat rewrite ?cga_putc1_inputs, ?serial_putc_inputs; done.
Qed.
Lemma printstr_inputs s c : inputs_of (printstr s c) = inputs_of c.
Proof.
  unfold printstr. generalize 100%nat. intros n. revert s c.
  induction n as [|n IH]; intros [|ch s] c; try done. simpl. by rewrite IH, cons_putc_inputs.
Qed.

Definition ring_of (c : console) := (c_buf c, c_rpos c, c_wpos c).
Lemma ring_of_eq c c' : ring_of c' = ring_of c ->
  (ring_ok c -> ring_ok c') /\ pending c' = pending c /\ waiting c' = waiting c.
Proof. unfold ring_of, ring_ok, pending, waiting. by intros [= -> -> ->]. Qed.
Lemma length_pending c : Z.of_nat (length (pending c)) = waiting c.
Proof.
  unfold pending. rewrite length_fmap, length_seqZ.
  pose proof (Z.mod_pos_bound (c_wpos c - c_rpos c) CONSBUFSIZE).
  unfold waiting, CONSBUFSIZE in *. lia.
Qed.

(** A device handler that consumes one byte per call and leaves the ring to
    [cons_intr]; [left] is what it still has to read. *)
Record source (proc : console -> Z * console) (left : console -> list Z) : Prop := {
  src_none c : left c = [] -> proc c = (-1, c);
  src_some c b l : left c = b :: l -> 0 <= fst (proc c) /\ left (snd (proc c)) = l;
  src_ring c : ring_of (snd (proc c)) = ring_of c;
  src_comm b r w c : proc (set_ring b r w c) =
    (fst (proc c), set_ring b r w (snd (proc c)));
  src_left b r w c : left (set_ring b r w c) = left c }.
(** The characters the device delivers, in order; 0 stands for none. *)
Fixpoint delivers (n : nat) (proc : console -> Z * console) (c : console) : list Z :=
  match n with
  | O => []
  | S n' => fst (proc c) :: delivers n' proc (snd (proc c))
  end.
Definition nonzero (l : list Z) : list Z := filter (fun ch => ch <> 0) l.

Section intr.
Context (proc : console -> Z * console) (left : console -> list Z) (HP : source proc left).
Implicit Types c : console.

Lemma delivers_ring n b r w c : delivers n proc (set_ring b r w c) = delivers n proc c.
Proof.
  revert c. induction n as [|n IH]; intros c; [done|]. simpl.
  rewrite (src_comm _ _ HP). cbn [fst snd]. by rewrite IH.
Qed.

Lemma cons_intr_S n c : cons_intr (S n) proc c =
  let '(ch, c) := proc c in
  if ch =? -1 then c
  else if ch =? 0 then cons_intr n proc c
  else cons_intr n proc (ring_push ch c).
Proof. done. Qed.

Lemma cons_intr_fifo n c :
  length (left c) = n -> ring_ok c ->
  let new := nonzero (delivers n proc c) in
  waiting c + Z.of_nat (length new) < CONSBUFSIZE ->
  let c' := cons_intr (S n) proc c in
  ring_ok c' /\ pending c' = pending c ++ (u8 <$> new) /\ left c' = [].
Proof.
  revert c. induction n as [|n IH]; intros c Hn Hr new Hw c'.
  { apply nil_length_inv in Hn. unfold c', new. simpl.
    rewrite (src_none _ _ HP c Hn). change (-1 =? -1) with true. cbv iota.
    by rewrite app_nil_r. }
  destruct (left c) as [|b l] eqn:Hl; [done|]. injection Hn as Hn.
  pose proof (src_some _ _ HP c b l Hl) as [Hch Hl1].
  pose proof (ring_of_eq _ _ (src_ring _ _ HP c)) as (Hr1 & Hp1 & Hw1).
  specialize (Hr1 Hr). unfold c', new in *. clear c' new.
  rewrite cons_intr_S. cbn [delivers] in Hw. change (delivers (S n) proc c)
    with (fst (proc c) :: delivers n proc (snd (proc c))).
  destruct (proc c) as [ch c1]. cbn [fst snd] in *.
  rewrite (proj2 (Z.eqb_neq ch (-1))) by lia.
  unfold nonzero in *. rewrite filter_cons in Hw. rewrite filter_cons.
  destruct (Z.eqb_spec ch 0) as [->|Hnz].
  { rewrite decide_False in Hw by lia. rewrite decide_False by lia.
    rewrite <- Hp1. apply IH; [by rewrite Hl1|done|lia]. }
  rewrite decide_True in Hw by done. rewrite decide_True by done. cbn [length] in Hw.
  destruct (ring_push_pending ch c1) as [Hr2 Hp2]; [done|lia|].
  assert (Hw2 : waiting (ring_push ch c1) = waiting c + 1).
  { rewrite <- !length_pending, Hp2, length_app, Hp1. simpl. lia. }
  destruct (IH (ring_push ch c1)) as (? & Hp3 & ?).
  - unfold ring_push. by rewrite (src_left _ _ HP), Hl1.
  - done.
  - rewrite Hw2. unfold ring_push. rewrite delivers_ring. lia.
  - split; [done|]. split; [|done]. rewrite Hp3, Hp2, Hp1.
    unfold ring_push at 1. by rewrite delivers_ring, <- app_assoc.
Qed.
End intr.

(** ** The two devices *)

Lemma serial_source : source serial_proc_data ser_in.
Proof.
  unfold serial_proc_data. split; intros *.
  - by intros ->.
  - intros ->. simpl. pose proof (u8_bound b). split; [lia|done].
  - by case_match.
  - cbn [set_ring ser_in]. by destruct (ser_in c).
  - done.
Qed.

Lemma table_nonneg front named i :
  Forall (fun z => 0 <= z) (front ++ named.*2) -> 0 <= table front named i.
Proof.
  rewrite Forall_app. intros [Hf Hn]. unfold table. case_match eqn:E.
  - apply find_some in E as [E _]. rewrite Forall_forall in Hn. apply Hn.
    apply list_elem_of_In in E. apply list_elem_of_fmap. by exists p.
  - destruct (front !! _) eqn:E'; simpl; [|done].
    rewrite Forall_forall in Hf. by eapply Hf, list_elem_of_lookup_2.
Qed.
Lemma charcode_nonneg k i : 0 <= charcode k i.
Proof.
  unfold charcode. repeat case_match; apply table_nonneg, (bool_decide_unpack _); by vm_compute.
Qed.

Lemma set_reboot_inputs c : inputs_of (set_reboot c) = inputs_of c.
Proof. done. Qed.
Lemma kbd_inputs c : inputs_of (snd (kbd_proc_data c)) =
  (c_buf c, c_rpos c, c_wpos c, tail (kbd_in c), ser_in c, serial_exists c).
Proof.
  unfold kbd_proc_data. destruct (kbd_in c) as [|k ks] eqn:E.
  { cbn [snd]. unfold inputs_of. by rewrite E. }
  cbv zeta. case_match; [done|]. case_match; [done|]. case_match.
  destruct (_ && (_ =? KEY_DEL)); [|done]. cbn [snd].
  by rewrite set_reboot_inputs, printstr_inputs.
Qed.
Lemma inputs_of_fields c b r w k l e : inputs_of c = (b, r, w, k, l, e) ->
  ring_of c = (b, r, w) /\ kbd_in c = k /\ ser_in c = l.
Proof. unfold inputs_of, ring_of. by intros [= <- <- <- <- <- <-]. Qed.
Lemma set_ring_in b r w c : set_ring b r w c = set_in b r w (ser_in c) c.
Proof. by destruct c. Qed.

Lemma kbd_char_nonneg c : kbd_in c <> [] -> 0 <= fst (kbd_proc_data c).
Proof.
  intros H. unfold kbd_proc_data. destruct (kbd_in c) as [|k ks]; [done|].
  cbv zeta. case_match; [done|]. case_match; [done|]. case_match.
  match goal with |- context [charcode ?a ?b] => generalize (charcode_nonneg a b);
    generalize (charcode a b); intros ch Hch end.
  assert (forall x : bool, 0 <= (if x then if (97 <=? ch) && (ch <=? 122) then ch + (65 - 97)
    else if (65 <=? ch) && (ch <=? 90) then ch + (97 - 65) else ch else ch)) as Hc.
  { intros [|]; [|done]. destruct (_ && _) eqn:?; [zbool; lia|].
    destruct ((65 <=? ch) && (ch <=? 90)) eqn:?; zbool; lia. }
  destruct (_ && (_ =? KEY_DEL)); cbn [fst]; apply Hc.
Qed.

Lemma kbd_source : source kbd_proc_data kbd_in.
Proof.
  split.
  - intros c H. unfold kbd_proc_data. by rewrite H.
  - intros c b l H. split; [apply kbd_char_nonneg; by rewrite H|].
    pose proof (inputs_of_fields _ _ _ _ _ _ _ (kbd_inputs c)) as (_ & -> & _). by rewrite H.
  - intros c. apply (inputs_of_fields _ _ _ _ _ _ _ (kbd_inputs c)).
  - intros b r w c. rewrite (set_ring_in b r w c), kbd_set_in, set_ring_in.
    pose proof (inputs_of_fields _ _ _ _ _ _ _ (kbd_inputs c)) as (_ & _ & ->). done.
  - done.
Qed.

(** The keys decoded from the scan codes that are waiting. *)
Definition keys (c : console) : list Z :=
  nonzero (delivers (length (kbd_in c)) kbd_proc_data c).
(** A fresh console, for examples. *)
Definition console0 (kbd ser : list Z) : console :=
  mkConsole empty 0 0 kbd 0 true ser [] empty 0 false.

Lemma u8_list l : Forall (fun b => 0 <= b < 256) l -> u8 <$> l = l.
Proof.
  induction 1 as [|b l Hb _ IH]; [done|]. cbn [fmap list_fmap].
  rewrite u8_small by done. by f_equal.
Qed.

Lemma serial_intr_fifo c :
  ring_ok c -> serial_exists c = true ->
  waiting c + Z.of_nat (length (nonzero (u8 <$> ser_in c))) < CONSBUFSIZE ->
  ring_ok (serial_intr c) /\ pending (serial_intr c) = pending c ++ nonzero (u8 <$> ser_in c).
Proof.
  intros Hr He Hw. unfold serial_intr. rewrite He.
  assert (Hd : delivers (length (ser_in c)) serial_proc_data c = u8 <$> ser_in c).
  { clear. remember (ser_in c) as l eqn:Hl. revert c Hl.
    induction l as [|b l IH]; intros c Hl; [done|]. simpl.
    rewrite IH; unfold serial_proc_data; by rewrite <- Hl. }
  destruct (cons_intr_fifo _ _ serial_source (length (ser_in c)) c) as (? & Hp & _);
    rewrite ?Hd; [done..|]. rewrite Hd in Hp. split; [done|]. rewrite Hp. f_equal.
  apply u8_list, Forall_forall. intros b [_ Hb]%list_elem_of_filter.
  apply list_elem_of_fmap in Hb as (a & -> & _). apply u8_bound.
Qed.

Lemma serial_intr_set_in c : exists b r w l, serial_intr c = set_in b r w l c.
Proof.
  unfold serial_intr. destruct (serial_exists c);
    [|exists (c_buf c), (c_rpos c), (c_wpos c), (ser_in c); by destruct c].
  generalize (S (length (ser_in c))). intros n. revert c. induction n as [|n IH]; intros c.
  { exists (c_buf c), (c_rpos c), (c_wpos c), (ser_in c). by destruct c. }
  rewrite cons_intr_S. unfold serial_proc_data at 1.
  destruct (ser_in c) as [|b l].
  { exists (c_buf c), (c_rpos c), (c_wpos c), (ser_in c). by destruct c. }
  rewrite (proj2 (Z.eqb_neq (u8 b) (-1))) by (pose proof (u8_bound b); lia).
  case_match; [destruct (IH (set_ser l c)) as (?&?&?&?&->)|
    destruct (IH (ring_push (u8 b) (set_ser l c))) as (?&?&?&?&->)]; eauto 10.
Qed.
Lemma keys_set_in b r w l c : keys (set_in b r w l c) = keys c.
Proof.
  unfold keys. cbn [set_in set_ring set_ser kbd_in]. f_equal.
  generalize (length (kbd_in c)). intros n. revert c. induction n as [|n IH]; intros c; [done|].
  cbn [delivers]. rewrite kbd_set_in. cbn [fst snd]. by rewrite IH.
Qed.

Lemma ring_pop c : ring_ok c -> waiting c <> 0 ->
  pending c = default 0 (c_buf c !! c_rpos c) ::
    pending (set_ring (c_buf c) ((c_rpos c + 1) mod CONSBUFSIZE) (c_wpos c) c).
Proof.
  intros [Hr Hw] Hn. unfold pending.
  assert (Hw' : waiting c = 1 + waiting (set_ring (c_buf c) ((c_rpos c + 1) mod CONSBUFSIZE)
    (c_wpos c) c)).
  { unfold waiting, CONSBUFSIZE in *. cbn [set_ring c_rpos c_wpos]. zdiv. }
  rewrite Hw'. cbn [set_ring c_buf c_rpos].
  set (n := waiting (set_ring _ _ _ _)) in *.
  assert (0 <= n) by (apply Z.mod_pos_bound; done).
  rewrite seqZ_cons by lia. cbn [fmap list_fmap]. f_equal.
  - unfold ring_at. by rewrite Z.add_0_r, Z.mod_small.
  - replace (seqZ (Z.succ 0) (Z.pred (1 + n))) with (Z.add 1 <$> seqZ 0 n).
    2:{ rewrite fmap_add_seqZ. f_equal; lia. }
    rewrite <- list_fmap_compose. apply list_fmap_ext.
    intros k i Hi. simpl. do 2 f_equal. unfold ring_at. apply lookup_seqZ in Hi as [-> ?].
    rewrite Zplus_mod_idemp_l. f_equal. lia.
Qed.

(** C29.  The console is a queue: what [cons_getc] returns is the oldest
    character that was waiting in the buffer, then those the serial line has
    ready, then those the keyboard's scan codes decode to, in order; 0 when
    there is none.  Nothing is lost or reordered as long as fewer than 512
    characters are waiting. *)
Theorem cons_getc_fifo (c : console) :
  ring_ok c -> serial_exists c = true ->
  let input := pending c ++ nonzero (u8 <$> ser_in c) ++ (u8 <$> keys c) in
  Z.of_nat (length input) < CONSBUFSIZE ->
  let '(ch, c') := cons_getc c in
  ring_ok c' /\ ch = hd 0 input /\ pending c' = tail input.
Proof.
  intros Hr He input Hn. unfold input in *. clear input.
  rewrite !length_app, length_fmap in Hn. unfold cons_getc. cbv zeta.
  destruct (serial_intr_fifo c) as [Hr1 Hp1]; [done|done|rewrite <- length_pending; lia|].
  destruct (serial_intr_set_in c) as (b&r&w&l&Es).
  set (c1 := serial_intr c) in *.
  assert (Hk : keys c1 = keys c) by (by rewrite Es, keys_set_in).
  destruct (cons_intr_fifo _ _ kbd_source (length (kbd_in c1)) c1) as (Hr2 & Hp2 & _);
    [done|done| |].
  { fold (keys c1). rewrite Hk, <- length_pending, Hp1, length_app. lia. }
  fold (keys c1) (kbd_intr c1) in Hr2, Hp2. rewrite Hk, Hp1, <- app_assoc in Hp2.
  set (c2 := kbd_intr c1) in *. rewrite <- Hp2. clearbody c2. clear -Hr2.
  destruct Hr2 as [Hr Hw].
  destruct (Z.eqb_spec (c_rpos c2) (c_wpos c2)) as [E|E]; cbn [negb].
  - split; [done|]. assert (pending c2 = []) as ->; [|done].
    unfold pending, waiting. by rewrite E, Z.sub_diag.
  - rewrite ring_next by done. rewrite (ring_pop c2); [|done|].
    + split; [|done]. split; [apply Z.mod_pos_bound; done|done].
    + unfold waiting, CONSBUFSIZE in *. zdiv.
Qed.

(** Two bytes on the serial line and the scan codes of shift-a: [cons_getc]
    returns the first serial byte and keeps "B" and "A" waiting. *)
Lemma cons_getc_fifo_witness :
  let '(ch, c') := cons_getc (console0 [0x2A; 0x1E] [65; 0; 66]) in
  ch = 65 /\ pending c' = [66; 65].
Proof.
  assert (Hr : ring_ok (console0 [0x2A; 0x1E] [65; 0; 66])) by (split; split; vm_compute; congruence).
  assert (Hi : pending (console0 [0x2A; 0x1E] [65; 0; 66]) ++
    nonzero (u8 <$> ser_in (console0 [0x2A; 0x1E] [65; 0; 66])) ++
    (u8 <$> keys (console0 [0x2A; 0x1E] [65; 0; 66])) = [65; 66; 65]) by (vm_compute; reflexivity).
  pose proof (cons_getc_fifo _ Hr eq_refl) as H. cbv zeta in H. rewrite Hi in H.
  specialize (H eq_refl). destruct (cons_getc _) as [ch c']. destruct H as (_ & H).
  exact H.
Defined.

Lemma output_stays_on_screen_witness :
  screen_ok (foldl (fun c ch => cputchar ch c) (console0 [] []) [10; 65; 9; 8; 13]).
Proof.
  apply output_stays_on_screen. split; [split; vm_compute; congruence|].
  intros i [x Hx]. vm_compute in Hx. discriminate Hx.
Defined.

Lemma putc_prints_witness : crt_pos (cputchar 65 (console0 [] [])) = 1.
Proof.
  destruct (putc_prints 65 (console0 [] [])) as [H _];
    [split; vm_compute; congruence|lia|exact H].
Defined.
