(* ===== verification/FsMeta.v ===== *)
(** * The file server's guarantees: allocation, names, mounting, flushing *)
From S2P Require Import Prelude Layout Mem CString FsMach DamnFS FsLogic FsBitmap.
From S2P Require Import FsFile FsRW FsTrunc FsDir FsProps.

(** [alloc_block] takes the lowest free block: it returns a block that
    was free, all lower ones being in use, marks it and nothing else, and has
    the super block on disk; with no free block it returns [-E_NO_DISK] and
    changes nothing.  It never hands out the super block or the inode table. *)
Theorem alloc_block_lowest f : fs_ok f ->
  fwp alloc_block (fun r f' =>
    (r = - E_NO_DISK /\ f' = f /\ disk_full f) \/
    (2 <= r < blk_num (fl_mem f) DISKMAP /\ used (fl_mem f) r = false /\
     (forall c, 0 <= c < r -> used (fl_mem f) c = true) /\
     bm_update BLK_MAP MAXBLKNUM r true f f' /\ fs_ok f')) f.
Proof. apply alloc_block_fwp. Qed.
Lemma alloc_block_lowest_witness :
  fwp alloc_block (fun r f' => r = 4 /\ used (fl_mem f') 4 = true) demo_fs.
Proof.
  eapply fwp_mono; [apply (alloc_block_lowest demo_fs demo_ok)|].
  intros r g [(_ & _ & Hfull)|(Hr & Hu & Hall & Hup & _)].
  - exfalso. specialize (Hfull 5). by vm_compute in Hfull; intuition discriminate.
  - change (blk_num (fl_mem demo_fs) DISKMAP) with 8 in Hr.
    assert (r = 4) as ->.
    { destruct (decide (r = 4)); [done|]. exfalso. destruct (decide (r < 4)).
      - assert (r = 2 \/ r = 3) as [-> | ->] by lia; by vm_compute in Hu.
      - specialize (Hall 4 ltac:(lia)). by vm_compute in Hall. }
    split; [done|]. rewrite (bu_bits _ _ _ _ _ _ Hup) by (unfold MAXBLKNUM; lia).
    by rewrite decide_True.
Defined.

(** [alloc_inode] takes the lowest free inode, [-E_NO_INODE] with no
    change when there is none, and leaves the block bitmap alone. *)
Theorem alloc_inode_lowest f : fs_ok f ->
  fwp alloc_inode (fun r f' =>
    (r = - E_NO_INODE /\ f' = f /\
     forall c, 0 <= c < in_num (fl_mem f) DISKMAP -> ino_used (fl_mem f) c = true) \/
    (0 <= r < in_num (fl_mem f) DISKMAP /\ ino_used (fl_mem f) r = false /\
     (forall c, 0 <= c < r -> ino_used (fl_mem f) c = true) /\
     bm_update INO_MAP MAXINODENUM r true f f' /\ fs_ok f')) f.
Proof. apply alloc_inode_fwp. Qed.
Lemma alloc_inode_lowest_witness :
  fwp alloc_inode (fun r f' => r <> - E_NO_INODE -> ino_used (fl_mem demo_fs) r = false) demo_fs.
Proof.
  eapply fwp_mono; [apply (alloc_inode_lowest demo_fs demo_ok)|].
  intros r g [(-> & _)|(_ & Hu & _)]; [done|intros _; exact Hu].
Defined.

(** Allocate, then free what was allocated. *)
Definition alloc_then_free : prog Z :=
  r ← alloc_block;
  if r <? 0 then mret r else free_block r;; mret r.

(** [free_block] undoes [alloc_block]: after both, every byte of memory
    is as it was before. *)
Theorem free_undoes_alloc f : fs_ok f ->
  fwp alloc_then_free (fun _ g =>
    (forall b, 0 <= b < MAXBLKNUM -> used (fl_mem g) b = used (fl_mem f) b) /\
    forall x, x < BLK_MAP \/ INO_MAP <= x -> load8 (fl_mem g) x = load8 (fl_mem f) x) f.
Proof.
  intros Hf. unfold alloc_then_free. fstep.
  eapply fwp_mono; [by apply alloc_block_fwp|]. cbv beta.
  intros r g [(-> & -> & _)|(Hr & Hu & _ & Hup & Hg)].
  { change (- E_NO_DISK <? 0) with true. cbv iota. by fstep. }
  rewrite (proj2 (Z.ltb_ge r 0)) by lia. pose proof (ok_blk_num f Hf).
  fstep. eapply fwp_mono; [apply free_block_fwp; [done|lia]|].
  cbv beta. intros [] h [Hup2 _]. fstep. split.
  - intros b Hb. rewrite (bu_bits _ _ _ _ _ _ Hup2), (bu_bits _ _ _ _ _ _ Hup) by done.
    case_decide; [by subst|done].
  - intros x Hx. change (BLK_MAP + 512 <= x) with (INO_MAP <= x) in *.
    rewrite (bu_frame _ _ _ _ _ _ Hup2), (bu_frame _ _ _ _ _ _ Hup); try done;
      change (MAXBLKNUM / 8) with 512; unfold INO_MAP, BLK_MAP in *; lia.
Qed.
Lemma free_undoes_alloc_witness :
  fwp alloc_then_free (fun _ g =>
    (forall b, 0 <= b < MAXBLKNUM -> used (fl_mem g) b = used demo_mem b) /\
    forall x, x < BLK_MAP \/ INO_MAP <= x -> load8 (fl_mem g) x = load8 demo_mem x) demo_fs.
Proof. exact (free_undoes_alloc demo_fs demo_ok). Defined.

(** [file_get_block] gives the address of block [k] of the file: the
    existing one, whose bytes and number do not change, or a freshly
    allocated one that no other block number in use equals; on a full disk it
    fails with [-E_NO_DISK] and changes nothing. *)
Theorem file_get_block_result ip k f : fs_ok f -> inode_ptr ip -> file_wf (fl_mem f) ip ->
  0 <= k < NDIRECT ->
  fwp (file_get_block ip k) (fun r g =>
    (r = inl (- E_NO_DISK) /\ g = f /\ slot (fl_mem f) ip k = 0 /\ disk_full f) \/
    (r = inr (blk_addr (slot (fl_mem g) ip k)) /\ slot (fl_mem g) ip k <> 0 /\
     grows ip f g /\ meta_only ip f g)) f.
Proof. apply get_block_file. Qed.
Lemma file_get_block_result_witness :
  fwp (file_get_block demo_inode 0) (fun r g => r = inr (blk_addr 3)) demo_fs.
Proof.
  eapply fwp_mono; [apply (file_get_block_result demo_inode 0 demo_fs)|].
  - exact demo_ok.
  - apply (entry_inode_ptr _ _ _ demo_entry_at).
  - exact demo_wf.
  - by vm_compute.
  - intros r g [(_ & _ & H & _)|(-> & _ & Hg & _)]; [by vm_compute in H|].
    rewrite (gr_slot _ _ _ Hg) by (by vm_compute). by vm_compute.
Defined.

(** ** Names *)

(** [dir_lookup] finds the first entry with the given name, in block and
    slot order, and [-E_NOT_FOUND] exactly when no entry has it; it changes
    nothing but what is on disk. *)
Theorem dir_lookup_first f ip name : fs_ok f -> inode_ptr ip -> dir_wf (fl_mem f) ip ->
  name_ok name ->
  fwp (dir_lookup ip name) (fun r g => flushes f g /\
    r = match dir_find (fl_mem f) ip name with
        | Some e => inr e
        | None => inl (- E_NOT_FOUND)
        end) f.
Proof. apply dir_lookup_fwp. Qed.

Definition demo_root : Z := blk_addr 1.
Lemma demo_root_slots k : 0 <= k < NDIRECT -> slot demo_mem demo_root k = if k =? 0 then 2 else 0.
Proof.
  apply (range_check (fun k => slot demo_mem demo_root k = if k =? 0 then 2 else 0)
    (fun k => slot demo_mem demo_root k =? if k =? 0 then 2 else 0)).
  - intros j. apply Z.eqb_eq.
  - by vm_compute.
Qed.
Lemma demo_root_ptr : inode_ptr demo_root.
Proof. exists 0. done. Qed.
Lemma demo_dir_wf : dir_wf demo_mem demo_root.
Proof.
  split; [split|by vm_compute|].
  - intros k Hk. rewrite demo_root_slots by done. destruct (Z.eqb_spec k 0); [|done].
    intros _. split; [lia|]. split; by vm_compute.
  - intros k k' Hk Hk'. rewrite !demo_root_slots by done.
    destruct (Z.eqb_spec k 0), (Z.eqb_spec k' 0); lia.
  - change (i_used demo_mem demo_root) with 1. intros k Hk. replace k with 0 by lia.
    by vm_compute.
Qed.
Lemma demo_name_ok : name_ok [97].
Proof. split; [by repeat constructor|by vm_compute]. Qed.

Lemma dir_lookup_first_witness :
  fwp (dir_lookup demo_root [97]) (fun r g => flushes demo_fs g /\ r = inr demo_entry) demo_fs.
Proof.
  eapply fwp_mono; [apply (dir_lookup_first demo_fs demo_root [97])|].
  - exact demo_ok.
  - exact demo_root_ptr.
  - exact demo_dir_wf.
  - exact demo_name_ok.
  - intros r g [Hg ->]. split; [exact Hg|]. by vm_compute.
Defined.

(** C15. [walk_path] resolves a path element by element, as [walk_spec] does
    on the list of its elements (runs of slashes count once, a trailing slash
    not at all): to the entry found, to the directory and the last element
    when only that is missing, or to the error; within its loop bound, and
    without changing memory. *)
Theorem walk_path_resolves f path : fs_ok f -> tree_wf (fl_mem f) ->
  Forall (fun c => 0 < c < 256) path ->
  fwp (walk_path path) (fun r g => flushes f g /\
    r = if bool_decide (head path = Some 47)
        then walk_spec (fl_mem f) (elems path) 0 (blk_addr 1) 0
        else mkWalk (- E_BAD_PATH) 0 0 None) f.
Proof.
  intros Hf Ht HF. destruct path as [|c path].
  { cbn [walk_path]. fstep. done. }
  destruct (decide (c = 47)) as [->|Hc].
  - rewrite bool_decide_eq_true_2 by done. unfold walk_path, inode_of.
    fstep. fstep. fstep. fstep. rewrite (ok_inodes f Hf). change (INSIZE * 0) with 0.
    rewrite Z.add_0_r. rewrite <- (elems_skip (47 :: path)).
    apply walk_loop_fwp; try done.
    + exists 0. split; [done|]. unfold INSIZE. lia.
    + by apply Forall_skip.
    + destruct (skip_slash_head (47 :: path)) as [->|(c' & q & -> & Hc)]; [done|].
      cbn [skip_slash]. by rewrite (proj2 (Z.eqb_neq c' 47)).
  - rewrite bool_decide_eq_false_2 by (simpl; congruence).
    assert (Hw : walk_path (c :: path) = mret (mkWalk (- E_BAD_PATH) 0 0 None)).
    { unfold walk_path. repeat (case_match; try done). }
    rewrite Hw. by fstep.
Qed.
Lemma demo_tree_wf : tree_wf demo_mem.
Proof.
  intros ip (n & Hn & ->) Hk.
  assert (n = 0) as ->.
  { revert n Hn Hk. apply (range_check
      (fun n => i_kind demo_mem (blk_addr 1 + INSIZE * n) = FTYPE_DIR -> n = 0)
      (fun n => negb (i_kind demo_mem (blk_addr 1 + INSIZE * n) =? FTYPE_DIR) || (n =? 0))).
    - intros k Hb Hk. rewrite Hk in Hb. by apply Z.eqb_eq.
    - by vm_compute. }
  change (blk_addr 1 + INSIZE * 0) with demo_root in *. split; [exact demo_dir_wf|].
  intros e (i & j & Hi & Hj & ->)%in_dents. change (i_used demo_mem demo_root) with 1 in Hi.
  assert (i = 0) as -> by lia. apply Z.ltb_lt. revert j Hj.
  apply (range_check (fun j => (load16 demo_mem
      (d_in_ind (blk_addr (slot demo_mem demo_root 0) + DIRESIZE * j)) <? MAXINODENUM) = true)
    (fun j => load16 demo_mem
      (d_in_ind (blk_addr (slot demo_mem demo_root 0) + DIRESIZE * j)) <? MAXINODENUM)); [done|].
  by vm_compute.
Qed.
Lemma walk_path_resolves_witness :
  fwp (walk_path [47; 47; 97; 47]) (fun r g => w_r r = 0 /\ w_pf r = demo_entry) demo_fs.
Proof.
  eapply fwp_mono; [apply (walk_path_resolves demo_fs [47; 47; 97; 47])|].
  - exact demo_ok.
  - exact demo_tree_wf.
  - by repeat constructor.
  - intros r g [_ ->]. by vm_compute.
Defined.

(** A name is accepted exactly when it is a proper file name: at most 15
    characters, neither ["."] nor [".."], no slash and no blank. *)
Theorem name_is_valid_spec name :
  name_is_valid name = true <->
  Z.of_nat (length name) < MAXNAMELEN /\ name <> [46; 46] /\ name <> [46] /\
  ~ In 47 name /\ ~ In 32 name.
Proof.
  unfold name_is_valid. rewrite Z.geb_leb.
  destruct (Z.leb_spec MAXNAMELEN (Z.of_nat (length name))); simpl.
  { split; [done|lia]. }
  destruct (bool_decide (name = [46; 46])) eqn:E1; simpl;
    [apply bool_decide_eq_true in E1|apply bool_decide_eq_false in E1]; [naive_solver|].
  destruct (bool_decide (name = [46])) eqn:E2; simpl;
    [apply bool_decide_eq_true in E2|apply bool_decide_eq_false in E2]; [naive_solver|].
  rewrite forallb_forall. split.
  - intros Hc. split_and!; try done; intros Hin; by specialize (Hc _ Hin).
  - intros (_ & _ & _ & H1 & H2) c Hin.
    destruct (Z.eqb_spec c 47) as [->|]; [done|]. by destruct (Z.eqb_spec c 32) as [->|].
Qed.

(** ** Mounting and flushing *)

(** [fs_sync] puts every block but the super block on disk (allocation
    flushes that one itself) and changes no memory. *)
Theorem fs_sync_syncs f : fs_ok f ->
  fwp fs_sync (fun _ g => flushes f g /\
    forall b, 1 <= b < blk_num (fl_mem f) DISKMAP -> synced g b) f.
Proof.
  intros Hf. pose proof (ok_blk_num f Hf) as Hn. unfold fs_sync. fstep.
  apply (fwp_ploop (fun i g => 1 <= i <= blk_num (fl_mem f) DISKMAP /\ flushes f g /\
    forall b, 1 <= b < i -> synced g b) (blk_num (fl_mem f) DISKMAP)).
  - intros i g. lia.
  - split; [lia|]. split; [done|lia].
  - unfold loop_fuel, MAXBLKNUM in *. lia.
  - intros i g _ (Hi & Hg & Hy). pose proof (flushes_ok _ _ Hf Hg) as Hgok.
    pose proof (fl_same_mem _ _ Hg) as Hm. pose proof (ok_super g Hgok) as Hs.
    fstep. fstep. rewrite Hs. fstep.
    fstep; [apply flat_ok_super; [done|unfold s_blk_num, BLKSIZE, PGSIZE; lia]..|].
    rewrite Hm. change (load16 (fl_mem f) _) with (blk_num (fl_mem f) DISKMAP). fstep.
    destruct (Z.ltb_spec i (blk_num (fl_mem f) DISKMAP)) as [Hlt|Hge].
    2:{ fstep. split; [done|]. intros b Hb. apply Hy. lia. }
    split; [done|]. fstep. apply fwp_diskaddr; [done|rewrite Hm; lia|].
    destruct (blk_addr_of i 0) as [Hw Hbo]; [apply blk_range; lia|done|].
    rewrite Z.add_0_r in Hw, Hbo.
    fstep. fstep; [done|]. fstep. rewrite Hbo. split; [lia|].
    split; [by apply flushes_fflush|]. intros b Hb.
    destruct (decide (b = i)) as [->|]; [auto with dos|]. apply fflush_synced_mono, Hy. lia.
Qed.
Lemma fs_sync_syncs_witness :
  fwp fs_sync (fun _ g => flushes demo_fs g /\ forall b, 1 <= b < 8 -> synced g b) demo_fs.
Proof. exact (fs_sync_syncs demo_fs demo_ok). Defined.

Definition mounted (f : flat) : flat := mkFlat (fl_mem f) (fl_disk f) DISKMAP (blk_addr 1).

Lemma mount_flat f s : paged_flat s f -> 0 ∈ pg_mapped s ->
  paged_flat (mkPaged (pg_mem s) (pg_disk s) (pg_mapped s) (pg_dirty s) DISKMAP (pg_inodes s))
    (mkFlat (fl_mem f) (fl_disk f) DISKMAP (fl_inodes f)).
Proof. intros [Hm Hd Hs Hi Hc Hr _] H0. split; try done. by right. Qed.

(** The part of [fs_init] after [super] is set, on the flat machine. *)
Definition fs_init_tail : prog unit :=
  sup ← get_super;
  _ ← ld32 (s_magic sup);
  a ← diskaddr 1;
  SetInodes a (ins ← get_inodes; _ ← ld8 ins; mret tt).
Lemma fs_init_tail_run f : fl_super f = DISKMAP -> fs_ok (mounted f) ->
  run_flat fs_init_tail f = Ret tt (mounted f).
Proof.
  intros Hs Hf.
  assert (Hok : forall a, DISKMAP <= a < DISKMAP + BLKSIZE -> flat_ok f a = true).
  { intros a Ha. pose proof (flat_ok_super _ a Hf Ha) as H. unfold flat_ok in *. by rewrite Hs. }
  pose proof (ok_blk_num _ Hf) as Hn. simpl in Hn.
  cut (fwp fs_init_tail (fun _ g => g = mounted f) f).
  { intros ([] & g & Hr & ->)%fwp_inv. done. }
  unfold fs_init_tail. fstep. fstep. rewrite Hs. fstep.
  fstep; [intros i Hi; apply Hok; unfold s_magic, BLKSIZE, PGSIZE; lia|].
  fstep. unfold diskaddr. fstep. fstep. rewrite Hs. change (DISKMAP =? 0) with false. cbv iota.
  fstep. fstep; [apply Hok; unfold s_blk_num, BLKSIZE, PGSIZE; lia..|].
  change (load16 (fl_mem f) _) with (blk_num (fl_mem f) DISKMAP).
  rewrite Z.geb_leb, (proj2 (Z.leb_gt _ _)) by lia. fstep.
  unfold fwp. cbn [run_flat]. do 2 (wp_step; cbv beta).
  change (fwp (ins ← get_inodes; _ ← ld8 ins; mret tt) (fun _ g => g = mounted f)
    (mkFlat (fl_mem f) (fl_disk f) (fl_super f) (blk_addr 1))).
  rewrite Hs. change (mkFlat _ _ _ _) with (mounted f) at 1.
  fstep. fstep. fstep. fstep.
  - apply flat_ok_itable; [done|simpl; unfold BLKSIZE, PGSIZE; lia].
  - by fstep.
Qed.

(** C28. [fs_init] mounts a formatted disk: from a server with nothing known
    about its disk, it ends with [super] and [inodes] pointing at blocks 0
    and 1 and the super block cached, everything it can read unchanged. *)
Theorem fs_init_mounts {host : Host} {host_ok : HostOK} s f :
  paged_flat s f -> pg_super s = 0 -> fs_ok (mounted f) ->
  exists s', run_paged fs_init s = Ret tt s' /\ paged_flat s' (mounted f) /\
    0 ∈ pg_mapped s' /\ pg_super s' = DISKMAP /\ pg_inodes s' = DISKMAP + BLKSIZE.
Proof.
  intros HR H0 Hf. assert (Hokf : forall a, DISKMAP <= a < DISKMAP + BLKSIZE -> flat_ok f a = true).
  { intros a Ha. unfold flat_ok. rewrite <- (pf_super _ _ HR), H0.
    rewrite (proj2 (window_iff a)); [done|]. unfold BLKSIZE, PGSIZE, DISKSIZE in *. lia. }
  cut (wp (run_paged fs_init) (fun _ s' => paged_flat s' (mounted f)) (fun _ _ => False) s).
  { intros ([] & s' & Hr & HR')%wp_ret_inv. exists s'. split; [done|]. split; [done|].
    pose proof (pf_super _ _ HR') as Hs. pose proof (pf_inodes _ _ HR') as Hi.
    destruct (pf_mounted _ _ HR') as [Hz|[_ Hin]]; [by rewrite Hs in Hz|]. done. }
  unfold fs_init, bc_init, diskaddr. apply pwp_bind, pwp_bind, pwp_bind.
  unfold get_super at 1. cbn [run_paged]. do 2 (wp_step; cbv beta). wp_step. rewrite H0. change (0 =? 0) with true. cbv iota.
  apply wp_ret. change (u32 (DISKMAP + 0 * BLKSIZE)) with DISKMAP. apply pwp_bind.
  unfold ld8. cbn [run_paged]. wp_step.
  eapply wp_mono; [apply touch_spec; [exact HR|apply Hokf; unfold BLKSIZE, PGSIZE; lia]| |done].
  intros [] s1 (HR1 & Hp1 & _). specialize (Hp1 window_super). rewrite blk_of_super in Hp1.
  do 2 (wp_step; cbv beta). wp_step. apply wp_ret. apply pwp_bind, pwp_bind.
  assert (H01 : pg_super s1 = 0) by (rewrite (pf_super _ _ HR1), <- (pf_super _ _ HR); done).
  unfold get_super. cbn [run_paged]. do 2 (wp_step; cbv beta). wp_step.
  rewrite H01. change (0 =? 0) with true. cbv iota. apply wp_ret.
  change (u32 (DISKMAP + 0 * BLKSIZE)) with DISKMAP.
  change (SetSuper DISKMAP _) with (SetSuper DISKMAP fs_init_tail).
  cbn [run_paged]. do 2 (wp_step; cbv beta).
  pose proof (mount_flat _ _ HR1 Hp1) as HR2.
  destruct (paged_run_flat fs_init_tail _ _ tt (mounted f) HR2) as (s' & Hr & HR').
  { by rewrite fs_init_tail_run. }
  by eapply wp_run.
Qed.
Lemma fs_init_mounts_witness : exists s',
  run_paged fs_init (mkPaged demo_mem ∅ (list_to_set (seqZ 0 8)) (list_to_set (seqZ 0 8)) 0 0)
    = Ret tt s' /\ pg_super s' = DISKMAP.
Proof.
  destruct (fs_init_mounts (mkPaged demo_mem ∅ (list_to_set (seqZ 0 8)) (list_to_set (seqZ 0 8)) 0 0)
    (mkFlat demo_mem ∅ 0 0)) as (s' & Hr & _ & _ & Hs & _).
  - destruct demo_paged_flat as [Hm Hd _ _ Hc Hr _]. split; try done. by left.
  - done.
  - exact demo_ok.
  - exists s'. by split.
Defined.
