(* ===== verification/Kern.v ===== *)
(** * The kernel's state: src/src/pmap.h, env.h, trap.h

    The data of the kernel (page frames, environments, the registers the
    paging hardware uses) and the monad its functions run in.  [pmem] is
    physical memory: page directories, page tables and user pages live there.
    A kernel pointer into it is the physical address itself, so [KADDR] and
    [PADDR] are identities; a pointer to a [struct PageInfo] or a [struct Env]
    is its index in [pages] or [envs], and [None] is [NULL].  The user's
    read-only view of [pages] and [envs] is not kept up to date in [pmem].

    Accesses to a user pointer go through the page tables [cr3] selects; the
    TLB is only a log of the invalidated addresses. *)
From S2P Require Import Prelude Layout Mem CString Printf Console.
From coqutil Require Export Datatypes.RecordSetters.
Export DoubleBraceUpdate.

(** ** pmap.h *)
Record PageInfo : Type := mkPageInfo { pp_link : option Z; pp_ref : Z }.
Definition ALLOC_ZERO : Z := 1.
Definition page2pa (i : Z) : Z := u32 (Z.shiftl i PGSHIFT).
Definition pa2page (pa : Z) : Z := PGNUM pa.

(** ** trap.h *)
Record PushRegs : Type := mkPushRegs {
  reg_edi : Z; reg_esi : Z; reg_ebp : Z; reg_oesp : Z;
  reg_ebx : Z; reg_edx : Z; reg_ecx : Z; reg_eax : Z }.
Record Trapframe : Type := mkTrapframe {
  tf_regs : PushRegs; tf_es : Z; tf_ds : Z; tf_trapno : Z; tf_err : Z;
  tf_eip : Z; tf_cs : Z; tf_eflags : Z; tf_esp : Z; tf_ss : Z }.
Definition regs0 : PushRegs := mkPushRegs 0 0 0 0 0 0 0 0.
Definition tf0 : Trapframe := mkTrapframe regs0 0 0 0 0 0 0 0 0 0.
(** The frame as the processor and the stubs lay it out, 17 words. *)
Definition tf_words (tf : Trapframe) : list Z :=
  let r := tf_regs tf in
  [reg_edi r; reg_esi r; reg_ebp r; reg_oesp r; reg_ebx r; reg_edx r; reg_ecx r; reg_eax r;
   tf_es tf; tf_ds tf; tf_trapno tf; tf_err tf; tf_eip tf; tf_cs tf; tf_eflags tf; tf_esp tf; tf_ss tf].
Definition GD_KT : Z := 0x08.
Definition GD_UT : Z := 0x18.
Definition GD_UD : Z := 0x20.
Definition FL_IF : Z := 0x200.
Definition FL_IOPL_MASK : Z := 0x3000.

(** ** env.h *)
Definition LOG2NENV : Z := 10.
Definition NENV : Z := 1024.
Definition ENVX (envid : Z) : Z := Z.land (u32 envid) (NENV - 1).
Definition ENV_FREE : Z := 0.
Definition ENV_DYING : Z := 1.
Definition ENV_RUNNABLE : Z := 2.
Definition ENV_RUNNING : Z := 3.
Definition ENV_NOT_RUNNABLE : Z := 4.
Definition ENV_TYPE_USER : Z := 0.
Definition ENV_TYPE_FS : Z := 1.

Record Env : Type := mkEnv {
  env_tf : Trapframe; env_link : option Z; env_id : Z; env_parent_id : Z;
  env_type : Z; env_status : Z; env_runs : Z;
  env_pgdir : Z; env_pgfault_upcall : Z;
  env_ipc_recving : bool; env_ipc_dstva : Z; env_ipc_value : Z;
  env_ipc_from : Z; env_ipc_perm : Z }.
Definition env0 : Env := mkEnv tf0 None 0 0 0 0 0 0 0 false 0 0 0 0.

(** What the kernel printed: a formatted message, or characters. *)
Inductive message : Type :=
| Msg (fmt : string) (args : list Z)
| Chars (s : list Z).

Record kern : Type := mkKern {
  pmem : mem; npages : Z; npages_basemem : Z;
  pages : gmap Z PageInfo; page_free_list : option Z; kern_pgdir : Z;
  nextfree : Z; mmio_base : Z;
  envs : gmap Z Env; env_free_list : option Z; curenv : option Z;
  cr3 : Z; cr2 : Z; invalidated : list Z; klocked : bool;
  kcons : console; klog : list message }.

(** How control leaves the kernel: [iret] into an environment, the halted
    processor waiting for an interrupt, or the monitor (whose commands never
    ask it to end). *)
Inductive leave : Type :=
| Run (e : Z)
| Halt
| Monitor.

Definition K (A : Type) : Type := ST leave kern A.

(** ** Access to the state *)
Definition kget {A} (f : kern -> A) : K A := st_gets f.
Definition kset (f : kern -> kern) : K unit := st_mod f.
Definition kprint (fmt : string) (args : list Z) : K unit :=
  kset (fun k => k {{ klog ::= fun l => l ++ [Msg fmt args] }}).

Definition newline : string := String (Ascii.ascii_of_nat 10) EmptyString.
Definition kprintln (fmt : string) (args : list Z) : K unit := kprint (fmt +:+ newline) args.

(** [pages[i]]; an index outside the array is undefined behaviour. *)
Definition get_page (i : Z) : K PageInfo :=
  o ← kget (fun k => pages k !! i);
  match o with Some p => mret p | None => st_crash "page out of range" end.
Definition set_page (i : Z) (f : PageInfo -> PageInfo) : K unit :=
  p ← get_page i;
  kset (fun k => k {{ pages := <[i := f p]> (pages k) }}).

(** [envs[i]]: every index used is below [NENV]. *)
Definition envs_at (k : kern) (i : Z) : Env := default env0 (envs k !! i).
Definition get_env (i : Z) : K Env := kget (fun k => envs_at k i).
Definition set_env (i : Z) (f : Env -> Env) : K unit :=
  kset (fun k => k {{ envs := <[i := f (envs_at k i)]> (envs k) }}).

(** Words of physical memory. *)
Definition pload (a : Z) : K Z := kget (fun k => load32 (pmem k) a).
Definition pstore (a v : Z) : K unit :=
  kset (fun k => k {{ pmem := store32 (pmem k) a v }}).
Definition kmemset (a c n : Z) : K unit :=
  kset (fun k => k {{ pmem := memset (pmem k) a c n }}).
Definition kmemcpy (dst src n : Z) : K unit :=
  kset (fun k => k {{ pmem := memcpy (pmem k) dst src n }}).

(** ** Virtual addresses: what the processor does for the kernel *)

(** Supervisor access with write protection on (CR0.WP). *)
Definition translate (k : kern) (write : bool) (va : Z) : option Z :=
  let pde := load32 (pmem k) (cr3 k + 4 * PDX va) in
  let pte := load32 (pmem k) (PTE_ADDR pde + 4 * PTX va) in
  let ok e := negb (Z.land e PTE_P =? 0) && (negb write || negb (Z.land e PTE_W =? 0)) in
  if ok pde && ok pte then Some (PTE_ADDR pte + PGOFF va) else None.
(** A fault in kernel mode ends in [page_fault_handler]'s panic. *)
Definition kread8 (va : Z) : K Z :=
  k ← st_get;
  match translate k false (u32 va) with
  | Some pa => mret (load8 (pmem k) pa)
  | None => st_panic "kernel-mode page faults"
  end.
Definition kwrite8 (va v : Z) : K unit :=
  k ← st_get;
  match translate k true (u32 va) with
  | Some pa => kset (fun k => k {{ pmem := store8 (pmem k) pa v }})
  | None => st_panic "kernel-mode page faults"
  end.
Definition kread32 (va : Z) : K Z :=
  b0 ← kread8 va; b1 ← kread8 (va + 1); b2 ← kread8 (va + 2); b3 ← kread8 (va + 3);
  mret (b0 + 256 * b1 + 65536 * b2 + 16777216 * b3).
Definition kwrite32 (va v : Z) : K unit :=
  kwrite8 va v;; kwrite8 (va + 1) (v / 256);; kwrite8 (va + 2) (v / 65536);;
  kwrite8 (va + 3) (v / 16777216).
