(* ===== verification/Pmap.v ===== *)
(** * Physical pages and page tables: src/src/pmap.c

    The page allocator (a free list threaded through [pages]), two-level page
    tables, the boot-time allocator and the construction of the kernel's
    address space. *)
From S2P Require Import Prelude Layout Mem CString Printf Console Kern.

(** ** Boot-time allocation *)

(** [boot_alloc], given the end of the kernel image: kernel virtual
    addresses, as in the source. *)
Definition boot_alloc (kend n : Z) : K Z :=
  nf ← kget nextfree;
  (if nf =? 0 then kset (fun k => k {{ nextfree := ROUNDUP kend PGSIZE }}) else mret tt);;
  result ← kget nextfree;
  (if negb (n =? 0) then kset (fun k => k {{ nextfree := ROUNDUP (u32 (result + n)) PGSIZE }})
   else mret tt);;
  mret result.
Definition PADDR (kva : Z) : Z := u32 (kva - KERNBASE).

(** [i386_detect_memory] from the two CMOS values, in kilobytes. *)
Definition i386_detect_memory (baselo extlo : Z) : K unit :=
  let base := baselo * 1024 / PGSIZE in
  let ext := extlo * 1024 / PGSIZE in
  kset (fun k => k {{ npages_basemem := base }});;
  kset (fun k => k {{ npages := if negb (ext =? 0) then EXTPHYSMEM / PGSIZE + ext else base }});;
  n ← kget npages;
  kprintln "Memory: %dK" [n * 4].

(** ** The page allocator *)

(** One round of [page_init]'s loop, at page [i]. *)
Definition page_init_at (kend i : Z) : K unit :=
  base ← kget npages_basemem;
  let push :=
    fl ← kget page_free_list;
    set_page i (fun p => p {{ pp_ref := 0 }});;
    set_page i (fun p => p {{ pp_link := fl }});;
    kset (fun k => k {{ page_free_list := Some i }}) in
  (if (i =? 0) || (i =? PGNUM base) then
     set_page i (fun p => p {{ pp_ref := 1 }});; set_page i (fun p => p {{ pp_link := None }})
   else if i <? base then push
   else
     next ← boot_alloc kend 0;
     if (i <=? EXTPHYSMEM / PGSIZE) || (i <? Z.shiftr (u32 (next - KERNBASE)) PGSHIFT) then
       set_page i (fun p => p {{ pp_ref ::= fun r => u16 (r + 1) }});;
       set_page i (fun p => p {{ pp_link := None }})
     else push);;
  p ← get_page i;
  let pa := page2pa i in
  st_when (((pa =? 0) || (pa =? IOPHYSMEM)) && (pp_ref p =? 0))
    (kprintln "page error: i %d" [i]).
(** [for (i = npages-1; i > 0; i--)]. *)
Fixpoint page_init_loop (n : nat) (kend : Z) : K unit :=
  match n with
  | O => mret tt
  | S n' => page_init_at kend (Z.of_nat n);; page_init_loop n' kend
  end.
Definition page_init (kend : Z) : K unit :=
  n ← kget npages;
  page_init_loop (Z.to_nat (n - 1)) kend.

Definition page_alloc (alloc_flags : Z) : K (option Z) :=
  fl ← kget page_free_list;
  match fl with
  | None => mret None
  | Some temp =>
      p ← get_page temp;
      kset (fun k => k {{ page_free_list := pp_link p }});;
      set_page temp (fun p => p {{ pp_link := None }});;
      st_when (negb (Z.land alloc_flags ALLOC_ZERO =? 0)) (kmemset (page2pa temp) 0 PGSIZE);;
      mret (Some temp)
  end.

Definition page_free (pp : Z) : K unit :=
  p ← get_page pp;
  if negb (pp_ref p =? 0) then st_panic "page_free : pp->pp_ref is nonzero!"
  else match pp_link p with
  | Some _ => st_panic "page_free : pp->pp_link is not NULL!"
  | None =>
      fl ← kget page_free_list;
      set_page pp (fun p => p {{ pp_link := fl }});;
      kset (fun k => k {{ page_free_list := Some pp }})
  end.

Definition page_decref (pp : Z) : K unit :=
  set_page pp (fun p => p {{ pp_ref ::= fun r => u16 (r - 1) }});;
  p ← get_page pp;
  if pp_ref p =? 0 then page_free pp else mret tt.

(** ** Page tables *)

Definition pde_addr (pgdir va : Z) : Z := pgdir + 4 * PDX va.

(** The address of the entry for [va], or [None]. *)
Definition pgdir_walk (pgdir va : Z) (create : bool) : K (option Z) :=
  pde ← pload (pde_addr pgdir va);
  if pde =? 0 then
    if negb create then mret None
    else
      new ← page_alloc 1;
      match new with
      | None => mret None
      | Some new =>
          set_page new (fun p => p {{ pp_ref ::= fun r => u16 (r + 1) }});;
          pde ← pload (pde_addr pgdir va);
          pstore (pde_addr pgdir va) (Z.lor pde (Z.land (page2pa new) (u32 (Z.lnot 0xFFF))));;
          pde ← pload (pde_addr pgdir va);
          pstore (pde_addr pgdir va) (Z.lor (Z.lor (Z.lor pde PTE_P) PTE_W) PTE_U);;
          pde ← pload (pde_addr pgdir va);
          mret (Some (PTE_ADDR pde + 4 * PTX va))
      end
  else mret (Some (PTE_ADDR pde + 4 * PTX va)).

(** The map of [n] pages; a page table that cannot be allocated would be
    written through a null pointer. *)
Definition boot_map_region (pgdir va size pa perm : Z) : K unit :=
  st_for (R := unit) (Z.to_nat ((size + (PGSIZE - 1)) / PGSIZE)) 0 (fun j =>
    let i := PGSIZE * j in
    pte ← pgdir_walk pgdir (u32 (va + i)) true;
    match pte with
    | None => st_crash "null page table entry"
    | Some a => pstore a (Z.lor (Z.lor (PTE_ADDR (u32 (pa + i))) perm) PTE_P);; mret None
    end);;
  mret tt.

(** The page mapped at [va] and the address of its entry. *)
Definition page_lookup (pgdir va : Z) : K (option (Z * Z)) :=
  pte ← pgdir_walk pgdir va false;
  match pte with
  | None => mret None
  | Some a => e ← pload a; mret (Some (pa2page (PTE_ADDR e), a))
  end.

Definition tlb_invalidate (pgdir va : Z) : K unit :=
  k ← st_get;
  if match curenv k with
     | None => true
     | Some e => env_pgdir (envs_at k e) =? pgdir
     end
  then kset (fun k => k {{ invalidated ::= fun l => l ++ [va] }}) else mret tt.

Definition page_remove (pgdir va : Z) : K unit :=
  r ← page_lookup pgdir va;
  match r with
  | None => mret tt
  | Some (pp, pte) =>
      page_decref pp;;
      pstore pte 0;;
      tlb_invalidate pgdir va
  end.

Definition page_insert (pgdir pp va perm : Z) : K Z :=
  pte ← pgdir_walk pgdir va true;
  match pte with
  | None => mret (- E_NO_MEM)
  | Some pte =>
      set_page pp (fun p => p {{ pp_ref ::= fun r => u16 (r + 1) }});;
      e ← pload pte;
      (if negb (PTE_ADDR e =? 0) then page_remove pgdir va;; tlb_invalidate pgdir va
       else mret tt);;
      pstore pte (Z.lor (Z.lor (page2pa pp) perm) PTE_P);;
      mret 0
  end.

Definition mmio_map_region (pa size : Z) : K Z :=
  let rounded_size := ROUNDUP size PGSIZE in
  base ← kget mmio_base;
  if u32 (base + rounded_size) >? MMIOLIM then st_panic "overflow MMIOLIM"
  else
    dir ← kget kern_pgdir;
    boot_map_region dir base rounded_size pa (Z.lor (Z.lor PTE_PCD PTE_PWT) PTE_W);;
    kset (fun k => k {{ mmio_base := u32 (base + rounded_size) }});;
    base ← kget mmio_base;
    mret (u32 (base - rounded_size)).

(** ** [mem_init], given the CMOS values, the end of the kernel image and the
    address of the boot stack. *)
Definition sizeof_PageInfo : Z := 8.
Definition sizeof_Env : Z := 124.
Definition zero_pages (n : Z) : gmap Z PageInfo :=
  list_to_map ((fun i => (i, mkPageInfo None 0)) <$> seqZ 0 n).
Definition mem_init (baselo extlo kend bootstack : Z) : K unit :=
  i386_detect_memory baselo extlo;;
  dir ← boot_alloc kend PGSIZE;
  let dir := PADDR dir in
  kset (fun k => k {{ kern_pgdir := dir }});;
  kmemset dir 0 PGSIZE;;
  pstore (dir + 4 * PDX UVPT) (Z.lor (Z.lor dir PTE_U) PTE_P);;
  n ← kget npages;
  pgs ← boot_alloc kend (n * sizeof_PageInfo);
  kset (fun k => k {{ pages := zero_pages n }});;
  envp ← boot_alloc kend (NENV * sizeof_Env);
  page_init kend;;
  boot_map_region dir UPAGES (ROUNDUP (n * sizeof_PageInfo) PGSIZE) (PADDR pgs) (Z.lor PTE_U PTE_P);;
  boot_map_region dir UENVS PTSIZE (PADDR envp) (Z.lor PTE_U PTE_P);;
  boot_map_region dir (KSTACKTOP - KSTKSIZE) KSTKSIZE (PADDR bootstack) (Z.lor PTE_W PTE_P);;
  boot_map_region dir KERNBASE (0xFFFFFFFF - KERNBASE) 0 (Z.lor PTE_W PTE_P);;
  kset (fun k => k {{ cr3 := dir }}).
