(* ===== verification/PmapFree.v ===== *)
(** * The page allocator

    [page_init] builds the free list, [page_alloc] takes its first page and
    [page_free] puts one back.  [free_chain k l] says that the list threaded
    through [pages] is [l]. *)
From S2P Require Import Prelude Layout Mem CString Printf Console Kern Pmap.

(** ** Rules for the kernel's state *)
Section rules.
Implicit Types (k : kern) (E : leave -> kern -> Prop).

Lemma wp_kget {A} (f : kern -> A) Q E k : Q (f k) k -> wp (kget f) Q E k.
Proof. apply wp_gets. Qed.
Lemma wp_kset (f : kern -> kern) Q E k : Q tt (f k) -> wp (kset f) Q E k.
Proof. apply wp_mod. Qed.
Lemma wp_kprint fmt args Q E k :
  Q tt (k {{ klog ::= fun l => l ++ [Msg fmt args] }}) -> wp (kprint fmt args) Q E k.
Proof. apply wp_mod. Qed.
Lemma wp_kprintln fmt args Q E k :
  Q tt (k {{ klog ::= fun l => l ++ [Msg (fmt +:+ newline) args] }}) -> wp (kprintln fmt args) Q E k.
Proof. apply wp_kprint. Qed.
Lemma wp_get_page i p Q E k : pages k !! i = Some p -> Q p k -> wp (get_page i) Q E k.
Proof.
  intros Hp H. unfold get_page. apply wp_bind, wp_kget. rewrite Hp. by apply wp_ret.
Qed.
Lemma wp_set_page i f p Q E k : pages k !! i = Some p ->
  Q tt (k {{ pages := <[i := f p]> (pages k) }}) -> wp (set_page i f) Q E k.
Proof.
  intros Hp H. unfold set_page. apply wp_bind. eapply wp_get_page; [done|]. by apply wp_kset.
Qed.
Lemma wp_pload a Q E k : Q (load32 (pmem k) a) k -> wp (pload a) Q E k.
Proof. exact (wp_kget (fun k => load32 (pmem k) a) Q E k). Qed.
Lemma wp_pstore a v Q E k :
  Q tt (k {{ pmem := store32 (pmem k) a v }}) -> wp (pstore a v) Q E k.
Proof. exact (wp_kset (fun k => k {{ pmem := store32 (pmem k) a v }}) Q E k). Qed.
Lemma wp_kmemset a c n Q E k :
  Q tt (k {{ pmem := memset (pmem k) a c n }}) -> wp (kmemset a c n) Q E k.
Proof. exact (wp_kset (fun k => k {{ pmem := memset (pmem k) a c n }}) Q E k). Qed.
Lemma wp_get_env i Q E k : Q (envs_at k i) k -> wp (get_env i) Q E k.
Proof. exact (wp_kget (fun k => envs_at k i) Q E k). Qed.
Lemma wp_set_env i f Q E k :
  Q tt (k {{ envs := <[i := f (envs_at k i)]> (envs k) }}) -> wp (set_env i f) Q E k.
Proof. exact (wp_kset (fun k => k {{ envs := <[i := f (envs_at k i)]> (envs k) }}) Q E k). Qed.
End rules.

(** Symbolic execution of kernel code: straight-line steps; page accesses are
    resolved by a lookup hypothesis. *)
Ltac kstep :=
  first
    [ wp_step
    | apply wp_kget | apply wp_kset | apply wp_kprint | apply wp_kprintln | apply wp_pload | apply wp_pstore
    | apply wp_kmemset | apply wp_get_env | apply wp_set_env
    | eapply wp_get_page; [eassumption|] | eapply wp_set_page; [eassumption|] ];
  cbv beta.
Ltac ksteps := repeat kstep.

(** Field accesses of an updated state are computed. *)
Ltac ksimp := cbn [apply_update constant pmem npages npages_basemem pages page_free_list
  kern_pgdir nextfree mmio_base envs env_free_list curenv cr3 cr2 invalidated klocked kcons
  klog pp_link pp_ref] in *; unfold constant in *; cbv beta in *.

(** ** The free list *)

Inductive chain (pgs : gmap Z PageInfo) : option Z -> list Z -> Prop :=
| chain_nil : chain pgs None []
| chain_cons i p l : pgs !! i = Some p -> pp_ref p = 0 -> chain pgs (pp_link p) l ->
    chain pgs (Some i) (i :: l).
#[export] Hint Constructors chain : dos.

(** The free list of [k] is [l], without repetition; pages that are in use
    are not linked. *)
Definition free_list (k : kern) (l : list Z) : Prop :=
  chain (pages k) (page_free_list k) l /\ NoDup l /\
  forall i p, pages k !! i = Some p -> i ∉ l -> pp_link p = None.

Lemma chain_update pgs h l i p : chain pgs h l -> i ∉ l -> chain (<[i := p]> pgs) h l.
Proof.
  induction 1 as [|j q l Hj Hr Hc IH]; intros Hi; [constructor|].
  apply not_elem_of_cons in Hi as [Hij Hi].
  econstructor; [by rewrite lookup_insert_ne|done|by apply IH].
Qed.
Lemma chain_elem pgs h l i : chain pgs h l -> i ∈ l ->
  exists p, pgs !! i = Some p /\ pp_ref p = 0.
Proof.
  induction 1 as [|j q l Hj Hr Hc IH]; intros Hi; [by apply elem_of_nil in Hi|].
  apply elem_of_cons in Hi as [->|Hi]; [by eauto|by apply IH].
Qed.
Lemma chain_hd pgs h l : chain pgs h l -> h = head l.
Proof. by destruct 1. Qed.

(** Zeroing of an allocated page. *)
Definition zeroed (k : kern) (flags i : Z) : mem :=
  if negb (Z.land flags ALLOC_ZERO =? 0) then memset (pmem k) (page2pa i) 0 PGSIZE else pmem k.
Lemma free_list_unique k l l' : free_list k l -> free_list k l' -> l = l'.
Proof.
  intros (Hc & _) (Hc' & _). revert l' Hc'.
  induction Hc as [|i p l Hp _ _ IH]; intros l' Hc'; inversion Hc' as [|i' p' l2 Hp' _ Hc2]; [done|].
  subst. rewrite Hp in Hp'. injection Hp' as <-. f_equal. by apply IH.
Qed.
(** The state after [page_alloc] took page [i], whose successor is [nxt]. *)
Definition allocated (k : kern) (flags i : Z) (p : PageInfo) : kern :=
  k {{ page_free_list := pp_link p; pages := <[i := mkPageInfo None (pp_ref p)]> (pages k);
       pmem := zeroed k flags i }}.

Lemma page_alloc_some k flags i p E (Q : option Z -> kern -> Prop) :
  page_free_list k = Some i -> pages k !! i = Some p ->
  Q (Some i) (allocated k flags i p) -> wp (page_alloc flags) Q E k.
Proof.
  intros Hf Hp HQ. unfold page_alloc, allocated, zeroed in *. ksteps. rewrite Hf.
  destruct k, p. ksteps; ksimp; [by rewrite H in HQ|by rewrite H in HQ].
Qed.
Lemma page_alloc_none k flags E (Q : option Z -> kern -> Prop) :
  page_free_list k = None -> Q None k -> wp (page_alloc flags) Q E k.
Proof. intros Hf HQ. unfold page_alloc. ksteps. rewrite Hf. by kstep. Qed.

Lemma free_list_allocated k flags i l : free_list k (i :: l) ->
  exists p, pages k !! i = Some p /\ pp_ref p = 0 /\ page_free_list k = Some i /\
    free_list (allocated k flags i p) l.
Proof.
  intros (Hc & Hnd & Hu). apply NoDup_cons in Hnd as [Hi Hnd].
  inversion Hc as [|? p ? Hp Hr Hc']; subst. exists p. split_and!; [done..|].
  split_and!; unfold allocated; ksimp; [by apply chain_update|done|].
  intros j q. destruct (decide (j = i)) as [->|Hne].
  - rewrite lookup_insert_eq. by intros [= <-].
  - rewrite lookup_insert_ne by done. intros Hj Hl. apply (Hu j q Hj).
    by apply not_elem_of_cons.
Qed.

(** The state after [page_free] of page [i]. *)
Definition freed_page (k : kern) (i : Z) (p : PageInfo) : kern :=
  k {{ pages := <[i := mkPageInfo (page_free_list k) (pp_ref p)]> (pages k);
       page_free_list := Some i }}.
Lemma page_free_ok k i p E (Q : unit -> kern -> Prop) :
  pages k !! i = Some p -> pp_ref p = 0 -> pp_link p = None ->
  Q tt (freed_page k i p) -> wp (page_free i) Q E k.
Proof.
  intros Hp Hr Hl HQ. unfold page_free. ksteps; [by rewrite Hr in *|]. rewrite Hl.
  ksteps. ksimp. by destruct p.
Qed.
Lemma free_list_freed k i p l : free_list k l -> i ∉ l ->
  pages k !! i = Some p -> pp_ref p = 0 -> free_list (freed_page k i p) (i :: l).
Proof.
  intros (Hc & Hnd & Hu) Hi Hp Hr. split_and!; unfold freed_page; ksimp.
  - econstructor; [apply lookup_insert_eq|done|]. by apply chain_update.
  - by apply NoDup_cons.
  - intros j q Hj [Hji Hjl]%not_elem_of_cons. rewrite lookup_insert_ne in Hj by done.
    by eapply Hu.
Qed.

(** ** [page_alloc] and [page_free] *)

Lemma page2pa_eq i : 0 <= i < 2 ^ 20 -> page2pa i = 4096 * i.
Proof.
  intros. unfold page2pa, PGSHIFT. rewrite Z.shiftl_mul_pow2 by lia.
  change (2 ^ 12) with 4096. rewrite u32_small; lia.
Qed.

Lemma load8_zeroed k flags i a :
  load8 (zeroed k flags i) a =
  if decide (Z.land flags ALLOC_ZERO <> 0 /\ page2pa i <= a < page2pa i + 4096)
  then 0 else load8 (pmem k) a.
Proof.
  unfold zeroed. destruct (Z.eqb_spec (Z.land flags ALLOC_ZERO) 0) as [E|E]; cbn [negb].
  - rewrite decide_False by (intros [? ?]; done). done.
  - rewrite memset_load8 by done. change PGSIZE with 4096.
    destruct (decide (page2pa i <= a < page2pa i + 4096));
      [rewrite decide_True by done; reflexivity|].
    rewrite decide_False by (intros [? ?]; done). done.
Qed.

(** [page_alloc] takes the first page of the free list - and fails,
    changing nothing, exactly when the list is empty.  The page comes with
    reference count 0, unlinked, and cleared when [ALLOC_ZERO] is given; no
    other page and no other byte of memory changes. *)
Theorem page_alloc_takes (k : kern) (flags : Z) (l : list Z) :
  free_list k l ->
  match l with
  | [] => page_alloc flags k = Ret None k
  | i :: l' => exists k', page_alloc flags k = Ret (Some i) k' /\ free_list k' l' /\
      pages k' !! i = Some (mkPageInfo None 0) /\
      (forall j, j <> i -> pages k' !! j = pages k !! j) /\
      (forall a, load8 (pmem k') a =
         if decide (Z.land flags ALLOC_ZERO <> 0 /\ page2pa i <= a < page2pa i + 4096)
         then 0 else load8 (pmem k) a) /\
      envs k' = envs k /\ curenv k' = curenv k /\ cr3 k' = cr3 k
  end.
Proof.
  intros Hf. destruct l as [|i l'].
  - destruct (wp_ret_inv (page_alloc flags) (fun a s => a = None /\ s = k) k)
      as (a & s & E & -> & ->); [|done].
    apply page_alloc_none; [|done]. destruct Hf as (Hc & _). by inversion Hc.
  - destruct (free_list_allocated k flags i l' Hf) as (p & Hp & Hr & Hh & Hf').
    destruct (wp_ret_inv (page_alloc flags)
      (fun a s => a = Some i /\ s = allocated k flags i p) k) as (a & s & E & -> & ->).
    { by eapply page_alloc_some. }
    exists (allocated k flags i p). split_and!; [done|done|..]; unfold allocated; ksimp; try done.
    + by rewrite lookup_insert_eq, Hr.
    + intros j Hj. by rewrite lookup_insert_ne.
    + intros a. apply load8_zeroed.
Qed.

(** [page_free] puts a page whose reference count is 0 and which is not
    linked at the head of the free list and changes nothing else; a page still
    referenced, or already on the list with a successor, is a panic. *)
Theorem page_free_gives_back (k : kern) (i : Z) (p : PageInfo) (l : list Z) :
  free_list k l -> pages k !! i = Some p ->
  (pp_ref p <> 0 -> page_free i k = Panic "page_free : pp->pp_ref is nonzero!") /\
  (pp_ref p = 0 -> pp_link p <> None ->
     page_free i k = Panic "page_free : pp->pp_link is not NULL!") /\
  (pp_ref p = 0 -> i ∉ l -> exists k', page_free i k = Ret tt k' /\ free_list k' (i :: l) /\
     pmem k' = pmem k /\ envs k' = envs k /\ forall j, j <> i -> pages k' !! j = pages k !! j).
Proof.
  intros Hf Hp. assert (Hg : get_page i k = Ret p k).
  { unfold get_page, kget, st_gets, mbind, ST_bind, st_bind. by rewrite Hp. }
  split_and!.
  - intros Hr. unfold page_free, mbind, ST_bind, st_bind. rewrite Hg.
    by rewrite (proj2 (Z.eqb_neq _ _) Hr).
  - intros Hr Hl. unfold page_free, mbind, ST_bind, st_bind. rewrite Hg, Hr.
    change (0 =? 0) with true. cbn [negb]. by destruct (pp_link p).
  - intros Hr Hi. exists (freed_page k i p).
    destruct (wp_ret_inv (page_free i) (fun a s => s = freed_page k i p) k) as (a & s & E & ->).
    { eapply page_free_ok; [done|done| |done]. destruct Hf as (_ & _ & Hu). by eapply Hu. }
    destruct a. split_and!; [done|by apply free_list_freed|done|done|].
    intros j Hj. unfold freed_page. ksimp. by rewrite lookup_insert_ne.
Qed.

(** ** [page_init] *)

(** The pages [page_init] puts on the free list, given the pages of base
    memory and the first page behind the boot-time allocations. *)
Definition usable (base first : Z) (i : Z) : bool :=
  negb (i =? 0) && negb (i =? PGNUM base) &&
  ((i <? base) || negb ((i <=? EXTPHYSMEM / PGSIZE) || (i <? first))).
Definition first_page (k : kern) : Z := Z.shiftr (u32 (nextfree k - KERNBASE)) PGSHIFT.

Lemma wp_boot_alloc_0 kend E k (Q : Z -> kern -> Prop) :
  nextfree k <> 0 -> Q (nextfree k) k -> wp (boot_alloc kend 0) Q E k.
Proof.
  intros Hn HQ. unfold boot_alloc. ksteps; zbool; done.
Qed.

(** The loop, from page [n] down to 1. *)
Section page_init.
Context (kend base first : Z).

(** Pages up to [n] are untouched; those above are done. *)
Definition init_at (n : Z) (k0 k : kern) : Prop :=
  (forall i, i <= n -> pages k !! i = pages k0 !! i) /\
  (forall i, n < i < npages k0 -> pages k !! i <> None /\
     (usable base first i = false -> pages k !! i = Some (mkPageInfo None 1))) /\
  free_list k (filter (fun i => usable base first i = true) (seqZ (n + 1) (npages k0 - 1 - n))) /\
  npages k = npages k0 /\ npages_basemem k = base /\ nextfree k = nextfree k0 /\
  pmem k = pmem k0 /\ envs k = envs k0.

Lemma seqZ_S n m : 0 < m -> seqZ n m = n :: seqZ (n + 1) (m - 1).
Proof. intros. rewrite seqZ_cons by lia. f_equal; f_equal; lia. Qed.

Lemma init_at_step k0 k n :
  first = first_page k0 -> nextfree k0 <> 0 ->
  (forall i, 0 <= i < npages k0 -> pages k0 !! i = Some (mkPageInfo None 0)) ->
  0 < n < npages k0 -> init_at n k0 k ->
  wp (page_init_at kend n) (fun _ k' => init_at (n - 1) k0 k') (fun _ _ => False) k.
Proof.
  intros Hfirst Hnf Hz Hn (Hlo & Hhi & Hfl & Hnp & Hbase & Hnx & Hm & He).
  assert (Hp : pages k !! n = Some (mkPageInfo None 0)) by (rewrite Hlo by lia; apply Hz; lia).
  assert (Hrange : forall i, i ∈ filter (fun i => usable base first i = true)
    (seqZ (n + 1) (npages k0 - 1 - n)) -> n < i).
  { intros i [_ Hi%elem_of_seqZ]%list_elem_of_filter. lia. }
  assert (Hnotin : n ∉ filter (fun i => usable base first i = true)
    (seqZ (n + 1) (npages k0 - 1 - n))) by (intros Hi%Hrange; lia).
  assert (Hcons : filter (fun i => usable base first i = true) (seqZ (n - 1 + 1) (npages k0 - 1 - (n - 1)))
    = (if usable base first n then [n] else []) ++
      filter (fun i => usable base first i = true) (seqZ (n + 1) (npages k0 - 1 - n))).
  { replace (n - 1 + 1) with n by lia. rewrite seqZ_S by lia.
    replace (npages k0 - 1 - (n - 1) - 1) with (npages k0 - 1 - n) by lia.
    rewrite filter_cons. destruct (usable base first n); [by rewrite decide_True|by rewrite decide_False]. }
  (* the two ways a page can end up *)
  assert (Hbusy : usable base first n = false ->
    init_at (n - 1) k0 (k {{ pages := <[n := mkPageInfo None 1]> (pages k) }})).
  { intros Hu. rewrite Hu in Hcons. unfold init_at. rewrite Hcons. split_and!; try done.
    - intros i Hi. ksimp. rewrite lookup_insert_ne by lia. apply Hlo. lia.
    - intros i Hi. ksimp. destruct (decide (i = n)) as [->|].
      + by rewrite lookup_insert_eq.
      + rewrite lookup_insert_ne by lia. apply Hhi. lia.
    - destruct Hfl as (Hc & Hnd & Hun). split_and!; ksimp; [by apply chain_update|done|].
      intros i p. destruct (decide (i = n)) as [->|].
      + rewrite lookup_insert_eq. by intros [= <-].
      + rewrite lookup_insert_ne by done. apply Hun. }
  assert (Hfree : usable base first n = true -> init_at (n - 1) k0 (freed_page k n (mkPageInfo None 0))).
  { intros Hu. rewrite Hu in Hcons. unfold init_at. rewrite Hcons. split_and!; try done.
    - intros i Hi. unfold freed_page. ksimp. rewrite lookup_insert_ne by lia. apply Hlo. lia.
    - intros i Hi. unfold freed_page. ksimp. destruct (decide (i = n)) as [->|].
      + rewrite lookup_insert_eq, Hu. done.
      + rewrite lookup_insert_ne by lia. apply Hhi. lia.
    - by apply free_list_freed. }
  unfold page_init_at. kstep. kstep. rewrite Hbase. kstep.
  eapply wp_mono with (Q := fun _ k' => init_at (n - 1) k0 k') (E := fun _ _ => False); [| |done].
  2:{ intros [] k1 Hk1. assert (exists q, pages k1 !! n = Some q) as [q Hq].
      { destruct Hk1 as (_ & Hk1 & _). destruct (Hk1 n ltac:(lia)) as [Hne _].
        destruct (pages k1 !! n); naive_solver. }
      kstep. eapply wp_get_page; [done|]. ksteps; done. }
  assert (Hu : usable base first n = negb (n =? PGNUM base) &&
    ((n <? base) || negb ((n <=? EXTPHYSMEM / PGSIZE) || (n <? first)))).
  { unfold usable. by rewrite (proj2 (Z.eqb_neq n 0)) by lia. }
  assert (Hpush : usable base first n = true -> wp (fl ← kget page_free_list;
    set_page n (fun p => p {{ pp_ref := 0 }});; set_page n (fun p => p {{ pp_link := fl }});;
    kset (fun k => k {{ page_free_list := Some n }})) (fun _ k' => init_at (n - 1) k0 k')
    (fun _ _ => False) k).
  { intros Hn'. specialize (Hfree Hn'). ksteps. eapply wp_set_page; [ksimp; apply lookup_insert_eq|].
    ksteps. unfold freed_page in Hfree. destruct k; ksimp. by rewrite insert_insert_eq. }
  assert (Htwo : forall f : PageInfo -> PageInfo, usable base first n = false ->
    f (mkPageInfo None 0) = mkPageInfo None 1 ->
    wp (set_page n f;; set_page n (fun p => p {{ pp_link := None }}))
      (fun _ k' => init_at (n - 1) k0 k') (fun _ _ => False) k).
  { intros f Hn' Hf. specialize (Hbusy Hn'). kstep. eapply wp_set_page; [done|]. rewrite Hf.
    eapply wp_set_page; [ksimp; apply lookup_insert_eq|].
    destruct k; ksimp. by rewrite insert_insert_eq. }
  rewrite (proj2 (Z.eqb_neq n 0)) by lia. cbn [orb].
  destruct (n =? PGNUM base); [by apply Htwo|]. cbn [negb andb] in Hu.
  destruct (n <? base); [by apply Hpush|]. cbn [orb] in Hu.
  kstep. apply wp_boot_alloc_0; [congruence|]. rewrite Hnx.
  fold (first_page k0). rewrite <- Hfirst.
  destruct ((n <=? EXTPHYSMEM / PGSIZE) || (n <? first)); [by apply Htwo|by apply Hpush].
Qed.
End page_init.

Lemma page_init_loop_ok kend base first k0 n k :
  first = first_page k0 -> nextfree k0 <> 0 ->
  (forall i, 0 <= i < npages k0 -> pages k0 !! i = Some (mkPageInfo None 0)) ->
  Z.of_nat n < Z.max 1 (npages k0) -> init_at base first (Z.of_nat n) k0 k ->
  wp (page_init_loop n kend) (fun _ k' => init_at base first 0 k0 k') (fun _ _ => False) k.
Proof.
  intros Hf Hnf Hz. revert k. induction n as [|n IH]; intros k Hn Hk; cbn [page_init_loop].
  { by apply wp_ret. }
  apply wp_bind. eapply wp_mono; [by apply (init_at_step kend base first k0 k); [..|lia|] | |done].
  intros [] k1 H1. apply IH; [lia|]. by replace (Z.of_nat n) with (Z.of_nat (S n) - 1) by lia.
Qed.

(** C19.  [page_init] builds the free list in one pass: afterwards the list is
    exactly the usable pages in increasing order - base memory and what lies
    behind the boot-time allocations, without the page numbered
    [PGNUM(npages_basemem)] - with every other page from 1 on marked in use.
    Page 0 is never visited: it keeps reference count 0. *)
Theorem page_init_builds (kend : Z) (k : kern) :
  0 < npages k -> page_free_list k = None -> nextfree k <> 0 ->
  (forall i, 0 <= i < npages k -> pages k !! i = Some (mkPageInfo None 0)) ->
  (forall i p, pages k !! i = Some p -> pp_link p = None) ->
  exists k', page_init kend k = Ret tt k' /\
    free_list k' (filter (fun i => usable (npages_basemem k) (first_page k) i = true)
                    (seqZ 1 (npages k - 1))) /\
    (forall i, 0 < i < npages k -> usable (npages_basemem k) (first_page k) i = false ->
       pages k' !! i = Some (mkPageInfo None 1)) /\
    pages k' !! 0 = Some (mkPageInfo None 0) /\
    pmem k' = pmem k.
Proof.
  intros Hn Hfl Hnf Hz Hlink. set (base := npages_basemem k). set (first := first_page k).
  assert (Hinit : init_at base first (npages k - 1) k k).
  { unfold init_at. replace (npages k - 1 - (npages k - 1)) with 0 by lia.
    split_and!; try done; [intros i ?; lia|]. split_and!; [|constructor|].
    - rewrite Hfl. constructor.
    - intros i p Hp _. by eapply Hlink. }
  destruct (wp_ret_inv (page_init kend) (fun _ k' => init_at base first 0 k k') k)
    as ([] & k' & E & Hk').
  { unfold page_init. ksteps. apply page_init_loop_ok; [done|done|done|lia|].
    by replace (Z.of_nat (Z.to_nat (npages k - 1))) with (npages k - 1) by lia. }
  destruct Hk' as (Hlo & Hhi & Hf & _ & _ & _ & Hm & _). exists k'. split_and!; [done|..].
  - by replace (npages k - 1 - 0) with (npages k - 1) in Hf by lia.
  - intros i Hi Hu. by apply (Hhi i Hi).
  - rewrite Hlo by lia. apply Hz. lia.
  - done.
Qed.

(** ** Examples: a machine with 512 pages, 160 of them base memory, whose
    kernel image ends behind page 260 *)
Definition small_kern : kern :=
  mkKern empty 512 160 (zero_pages 512) None 0 (KERNBASE + 0x110000) MMIOBASE empty None None
    0 0 [] false (console0 [] []) [].
Lemma lookup_zero_pages n i : 0 <= i < n -> zero_pages n !! i = Some (mkPageInfo None 0).
Proof.
  intros Hi. unfold zero_pages. apply elem_of_list_to_map_1.
  - rewrite <- list_fmap_compose. apply NoDup_fmap_2; [intros x y; done|]. apply NoDup_seqZ.
  - apply list_elem_of_fmap. exists i. split; [done|]. apply elem_of_seqZ. lia.
Qed.
Lemma zero_pages_unlinked n i p : zero_pages n !! i = Some p -> p = mkPageInfo None 0.
Proof.
  unfold zero_pages. intros Hp%elem_of_list_to_map_2.
  apply list_elem_of_fmap in Hp as (j & [= _ ->] & _). done.
Qed.

Lemma page_init_builds_witness :
  exists k', page_init 0 small_kern = Ret tt k' /\
    pages k' !! 256 = Some (mkPageInfo None 1) /\ pages k' !! 0 = Some (mkPageInfo None 0).
Proof.
  destruct (page_init_builds 0 small_kern) as (k' & E & _ & Hb & H0 & _).
  - reflexivity.
  - reflexivity.
  - discriminate.
  - intros i Hi. by apply lookup_zero_pages.
  - intros i p Hp. by rewrite (zero_pages_unlinked _ _ _ Hp).
  - exists k'. split; [exact E|]. split; [|exact H0].
    apply Hb; [split; vm_compute; reflexivity|]. vm_compute. reflexivity.
Defined.

(** Pages 3 and 5 are free. *)
Definition two_free : kern :=
  small_kern {{ pages := <[3 := mkPageInfo (Some 5) 0]> (zero_pages 512); page_free_list := Some 3 }}.
Lemma two_free_ok : free_list two_free [3; 5].
Proof.
  split_and!.
  - eapply chain_cons; [apply lookup_insert_eq|done|].
    eapply chain_cons with (p := mkPageInfo None 0); [|done|constructor].
    unfold two_free. ksimp. rewrite lookup_insert_ne by done. by apply lookup_zero_pages.
  - repeat constructor; set_solver.
  - intros i p. unfold two_free. ksimp. destruct (decide (i = 3)) as [->|].
    + intros _ H. set_solver.
    + rewrite lookup_insert_ne by done. intros Hp _. by rewrite (zero_pages_unlinked _ _ _ Hp).
Qed.
Lemma page_alloc_takes_witness :
  exists k', page_alloc ALLOC_ZERO two_free = Ret (Some 3) k' /\ free_list k' [5].
Proof.
  destruct (page_alloc_takes two_free ALLOC_ZERO [3; 5] two_free_ok) as (k' & E & H & _).
  exists k'. split; [exact E|exact H].
Defined.
Lemma page_free_gives_back_witness :
  exists k', page_free 7 two_free = Ret tt k' /\ free_list k' [7; 3; 5].
Proof.
  assert (Hn : 7 ∉ [3; 5]) by set_solver.
  assert (Hp : pages two_free !! 7 = Some (mkPageInfo None 0)).
  { unfold two_free. ksimp. rewrite lookup_insert_ne by done. by apply lookup_zero_pages. }
  destruct (page_free_gives_back two_free 7 _ _ two_free_ok Hp) as (_ & _ & H).
  destruct H as (k' & E & H & _); [reflexivity|exact Hn|].
  exists k'. split; [exact E|exact H].
Defined.
