(* ===== verification/Vm.v ===== *)
(** * Page tables and reference counts

    The user part of the address spaces whose page directories are [dirs] is
    a set of slots: the directories themselves, their entries and the entries
    of their tables.  [vm_ok] is the invariant of the kernel's memory: every
    page's reference count is the number of slots that refer to it, plus
    [extra] references held elsewhere; free pages are not referred to; nothing
    else refers to a directory or a table.  The operations of pmap.c keep it. *)
From S2P Require Import Prelude Layout Mem CString Printf Console Kern Pmap PmapFree.

Inductive slot : Type :=
| SDir (pd : Z)
| STab (pd d : Z)
| SPte (pd d t : Z).
#[export] Instance slot_eq_dec : EqDecision slot.
Proof. solve_decision. Defined.

(** Directory entries below [UTOP]. *)
Definition UD : Z := PDX UTOP.

Definition pde (m : mem) (pd d : Z) : Z := load32 m (pd + 4 * d).
Definition table_of (m : mem) (pd d : Z) : Z := PTE_ADDR (pde m pd d).
(** The entry a slot holds; a table that does not exist has zero entries. *)
Definition raw (m : mem) (s : slot) : Z :=
  match s with
  | SDir pd => pd
  | STab pd d => pde m pd d
  | SPte pd d t => if pde m pd d =? 0 then 0 else load32 m (table_of m pd d + 4 * t)
  end.
(** The page a slot refers to. *)
Definition refers (s : slot) (v : Z) : option Z :=
  match s with
  | SDir pd => Some (pd / 4096)
  | STab _ _ => if v =? 0 then None else Some (PTE_ADDR v / 4096)
  | SPte _ _ _ => if PTE_ADDR v =? 0 then None else Some (PTE_ADDR v / 4096)
  end.
Definition target (m : mem) (s : slot) : option Z := refers s (raw m s).

Definition tab_slots (pd d : Z) : list slot := STab pd d :: (SPte pd d <$> seqZ 0 1024).
Definition dir_slots (pd : Z) : list slot := SDir pd :: (d ← seqZ 0 UD; tab_slots pd d).
Definition slots (dirs : list Z) : list slot := pd ← dirs; dir_slots pd.

Lemma elem_of_tab_slots pd d s : s ∈ tab_slots pd d <->
  s = STab pd d \/ exists t, s = SPte pd d t /\ 0 <= t < 1024.
Proof.
  unfold tab_slots. rewrite elem_of_cons, list_elem_of_fmap.
  split; (intros [->|(t & -> & Ht)]; [by left|right]); exists t; (split; [done|]).
  - apply elem_of_seqZ in Ht. lia.
  - apply elem_of_seqZ. lia.
Qed.
Lemma elem_of_dir_slots pd s : s ∈ dir_slots pd <->
  s = SDir pd \/ exists d, s ∈ tab_slots pd d /\ 0 <= d < UD.
Proof.
  unfold dir_slots. rewrite elem_of_cons, list_elem_of_bind.
  split; (intros [->|(d & Hs & Hd)]; [by left|right]); exists d; (split; [done|]).
  - apply elem_of_seqZ in Hd. lia.
  - apply elem_of_seqZ. lia.
Qed.
Lemma elem_of_slots dirs s : s ∈ slots dirs <->
  match s with
  | SDir pd => pd ∈ dirs
  | STab pd d => pd ∈ dirs /\ 0 <= d < UD
  | SPte pd d t => pd ∈ dirs /\ 0 <= d < UD /\ 0 <= t < 1024
  end.
Proof.
  unfold slots. rewrite list_elem_of_bind. split.
  - intros (pd & Hs & Hp). apply elem_of_dir_slots in Hs as [-> | (d & Hs & Hd)]; [done|].
    by apply elem_of_tab_slots in Hs as [-> | (t & -> & Ht)].
  - destruct s as [pd|pd d|pd d t].
    + intros Hp. exists pd. split; [|done]. apply elem_of_dir_slots. by left.
    + intros (Hp & Hd). exists pd. split; [|done]. apply elem_of_dir_slots. right. exists d.
      split; [|done]. apply elem_of_tab_slots. by left.
    + intros (Hp & Hd & Ht). exists pd. split; [|done]. apply elem_of_dir_slots. right.
      exists d. split; [|done]. apply elem_of_tab_slots. right. by exists t.
Qed.
Lemma NoDup_slots dirs : NoDup dirs -> NoDup (slots dirs).
Proof.
  assert (Hin : forall pd d, NoDup (tab_slots pd d)).
  { intros pd d. constructor.
    - intros (t & [=] & _)%list_elem_of_fmap.
    - apply NoDup_fmap_2; [by intros x y [= ->]|]. apply NoDup_seqZ. }
  assert (Hdir : forall pd, NoDup (dir_slots pd)).
  { intros pd. constructor.
    - intros (d & Hs & _)%list_elem_of_bind. by apply elem_of_tab_slots in Hs as [? | (? & ? & _)].
    - apply NoDup_bind; [|intros d _; apply Hin|apply NoDup_seqZ].
      intros d1 d2 s _ _ H1 H2. apply elem_of_tab_slots in H1, H2.
      destruct H1 as [-> | (? & -> & _)], H2 as [H2 | (? & H2 & _)]; by simplify_eq. }
  intros Hnd. apply NoDup_bind; [|intros pd _; apply Hdir|done].
  intros p1 p2 s _ _ H1 H2. apply elem_of_dir_slots in H1, H2.
  destruct H1 as [-> | (d & H1 & _)], H2 as [H2 | (d' & H2 & _)]; try by simplify_eq.
  - by apply elem_of_tab_slots in H2 as [? | (? & ? & _)].
  - by apply elem_of_tab_slots in H1 as [? | (? & ? & _)]; simplify_eq.
  - apply elem_of_tab_slots in H1, H2.
    destruct H1 as [-> | (? & -> & _)], H2 as [H2 | (? & H2 & _)]; by simplify_eq.
Qed.

(** The number of slots that refer to page [f]. *)
Definition count (m : mem) (dirs : list Z) (f : Z) : Z :=
  Z.of_nat (length (filter (fun s => target m s = Some f) (slots dirs))).

Lemma count_nonneg m dirs f : 0 <= count m dirs f.
Proof. unfold count. lia. Qed.
Lemma count_pos m dirs f s : s ∈ slots dirs -> target m s = Some f -> 0 < count m dirs f.
Proof.
  intros Hs Ht. unfold count.
  assert (Hin : s ∈ filter (fun s => target m s = Some f) (slots dirs))
    by by apply list_elem_of_filter.
  destruct (filter _ _); [by apply elem_of_nil in Hin|]. simpl. lia.
Qed.

(** Changing what one slot refers to. *)
Lemma filter_change `{EqDecision A} (P Q : A -> Prop) `{!forall x, Decision (P x), !forall x, Decision (Q x)} l x :
  NoDup l -> x ∈ l -> (forall y, y ∈ l -> y <> x -> (P y <-> Q y)) ->
  Z.of_nat (length (filter Q l)) + (if decide (P x) then 1 else 0) =
  Z.of_nat (length (filter P l)) + (if decide (Q x) then 1 else 0).
Proof.
  induction l as [|y l IH]; intros Hnd Hx Hy; [by apply elem_of_nil in Hx|].
  apply NoDup_cons in Hnd as [Hyl Hnd]. rewrite !filter_cons.
  destruct (decide (y = x)) as [->|Hne].
  - assert (filter P l = filter Q l) as ->.
    { clear -Hy Hyl. induction l as [|z l IH]; [done|]. rewrite !filter_cons, IH.
      - assert (Hzx : z <> x) by (intros ->; apply Hyl; left).
        assert (P z <-> Q z) by (apply Hy; [right; left|exact Hzx]).
        repeat case_decide; tauto.
      - intros Hx. apply Hyl. by right.
      - intros w Hw. apply Hy. apply elem_of_cons in Hw as [->|Hw]; [left|]. right. by right. }
    repeat case_decide; cbn [length]; lia.
  - apply elem_of_cons in Hx as [->|Hx]; [done|].
    assert (Hy' : forall z, z ∈ l -> z <> x -> (P z <-> Q z)) by (intros; apply Hy; [by right|done]).
    specialize (IH Hnd Hx Hy').
    assert (P y <-> Q y) by (apply Hy; [left|done]).
    destruct (decide (P y)), (decide (Q y)); cbn [length]; try lia; tauto.
Qed.
Definition one (b : bool) : Z := if b then 1 else 0.
Lemma count_change m m' dirs s f : NoDup dirs -> s ∈ slots dirs ->
  (forall s', s' ∈ slots dirs -> s' <> s -> raw m' s' = raw m s') ->
  count m' dirs f + one (bool_decide (target m s = Some f)) =
  count m dirs f + one (bool_decide (target m' s = Some f)).
Proof.
  intros Hnd Hs Hraw. unfold count.
  pose proof (filter_change (fun s => target m s = Some f) (fun s => target m' s = Some f)
    (slots dirs) s (NoDup_slots _ Hnd) Hs) as H.
  assert (forall b : bool, forall P : Prop, forall d : Decision P, b = bool_decide P ->
    one b = if decide P then 1 else 0) as Hone.
  { intros b P d ->. unfold one, bool_decide, decide. by destruct d. }
  rewrite !(Hone _ _ _ eq_refl). unfold one in *. apply H.
  intros s' Hs' Hne. unfold target. by rewrite Hraw.
Qed.
Lemma count_same m m' dirs f :
  (forall s', s' ∈ slots dirs -> raw m' s' = raw m s') -> count m' dirs f = count m dirs f.
Proof.
  intros Hraw. unfold count. f_equal. f_equal.
  induction (slots dirs) as [|s l IH]; [done|]. rewrite !filter_cons.
  rewrite IH by (intros; apply Hraw; by right).
  unfold target. rewrite (Hraw s) by (left). done.
Qed.

(** ** The invariant *)

(** Directories and their entries refer to tables, the entries of tables to pages. *)
Definition is_pte (s : slot) : bool := match s with SPte _ _ _ => true | _ => false end.
Record vm_ok (dirs : list Z) (extra : Z -> Z) (l : list Z) (k : kern) : Prop := {
  vm_free : free_list k l;
  vm_zero : 0 ∉ l;
  vm_nodup : NoDup dirs;
  vm_pages : forall i p, pages k !! i = Some p -> 0 <= i < 2 ^ 20 /\ 0 <= pp_ref p < 65536;
  vm_dir : forall pd, pd ∈ dirs -> pd mod 4096 = 0 /\ 0 <= pd < 2 ^ 32;
  vm_target : forall s f, s ∈ slots dirs -> target (pmem k) s = Some f -> is_Some (pages k !! f);
  vm_tab : forall s s' f, s ∈ slots dirs -> s' ∈ slots dirs -> is_pte s = false ->
    target (pmem k) s = Some f -> f <> 0 /\ (target (pmem k) s' = Some f -> s' = s);
  vm_ref : forall i p, i <> 0 -> pages k !! i = Some p ->
    0 <= extra i /\ pp_ref p = count (pmem k) dirs i + extra i }.

Lemma pde_range m pd d : 0 <= pde m pd d < 2 ^ 32.
Proof. apply load32_bound. Qed.
Lemma raw_range m s : match s with SDir _ => True | _ => 0 <= raw m s < 2 ^ 32 end.
Proof.
  destruct s; cbn [raw]; [done|apply pde_range|]. case_match; [lia|apply load32_bound].
Qed.
Lemma table_of_aligned m pd d : table_of m pd d mod 4096 = 0 /\ 0 <= table_of m pd d < 2 ^ 32.
Proof.
  pose proof (pde_range m pd d) as H. unfold table_of. split; [by apply PTE_ADDR_mod|].
  pose proof (PTE_ADDR_bound _ H). lia.
Qed.

(** Two frames are the same address or at least a page apart. *)
Lemma frames_apart a b : a mod 4096 = 0 -> b mod 4096 = 0 -> a / 4096 <> b / 4096 ->
  a + 4096 <= b \/ b + 4096 <= a.
Proof. intros. zdiv. Qed.

Section invariant.
Context (dirs : list Z) (extra : Z -> Z) (l : list Z) (k : kern) (HV : vm_ok dirs extra l k).

Lemma vm_free_count i : i ∈ l -> count (pmem k) dirs i = 0 /\ extra i = 0.
Proof.
  intros Hi. destruct (vm_free _ _ _ _ HV) as (Hc & _).
  destruct (chain_elem _ _ _ _ Hc Hi) as (p & Hp & Hr).
  assert (i <> 0) by (intros ->; by apply (vm_zero _ _ _ _ HV)).
  destruct (vm_ref _ _ _ _ HV i p) as [? Hx]; [done..|].
  pose proof (count_nonneg (pmem k) dirs i). lia.
Qed.
(** A page a slot refers to is not free. *)
Lemma vm_target_used s f : s ∈ slots dirs -> target (pmem k) s = Some f -> f ∉ l.
Proof.
  intros Hs Ht Hf. apply vm_free_count in Hf as [H _].
  pose proof (count_pos _ _ _ _ Hs Ht). lia.
Qed.

(** A directory is apart from every table. *)
Lemma dir_table_apart pd pd' d' : pd ∈ dirs -> pd' ∈ dirs -> 0 <= d' < UD ->
  pde (pmem k) pd' d' <> 0 ->
  pd + 4096 <= table_of (pmem k) pd' d' \/ table_of (pmem k) pd' d' + 4096 <= pd.
Proof.
  intros Hp Hp' Hd Hne.
  apply frames_apart; [apply (vm_dir _ _ _ _ HV pd Hp)|apply table_of_aligned|].
  intros E. assert (SDir pd = STab pd' d') as [=].
  eapply (vm_tab _ _ _ _ HV (STab pd' d') (SDir pd) (pd / 4096)); rewrite ?elem_of_slots; [done|done|done| |done].
  unfold target. cbn [raw refers]. rewrite (proj2 (Z.eqb_neq _ _) Hne). by rewrite E.
Qed.
Lemma dirs_apart pd pd' : pd ∈ dirs -> pd' ∈ dirs -> pd <> pd' ->
  pd + 4096 <= pd' \/ pd' + 4096 <= pd.
Proof.
  intros Hp Hp' Hne. destruct (vm_dir _ _ _ _ HV pd Hp), (vm_dir _ _ _ _ HV pd' Hp').
  apply frames_apart; [done..|]. intros E. apply Hne. zdiv.
Qed.
Lemma tables_apart pd d pd' d' : pd ∈ dirs -> pd' ∈ dirs -> 0 <= d < UD -> 0 <= d' < UD ->
  (pd, d) <> (pd', d') -> pde (pmem k) pd d <> 0 -> pde (pmem k) pd' d' <> 0 ->
  table_of (pmem k) pd d + 4096 <= table_of (pmem k) pd' d' \/
  table_of (pmem k) pd' d' + 4096 <= table_of (pmem k) pd d.
Proof.
  intros Hp Hp' Hd Hd' Hne H0 H0'. apply frames_apart; [apply table_of_aligned..|].
  intros E. assert (STab pd d = STab pd' d') as [=]; [|by subst].
  eapply (vm_tab _ _ _ _ HV (STab pd' d') (STab pd d) (table_of (pmem k) pd d / 4096));
    rewrite ?elem_of_slots; [done|done|done| |]; unfold target; cbn [raw refers].
  - rewrite (proj2 (Z.eqb_neq _ _) H0'). by rewrite E.
  - by rewrite (proj2 (Z.eqb_neq _ _) H0).
Qed.
Lemma UD_bound : 0 <= UD <= 1024.
Proof. unfold UD. pose proof (PDX_bound UTOP). lia. Qed.

(** A table entry is written: only its slot changes. *)
Lemma raw_store_pte pd d t v : pd ∈ dirs -> 0 <= d < UD -> 0 <= t < 1024 ->
  pde (pmem k) pd d <> 0 -> 0 <= v < 2 ^ 32 ->
  let m' := store32 (pmem k) (table_of (pmem k) pd d + 4 * t) v in
  raw m' (SPte pd d t) = v /\
  forall s, s ∈ slots dirs -> s <> SPte pd d t -> raw m' s = raw (pmem k) s.
Proof.
  intros Hp Hd Ht Hne Hv m'. pose proof UD_bound as HUD.
  assert (Hpde : forall pd' d', pd' ∈ dirs -> 0 <= d' < UD -> pde m' pd' d' = pde (pmem k) pd' d').
  { intros pd' d' Hp' Hd'. unfold pde, m'.
    pose proof (dir_table_apart pd' pd d Hp' Hp Hd Hne). apply load32_store32_ne. lia. }
  assert (Htab : forall pd' d', pd' ∈ dirs -> 0 <= d' < UD -> table_of m' pd' d' = table_of (pmem k) pd' d').
  { intros pd' d' Hp' Hd'. unfold table_of. by rewrite Hpde. }
  split.
  - cbn [raw]. rewrite Hpde, Htab by done. rewrite (proj2 (Z.eqb_neq _ _) Hne).
    unfold m'. rewrite load32_store32_eq. by apply u32_small.
  - intros s Hs Hsne. apply elem_of_slots in Hs. destruct s as [pd'|pd' d'|pd' d' t']; cbn [raw].
    + done.
    + apply Hpde; tauto.
    + destruct Hs as (Hp' & Hd' & Ht'). rewrite Hpde, Htab by done.
      destruct (Z.eqb_spec (pde (pmem k) pd' d') 0); [done|]. unfold m'.
      apply load32_store32_ne.
      destruct (decide ((pd, d) = (pd', d'))) as [[= <- <-]|Hx].
      * assert (t' <> t) by (by intros ->). lia.
      * pose proof (tables_apart pd d pd' d' Hp Hp' Hd Hd' Hx Hne n). lia.
Qed.
End invariant.

Lemma load32_bytes_ext m m' a : (forall b, a <= b < a + 4 -> load8 m' b = load8 m b) ->
  load32 m' a = load32 m a.
Proof. intros H. unfold load32, load16. by rewrite !H by lia. Qed.
Lemma load32_zero m a : (forall b, a <= b < a + 4 -> load8 m b = 0) -> load32 m a = 0.
Proof. intros H. unfold load32, load16. by rewrite !H by lia. Qed.

Section new_table.
Context (dirs : list Z) (extra : Z -> Z) (l : list Z) (k : kern) (HV : vm_ok dirs extra l k).

(** A page that is not referred to is apart from directories and tables. *)
Lemma free_apart n s f : n ∈ l -> 0 <= n -> s ∈ slots dirs -> target (pmem k) s = Some f ->
  forall a, a mod 4096 = 0 -> a / 4096 = f -> a + 4096 <= 4096 * n \/ 4096 * n + 4096 <= a.
Proof.
  intros Hn Hn0 Hs Ht a Ha Haf. apply frames_apart; [done|zdiv|].
  rewrite Z.mul_comm, Z.div_mul by lia. rewrite Haf. intros ->.
  by eapply (vm_target_used dirs extra l k).
Qed.

(** A cleared free page becomes the table of entry [d]. *)
Lemma raw_new_table pd d n v m' : pd ∈ dirs -> 0 <= d < UD -> pde (pmem k) pd d = 0 ->
  n ∈ l -> 0 < n < 2 ^ 20 -> v = 4096 * n + 7 ->
  (forall a, load8 m' a =
     if decide (pd + 4 * d <= a < pd + 4 * d + 4) then u8 (v / 2 ^ (8 * (a - (pd + 4 * d))))
     else if decide (4096 * n <= a < 4096 * n + 4096) then 0 else load8 (pmem k) a) ->
  raw m' (STab pd d) = v /\
  forall s, s ∈ slots dirs -> s <> STab pd d -> raw m' s = raw (pmem k) s.
Proof.
  intros Hp Hd Hz Hn Hnr Hv Hm. pose proof UD_bound as HUD.
  pose proof (vm_dir _ _ _ _ HV) as Hdir.
  assert (Hdn : forall pd', pd' ∈ dirs -> pd' + 4096 <= 4096 * n \/ 4096 * n + 4096 <= pd').
  { intros pd' Hp'. apply (free_apart n (SDir pd') (pd' / 4096)); [done|lia|by apply elem_of_slots|done| |done].
    by apply Hdir. }
  assert (Hself : load32 m' (pd + 4 * d) = v).
  { rewrite (load32_bytes_ext (store32 (pmem k) (pd + 4 * d) v)).
    - rewrite load32_store32_eq. apply u32_small. lia.
    - intros b Hb. rewrite Hm, store32_load8. by rewrite !decide_True by done. }
  assert (Hother : forall a, (a + 4 <= pd + 4 * d \/ pd + 4 * d + 4 <= a) ->
    (a + 4 <= 4096 * n \/ 4096 * n + 4096 <= a) -> load32 m' a = load32 (pmem k) a).
  { intros a H1 H2. apply load32_bytes_ext. intros b Hb. rewrite Hm.
    by rewrite !decide_False by lia. }
  assert (Hpde : forall pd' d', pd' ∈ dirs -> 0 <= d' < UD -> (pd', d') <> (pd, d) ->
    pde m' pd' d' = pde (pmem k) pd' d').
  { intros pd' d' Hp' Hd' Hne. unfold pde. apply Hother; [|destruct (Hdn pd' Hp'); lia].
    destruct (decide (pd' = pd)) as [->|Hpp].
    - assert (d' <> d) by (by intros ->). lia.
    - pose proof (dirs_apart _ _ _ _ HV pd' pd Hp' Hp Hpp). lia. }
  split; [exact Hself|].
  intros s Hs Hne. apply elem_of_slots in Hs. destruct s as [pd'|pd' d'|pd' d' t']; cbn [raw].
  - done.
  - apply Hpde; [tauto|tauto|]. by intros [= -> ->].
  - destruct Hs as (Hp' & Hd' & Ht').
    destruct (decide ((pd', d') = (pd, d))) as [[= -> ->]|Hx].
    + rewrite Hz. unfold table_of, pde in *. rewrite Hself.
      rewrite (proj2 (Z.eqb_neq v 0)) by lia. change (0 =? 0) with true. cbv iota.
      destruct (PTE_ADDR_lor (4096 * n) 7) as [Ha Hl]; [lia|zdiv|lia|].
      rewrite Hv, <- Hl, Ha. apply load32_zero. intros b Hb. rewrite Hm.
      rewrite decide_False by (pose proof (Hdn pd Hp); lia). by rewrite decide_True by lia.
    + rewrite (Hpde pd' d') by done. unfold table_of. rewrite (Hpde pd' d') by done.
      fold (table_of (pmem k) pd' d').
      destruct (Z.eqb_spec (pde (pmem k) pd' d') 0) as [|Hne']; [done|].
      apply Hother.
      * pose proof (dir_table_apart _ _ _ _ HV pd pd' d' Hp Hp' Hd' Hne'). lia.
      * destruct (free_apart n (STab pd' d') (table_of (pmem k) pd' d' / 4096) Hn ltac:(lia))
          with (a := table_of (pmem k) pd' d'); try done; try lia.
        -- by apply elem_of_slots.
        -- unfold target. cbn [raw refers]. by rewrite (proj2 (Z.eqb_neq _ _) Hne').
        -- apply table_of_aligned.
Qed.
End new_table.

(** One slot [s] and the reference counts change: the invariant is kept when
    the counts follow the slot, up to references handed to [extra]. *)
Lemma vm_change dirs extra extra' l l' k k' s :
  vm_ok dirs extra l k -> s ∈ slots dirs ->
  (forall s', s' ∈ slots dirs -> s' <> s -> raw (pmem k') s' = raw (pmem k) s') ->
  free_list k' l' -> 0 ∉ l' ->
  (forall i, is_Some (pages k' !! i) <-> is_Some (pages k !! i)) ->
  (forall i p p', pages k !! i = Some p -> pages k' !! i = Some p' ->
     0 <= pp_ref p' < 65536 /\
     (i <> 0 -> 0 <= extra' i /\ pp_ref p' - pp_ref p =
        one (bool_decide (target (pmem k') s = Some i)) -
        one (bool_decide (target (pmem k) s = Some i)) + (extra' i - extra i))) ->
  (forall f, target (pmem k') s = Some f -> is_Some (pages k !! f)) ->
  (forall s' f, s' ∈ slots dirs -> s' <> s -> is_pte s = false \/ is_pte s' = false ->
     target (pmem k') s = Some f -> target (pmem k) s' <> Some f) ->
  (is_pte s = false -> target (pmem k') s <> Some 0) ->
  vm_ok dirs extra' l' k'.
Proof.
  intros HV Hs Hraw Hf H0 Hdom Href Htgt Htab Hz.
  assert (Ht : forall s', s' ∈ slots dirs -> s' <> s -> target (pmem k') s' = target (pmem k) s').
  { intros s' ? ?. unfold target. by rewrite Hraw. }
  split; [done|done|by apply HV| |by apply HV| | |].
  - intros i p' Hp'. destruct (proj1 (Hdom i)) as [p Hp]; [by eexists|].
    split; [by eapply (vm_pages _ _ _ _ HV)|by eapply Href].
  - intros s' f Hs' Hft. apply Hdom. destruct (decide (s' = s)) as [->|]; [by apply Htgt|].
    rewrite Ht in Hft by done. by eapply (vm_target _ _ _ _ HV).
  - intros s1 s2 f H1 H2 Hnp Ht1. split.
    + intros ->. destruct (decide (s1 = s)) as [->|Hne]; [by apply Hz|].
      rewrite Ht in Ht1 by done. by destruct (vm_tab _ _ _ _ HV s1 s1 0 H1 H1 Hnp Ht1).
    + intros Ht2. destruct (decide (s1 = s)) as [->|Hn1], (decide (s2 = s)) as [->|Hn2]; [done| | |].
      * rewrite Ht in Ht2 by done. exfalso. by eapply (Htab s2 f); [..|left|done|done].
      * rewrite Ht in Ht1 by done. exfalso. by eapply (Htab s1 f); [..|right|done|done].
      * rewrite Ht in Ht1, Ht2 by done. by apply (vm_tab _ _ _ _ HV s1 s2 f).
  - intros i p' Hi Hp'. destruct (proj1 (Hdom i)) as [p Hp]; [by eexists|].
    destruct (Href i p p' Hp Hp') as [_ Hr]. destruct (Hr Hi) as [He Hd].
    destruct (vm_ref _ _ _ _ HV i p Hi Hp) as [_ Hc]. split; [done|].
    pose proof (count_change (pmem k) (pmem k') dirs s i (vm_nodup _ _ _ _ HV) Hs Hraw). lia.
Qed.

(** The reference counts change while no slot does. *)
Lemma vm_extra dirs extra extra' l l' k k' :
  vm_ok dirs extra l k ->
  (forall s', s' ∈ slots dirs -> raw (pmem k') s' = raw (pmem k) s') ->
  free_list k' l' -> 0 ∉ l' ->
  (forall i, is_Some (pages k' !! i) <-> is_Some (pages k !! i)) ->
  (forall i p p', pages k !! i = Some p -> pages k' !! i = Some p' ->
     0 <= pp_ref p' < 65536 /\
     (i <> 0 -> 0 <= extra' i /\ pp_ref p' - pp_ref p = extra' i - extra i)) ->
  vm_ok dirs extra' l' k'.
Proof.
  intros HV Hraw Hf H0 Hdom Href.
  assert (Ht : forall s', s' ∈ slots dirs -> target (pmem k') s' = target (pmem k) s').
  { intros s' ?. unfold target. by rewrite Hraw. }
  split; [done|done|by apply HV| |by apply HV| | |].
  - intros i p' Hp'. destruct (proj1 (Hdom i)) as [p Hp]; [by eexists|].
    split; [by eapply (vm_pages _ _ _ _ HV)|by eapply Href].
  - intros s' f Hs' Hft. apply Hdom. rewrite Ht in Hft by done. by eapply (vm_target _ _ _ _ HV).
  - intros s1 s2 f H1 H2 Hnp. rewrite !Ht by done. by apply (vm_tab _ _ _ _ HV s1 s2 f).
  - intros i p' Hi Hp'. destruct (proj1 (Hdom i)) as [p Hp]; [by eexists|].
    destruct (Href i p p' Hp Hp') as [_ Hr]. destruct (Hr Hi) as [He Hd].
    destruct (vm_ref _ _ _ _ HV i p Hi Hp) as [_ Hc]. split; [done|].
    rewrite (count_same (pmem k) (pmem k')) by done. lia.
Qed.

(** ** [pgdir_walk] *)

(** Nothing but memory, the page array and the TLB log differs. *)
Definition vm_frame (k k' : kern) : Prop :=
  k' = k {{ pmem := pmem k'; pages := pages k'; page_free_list := page_free_list k';
            invalidated := invalidated k' }}.
Lemma vm_frame_refl k : vm_frame k k.
Proof. by destruct k. Qed.
Lemma vm_frame_trans k1 k2 k3 : vm_frame k1 k2 -> vm_frame k2 k3 -> vm_frame k1 k3.
Proof. unfold vm_frame. intros H12 H23. rewrite H23, H12. by destruct k1, k2, k3. Qed.
#[export] Hint Resolve vm_frame_refl : dos.

Lemma dom_insert (pgs : gmap Z PageInfo) i p q : pgs !! i = Some p ->
  forall j, is_Some (<[i := q]> pgs !! j) <-> is_Some (pgs !! j).
Proof.
  intros Hp j. destruct (decide (i = j)) as [->|].
  - rewrite lookup_insert_eq, Hp. split; eauto.
  - by rewrite lookup_insert_ne.
Qed.

Section walk.
Context (dirs : list Z) (extra : Z -> Z) (l : list Z) (k : kern) (HV : vm_ok dirs extra l k).
Context (pd va : Z) (Hp : pd ∈ dirs) (Hva : 0 <= va < UTOP).
Abbreviation d := (PDX va).
Abbreviation t := (PTX va).

Lemma UTOP_range : UTOP = 0xEEC00000.
Proof. reflexivity. Qed.
Lemma va_d : 0 <= d < UD.
Proof.
  split; [apply PDX_bound|]. rewrite UTOP_range in Hva. change UD with 955.
  rewrite PDX_eq by lia. zdiv.
Qed.
Lemma va_slot : SPte pd d t ∈ slots dirs /\ STab pd d ∈ slots dirs.
Proof.
  pose proof va_d. pose proof (PTX_bound va).
  split; apply elem_of_slots; auto.
Qed.

Lemma pgdir_walk_old create Q : pde (pmem k) pd d <> 0 ->
  Q (Some (table_of (pmem k) pd d + 4 * t)) k ->
  wp (pgdir_walk pd va create) Q (fun _ _ => False) k.
Proof.
  intros Hne HQ. unfold pgdir_walk, pde_addr. kstep. kstep. fold (pde (pmem k) pd d).
  rewrite (proj2 (Z.eqb_neq _ _) Hne). by kstep.
Qed.
Lemma pgdir_walk_none Q : pde (pmem k) pd d = 0 -> Q None k ->
  wp (pgdir_walk pd va false) Q (fun _ _ => False) k.
Proof.
  intros Hz HQ. unfold pgdir_walk, pde_addr. kstep. kstep. fold (pde (pmem k) pd d).
  rewrite Hz. change (0 =? 0) with true. cbn [negb]. by kstep.
Qed.

(** The stores that enter a fresh page [n] as the table. *)
Lemma page2pa_mask n : 0 <= n < 2 ^ 20 -> Z.land (page2pa n) (u32 (Z.lnot 0xFFF)) = 4096 * n.
Proof.
  intros Hn. rewrite page2pa_eq by done. change (Z.land (4096 * n) (u32 (Z.lnot 0xFFF)))
    with (Z.land (4096 * n) (u32 (Z.lnot 0xFFF))).
  assert (PTE_ADDR (4096 * n) = 4096 * n) as H by (rewrite PTE_ADDR_eq by lia; zdiv).
  unfold PTE_ADDR in H. by rewrite u32_small in H by lia.
Qed.
Lemma new_table_run (ka : kern) n (Q : option Z -> kern -> Prop) : 0 < n < 2 ^ 20 ->
  pages ka !! n = Some (mkPageInfo None 0) -> pde (pmem ka) pd d = 0 ->
  Q (Some (4096 * n + 4 * t))
    (ka {{ pages := <[n := mkPageInfo None 1]> (pages ka);
           pmem := store32 (store32 (pmem ka) (pd + 4 * d) (4096 * n)) (pd + 4 * d) (4096 * n + 7) }}) ->
  wp (set_page n (fun p => p {{ pp_ref ::= fun r => u16 (r + 1) }});;
      pde ← pload (pde_addr pd va);
      pstore (pde_addr pd va) (Z.lor pde (Z.land (page2pa n) (u32 (Z.lnot 0xFFF))));;
      pde ← pload (pde_addr pd va);
      pstore (pde_addr pd va) (Z.lor (Z.lor (Z.lor pde PTE_P) PTE_W) PTE_U);;
      pde ← pload (pde_addr pd va);
      mret (Some (PTE_ADDR pde + 4 * PTX va))) Q (fun _ _ => False) ka.
Proof.
  intros Hn Hpn Hz HQ. destruct ka. ksimp. unfold pde_addr, pde in *. kstep.
  eapply wp_set_page; [done|]. ksteps. ksimp. rewrite !load32_store32_eq in *.
  rewrite Hz, page2pa_mask by lia. rewrite Z.lor_0_l.
  rewrite (u32_small (4096 * n)) by lia. rewrite <- !Z.lor_assoc.
  change (Z.lor PTE_P (Z.lor PTE_W PTE_U)) with 7.
  destruct (PTE_ADDR_lor (4096 * n) 7) as [Ha Hl]; [lia|zdiv|lia|].
  rewrite Hl in *. rewrite u32_small by lia. by rewrite Ha.
Qed.

(** What walking with [create] achieves: the table exists; at most the
    directory entry changed, from nothing to a fresh table. *)
Definition walked (r : option Z) (k' : kern) : Prop :=
  (r = None /\ k' = k /\ l = [] /\ pde (pmem k) pd d = 0) \/
  (r = Some (table_of (pmem k') pd d + 4 * t) /\ pde (pmem k') pd d <> 0 /\
   vm_frame k k' /\ (pde (pmem k) pd d <> 0 -> k' = k) /\
   (pde (pmem k) pd d = 0 -> pde (pmem k') pd d mod 4096 = 7) /\
   exists l', vm_ok dirs extra l' k' /\
   (l' = l \/ exists n, l = n :: l' /\ pde (pmem k) pd d = 0) /\
   (forall i, i ∉ l -> pages k' !! i = pages k !! i) /\
   (forall s, s ∈ slots dirs -> s <> STab pd d -> raw (pmem k') s = raw (pmem k) s) /\
   (forall f, target (pmem k') (STab pd d) = Some f -> target (pmem k) (STab pd d) = Some f \/ f ∈ l) /\
   (forall x, x / 4096 <> pd / 4096 -> x / 4096 ∉ l -> load8 (pmem k') x = load8 (pmem k) x)).

Lemma pgdir_walk_create :
  wp (pgdir_walk pd va true) walked (fun _ _ => False) k.
Proof.
  destruct (decide (pde (pmem k) pd d = 0)) as [Hz|Hne].
  2:{ apply pgdir_walk_old; [done|]. right. split_and!; auto with dos; [by intros ?|]. exists l. split_and!; auto. }
  unfold pgdir_walk, pde_addr. kstep. kstep. fold (pde (pmem k) pd d).
  rewrite Hz. change (0 =? 0) with true. cbn [negb]. kstep.
  destruct l as [|n l'] eqn:El.
  { apply page_alloc_none; [|kstep; by left]. destruct (vm_free _ _ _ _ HV) as (Hc & _).
    by inversion Hc. }
  destruct (free_list_allocated k 1 n l' (vm_free _ _ _ _ HV)) as (p & Hpn & Hrn & Hh & Hf').
  eapply page_alloc_some; [done|done|]. cbv beta iota.
  assert (Hnr : 0 < n < 2 ^ 20).
  { destruct (vm_pages _ _ _ _ HV n p Hpn). assert (n <> 0); [|lia].
    intros ->. apply (vm_zero _ _ _ _ HV). left. }
  destruct p as [lk r]. cbn [pp_ref] in Hrn. subst r.
  assert (Hdn : pd + 4096 <= 4096 * n \/ 4096 * n + 4096 <= pd).
  { apply (free_apart _ _ _ _ HV n (SDir pd) (pd / 4096)); [left|lia| |done| |done].
    - by apply elem_of_slots.
    - by apply (vm_dir _ _ _ _ HV). }
  pose proof va_d as Hd. pose proof UD_bound as HU.
  assert (Hza : forall a, load8 (zeroed k 1 n) a =
    if decide (4096 * n <= a < 4096 * n + 4096) then 0 else load8 (pmem k) a).
  { intros a. rewrite load8_zeroed, page2pa_eq by lia. change (Z.land 1 ALLOC_ZERO) with 1.
    repeat case_decide; naive_solver lia. }
  apply new_table_run; [done| | |].
  - unfold allocated. ksimp. apply lookup_insert_eq.
  - unfold allocated, pde. ksimp. rewrite (load32_bytes_ext (pmem k)); [done|].
    intros b Hb. rewrite Hza. by rewrite decide_False by lia.
  - set (k' := _ {{ pages := _; pmem := _ }}).
    assert (Hm : pmem k' = store32 (store32 (zeroed k 1 n) (pd + 4 * d) (4096 * n)) (pd + 4 * d)
      (4096 * n + 7)) by done.
    assert (Hpg : pages k' = <[n := mkPageInfo None 1]> (pages k)).
    { unfold k', allocated. ksimp. by rewrite insert_insert_eq. }
    assert (Hfl : page_free_list k' = lk) by done.
    assert (Hfr : vm_frame k k') by (unfold vm_frame, k', allocated; by destruct k).
    destruct (raw_new_table _ _ _ _ HV pd d n (4096 * n + 7) (pmem k')) as [Hrs Hro];
      [done|done|done|left|done|done| |].
    { intros a. rewrite Hm, !store32_load8, Hza. repeat case_decide; done || lia. }
    cbn [raw] in Hrs.
    assert (Htab : table_of (pmem k') pd d = 4096 * n).
    { unfold table_of. rewrite Hrs. destruct (PTE_ADDR_lor (4096 * n) 7) as [Ha Hl];
        [lia|zdiv|lia|]. by rewrite <- Hl. }
    clearbody k'. right. rewrite Htab, Hrs. split_and!; [done|lia|done|by rewrite Hz|intros _; zdiv|].
    exists l'. split_and!; [|right; by exists n| |done| |].
    + destruct (vm_free_count _ _ _ _ HV n) as [Hc0 He0]; [left|].
      assert (Htn : target (pmem k') (STab pd d) = Some n).
      { unfold target. cbn [raw refers]. fold (table_of (pmem k') pd d). rewrite Htab, Hrs.
        rewrite (proj2 (Z.eqb_neq _ _)) by lia. f_equal. zdiv. }
      assert (Htz : target (pmem k) (STab pd d) = None).
      { unfold target. cbn [raw refers]. by rewrite Hz. }
      eapply (vm_change dirs extra extra _ l' k k' (STab pd d)); try done.
      * apply va_slot.
      * destruct Hf' as (Hc & Hnd & Hu). unfold free_list. rewrite Hpg, Hfl.
        unfold allocated in Hc, Hu. ksimp. split_and!; [|done|].
        -- rewrite <- (insert_insert_eq (pages k) n _ (mkPageInfo None 0)).
           apply chain_update; [done|]. by apply (NoDup_cons_1_1 n l'), (vm_free _ _ _ _ HV).
        -- intros i q. destruct (decide (i = n)) as [->|].
           ++ rewrite lookup_insert_eq. by intros [= <-].
           ++ rewrite lookup_insert_ne by done. intros Hq. apply (Hu i q). by rewrite lookup_insert_ne.
      * intros Hin. apply (vm_zero _ _ _ _ HV). by right.
      * rewrite Hpg. by apply (dom_insert _ n (mkPageInfo lk 0)).
      * intros i q q' Hq. rewrite Hpg, Htn, Htz. destruct (decide (i = n)) as [->|].
        -- rewrite lookup_insert_eq. intros [= <-]. rewrite Hpn in Hq. injection Hq as <-.
           cbn [pp_ref]. split; [lia|]. intros _. split; [lia|].
           rewrite bool_decide_true, bool_decide_false by done. cbn [one]. lia.
        -- rewrite lookup_insert_ne by done. rewrite Hq. intros [= <-].
           split; [by apply (vm_pages _ _ _ _ HV i)|]. intros Hi0.
           split; [by apply (vm_ref _ _ _ _ HV i q)|].
           rewrite !bool_decide_false by congruence. lia.
      * intros f. rewrite Htn. intros [= <-]. by rewrite Hpn.
      * intros s' f Hs' _ _. rewrite Htn. intros [= <-] Ht'.
        pose proof (count_pos _ _ _ _ Hs' Ht'). lia.
      * intros _. rewrite Htn. intros [= ->]. lia.
    + intros i Hi. rewrite Hpg, lookup_insert_ne; [done|]. intros ->. apply Hi. rewrite El. left.
    + intros f. unfold target. cbn [raw refers]. fold (table_of (pmem k') pd d). rewrite Htab, Hrs.
      rewrite (proj2 (Z.eqb_neq _ _)) by lia. intros [= <-]. right. rewrite Z.mul_comm, Z.div_mul, El by lia. left.
    + intros x Hx1 Hx2. rewrite El in Hx2. apply not_elem_of_cons in Hx2 as [Hx2 _].
      rewrite Hm, !store32_load8, Hza. pose proof (vm_dir _ _ _ _ HV pd Hp).
      repeat (rewrite decide_False by zdiv). done.
Qed.
End walk.

(** ** [page_remove] *)

Lemma vm_ok_ext dirs extra l k k' :
  pmem k' = pmem k -> pages k' = pages k -> page_free_list k' = page_free_list k ->
  vm_ok dirs extra l k -> vm_ok dirs extra l k'.
Proof.
  intros Hm Hp Hf HV. destruct HV as [H1 H2 H3 H4 H5 H6 H7 H8].
  split; rewrite ?Hm, ?Hp; try done. unfold free_list. by rewrite Hp, Hf.
Qed.
Definition with_tlb (k : kern) (lg : list Z) : kern := k {{ invalidated := lg }}.
Lemma tlb_invalidate_wp pd va (Q : unit -> kern -> Prop) E k :
  (forall lg, Q tt (with_tlb k lg)) -> wp (tlb_invalidate pd va) Q E k.
Proof.
  intros HQ. assert (H0 : with_tlb k (invalidated k) = k) by (by destruct k).
  unfold tlb_invalidate. kstep. kstep. destruct (match curenv k with Some _ => _ | None => _ end).
  - kstep. exact (HQ (invalidated k ++ [va])).
  - kstep. rewrite <- H0. apply HQ.
Qed.
Lemma vm_ok_tlb dirs extra l k lg : vm_ok dirs extra l k -> vm_ok dirs extra l (with_tlb k lg).
Proof. by apply vm_ok_ext. Qed.
Lemma vm_frame_tlb k k' lg : vm_frame k k' -> vm_frame k (with_tlb k' lg).
Proof. unfold vm_frame, with_tlb. intros ->. by destruct k, k'. Qed.
#[export] Hint Resolve vm_ok_tlb vm_frame_tlb : dos.

(** The state after [page_decref] of page [f] with information [p]. *)
Definition decref (k : kern) (f : Z) (p : PageInfo) : kern :=
  if u16 (pp_ref p - 1) =? 0 then freed_page k f (mkPageInfo None 0)
  else k {{ pages := <[f := mkPageInfo None (u16 (pp_ref p - 1))]> (pages k) }}.
Lemma page_decref_run k f p (Q : unit -> kern -> Prop) E :
  pages k !! f = Some p -> pp_link p = None -> Q tt (decref k f p) -> wp (page_decref f) Q E k.
Proof.
  intros Hp Hl HQ. destruct p as [lk r]. cbn [pp_link] in Hl. subst lk.
  unfold page_decref, decref in *. cbn [pp_ref] in HQ.
  kstep. eapply wp_set_page; [done|]. kstep. eapply wp_get_page; [ksimp; apply lookup_insert_eq|].
  ksimp. destruct (Z.eqb_spec (u16 (r - 1)) 0) as [E0|E0].
  - eapply page_free_ok; [ksimp; apply lookup_insert_eq|done|done|].
    unfold freed_page in *. destruct k. ksimp. rewrite E0. by rewrite insert_insert_eq.
  - kstep. done.
Qed.

Section remove.
Context (dirs : list Z) (extra : Z -> Z) (l : list Z) (k : kern) (HV : vm_ok dirs extra l k).
Context (pd va : Z) (Hp : pd ∈ dirs) (Hva : 0 <= va < UTOP).
Abbreviation d := (PDX va).
Abbreviation t := (PTX va).

Lemma pte_slot_present f : target (pmem k) (SPte pd d t) = Some f ->
  pde (pmem k) pd d <> 0 /\ f <> 0 /\ 0 < f < 2 ^ 20 /\
  pa2page (PTE_ADDR (load32 (pmem k) (table_of (pmem k) pd d + 4 * t))) = f.
Proof.
  unfold target. cbn [raw refers].
  destruct (Z.eqb_spec (pde (pmem k) pd d) 0) as [|Hne]; [done|].
  set (e := load32 _ _). pose proof (load32_bound (pmem k) (table_of (pmem k) pd d + 4 * t)) as He.
  fold e in He. destruct (Z.eqb_spec (PTE_ADDR e) 0) as [|Hz]; [done|]. intros [= <-].
  pose proof (PTE_ADDR_mod e He). pose proof (PTE_ADDR_bound e He).
  split; [done|]. unfold pa2page. rewrite PGNUM_eq by lia. split_and!; [zdiv|zdiv|zdiv|done].
Qed.

Definition removed (f : Z) (k' : kern) : Prop :=
  vm_frame k k' /\ raw (pmem k') (SPte pd d t) = 0 /\
  (forall s, s ∈ slots dirs -> s <> SPte pd d t -> raw (pmem k') s = raw (pmem k) s) /\
  (forall x, x / 4096 <> table_of (pmem k) pd d / 4096 -> load8 (pmem k') x = load8 (pmem k) x) /\
  exists p, pages k !! f = Some p /\
    vm_ok dirs extra (if pp_ref p =? 1 then f :: l else l) k' /\
    (forall i, i <> f -> pages k' !! i = pages k !! i) /\ is_Some (pages k' !! f).

Lemma page_remove_ok f : target (pmem k) (SPte pd d t) = Some f ->
  wp (page_remove pd va) (fun _ k' => removed f k') (fun _ _ => False) k.
Proof.
  intros Ht. destruct (pte_slot_present f Ht) as (Hne & Hf0 & Hfr & Hpa).
  destruct (va_slot dirs pd va Hp Hva) as [Hs _]. pose proof (va_d va Hva) as Hd.
  destruct (vm_target _ _ _ _ HV _ f Hs Ht) as [p Hpf].
  pose proof (vm_target_used _ _ _ _ HV _ f Hs Ht) as Hfl.
  pose proof (vm_free _ _ _ _ HV) as (Hc & Hnd & Hu).
  assert (Hl : pp_link p = None) by (by eapply Hu).
  pose proof (count_pos _ _ _ _ Hs Ht) as Hcnt.
  destruct (vm_ref _ _ _ _ HV f p Hf0 Hpf) as [Hex Hrf].
  destruct (vm_pages _ _ _ _ HV f p Hpf) as [_ Hrb].
  assert (Hr1 : u16 (pp_ref p - 1) = pp_ref p - 1) by (apply u16_small; lia).
  unfold page_remove, page_lookup. kstep. kstep.
  apply pgdir_walk_old; [done|]. kstep. kstep. kstep. kstep. rewrite Hpa.
  eapply page_decref_run; [done|done|]. kstep. kstep. apply tlb_invalidate_wp. intros lg.
  set (k' := _ {{ pmem := _ }}).
  assert (Hmd : pmem (decref k f p) = pmem k) by (unfold decref; by case_match).
  assert (Hm : pmem k' = store32 (pmem k) (table_of (pmem k) pd d + 4 * t) 0).
  { unfold k'. ksimp. by rewrite <- Hmd. }
  assert (Hpg : exists lk, pages k' = <[f := mkPageInfo lk (pp_ref p - 1)]> (pages k)).
  { unfold k', decref. rewrite Hr1. case_match; [|by exists None].
    exists (page_free_list k). unfold freed_page. ksimp. zbool. by replace (pp_ref p - 1) with 0 by lia. }
  assert (Hfr' : vm_frame k k').
  { unfold vm_frame, k', decref, freed_page. case_match; by destruct k. }
  assert (Hfl' : free_list k' (if pp_ref p =? 1 then f :: l else l)).
  { unfold k', decref. rewrite Hr1. replace (pp_ref p =? 1) with (pp_ref p - 1 =? 0) by lia.
    case_match.
    - assert (free_list (freed_page k f (mkPageInfo None 0)) (f :: l)) as H'; [|done].
      split_and!; unfold freed_page; ksimp.
      + econstructor; [apply lookup_insert_eq|done|]. by apply chain_update.
      + by apply NoDup_cons.
      + intros j q Hj [Hji Hjl]%not_elem_of_cons. rewrite lookup_insert_ne in Hj by done. by eapply Hu.
    - split_and!; ksimp; [by apply chain_update|done|].
      intros j q. destruct (decide (j = f)) as [->|].
      + rewrite lookup_insert_eq. by intros [= <-].
      + rewrite lookup_insert_ne by done. apply Hu. }
  clearbody k'. destruct Hpg as [lk Hpg].
  destruct (raw_store_pte _ _ _ _ HV pd d t 0) as [Hr0 Hro];
    [done|done|apply PTX_bound|done|lia|]. rewrite <- Hm in Hr0, Hro.
  unfold removed. split; [auto with dos|]. split; [done|]. split; [done|]. split.
  { intros x Hx. change (pmem (with_tlb k' lg)) with (pmem k'). rewrite Hm, store32_load8.
    pose proof (PTX_bound va). destruct (table_of_aligned (pmem k) pd d).
    rewrite decide_False by zdiv. done. }
  exists p. split; [done|]. split.
  2:{ change (pages (with_tlb k' lg)) with (pages k'). rewrite Hpg. split.
      - intros i Hi. by rewrite lookup_insert_ne.
      - rewrite lookup_insert_eq. by eexists. }
  apply vm_ok_tlb.
  assert (Ht0 : target (pmem k') (SPte pd d t) = None) by (unfold target; by rewrite Hr0).
  eapply (vm_change dirs extra extra l _ k k' (SPte pd d t)); try done.
  - case_match; [|by apply HV]. intros [E|Hin]%elem_of_cons; [lia|by apply (vm_zero _ _ _ _ HV)].
  - rewrite Hpg. by apply (dom_insert _ f p).
  - intros i q q' Hq. rewrite Hpg, Ht0, Ht. destruct (decide (i = f)) as [->|].
    + rewrite lookup_insert_eq. intros [= <-]. rewrite Hpf in Hq. injection Hq as <-.
      cbn [pp_ref]. split; [lia|]. intros _. split; [lia|].
      rewrite bool_decide_false, bool_decide_true by done. cbn [one]. lia.
    + rewrite lookup_insert_ne by done. rewrite Hq. intros [= <-].
      split; [by apply (vm_pages _ _ _ _ HV i)|]. intros Hi0.
      split; [by apply (vm_ref _ _ _ _ HV i q)|].
      rewrite !bool_decide_false by congruence. lia.
  - intros f'. by rewrite Ht0.
  - intros s' f' _ _ _. by rewrite Ht0.
Qed.
End remove.

(** ** [page_insert] *)

(** One more reference to [pp] from outside the slots. *)
Definition plus1 (extra : Z -> Z) (pp i : Z) : Z := if decide (i = pp) then extra i + 1 else extra i.

(** The entry written last. *)
Definition pte_value (pp perm : Z) : Z := Z.lor (Z.lor (page2pa pp) perm) PTE_P.
Lemma pte_value_eq pp perm : 0 <= pp < 2 ^ 20 -> 0 <= perm < 4096 ->
  PTE_ADDR (pte_value pp perm) = 4096 * pp /\ 0 <= pte_value pp perm < 2 ^ 32 /\
  pte_value pp perm mod 4096 = Z.lor perm PTE_P.
Proof.
  intros Hpp Hperm. unfold pte_value. rewrite page2pa_eq, <- Z.lor_assoc by done.
  assert (Hb : 0 <= Z.lor perm PTE_P < 4096).
  { apply (bit_set_bound perm 0 12); lia. }
  destruct (PTE_ADDR_lor (4096 * pp) (Z.lor perm PTE_P)) as [Ha Hl]; [lia|zdiv|done|].
  split; [done|]. rewrite Hl. split; zdiv.
Qed.

Section insert.
Context (dirs : list Z) (pd va : Z) (Hp : pd ∈ dirs) (Hva : 0 <= va < UTOP).
Abbreviation d := (PDX va).
Abbreviation t := (PTX va).

Lemma vm_reference extra l k pp p :
  vm_ok dirs extra l k -> pages k !! pp = Some p -> pp ∉ l -> (pp <> 0 -> pp_ref p < 65535) ->
  vm_ok dirs (plus1 extra pp) l
    (k {{ pages := <[pp := p {{ pp_ref ::= fun r => u16 (r + 1) }}]> (pages k) }}).
Proof.
  intros HV Hpp Hl Hr. destruct (vm_pages _ _ _ _ HV pp p Hpp) as [_ Hb].
  pose proof (vm_free _ _ _ _ HV) as (Hc & Hnd & Hu).
  assert (Hlk : pp_link p = None) by (by eapply Hu).
  eapply (vm_extra dirs extra _ l); [done|done| |by apply HV| |].
  - split_and!; ksimp; [by apply chain_update|done|].
    intros j q. destruct (decide (j = pp)) as [->|].
    + rewrite lookup_insert_eq. intros [= <-]. by destruct p.
    + rewrite lookup_insert_ne by done. apply Hu.
  - ksimp. by apply (dom_insert _ pp p).
  - intros i q q'. ksimp. intros Hq. unfold plus1. destruct (decide (i = pp)) as [->|].
    + rewrite lookup_insert_eq. intros [= <-]. rewrite Hpp in Hq. injection Hq as <-.
      destruct p as [lk r]. ksimp. split; [unfold u16; change (2 ^ 16) with 65536; zdiv|].
      intros Hi. specialize (Hr Hi). rewrite u16_small by lia. destruct (vm_ref _ _ _ _ HV pp _ Hi Hpp). lia.
    + rewrite lookup_insert_ne by done. rewrite Hq. intros [= <-].
      split; [by apply (vm_pages _ _ _ _ HV i)|]. intros Hi0.
      split; [by apply (vm_ref _ _ _ _ HV i q)|]. lia.
Qed.

(** Page [pp] is neither a directory nor a table. *)
Definition no_table (k : kern) (pp : Z) : Prop :=
  forall s, s ∈ slots dirs -> is_pte s = false -> target (pmem k) s <> Some pp.
Lemma pte_no_table extra l k s f : vm_ok dirs extra l k -> s ∈ slots dirs -> is_pte s = true ->
  target (pmem k) s = Some f -> no_table k f.
Proof.
  intros HV Hs Hpte Ht s' Hs' Hnp Ht'.
  destruct (vm_tab _ _ _ _ HV s' s f Hs' Hs Hnp Ht') as [_ E]. rewrite E in Hpte by done. congruence.
Qed.
Lemma zero_no_table extra l k : vm_ok dirs extra l k -> no_table k 0.
Proof. intros HV s Hs Hnp Ht. by destruct (vm_tab _ _ _ _ HV s s 0 Hs Hs Hnp Ht). Qed.
Lemma free_no_table extra l k n : vm_ok dirs extra l k -> n ∈ l -> no_table k n.
Proof. intros HV Hn s Hs _ Ht. by eapply (vm_target_used dirs extra l k). Qed.
Lemma store_pte_ok extra l k pp perm :
  vm_ok dirs (plus1 extra pp) l k -> pde (pmem k) pd d <> 0 ->
  target (pmem k) (SPte pd d t) = None -> is_Some (pages k !! pp) -> (pp <> 0 -> 0 <= extra pp) ->
  0 <= perm < 4096 -> no_table k pp ->
  let k' := k {{ pmem := store32 (pmem k) (table_of (pmem k) pd d + 4 * t) (pte_value pp perm) }} in
  raw (pmem k') (SPte pd d t) = pte_value pp perm /\
  (forall s, s ∈ slots dirs -> s <> SPte pd d t -> raw (pmem k') s = raw (pmem k) s) /\
  vm_ok dirs extra l k' /\
  (forall x, x / 4096 <> table_of (pmem k) pd d / 4096 -> load8 (pmem k') x = load8 (pmem k) x).
Proof.
  intros HV Hne Ht [p Hpp] Hex Hperm Hnt k'.
  destruct (vm_pages _ _ _ _ HV pp p Hpp) as [Hppr _].
  destruct (pte_value_eq pp perm) as (Ha & Hb & _); [lia|done|].
  destruct (va_slot dirs pd va Hp Hva) as [Hs _].
  destruct (raw_store_pte _ _ _ _ HV pd d t (pte_value pp perm)) as [Hr0 Hro];
    [done|by apply va_d|apply PTX_bound|done|done|].
  assert (Hm : pmem k' = store32 (pmem k) (table_of (pmem k) pd d + 4 * t) (pte_value pp perm)) by done.
  rewrite <- Hm in Hr0, Hro.
  assert (Ht' : target (pmem k') (SPte pd d t) = if pp =? 0 then None else Some pp).
  { unfold target. rewrite Hr0. cbn [refers]. rewrite Ha.
    destruct (Z.eqb_spec pp 0) as [->|]; [done|]. rewrite (proj2 (Z.eqb_neq _ _)) by lia.
    f_equal. zdiv. }
  split; [done|]. split; [done|]. split.
  2:{ intros x Hx. rewrite Hm, store32_load8. pose proof (PTX_bound va).
    destruct (table_of_aligned (pmem k) pd d). rewrite decide_False by zdiv. done. }
  eapply (vm_change dirs (plus1 extra pp) extra l l k k' (SPte pd d t)); try done.
  - apply HV.
  - apply HV.
  - intros i q q' Hq Hq'. change (pages k' !! i) with (pages k !! i) in Hq'. rewrite Hq in Hq'. injection Hq' as <-.
    split; [by apply (vm_pages _ _ _ _ HV i)|]. intros Hi0.
    destruct (vm_ref _ _ _ _ HV i q Hi0 Hq) as [Hx _]. rewrite Ht, Ht'. unfold plus1 in *.
    rewrite (bool_decide_false (None = Some i)) by done.
    destruct (decide (i = pp)) as [->|].
    + rewrite (proj2 (Z.eqb_neq pp 0)), bool_decide_true by done. cbn [one]. lia.
    + rewrite bool_decide_false by (case_match; congruence). cbn [one]. lia.
  - intros f. rewrite Ht'. case_match; [done|]. by intros [= <-].
  - intros s' f Hs' _ [E|Hnp]; [done|]. rewrite Ht'. case_match; [done|]. intros [= <-]. by apply Hnt.
Qed.

(** What a successful [page_insert] does; it takes a page for a missing table
    at most. *)
Definition inserted (k : kern) (pp perm : Z) (extra : Z -> Z) (k' : kern) : Prop :=
  raw (pmem k') (SPte pd d t) = pte_value pp perm /\
  (forall s, s ∈ slots dirs -> s <> SPte pd d t -> (s = STab pd d -> pde (pmem k) pd d <> 0) ->
     raw (pmem k') s = raw (pmem k) s) /\
  vm_frame k k' /\ (exists l', vm_ok dirs extra l' k') /\
  pde (pmem k') pd d <> 0 /\ (pde (pmem k) pd d = 0 -> pde (pmem k') pd d mod 4096 = 7) /\
  forall l l', free_list k l -> free_list k' l' ->
    (length l <= length l' + if (pde (pmem k) pd d =? 0)%Z then 1 else 0)%nat.
(** The bytes [page_insert] may change: the directory, the table, free pages. *)
Definition bytes_kept (l : list Z) (k k' : kern) : Prop :=
  forall x, x / 4096 <> pd / 4096 -> x / 4096 <> table_of (pmem k') pd d / 4096 -> x / 4096 ∉ l ->
    load8 (pmem k') x = load8 (pmem k) x.

(** Page 0, which is not counted, may have any number of references. *)
Lemma page_insert_ok extra l k pp p perm :
  vm_ok dirs extra l k -> pages k !! pp = Some p -> pp ∉ l -> (pp <> 0 -> pp_ref p < 65535) ->
  0 <= perm < 4096 -> no_table k pp ->
  wp (page_insert pd pp va perm) (fun r k' =>
    (r = - E_NO_MEM /\ k' = k /\ l = [] /\ pde (pmem k) pd d = 0) \/
    (r = 0 /\ inserted k pp perm extra k' /\ bytes_kept l k k')) (fun _ _ => False) k.
Proof.
  intros HV Hpp Hppl Hr Hperm Hnt. unfold page_insert. kstep.
  eapply wp_mono; [by eapply pgdir_walk_create| |done]. cbv beta.
  intros r k1 [(-> & -> & -> & Hz) | (-> & Hne & Hfr & Hsame & Hnew & l1 & HV1 & Hl1 & Hpg & Hraw & Htab & Hby)].
  { kstep. by left. }
  kstep. assert (Hpp1 : pages k1 !! pp = Some p) by (by rewrite Hpg).
  assert (Hppl1 : pp ∉ l1).
  { destruct Hl1 as [->|(n & -> & _)]; [done|]. by apply not_elem_of_cons in Hppl as [_ ?]. }
  assert (Hex : pp <> 0 -> 0 <= extra pp) by (intros; by apply (vm_ref _ _ _ _ HV pp p)).
  pose proof (vm_reference extra l1 k1 pp p HV1 Hpp1 Hppl1 Hr) as HV2.
  eapply wp_set_page; [done|].
  set (k2 := k1 {{ pages := _ }}) in *.
  assert (Hm2 : pmem k2 = pmem k1) by done.
  assert (Hpp2 : is_Some (pages k2 !! pp)).
  { unfold k2. ksimp. rewrite lookup_insert_eq. by eexists. }
  assert (Hfr2 : vm_frame k k2).
  { eapply vm_frame_trans; [done|]. unfold vm_frame, k2. by destruct k1. }
  assert (Hst : pde (pmem k) pd d <> 0 -> pde (pmem k2) pd d = pde (pmem k) pd d).
  { intros Hx. by rewrite Hm2, (Hsame Hx). }
  clearbody k2. rewrite <- Hm2 in Hne, Hnew, Hraw, Htab, Hby |- *. clear k1 Hm2 HV1 Hpg Hfr Hsame Hpp1.
  kstep. kstep. set (e := load32 _ _).
  assert (Hraw0 : raw (pmem k2) (SPte pd d t) = e).
  { cbn [raw]. by rewrite (proj2 (Z.eqb_neq _ _) Hne). }
  kstep. destruct (va_slot dirs pd va Hp Hva) as [Hs0 Hst0].
  (* the store into an empty entry of a state [k3] reached from [k2] *)
  assert (Hfin : forall k3 l3, vm_ok dirs (plus1 extra pp) l3 k3 -> (length l1 <= length l3)%nat -> vm_frame k k3 ->
    is_Some (pages k3 !! pp) -> target (pmem k3) (SPte pd d t) = None ->
    (forall s, s ∈ slots dirs -> s <> SPte pd d t -> raw (pmem k3) s = raw (pmem k2) s) ->
    (forall x, x / 4096 <> table_of (pmem k2) pd d / 4096 -> load8 (pmem k3) x = load8 (pmem k2) x) ->
    wp (pstore (table_of (pmem k2) pd d + 4 * t) (Z.lor (Z.lor (page2pa pp) perm) PTE_P);; mret 0)
      (fun r k' => (r = - E_NO_MEM /\ k' = k /\ l = [] /\ pde (pmem k) pd d = 0) \/
        (r = 0 /\ inserted k pp perm extra k' /\ bytes_kept l k k')) (fun _ _ => False) k3).
  { intros k3 l3 HV3 Hlen3 Hfr3 Hpp3 Ht3 Hr3 Hb3.
    assert (Hpde3 : pde (pmem k3) pd d = pde (pmem k2) pd d) by (by apply (Hr3 (STab pd d))).
    assert (Htab3 : table_of (pmem k2) pd d = table_of (pmem k3) pd d).
    { unfold table_of. by rewrite Hpde3. }
    rewrite Htab3. fold (pte_value pp perm). kstep. kstep. kstep. right. split; [done|].
    rewrite <- Hpde3 in Hne, Hnew.
    assert (Hnt3 : no_table k3 pp).
    { intros s Hs Hnp. assert (Hne' : s <> SPte pd d t) by (intros ->; done).
      unfold target. rewrite Hr3 by done. destruct (decide (s = STab pd d)) as [->|].
      - intros E. destruct (Htab pp E) as [E'|]; [|done]. by eapply (Hnt (STab pd d)).
      - rewrite Hraw by done. by apply Hnt. }
    destruct (store_pte_ok extra l3 k3 pp perm HV3 Hne Ht3 Hpp3 Hex Hperm Hnt3) as (Hr0 & Hro & HV4 & Hb4).
    set (k4 := k3 {{ pmem := _ }}) in *.
    assert (Hpde4 : pde (pmem k4) pd d = pde (pmem k3) pd d) by (by apply (Hro (STab pd d))).
    assert (Htab4 : table_of (pmem k4) pd d = table_of (pmem k3) pd d) by (unfold table_of; by rewrite Hpde4).
    split.
    2:{ intros x H1 H2 H3. rewrite Htab4 in H2. rewrite Hb4, Hb3, Hby by (done || by rewrite Htab3). done. }
    split; [done|]. split; [|split; [|split; [by exists l3|rewrite Hpde4; split; [done|split; [done|]]]]].
    - intros s Hs Hne1 Hst1. rewrite Hro, Hr3 by done.
      destruct (decide (s = STab pd d)) as [->|]; [|by apply Hraw]. by apply Hst, Hst1.
    - eapply vm_frame_trans; [done|]. unfold vm_frame. by destruct k3.
    - intros la lb Hla Hlb. rewrite (free_list_unique _ _ _ Hla (vm_free _ _ _ _ HV)).
      rewrite (free_list_unique _ _ _ Hlb (vm_free _ _ _ _ HV4)).
      destruct Hl1 as [->|(n & -> & Hz)]; [lia|]. rewrite Hz. cbn [length Z.eqb]. lia. }
  destruct (Z.eqb_spec (PTE_ADDR e) 0) as [Hz|Hz]; cbn [negb].
  - kstep. apply (Hfin k2 l1); [done|done|done|done| |done|done]. unfold target. rewrite Hraw0. cbn [refers]. by rewrite Hz.
  - assert (Ht : target (pmem k2) (SPte pd d t) = Some (PTE_ADDR e / 4096)).
    { unfold target. rewrite Hraw0. cbn [refers]. by rewrite (proj2 (Z.eqb_neq _ _) Hz). }
    kstep. eapply wp_mono; [by apply (page_remove_ok dirs (plus1 extra pp) l1 k2 HV2 pd va Hp Hva)| |done].
    cbv beta. intros [] k3 (Hfr3 & Hr3 & Hro3 & Hb3 & q & Hq & HV3 & Hpg3 & Hpf3). apply tlb_invalidate_wp.
    intros lg. eapply Hfin.
    + apply vm_ok_tlb, HV3.
    + case_match; cbn [length]; lia.
    + apply vm_frame_tlb. by eapply vm_frame_trans.
    + change (is_Some (pages k3 !! pp)). destruct (decide (pp = PTE_ADDR e / 4096)) as [->|].
      * done.
      * by rewrite Hpg3.
    + unfold target. change (pmem (with_tlb k3 lg)) with (pmem k3). by rewrite Hr3.
    + intros s Hs Hne'. change (pmem (with_tlb k3 lg)) with (pmem k3). by apply Hro3.
    + exact Hb3.
Qed.
End insert.

(** ** The theorems *)

(** C6.  [page_insert] maps the page and keeps the kernel's memory in order:
    it either reports [-E_NO_MEM] and changes nothing - exactly when the table
    is missing and no page is free - or succeeds; then the entry of [va] holds
    the page with the given permissions, every other entry of every address
    space is as before, reference counts still equal the number of references
    (a page previously mapped there lost one and was freed if it was the
    last), no directory or table is referred to by anything but its place in
    the tree, no byte changed outside the directory, the table and pages that
    were free, and nothing but memory, the page array and the TLB log changed. *)
Theorem page_insert_maps (dirs : list Z) (extra : Z -> Z) (l : list Z) (k : kern)
    (pd pp va perm : Z) (p : PageInfo) :
  vm_ok dirs extra l k -> pd ∈ dirs -> 0 <= va < UTOP ->
  pages k !! pp = Some p -> pp ∉ l -> pp_ref p < 65535 -> 0 <= perm < 4096 -> no_table dirs k pp ->
  exists r k', page_insert pd pp va perm k = Ret r k' /\
    ((r = - E_NO_MEM /\ k' = k /\ l = [] /\ pde (pmem k) pd (PDX va) = 0) \/
     (r = 0 /\
      raw (pmem k') (SPte pd (PDX va) (PTX va)) = pte_value pp perm /\
      PTE_ADDR (pte_value pp perm) = page2pa pp /\
      pte_value pp perm mod 4096 = Z.lor perm PTE_P /\
      (forall s, s ∈ slots dirs -> s <> SPte pd (PDX va) (PTX va) ->
         (s = STab pd (PDX va) -> pde (pmem k) pd (PDX va) <> 0) ->
         raw (pmem k') s = raw (pmem k) s) /\
      vm_frame k k' /\ bytes_kept pd va l k k' /\ exists l', vm_ok dirs extra l' k')).
Proof.
  intros HV Hp Hva Hpp Hl Hr Hperm Hnt.
  destruct (wp_ret_inv _ _ _ (page_insert_ok dirs pd va Hp Hva extra l k pp p perm HV Hpp Hl (fun _ => Hr) Hperm Hnt))
    as (r & k' & E & H). exists r, k'. split; [done|].
  destruct H as [H|(-> & (Hr0 & Hro & Hfr & Hl' & _) & Hbk)]; [by left|right].
  destruct (vm_pages _ _ _ _ HV pp p Hpp) as [Hb _].
  destruct (pte_value_eq pp perm Hb Hperm) as (Ha & _ & Hm).
  split_and!; try done. by rewrite Ha, page2pa_eq.
Qed.

(** C22.  [page_remove] of a mapped address clears its entry and nothing else,
    takes one reference from the page and puts it on the free list when that
    was the last one; reference counts stay exact. *)
Theorem page_remove_unmaps (dirs : list Z) (extra : Z -> Z) (l : list Z) (k : kern)
    (pd va f : Z) :
  vm_ok dirs extra l k -> pd ∈ dirs -> 0 <= va < UTOP ->
  target (pmem k) (SPte pd (PDX va) (PTX va)) = Some f ->
  exists k' p, page_remove pd va k = Ret tt k' /\ pages k !! f = Some p /\
    raw (pmem k') (SPte pd (PDX va) (PTX va)) = 0 /\
    (forall s, s ∈ slots dirs -> s <> SPte pd (PDX va) (PTX va) -> raw (pmem k') s = raw (pmem k) s) /\
    vm_ok dirs extra (if pp_ref p =? 1 then f :: l else l) k' /\
    vm_frame k k' /\ (forall i, i <> f -> pages k' !! i = pages k !! i).
Proof.
  intros HV Hp Hva Ht.
  destruct (wp_ret_inv _ _ _ (page_remove_ok dirs extra l k HV pd va Hp Hva f Ht))
    as ([] & k' & E & Hfr & Hr & Hro & _ & p & Hpf & HV' & Hpg & _).
  exists k', p. split_and!; done.
Qed.

(** [page_lookup] returns the page an address is mapped to, and null
    when its page table does not exist, changing nothing; but when the table
    exists and the entry is empty it returns page 0 instead of null, so that
    [page_remove] of an address that is not mapped takes a reference from
    page 0. *)
Theorem page_lookup_finds (dirs : list Z) (extra : Z -> Z) (l : list Z) (k : kern) (pd va : Z) :
  vm_ok dirs extra l k -> pd ∈ dirs -> 0 <= va < UTOP ->
  let a := table_of (pmem k) pd (PDX va) + 4 * PTX va in
  (pde (pmem k) pd (PDX va) = 0 -> page_lookup pd va k = Ret None k) /\
  (forall f, target (pmem k) (SPte pd (PDX va) (PTX va)) = Some f ->
     page_lookup pd va k = Ret (Some (f, a)) k) /\
  (pde (pmem k) pd (PDX va) <> 0 -> load32 (pmem k) a = 0 ->
     page_lookup pd va k = Ret (Some (0, a)) k /\
     forall p, pages k !! 0 = Some p -> pp_link p = None -> pp_ref p <> 1 -> 0 <= pp_ref p < 65536 ->
       exists k', page_remove pd va k = Ret tt k' /\
         pages k' !! 0 = Some (mkPageInfo None (u16 (pp_ref p - 1)))).
Proof.
  intros HV Hp Hva a.
  assert (Hlook : forall f, pde (pmem k) pd (PDX va) <> 0 ->
    pa2page (PTE_ADDR (load32 (pmem k) a)) = f ->
    wp (page_lookup pd va) (fun r k' => r = Some (f, a) /\ k' = k) (fun _ _ => False) k).
  { intros f Hne Hf. unfold page_lookup. kstep. apply pgdir_walk_old; [done|].
    kstep. kstep. fold a. rewrite Hf. by kstep. }
  assert (Hret : forall r, wp (page_lookup pd va) (fun r' k' => r' = r /\ k' = k) (fun _ _ => False) k ->
    page_lookup pd va k = Ret r k).
  { intros r H. by destruct (wp_ret_inv _ _ _ H) as (? & ? & E & -> & ->). }
  split_and!.
  - intros Hz. apply Hret. unfold page_lookup. kstep. apply pgdir_walk_none; [done|]. by kstep.
  - intros f Ht. destruct (pte_slot_present k pd va Hva f Ht) as (Hne & _ & _ & Hpa).
    apply Hret, Hlook; done.
  - intros Hne Hz. split; [apply Hret, Hlook; [done|]; by rewrite Hz|].
    intros [lk r] Hp0 Hl Hr Hb. cbn [pp_link pp_ref] in *. subst lk.
    destruct (wp_ret_inv (page_remove pd va)
      (fun _ k' => pages k' !! 0 = Some (mkPageInfo None (u16 (r - 1)))) k) as ([] & k' & E & H).
    { unfold page_remove. kstep. eapply wp_mono; [apply (Hlook 0); [done|]; by rewrite Hz| |done].
      cbv beta. intros ? ? [-> ->]. kstep. eapply page_decref_run; [done|done|].
      kstep. kstep. apply tlb_invalidate_wp. intros lg. unfold with_tlb, decref. cbn [pp_ref].
      rewrite (proj2 (Z.eqb_neq (u16 (r - 1)) 0)) by (unfold u16; change (2 ^ 16) with 65536; zdiv).
      ksimp. apply lookup_insert_eq. }
    by exists k'.
Qed.

(** ** An example: one empty address space, two free pages *)

Lemma load32_empty a : load32 empty a = 0.
Proof. apply load32_zero. intros b _. unfold load8. by rewrite lookup_empty. Qed.
Lemma target_empty s : target empty s = match s with SDir pd => Some (pd / 4096) | _ => None end.
Proof.
  destruct s; unfold target; cbn [raw refers]; unfold pde; by rewrite ?load32_empty.
Qed.
Lemma count_empty pd f : count empty [pd] f = one (bool_decide (pd / 4096 = f)).
Proof.
  pose proof (filter_change (fun _ : slot => False) (fun s => target empty s = Some f)
    (slots [pd]) (SDir pd)) as H. unfold count.
  assert (filter (fun _ : slot => False) (slots [pd]) = []) as HF.
  { clear H. induction (slots [pd]) as [|s l IH]; [done|]. rewrite filter_cons. rewrite decide_False by tauto. exact IH. }
  rewrite HF in H. rewrite decide_False in H by tauto. cbn [length] in H.
  rewrite Z.add_0_r in H. rewrite H.
  - rewrite target_empty. unfold one.
    destruct (decide (pd / 4096 = f)) as [<-|Hne].
    + by rewrite decide_True, bool_decide_true.
    + by rewrite decide_False, bool_decide_false by congruence.
  - apply NoDup_slots, NoDup_singleton.
  - apply elem_of_slots. by left.
  - clear H HF. intros s Hs Hne. rewrite target_empty. apply elem_of_slots in Hs. destruct s; [|done..].
    apply list_elem_of_singleton in Hs. by subst.
Qed.

(** Page 336 (address 0x150000) is the directory; pages 3 and 5 are free; page
    7 is held by the caller. *)
Definition vm_demo : kern :=
  two_free {{ pages := <[336 := mkPageInfo None 1]> (<[7 := mkPageInfo None 1]> (pages two_free)) }}.
Definition vm_demo_extra (i : Z) : Z := one (bool_decide (i = 7)).
Lemma vm_demo_pages i : pages vm_demo !! i =
  if decide (i = 336) then Some (mkPageInfo None 1)
  else if decide (i = 7) then Some (mkPageInfo None 1)
  else if decide (i = 3) then Some (mkPageInfo (Some 5) 0)
  else zero_pages 512 !! i.
Proof.
  unfold vm_demo, two_free. ksimp.
  repeat (case_decide; subst; rewrite ?lookup_insert_eq; [done|]; rewrite lookup_insert_ne by done).
  done.
Qed.
Lemma zero_pages_some n i p : zero_pages n !! i = Some p -> 0 <= i < n /\ p = mkPageInfo None 0.
Proof.
  unfold zero_pages. intros Hp%elem_of_list_to_map_2.
  apply list_elem_of_fmap in Hp as (j & [= -> ->] & Hj). apply elem_of_seqZ in Hj. split; [lia|done].
Qed.
#[local] Opaque zero_pages.
Lemma vm_demo_ok : vm_ok [0x150000] vm_demo_extra [3; 5] vm_demo.
Proof.
  assert (H336 : 336 ∉ [3; 5]) by set_solver. assert (H7 : 7 ∉ [3; 5]) by set_solver.
  assert (H0 : 0 ∉ [3; 5]) by set_solver.
  assert (Hpages : forall i p, pages vm_demo !! i = Some p -> 0 <= i < 512 /\
    pp_ref p = one (bool_decide (336 = i)) + one (bool_decide (i = 7)) /\ (i <> 3 -> pp_link p = None)).
  { intros i p. rewrite vm_demo_pages. destruct (decide (i = 336)) as [->|].
    { intros [= <-]. by split_and!; [lia..|reflexivity|]. }
    destruct (decide (i = 7)) as [->|].
    { intros [= <-]. by split_and!; [lia..|reflexivity|]. }
    destruct (decide (i = 3)) as [->|].
    { intros [= <-]. by split_and!; [lia..|reflexivity|]. }
    intros Hz. apply zero_pages_some in Hz as [Hi ->].
    rewrite !bool_decide_false by congruence. by split_and!; [lia..|reflexivity|]. }
  assert (Hm : pmem vm_demo = empty) by reflexivity.
  split.
  - destruct two_free_ok as (Hc & Hnd & _). split_and!; [|exact Hnd|].
    + apply chain_update; [|exact H336]. apply chain_update; [exact Hc|exact H7].
    + intros i p Hp Hi. apply (Hpages i p Hp). intros ->. apply Hi. left.
  - exact H0.
  - apply NoDup_singleton.
  - intros i p Hp. destruct (Hpages i p Hp) as (Hi & Hr & _). split; [lia|].
    rewrite Hr. unfold one. repeat case_bool_decide; lia.
  - intros pd ->%list_elem_of_singleton. by vm_compute.
  - intros s f Hs. rewrite Hm, target_empty. destruct s; [|discriminate..].
    apply elem_of_slots, list_elem_of_singleton in Hs as ->. intros [= <-].
    change (0x150000 / 4096) with 336. rewrite vm_demo_pages. by rewrite decide_True by done.
  - intros s s' f Hs Hs' _. rewrite Hm, !target_empty. destruct s; [|discriminate..].
    apply elem_of_slots, list_elem_of_singleton in Hs as ->. intros [= <-].
    split; [by vm_compute|]. destruct s'; [|discriminate..].
    by apply elem_of_slots, list_elem_of_singleton in Hs' as ->.
  - intros i p Hi Hp. destruct (Hpages i p Hp) as (_ & Hr & _). rewrite Hm, count_empty.
    change (0x150000 / 4096) with 336. unfold vm_demo_extra. split; [|done].
    clear. unfold one. destruct (bool_decide (i = 7)); lia.
Qed.
Lemma vm_demo_no_table : no_table [0x150000] vm_demo 7.
Proof.
  intros s Hs _. change (pmem vm_demo) with (empty : mem). rewrite target_empty. destruct s; [|discriminate..].
  apply elem_of_slots, list_elem_of_singleton in Hs as ->. by vm_compute.
Qed.
Lemma page_insert_maps_witness :
  exists r k', page_insert 0x150000 7 0x800000 7 vm_demo = Ret r k' /\
    (r = 0 -> raw (pmem k') (SPte 0x150000 2 0) = 0x7007).
Proof.
  assert (Hl : 7 ∉ [3; 5]) by set_solver.
  assert (Hp : pages vm_demo !! 7 = Some (mkPageInfo None 1)) by (by rewrite vm_demo_pages).
  assert (Hva : 0 <= 0x800000 < UTOP) by (rewrite UTOP_range; lia).
  destruct (page_insert_maps _ _ _ _ 0x150000 7 0x800000 7 _ vm_demo_ok ltac:(left) Hva Hp Hl
    ltac:(cbn [pp_ref]; lia) ltac:(lia) vm_demo_no_table) as (r & k' & E & H).
  exists r, k'. split; [exact E|]. intros ->. destruct H as [[H _]|(_ & H & _)]; [discriminate H|].
  exact H.
Defined.

(** The same address space with page 7 mapped at 0x800000. *)
Lemma vm_demo_mapped : exists k' l', vm_ok [0x150000] vm_demo_extra l' k' /\
  target (pmem k') (SPte 0x150000 (PDX 0x800000) (PTX 0x800000)) = Some 7.
Proof.
  assert (Hl : 7 ∉ [3; 5]) by set_solver.
  assert (Hva : 0 <= 0x800000 < UTOP) by (rewrite UTOP_range; lia).
  pose proof (page_insert_ok [0x150000] 0x150000 0x800000 ltac:(left) Hva _ _ vm_demo 7
    (mkPageInfo None 1) 7 vm_demo_ok ltac:(by rewrite vm_demo_pages) Hl
    ltac:(cbn [pp_ref]; lia) ltac:(lia) vm_demo_no_table) as H.
  apply wp_ret_inv in H as (r & k' & _ & [(_ & _ & H & _)|(_ & (Hr & _ & _ & (l' & HV) & _) & _)]);
    [discriminate H|].
  exists k', l'. split; [exact HV|]. unfold target. rewrite Hr. reflexivity.
Qed.
Lemma page_remove_unmaps_witness : exists k k', page_remove 0x150000 0x800000 k = Ret tt k' /\
  target (pmem k) (SPte 0x150000 (PDX 0x800000) (PTX 0x800000)) = Some 7 /\
  raw (pmem k') (SPte 0x150000 (PDX 0x800000) (PTX 0x800000)) = 0.
Proof.
  destruct vm_demo_mapped as (k & l & HV & Ht).
  destruct (page_remove_unmaps _ _ l k 0x150000 0x800000 7 HV ltac:(left)
    ltac:(rewrite UTOP_range; lia) Ht) as (k' & p & E & _ & Hr & _).
  exists k, k'. split; [exact E|]. split; [exact Ht|exact Hr].
Defined.
Lemma page_lookup_finds_witness : exists k a, page_lookup 0x150000 0x800000 k = Ret (Some (7, a)) k.
Proof.
  destruct vm_demo_mapped as (k & l & HV & Ht).
  destruct (page_lookup_finds _ _ l k 0x150000 0x800000 HV ltac:(left)
    ltac:(rewrite UTOP_range; lia)) as (_ & H & _).
  exists k. eexists. exact (H 7 Ht).
Defined.
