(* ===== verification/EnvMod.v ===== *)
(** * Environments and the scheduler: src/src/env.c, sched.c

    Allocation, loading, destruction and switching of environments, and the
    round-robin scheduler.  [env_run], [sched_yield] and [sched_halt] do not
    return: they leave the kernel ([Run], [Halt] or [Monitor]). *)
From S2P Require Import Prelude Layout Mem CString Printf Console Kern Pmap.

Definition ENVGENSHIFT : Z := 12.

(** [envid2env]: [Some e] is [0] with [*env_store = e] ([None] inside: the
    null [curenv]), and [None] is [-E_BAD_ENV]. *)
Definition envid2env (envid : Z) (checkperm : bool) : K (option (option Z)) :=
  cur ← kget curenv;
  if envid =? 0 then mret (Some cur)
  else
    let e := ENVX envid in
    ev ← get_env e;
    if (env_status ev =? ENV_FREE) || negb (env_id ev =? envid) then mret None
    else
      (if checkperm && negb (bool_decide (Some e = cur)) then
         match cur with
         | None => st_crash "curenv is null"
         | Some c =>
             cv ← get_env c;
             if negb (env_parent_id ev =? env_id cv) then mret None
             else mret (Some (Some e))
         end
       else mret (Some (Some e))).

(** The loop of [env_init]: [i] from [NENV - 1] down to 0. *)
Fixpoint env_init_loop (n : nat) : K unit :=
  match n with
  | O => mret tt
  | S n' =>
      let i := Z.of_nat n' in
      fl ← kget env_free_list;
      set_env i (fun e => e {{ env_id := 0; env_status := ENV_FREE; env_link := fl }});;
      kset (fun k => k {{ env_free_list := Some i }});;
      env_init_loop n'
  end.
Definition env_init : K unit := env_init_loop (Z.to_nat NENV).

Definition env_setup_vm (e : Z) : K Z :=
  p ← page_alloc ALLOC_ZERO;
  match p with
  | None => mret (- E_NO_MEM)
  | Some p =>
      set_env e (fun ev => ev {{ env_pgdir := page2pa p }});;
      dir ← kget kern_pgdir;
      kmemcpy (page2pa p) dir PGSIZE;;
      set_page p (fun pp => pp {{ pp_ref ::= fun r => u16 (r + 1) }});;
      pstore (page2pa p + 4 * PDX UVPT) (Z.lor (Z.lor (page2pa p) PTE_P) PTE_U);;
      mret 0
  end.

(** The segment selectors, stack and flags of a fresh environment. *)
Definition fresh_tf : Trapframe :=
  tf0 {{ tf_ds := Z.lor GD_UD 3; tf_es := Z.lor GD_UD 3; tf_ss := Z.lor GD_UD 3;
         tf_esp := USTACKTOP; tf_cs := Z.lor GD_UT 3; tf_eflags := Z.lor 0 FL_IF }}.
(** The next [env_id] of slot [e], whose last id was [id]. *)
Definition next_env_id (id e : Z) : Z :=
  let generation := s32 (Z.land (s32 (id + Z.shiftl 1 ENVGENSHIFT)) (Z.lnot (NENV - 1))) in
  let generation := if generation <=? 0 then Z.shiftl 1 ENVGENSHIFT else generation in
  Z.lor generation e.
Definition cur_id (k : kern) : Z :=
  match curenv k with Some c => env_id (envs_at k c) | None => 0 end.

(** [inl e]: success with [*newenv_store = e]; [inr r]: the error [r]. *)
Definition env_alloc (parent_id : Z) : K (Z + Z) :=
  fl ← kget env_free_list;
  match fl with
  | None => mret (inr (- E_NO_FREE_ENV))
  | Some e =>
      r ← env_setup_vm e;
      if r <? 0 then mret (inr r)
      else
        set_env e (fun ev => ev {{ env_id := next_env_id (env_id ev) e }});;
        set_env e (fun ev => ev {{ env_parent_id := parent_id; env_type := ENV_TYPE_USER;
                                   env_status := ENV_RUNNABLE; env_runs := 0 }});;
        set_env e (fun ev => ev {{ env_tf := fresh_tf }});;
        set_env e (fun ev => ev {{ env_pgfault_upcall := 0; env_ipc_recving := false }});;
        ev ← get_env e;
        kset (fun k => k {{ env_free_list := env_link ev }});;
        me ← kget cur_id;
        kprintln "[%08x] new env %08x" [me; env_id ev];;
        mret (inl e)
  end.

(** The results of [ROUNDDOWN] and [ROUNDUP] are not used by the source. *)
Definition region_alloc (e va len : Z) : K unit :=
  st_for (R := unit) (Z.to_nat ((len + (PGSIZE - 1)) / PGSIZE)) 0 (fun j =>
    let i := PGSIZE * j in
    p ← page_alloc 0;
    match p with
    | None => st_panic "region_alloc fails to alloc page"
    | Some p =>
        ev ← get_env e;
        page_insert (env_pgdir ev) p (u32 (va + i)) (Z.lor (Z.lor PTE_P PTE_W) PTE_U);;
        mret None
    end);;
  mret tt.

(** [memset] and [memcpy] through the page tables, byte by byte. *)
Definition user_memset (va c n : Z) : K unit :=
  st_for (R := unit) (Z.to_nat n) 0 (fun i => kwrite8 (va + i) c;; mret None);; mret tt.
Definition user_memcpy (va src n : Z) : K unit :=
  st_for (R := unit) (Z.to_nat n) 0 (fun i =>
    b ← kget (fun k => load8 (pmem k) (src + i)); kwrite8 (va + i) b;; mret None);; mret tt.

(** Fields of the ELF header and of a program header (elf.h). *)
Definition ELF_PROG_LOAD : Z := 1.
Definition e_entry (elf : Z) : K Z := pload (elf + 24).
Definition e_phoff (elf : Z) : K Z := pload (elf + 28).
Definition e_phnum (elf : Z) : K Z := kget (fun k => load16 (pmem k) (elf + 44)).
Definition sizeof_Proghdr : Z := 32.

(** [binary] is the physical address of the image inside the kernel. *)
Definition load_icode (e binary : Z) : K unit :=
  phoff ← e_phoff binary;
  let ph := binary + phoff in
  phnum ← e_phnum binary;
  ev ← get_env e;
  kset (fun k => k {{ cr3 := env_pgdir ev }});;
  st_for (R := unit) (Z.to_nat phnum) 0 (fun i =>
    let ph := ph + sizeof_Proghdr * i in
    p_type ← pload ph;
    if negb (p_type =? ELF_PROG_LOAD) then mret None
    else
      p_offset ← pload (ph + 4);
      p_va ← pload (ph + 8);
      p_filesz ← pload (ph + 16);
      p_memsz ← pload (ph + 20);
      region_alloc e p_va p_memsz;;
      user_memset p_va 0 p_memsz;;
      user_memcpy p_va (binary + p_offset) p_filesz;;
      mret None);;
  dir ← kget kern_pgdir;
  kset (fun k => k {{ cr3 := dir }});;
  entry ← e_entry binary;
  set_env e (fun ev => ev {{ env_tf -> tf_eip := entry }});;
  region_alloc e (USTACKTOP - PGSIZE) PGSIZE.

(** The flip of [FL_IF] is not under the [if].  The result of [env_alloc] is
    not tested: on failure [new_env] is an uninitialised pointer. *)
Definition env_create (binary type : Z) : K unit :=
  r ← env_alloc 0;
  match r with
  | inr _ => st_crash "uninitialised environment pointer"
  | inl e =>
      st_when (type =? ENV_TYPE_FS)
        (set_env e (fun ev => ev {{ env_tf -> tf_eflags ::= fun f => Z.lor f FL_IOPL_MASK }}));;
      set_env e (fun ev => ev {{ env_tf -> tf_eflags ::= fun f => Z.lxor f FL_IF }});;
      load_icode e binary;;
      set_env e (fun ev => ev {{ env_type := type }})
  end.

(** The two loops of [env_free]. *)
Definition env_free_table (dir pdeno pa : Z) : K unit :=
  st_for (R := unit) (Z.to_nat (PTX (Z.lnot 0) + 1)) 0 (fun pteno =>
    pte ← pload (pa + 4 * pteno);
    st_when (negb (Z.land pte PTE_P =? 0)) (page_remove dir (PGADDR pdeno pteno 0));;
    mret None);;
  mret tt.
Definition env_free_tables (dir : Z) : K unit :=
  st_for (R := unit) (Z.to_nat (PDX UTOP)) 0 (fun pdeno =>
    pde ← pload (dir + 4 * pdeno);
    if Z.land pde PTE_P =? 0 then mret None
    else
      let pa := PTE_ADDR pde in
      env_free_table dir pdeno pa;;
      pstore (dir + 4 * pdeno) 0;;
      page_decref (pa2page pa);;
      mret None);;
  mret tt.
Definition env_free (e : Z) : K unit :=
  cur ← kget curenv;
  dir ← kget kern_pgdir;
  st_when (bool_decide (Some e = cur)) (kset (fun k => k {{ cr3 := dir }}));;
  me ← kget cur_id;
  ev ← get_env e;
  kprintln "[%08x] free env %08x" [me; env_id ev];;
  env_free_tables (env_pgdir ev);;
  set_env e (fun ev => ev {{ env_pgdir := 0 }});;
  page_decref (pa2page (env_pgdir ev));;
  fl ← kget env_free_list;
  set_env e (fun ev => ev {{ env_status := ENV_FREE; env_link := fl }});;
  kset (fun k => k {{ env_free_list := Some e }}).

(** [unlock_kernel] releases the kernel lock; [env_pop_tf] is the [iret]. *)
Definition env_run {A} (e : Z) : K A :=
  cur ← kget curenv;
  st_when (negb (bool_decide (cur = Some e)))
    (match cur with
     | Some c =>
         cv ← get_env c;
         st_when (env_status cv =? ENV_RUNNING)
           (set_env c (fun ev => ev {{ env_status := ENV_RUNNABLE }}))
     | None => mret tt
     end;;
     kset (fun k => k {{ curenv := Some e }});;
     set_env e (fun ev => ev {{ env_status := ENV_RUNNING;
                                env_runs ::= fun r => u32 (r + 1) }});;
     ev ← get_env e;
     kset (fun k => k {{ cr3 := env_pgdir ev }}));;
  kset (fun k => k {{ klocked := false }});;
  st_exit (Run e).

(** ** sched.c *)

(** An environment that keeps the processor from dropping into the monitor. *)
Definition alive (e : Env) : bool :=
  (env_status e =? ENV_RUNNABLE) || (env_status e =? ENV_RUNNING) || (env_status e =? ENV_DYING).
Definition sched_halt {A} : K A :=
  r ← st_for (Z.to_nat NENV) 0 (fun i =>
    ev ← get_env i; mret (if alive ev then Some i else None));
  match r with
  | None => kprintln "No runnable environments in the system!" [];; st_exit Monitor
  | Some _ =>
      dir ← kget kern_pgdir;
      kset (fun k => k {{ curenv := None; cr3 := dir }});;
      st_exit Halt
  end.

Definition sched_yield {A} : K A :=
  k ← st_get;
  let curenv_id := match curenv k with Some c => ENVX (env_id (envs_at k c)) | None => 0 end in
  r ← st_for (R := A) (Z.to_nat NENV) 0 (fun i =>
    let j := (curenv_id + i) mod NENV in
    ev ← get_env j;
    if env_status ev =? ENV_RUNNABLE then env_run j else mret None);
  match curenv k with
  | Some c =>
      if env_status (envs_at k c) =? ENV_RUNNING then env_run c else sched_halt
  | None => sched_halt
  end.

(** ** Back to env.c *)
Definition env_destroy (e : Z) : K unit :=
  ev ← get_env e;
  cur ← kget curenv;
  if (env_status ev =? ENV_RUNNING) && negb (bool_decide (cur = Some e)) then
    set_env e (fun ev => ev {{ env_status := ENV_DYING }})
  else
    env_free e;;
    cur ← kget curenv;
    if bool_decide (cur = Some e) then
      kset (fun k => k {{ curenv := None }});;
      sched_yield
    else mret tt.
