(* ===== verification/EnvProps.v ===== *)
(** * Environments: theorems

    Identifiers and permissions ([envid2env]), the choice of the scheduler and
    its fairness. *)
From S2P Require Import Prelude Layout Mem CString Printf Console Kern Pmap PmapFree Vm EnvMod.

(** ** Identifiers *)

Lemma ENVX_eq id : 0 <= id < 2 ^ 32 -> ENVX id = id mod 1024.
Proof.
  intros Hid. unfold ENVX. rewrite u32_small by done. change (NENV - 1) with (Z.ones 10).
  by rewrite Z.land_ones.
Qed.
Lemma ENVX_bound id : 0 <= ENVX id < NENV.
Proof.
  unfold ENVX. change (NENV - 1) with (Z.ones 10). rewrite Z.land_ones by lia.
  apply Z.mod_pos_bound. done.
Qed.

(** A new identifier is positive, keeps the slot, and differs from the slot's
    last one. *)
Lemma next_env_id_spec id e : 0 <= id < 2 ^ 31 -> 0 <= e < NENV ->
  0 < next_env_id id e < 2 ^ 31 /\ ENVX (next_env_id id e) = e /\
  (ENVX id = e -> next_env_id id e <> id).
Proof.
  intros Hid He. unfold NENV in He. unfold next_env_id.
  change (Z.shiftl 1 ENVGENSHIFT) with 4096. change (NENV - 1) with (Z.ones 10).
  rewrite land_lnot_low by lia. change (2 ^ 10) with 1024.
  set (x := s32 (id + 4096)).
  assert (Hx : (id + 4096 < 2 ^ 31 /\ x = id + 4096) \/ (2 ^ 31 <= id + 4096 /\ x < 0 /\ x = id + 4096 - 2 ^ 32)).
  { unfold x. destruct (decide (id + 4096 < 2 ^ 31)).
    - left. split; [done|]. apply s32_small. lia.
    - right. unfold s32. zdiv. }
  assert (Hs : s32 (x - x mod 1024) = x - x mod 1024) by (apply s32_small; zdiv).
  rewrite Hs. set (g := if x - x mod 1024 <=? 0 then 4096 else x - x mod 1024).
  assert (Hg : 1024 <= g < 2 ^ 31 - 1023 /\ g mod 1024 = 0 /\ g <> id - id mod 1024).
  { unfold g. clear g Hs. destruct Hx as [[? ->]|(? & ? & Hx)].
    - rewrite (proj2 (Z.leb_gt _ 0)) by zdiv. zdiv.
    - rewrite (proj2 (Z.leb_le _ 0)) by zdiv. split; [lia|]. split; [done|]. zdiv. }
  clearbody g. rewrite (lor_disjoint_add g e 10) by (change (2 ^ 10) with 1024; lia).
  split_and!; [lia|lia|..].
  - rewrite ENVX_eq by lia. zdiv.
  - rewrite ENVX_eq by lia. intros <-. lia.
Qed.

(** C16.  [envid2env] accepts exactly the identifiers of existing
    environments: 0 is the current one; any other is looked up in the slot its
    low ten bits name, and is refused when that slot is free or has been
    reused since, or when permission is asked for and the environment is
    neither the current one nor one of its children.  The state never
    changes. *)
Theorem envid2env_checks (k : kern) (envid : Z) (checkperm : bool) (c : Z) :
  curenv k = Some c ->
  let e := ENVX envid in
  envid2env envid checkperm k =
  Ret (if envid =? 0 then Some (Some c)
       else if decide (env_status (envs_at k e) <> ENV_FREE /\ env_id (envs_at k e) = envid /\
                       (checkperm = true -> e = c \/ env_parent_id (envs_at k e) = env_id (envs_at k c)))
       then Some (Some e) else None) k.
Proof.
  intros Hc. cbv zeta.
  unfold envid2env, get_env, kget, mbind, ST_bind, st_bind, st_gets. rewrite Hc.
  destruct (envid =? 0); [done|]. generalize (ENVX envid). intros e. cbv beta iota.
  destruct (Z.eqb_spec (env_status (envs_at k e)) ENV_FREE) as [Hs|Hs]; cbn [orb].
  { rewrite decide_False by tauto. done. }
  destruct (Z.eqb_spec (env_id (envs_at k e)) envid) as [Hid|Hid]; cbn [negb].
  2:{ rewrite decide_False by tauto. done. }
  destruct checkperm; cbn [andb].
  2:{ by rewrite decide_True by (split_and!; [done..|discriminate]). }
  case_bool_decide as He; cbn [negb].
  { injection He as He. by rewrite decide_True by (split_and!; auto). }
  assert (e <> c) by congruence.
  destruct (Z.eqb_spec (env_parent_id (envs_at k e)) (env_id (envs_at k c))); cbn [negb].
  - by rewrite decide_True by (split_and!; auto).
  - rewrite decide_False by (intros (_ & _ & H'); destruct H'; auto). done.
Qed.

(** ** Running an environment *)

(** The state [env_run e] leaves behind. *)
Definition stopped (k : kern) (e : Z) : kern :=
  match curenv k with
  | Some c =>
      if bool_decide (Some c = Some e) then k
      else if env_status (envs_at k c) =? ENV_RUNNING
      then k {{ envs := <[c := (envs_at k c) {{ env_status := ENV_RUNNABLE }}]> (envs k) }}
      else k
  | None => k
  end.
Definition started (k : kern) (e : Z) : kern :=
  k {{ curenv := Some e;
       envs := <[e := (envs_at k e) {{ env_status := ENV_RUNNING;
                                       env_runs ::= fun r => u32 (r + 1) }}]> (envs k);
       cr3 := env_pgdir (envs_at k e) }}.
Definition running (k : kern) (e : Z) : kern :=
  (if bool_decide (curenv k = Some e) then k else started (stopped k e) e) {{ klocked := false }}.

Lemma envs_at_insert k m e v i : envs k = <[e := v]> m ->
  envs_at k i = if decide (i = e) then v else default env0 (m !! i).
Proof.
  intros H. unfold envs_at. rewrite H. case_decide as E; [subst; by rewrite lookup_insert_eq|].
  by rewrite lookup_insert_ne.
Qed.

(** Computes a straight-line kernel computation on a given state. *)
Ltac krun := unfold get_env, set_env, kprintln, kprint, kget, kset, mbind, ST_bind, st_bind,
  st_gets, st_get, st_mod, st_exit, st_when, mret, ST_ret, st_ret; cbv beta iota.

Lemma env_run_eq {A} e k : env_run (A := A) e k = Exit (Run e) (running k e).
Proof.
  unfold env_run, running, stopped. krun.
  destruct k as [k1 k2 k3 k4 k5 k6 k7 k8 en k10 cu k12 k13 k14 k15 k16 k17].
  change (curenv _) with cu. 
  destruct (decide (cu = Some e)) as [E|E].
  { by rewrite !(bool_decide_true (cu = Some e)). }
  rewrite !(bool_decide_false (cu = Some e)) by done. cbn [negb].
  destruct cu as [c|].
  - rewrite bool_decide_false by done.
    destruct (env_status (envs_at _ c) =? ENV_RUNNING); f_equal; unfold started, envs_at;
      cbn; unfold constant; rewrite !lookup_insert_eq; reflexivity.
  - f_equal; unfold started, envs_at;
      cbn; unfold constant; rewrite !lookup_insert_eq; reflexivity.
Qed.

(** ** The scheduler *)

(** The slot the search starts at, and the status of slot [j]. *)
Definition sched_start (k : kern) : Z :=
  match curenv k with Some c => ENVX (env_id (envs_at k c)) | None => 0 end.
Definition status (k : kern) (j : Z) : Z := env_status (envs_at k j).

Lemma sched_yield_runs {A} k i :
  let slot i := (sched_start k + i) mod NENV in
  0 <= i < NENV -> status k (slot i) = ENV_RUNNABLE ->
  (forall i', 0 <= i' < i -> status k (slot i') <> ENV_RUNNABLE) ->
  sched_yield (A := A) k = Exit (Run (slot i)) (running k (slot i)).
Proof.
  cbv zeta. intros Hi Hrun Hmin. unfold sched_yield. krun. fold (sched_start k).
  rewrite (for_search _ _ i); [| |intros i' Hi'|intros s'].
  - cbv beta. unfold status in Hrun. by rewrite Hrun, Z.eqb_refl, env_run_eq.
  - unfold NENV in *. lia.
  - destruct (Z.eqb_spec (status k ((sched_start k + i') mod NENV)) ENV_RUNNABLE) as [E|E].
    + by destruct (Hmin i').
    + unfold status in E. by rewrite (proj2 (Z.eqb_neq _ _)).
  - cbv beta. unfold status in Hrun. by rewrite Hrun, Z.eqb_refl, env_run_eq.
Qed.

Lemma sched_yield_falls {A} k :
  (forall j, 0 <= j < NENV -> status k j <> ENV_RUNNABLE) ->
  sched_yield (A := A) k =
  match curenv k with
  | Some c => if status k c =? ENV_RUNNING then Exit (Run c) (running k c) else sched_halt k
  | None => sched_halt k
  end.
Proof.
  intros Hno. unfold sched_yield. krun. fold (sched_start k).
  rewrite for_skip; [|intros i Hi].
  - destruct (curenv k) as [c|]; [|done]. unfold status.
    destruct (_ =? _); [apply env_run_eq|done].
  - destruct (Z.eqb_spec (status k ((sched_start k + i) mod NENV)) ENV_RUNNABLE) as [E|E].
    + destruct (Hno ((sched_start k + i) mod NENV)); [|done]. by apply Z.mod_pos_bound.
    + unfold status in E. by rewrite (proj2 (Z.eqb_neq _ _)).
Qed.

(** The first index with a property. *)
Lemma first_index (P : Z -> bool) (n : nat) :
  (forall j, 0 <= j < Z.of_nat n -> P j = false) \/
  (exists i, 0 <= i < Z.of_nat n /\ P i = true /\ forall j, 0 <= j < i -> P j = false).
Proof.
  induction n as [|n [IH|(i & Hi & HP & Hmin)]]; [left; lia| |].
  - destruct (P (Z.of_nat n)) eqn:E.
    + right. exists (Z.of_nat n). split_and!; [lia..|done|done].
    + left. intros j Hj. destruct (decide (j = Z.of_nat n)) as [->|]; [done|]. apply IH. lia.
  - right. exists i. split_and!; [lia..|done|done].
Qed.

(** The message printed before the monitor is entered. *)
Definition gave_up (k : kern) : kern :=
  k {{ klog ::= fun l => l ++ [Msg ("No runnable environments in the system!" +:+ newline) []] }}.
Lemma sched_halt_eq {A} k :
  (sched_halt (A := A) k = Exit Monitor (gave_up k) /\
     forall j, 0 <= j < NENV -> alive (envs_at k j) = false) \/
  (sched_halt (A := A) k = Exit Halt (k {{ curenv := None; cr3 := kern_pgdir k }}) /\
     exists j, 0 <= j < NENV /\ alive (envs_at k j) = true).
Proof.
  destruct (first_index (fun j => alive (envs_at k j)) (Z.to_nat NENV)) as [Hno|(i & Hi & Ha & Hmin)];
    change (Z.of_nat (Z.to_nat NENV)) with NENV in *; unfold sched_halt; krun.
  - left. rewrite for_skip; [|intros j Hj; by rewrite Hno]. done.
  - right. rewrite (for_search _ _ i); [| |intros j Hj|intros s']; cbv beta.
    + rewrite Ha. split; [done|]. by exists i.
    + unfold NENV in *. lia.
    + by rewrite Hmin.
    + by rewrite Ha.
Qed.

(** What the scheduler may do, as a relation between the state it is called in,
    where it leaves the kernel to, and the state it leaves behind. *)
Inductive choice (k : kern) : leave -> kern -> Prop :=
| choose_next i :
    0 <= i < NENV -> status k ((sched_start k + i) mod NENV) = ENV_RUNNABLE ->
    (forall i', 0 <= i' < i -> status k ((sched_start k + i') mod NENV) <> ENV_RUNNABLE) ->
    choice k (Run ((sched_start k + i) mod NENV)) (running k ((sched_start k + i) mod NENV))
| choose_current c :
    (forall j, 0 <= j < NENV -> status k j <> ENV_RUNNABLE) ->
    curenv k = Some c -> status k c = ENV_RUNNING -> choice k (Run c) (running k c)
| choose_halt j :
    (forall j, 0 <= j < NENV -> status k j <> ENV_RUNNABLE) ->
    (forall c, curenv k = Some c -> status k c <> ENV_RUNNING) ->
    0 <= j < NENV -> status k j = ENV_RUNNING \/ status k j = ENV_DYING ->
    choice k Halt (k {{ curenv := None; cr3 := kern_pgdir k }})
| choose_monitor :
    (forall c, curenv k = Some c -> status k c <> ENV_RUNNING) ->
    (forall j, 0 <= j < NENV -> alive (envs_at k j) = false) ->
    choice k Monitor (gave_up k).

Lemma sched_halt_choice {A} k :
  (forall j, 0 <= j < NENV -> status k j <> ENV_RUNNABLE) ->
  (forall c, curenv k = Some c -> status k c <> ENV_RUNNING) ->
  exists x k', sched_halt (A := A) k = Exit x k' /\ choice k x k'.
Proof.
  intros Hno Hcur. destruct (sched_halt_eq (A := A) k) as [(-> & Ha)|(-> & j & Hj & Ha)].
  - eexists _, _. split; [done|]. by apply choose_monitor.
  - eexists _, _. split; [done|]. apply (choose_halt _ j); [done..|].
    unfold alive in Ha. pose proof (Hno j Hj) as Hr. unfold status in *. zbool.
    destruct Ha as [Ha|Ha]; zbool; [destruct Ha; zbool; tauto|tauto].
Qed.

Lemma sched_yield_choice {A} k :
  exists x k', sched_yield (A := A) k = Exit x k' /\ choice k x k'.
Proof.
  destruct (first_index (fun i => status k ((sched_start k + i) mod NENV) =? ENV_RUNNABLE)
              (Z.to_nat NENV)) as [Hno|(i & Hi & Hr & Hmin)];
    change (Z.of_nat (Z.to_nat NENV)) with NENV in *.
  2:{ zbool.
      assert (Hmin' : forall i', 0 <= i' < i -> status k ((sched_start k + i') mod NENV) <> ENV_RUNNABLE)
        by (intros i' Hi'; by apply Z.eqb_neq, Hmin).
      eexists _, _. split; [by apply (sched_yield_runs _ i)|]. by apply choose_next. }
  assert (Hall : forall j, 0 <= j < NENV -> status k j <> ENV_RUNNABLE).
  { intros j Hj. specialize (Hno ((j - sched_start k) mod NENV)).
    rewrite Zplus_mod_idemp_r in Hno. replace (sched_start k + (j - sched_start k)) with j in Hno by lia.
    rewrite (Z.mod_small j) in Hno by done. by apply Z.eqb_neq, Hno, Z.mod_pos_bound. }
  rewrite sched_yield_falls by done. destruct (curenv k) as [c|] eqn:Ec.
  2:{ apply sched_halt_choice; [done|]. by rewrite Ec. }
  destruct (Z.eqb_spec (status k c) ENV_RUNNING) as [Hc|Hc].
  - eexists _, _. split; [done|]. by apply choose_current.
  - apply sched_halt_choice; [done|]. intros c' Hc'. by assert (c' = c) as -> by congruence.
Qed.

(** C14.  The scheduler always leaves the kernel, the way [choice] says:
    searching the slots circularly from the current environment's own slot
    (slot 0 when there is none), the first RUNNABLE environment is run and
    becomes the current one, RUNNING, on its own page directory, while a
    different environment that was RUNNING becomes RUNNABLE; without one, the
    current environment continues if it is still RUNNING; otherwise the
    processor halts with no current environment when some environment is
    DYING or RUNNING, and the monitor starts when none is left. *)
Theorem sched_yield_picks (k : kern) :
  exists x k', sched_yield (A := unit) k = Exit x k' /\ choice k x k'.
Proof. apply sched_yield_choice. Qed.

(** ** Fairness *)

(** The kernel runs an environment whose slot agrees with its identifier. *)
Definition busy (k : kern) : Prop :=
  exists c, curenv k = Some c /\ 0 <= c < NENV /\ status k c = ENV_RUNNING /\
            ENVX (env_id (envs_at k c)) = c.

(** [waits j k n]: up to state [k], the environment [j] has been RUNNABLE
    while [n] calls of [sched_yield] in a row have run another one.  Between
    two calls anything may happen (system calls, new environments, deaths) as
    long as the environment that was picked is the one still running. *)
Inductive waits (j : Z) : kern -> nat -> Prop :=
| waits_start k : busy k -> status k j = ENV_RUNNABLE -> waits j k 0
| waits_more k n e k1 k2 :
    waits j k n -> sched_yield (A := unit) k = Exit (Run e) k1 -> e <> j ->
    busy k2 -> curenv k2 = curenv k1 -> status k2 j = ENV_RUNNABLE -> waits j k2 (S n).

Lemma running_curenv k e : curenv (running k e) = Some e.
Proof.
  unfold running. destruct k as [k1 k2 k3 k4 k5 k6 k7 k8 en k10 cu k12 k13 k14 k15 k16 k17].
  case_bool_decide as E; [exact E|done].
Qed.

(** With [j] RUNNABLE, the search stops at [j] or before. *)
Lemma sched_yield_next {A} k j : 0 <= j < NENV -> status k j = ENV_RUNNABLE ->
  exists i, 0 <= i <= (j - sched_start k) mod NENV /\
    status k ((sched_start k + i) mod NENV) = ENV_RUNNABLE /\
    sched_yield (A := A) k = Exit (Run ((sched_start k + i) mod NENV))
                                  (running k ((sched_start k + i) mod NENV)).
Proof.
  intros Hj Hs. set (d := (j - sched_start k) mod NENV).
  assert (Hd : 0 <= d < NENV) by by apply Z.mod_pos_bound.
  assert (Hslot : (sched_start k + d) mod NENV = j).
  { unfold d. rewrite Zplus_mod_idemp_r. replace (sched_start k + (j - sched_start k)) with j by lia.
    by apply Z.mod_small. }
  destruct (first_index (fun i => status k ((sched_start k + i) mod NENV) =? ENV_RUNNABLE)
              (Z.to_nat NENV)) as [Hno|(i & Hi & Hr & Hmin)];
    change (Z.of_nat (Z.to_nat NENV)) with NENV in *.
  { specialize (Hno d Hd). rewrite Hslot, Hs in Hno. done. }
  apply Z.eqb_eq in Hr. exists i. split_and!; [lia| |done|].
  - destruct (decide (i <= d)) as [|Hn]; [done|]. specialize (Hmin d ltac:(lia)).
    rewrite Hslot, Hs in Hmin. done.
  - apply sched_yield_runs; [done..|]. intros i' Hi'. by apply Z.eqb_neq, Hmin.
Qed.

(** The distance from the current environment to [j] shrinks at every turn. *)
Lemma waits_distance j k n : 0 <= j < NENV -> waits j k n ->
  busy k /\ status k j = ENV_RUNNABLE /\
  forall c, curenv k = Some c -> Z.of_nat n + (j - c) mod NENV < NENV.
Proof.
  intros Hj. induction 1 as [k Hb Hs|k n e k1 k2 Hw (Hb & Hs & IH) Hy He Hb2 Hc2 Hs2].
  { split_and!; [done..|]. intros c _. pose proof (Z.mod_pos_bound (j - c) NENV). unfold NENV in *. lia. }
  split_and!; [done..|]. intros c Hc.
  destruct Hb as (c0 & Hc0 & Hc0r & Hst & Hid). specialize (IH c0 Hc0).
  assert (Hstart : sched_start k = c0) by (unfold sched_start; by rewrite Hc0).
  destruct (sched_yield_next (A := unit) k j Hj Hs) as (i & Hi & Hri & Hy').
  rewrite Hstart in *. rewrite Hy' in Hy. injection Hy as <- <-.
  rewrite Hc2, running_curenv in Hc. injection Hc as <-.
  assert (i <> 0) by (intros ->; rewrite Z.add_0_r, Z.mod_small in Hri by done; by rewrite Hst in Hri).
  assert (i <> (j - c0) mod NENV).
  { intros ->. apply He. rewrite Zplus_mod_idemp_r. replace (c0 + (j - c0)) with j by lia.
    by apply Z.mod_small. }
  rewrite Zminus_mod_idemp_r. unfold NENV in *. zdiv.
Qed.

(** The monopoly: an environment that made itself RUNNABLE (the call
    [sys_env_set_status] allows it) is picked again by every [sched_yield],
    which does not change its status either: nobody else runs any more. *)
Lemma sched_yield_self (k : kern) (c : Z) : curenv k = Some c -> 0 <= c < NENV ->
  ENVX (env_id (envs_at k c)) = c -> status k c = ENV_RUNNABLE ->
  sched_yield (A := unit) k = Exit (Run c) (k {{ klocked := false }}).
Proof.
  intros Hc Hcr Hid Hs. assert (Hstart : sched_start k = c) by (unfold sched_start; by rewrite Hc).
  pose proof (sched_yield_runs (A := unit) k 0) as H. cbv zeta in H.
  rewrite Hstart, Z.add_0_r, (Z.mod_small c) in H by done.
  rewrite H; [|unfold NENV; lia|done|lia].
  unfold running. by rewrite bool_decide_true.
Qed.

(** C13.  The scheduler is fair among environments that leave their status
    alone, and only among those.  If between two calls of [sched_yield] the
    environment that was picked is still the current one and RUNNING (whatever
    else happens), a RUNNABLE environment is passed over fewer than [NENV - 1]
    times in a row.  But an environment that has made itself RUNNABLE
    ([sys_env_set_status] allows it) is picked again by every call, with no
    status changed: as long as it repeats that, nobody else runs. *)
Theorem round_robin_fair :
  (forall k j n, 0 <= j < NENV -> waits j k n -> Z.of_nat n < NENV - 1) /\
  (forall k c, curenv k = Some c -> 0 <= c < NENV -> ENVX (env_id (envs_at k c)) = c ->
     status k c = ENV_RUNNABLE ->
     sched_yield (A := unit) k = Exit (Run c) (k {{ klocked := false }})).
Proof.
  split; [|exact sched_yield_self]. intros k j n Hj Hw.
  destruct (waits_distance j k n Hj Hw) as ((c & Hc & Hcr & Hst & Hid) & Hs & Hd).
  specialize (Hd c Hc). assert (j <> c) by (intros ->; by rewrite Hst in Hs).
  unfold NENV in *. zdiv.
Qed.

(** ** Allocation *)

Definition put_env (k : kern) (e : Z) (v : Env) : kern := k {{ envs := <[e := v]> (envs k) }}.
Lemma envs_at_put_env k e v i :
  envs_at (put_env k e v) i = if decide (i = e) then v else envs_at k i.
Proof.
  unfold put_env, envs_at. ksimp. case_decide as E; [subst; by rewrite lookup_insert_eq|].
  by rewrite lookup_insert_ne.
Qed.
Lemma put_env_twice k e v w : put_env (put_env k e v) e w = put_env k e w.
Proof. unfold put_env. destruct k as [k1 k2 k3 k4 k5 k6 k7 k8 en]. ksimp. by rewrite insert_insert_eq. Qed.
Lemma wp_set_env' e f Q E k : Q tt (put_env k e (f (envs_at k e))) -> wp (set_env e f) Q E k.
Proof. apply wp_set_env. Qed.
Lemma envs_at_same k k' i : envs k' = envs k -> envs_at k' i = envs_at k i.
Proof. unfold envs_at. by intros ->. Qed.
(** Taking a reference to a page that has left the free list. *)
Lemma free_list_used k k' l p q : free_list k l -> p ∉ l -> pp_link q = None ->
  page_free_list k' = page_free_list k -> pages k' = <[p := q]> (pages k) -> free_list k' l.
Proof.
  intros (Hc & Hnd & Hu) Hp Hq Hh Hpg. split_and!; [|done|].
  - rewrite Hh, Hpg. by apply chain_update.
  - intros i r. rewrite Hpg. destruct (decide (i = p)) as [->|]; [rewrite lookup_insert_eq; by intros [= <-]|].
    rewrite lookup_insert_ne by done. apply Hu.
Qed.

Lemma load32_shift m m' a b : (forall j, 0 <= j < 4 -> load8 m' (a + j) = load8 m (b + j)) ->
  load32 m' a = load32 m b.
Proof.
  intros H. unfold load32, load16. rewrite <- !Z.add_assoc. change (2 + 1) with 3.
  pose proof (H 0) as H0. rewrite !Z.add_0_r in H0. by rewrite H0, !H by lia.
Qed.

(** The page directory of a new environment. *)
Definition new_pgdir (k : kern) (p : Z) : mem :=
  store32 (memcpy (memset (pmem k) (page2pa p) 0 PGSIZE) (page2pa p) (kern_pgdir k) PGSIZE)
    (page2pa p + 4 * PDX UVPT) (Z.lor (Z.lor (page2pa p) PTE_P) PTE_U).
Lemma new_pgdir_entries k p d : 0 <= p < 2 ^ 20 -> 0 <= d < 1024 ->
  0 <= kern_pgdir k -> kern_pgdir k + 4096 <= 2 ^ 32 ->
  kern_pgdir k + 4096 <= page2pa p \/ page2pa p + 4096 <= kern_pgdir k ->
  load32 (new_pgdir k p) (page2pa p + 4 * d) =
  if decide (d = PDX UVPT) then Z.lor (Z.lor (page2pa p) PTE_P) PTE_U
  else load32 (pmem k) (kern_pgdir k + 4 * d).
Proof.
  intros Hp Hd H0 H1 Hap. rewrite page2pa_eq in * by done. unfold new_pgdir.
  rewrite page2pa_eq by done. change (PDX UVPT) with 957.
  case_decide as E.
  - subst. rewrite load32_store32_eq. apply u32_small. change PTE_P with 1. change PTE_U with 4.
    rewrite <- Z.lor_assoc. change (Z.lor 1 4) with 5.
    rewrite (lor_disjoint_add _ 5 12); change (2 ^ 12) with 4096; zdiv.
  - rewrite load32_store32_ne by lia. apply load32_shift. intros j Hj. unfold memcpy.
    change PGSIZE with 4096. rewrite memmove_load8, decide_True, memset_load8, decide_False by lia.
    f_equal. lia.
Qed.

Lemma env_setup_vm_ok k e p l Q E :
  free_list k (p :: l) ->
  (forall k', envs k' = <[e := (envs_at k e) {{ env_pgdir := page2pa p }}]> (envs k) ->
     env_free_list k' = env_free_list k -> curenv k' = curenv k ->
     pmem k' = new_pgdir k p -> pages k' !! p = Some (mkPageInfo None 1) ->
     (forall i, i <> p -> pages k' !! i = pages k !! i) -> free_list k' l -> Q 0 k') ->
  wp (env_setup_vm e) Q E k.
Proof.
  intros Hf HQ. destruct (free_list_allocated k ALLOC_ZERO p l Hf) as (pi & Hp & Hr & Hh & Hf').
  assert (Hpl : p ∉ l) by (destruct Hf as (_ & Hnd & _); by apply NoDup_cons in Hnd as [? _]).
  unfold env_setup_vm. ksteps. eapply page_alloc_some; [done..|]. ksteps.
  eapply wp_set_page; [unfold allocated; ksimp; apply lookup_insert_eq|]. rewrite Hr.
  ksteps. apply HQ; try done.
  - unfold allocated; ksimp. by rewrite lookup_insert_eq.
  - intros i Hi. unfold allocated; ksimp. by rewrite !lookup_insert_ne.
  - eapply (free_list_used _ _ l p (mkPageInfo None 1) Hf'); done.
Qed.

(** The contents of the slot of a new environment. *)
Definition fresh_env (old : Env) (e parent_id p : Z) : Env :=
  mkEnv fresh_tf (env_link old) (next_env_id (env_id old) e) parent_id ENV_TYPE_USER ENV_RUNNABLE 0
    (page2pa p) 0 false (env_ipc_dstva old) (env_ipc_value old) (env_ipc_from old) (env_ipc_perm old).

(** C18.  [env_alloc] takes the first free slot and the first free page, or
    fails without changing anything: with E_NO_FREE_ENV when every slot is
    taken, with E_NO_MEM when there is no page.  The new environment is
    RUNNABLE with cleared registers, user segments and interrupts on; its
    identifier is positive, names its slot and differs from the one the slot
    had before; its page directory is the page taken, referenced once, a copy
    of the kernel's directory except for the entry of UVPT, which maps the
    directory itself read-only.  No other environment and no other page
    changes. *)
Theorem env_alloc_fresh (k : kern) (parent_id : Z) (free : list Z) :
  free_list k free -> (forall p, p ∈ free -> 0 <= p < 2 ^ 20) ->
  match env_free_list k, free with
  | None, _ => env_alloc parent_id k = Ret (inr (- E_NO_FREE_ENV)) k
  | Some e, [] => env_alloc parent_id k = Ret (inr (- E_NO_MEM)) k
  | Some e, p :: free' =>
      let old := envs_at k e in
      0 <= e < NENV -> 0 <= env_id old < 2 ^ 31 ->
      0 <= kern_pgdir k -> kern_pgdir k + 4096 <= 2 ^ 32 ->
      kern_pgdir k + 4096 <= page2pa p \/ page2pa p + 4096 <= kern_pgdir k ->
      exists k', env_alloc parent_id k = Ret (inl e) k' /\
        envs_at k' e = fresh_env old e parent_id p /\
        (let id := env_id (envs_at k' e) in
         0 < id < 2 ^ 31 /\ ENVX id = e /\ (ENVX (env_id old) = e -> id <> env_id old)) /\
        env_free_list k' = env_link old /\
        (forall j, j <> e -> envs_at k' j = envs_at k j) /\
        free_list k' free' /\ pages k' !! p = Some (mkPageInfo None 1) /\
        (forall i, i <> p -> pages k' !! i = pages k !! i) /\
        (forall d, 0 <= d < 1024 -> load32 (pmem k') (page2pa p + 4 * d) =
           if decide (d = PDX UVPT) then Z.lor (Z.lor (page2pa p) PTE_P) PTE_U
           else load32 (pmem k) (kern_pgdir k + 4 * d))
  end.
Proof.
  intros Hf Hlow. destruct (env_free_list k) as [e|] eqn:He.
  2:{ unfold env_alloc. krun. by rewrite He. }
  destruct free as [|p free'].
  { assert (Hh : page_free_list k = None) by (destruct Hf as (Hc & _); by inversion Hc).
    unfold env_alloc, env_setup_vm, page_alloc. krun. rewrite He. by rewrite Hh. }
  intros old Hslot Hid H0 H1 Hap.
  destruct (wp_ret_inv (env_alloc parent_id) (fun r k' => r = inl e /\
     envs_at k' e = fresh_env old e parent_id p /\ env_free_list k' = env_link old /\
     (forall j, j <> e -> envs_at k' j = envs_at k j) /\
     pmem k' = new_pgdir k p /\ pages k' !! p = Some (mkPageInfo None 1) /\
     (forall i, i <> p -> pages k' !! i = pages k !! i) /\ free_list k' free') k)
    as (r & k' & Hrun & -> & Hev & Hfl & Hoth & Hm & Hp & Hpo & Hf').
  { unfold env_alloc. ksteps. rewrite He. kstep. eapply env_setup_vm_ok; [done|].
    intros k1 He1 Hl1 _ Hm1 Hp1 Hpo1 Hf1. change (0 <? 0) with false. cbv iota.
    do 4 (apply wp_bind; apply wp_set_env'; cbv beta;
          rewrite ?put_env_twice; rewrite ?envs_at_put_env, ?(decide_True) by done).
    assert (Hold : envs_at k1 e = old {{ env_pgdir := page2pa p }})
      by (rewrite (envs_at_insert k1 (envs k) e _ e He1), decide_True by done; done).
    rewrite Hold.
    match goal with |- context [put_env k1 e ?v] =>
      replace v with (fresh_env old e parent_id p) by reflexivity end.
    ksteps. split_and!; [done|..].
    - change (envs_at (put_env k1 e (fresh_env old e parent_id p)) e = fresh_env old e parent_id p).
      by rewrite envs_at_put_env, decide_True.
    - ksimp. by rewrite envs_at_put_env, decide_True.
    - intros j Hj. change (envs_at (put_env k1 e (fresh_env old e parent_id p)) j = envs_at k j).
      rewrite envs_at_put_env, decide_False by done.
      by rewrite (envs_at_insert k1 (envs k) e _ j He1), decide_False by done.
    - exact Hm1.
    - exact Hp1.
    - exact Hpo1.
    - exact Hf1. }
  exists k'. rewrite Hev. cbv zeta. split_and!; try done.
  1-4: by apply next_env_id_spec.
  intros d Hd. rewrite Hm. apply new_pgdir_entries; [|done..]. apply Hlow. left.
Qed.

(** ** Examples: environment 0 runs, 1 and 2 are ready; 2 is a child of 0 *)
Definition env_at (slot parent st : Z) : Env :=
  env0 {{ env_id := 4096 + slot; env_parent_id := parent; env_status := st }}.
Definition three_envs (st : Z) : kern :=
  two_free {{ envs := <[0 := env_at 0 0 st]> (<[1 := env_at 1 0 ENV_RUNNABLE]>
                      {[ 2 := env_at 2 4096 ENV_RUNNABLE ]});
              curenv := Some 0; env_free_list := Some 3; kern_pgdir := 0x150000 }}.

Lemma envid2env_checks_witness :
  envid2env 4098 true (three_envs ENV_RUNNING) = Ret (Some (Some 2)) (three_envs ENV_RUNNING) /\
  envid2env 4097 true (three_envs ENV_RUNNING) = Ret None (three_envs ENV_RUNNING).
Proof.
  split.
  - rewrite (envid2env_checks (three_envs ENV_RUNNING) 4098 true 0) by reflexivity.
    rewrite decide_True; [reflexivity|]. split; [discriminate|]. split; [reflexivity|].
    intros _. right. reflexivity.
  - rewrite (envid2env_checks (three_envs ENV_RUNNING) 4097 true 0) by reflexivity.
    rewrite decide_False; [reflexivity|]. intros (_ & _ & H). destruct (H eq_refl); discriminate.
Defined.

Lemma busy_three st : st = ENV_RUNNING -> busy (three_envs st).
Proof. intros ->. exists 0. split_and!; [reflexivity|done|done|reflexivity..]. Qed.
Lemma busy_three_next : busy (running (three_envs ENV_RUNNING) 1).
Proof. exists 1. split_and!; [reflexivity|done|done|reflexivity..]. Qed.
Lemma round_robin_fair_witness :
  waits 2 (running (three_envs ENV_RUNNING) 1) 1 /\ Z.of_nat 1 < NENV - 1 /\
  sched_yield (A := unit) (three_envs ENV_RUNNABLE) =
    Exit (Run 0) ((three_envs ENV_RUNNABLE) {{ klocked := false }}).
Proof.
  assert (Hw : waits 2 (running (three_envs ENV_RUNNING) 1) 1).
  { eapply waits_more with (e := 1) (k := three_envs ENV_RUNNING).
    - apply waits_start; [by apply busy_three|reflexivity].
    - apply (sched_yield_runs (three_envs ENV_RUNNING) 1); [done|reflexivity|].
      intros i Hi. by replace i with 0 by lia.
    - discriminate.
    - apply busy_three_next.
    - reflexivity.
    - reflexivity. }
  destruct round_robin_fair as [Hfair Hself]. split; [exact Hw|]. split.
  - apply (Hfair (running (three_envs ENV_RUNNING) 1) 2 1%nat); [unfold NENV; lia|exact Hw].
  - apply (Hself (three_envs ENV_RUNNABLE) 0);
      [reflexivity|split; [discriminate|reflexivity]|reflexivity|reflexivity].
Defined.

Lemma env_alloc_fresh_witness :
  exists k', env_alloc 4096 (three_envs ENV_RUNNING) = Ret (inl 3) k' /\
    envs_at k' 3 = fresh_env env0 3 4096 3 /\ env_id (envs_at k' 3) = 4099.
Proof.
  assert (Hlow : forall p, p ∈ [3; 5] -> 0 <= p < 2 ^ 20).
  { intros p Hp. rewrite !elem_of_cons in Hp. destruct Hp as [->|[->|Hp]]; [lia|lia|].
    by apply elem_of_nil in Hp. }
  assert (Hf : free_list (three_envs ENV_RUNNING) [3; 5]) by exact two_free_ok.
  destruct (env_alloc_fresh (three_envs ENV_RUNNING) 4096 [3; 5] Hf Hlow)
    as (k' & E & Hev & _); [done|done|done|done|right; vm_compute; discriminate|].
  exists k'. split; [exact E|]. rewrite Hev. split; reflexivity.
Defined.
