(* ===== verification/TrapMod.v ===== *)
(** * Traps and system calls: src/src/trap.c

    The interrupt gates, the dispatch of a trap, the page-fault upcall and the
    fourteen system calls.  A trap frame is either the one on the kernel stack
    or the one saved in an environment, which is where the handlers write. *)
From S2P Require Import Prelude Layout Mem CString Printf Console Kern Pmap EnvMod.

(** ** Trap numbers (trap.h) and system call numbers (util.h) *)
Definition T_BRKPT : Z := 3.
Definition T_PGFLT : Z := 14.
Definition T_SYSCALL : Z := 48.
Definition IRQ_OFFSET : Z := 32.
Definition IRQ_TIMER : Z := 0.
Definition IRQ_KBD : Z := 1.
Definition IRQ_SERIAL : Z := 4.
Definition IRQ_SPURIOUS : Z := 7.
Definition SYS_cputs : Z := 0.
Definition SYS_cgetc : Z := 1.
Definition SYS_getenvid : Z := 2.
Definition SYS_env_destroy : Z := 3.
Definition SYS_page_alloc : Z := 4.
Definition SYS_page_map : Z := 5.
Definition SYS_page_unmap : Z := 6.
Definition SYS_exofork : Z := 7.
Definition SYS_env_set_status : Z := 8.
Definition SYS_env_set_trapframe : Z := 9.
Definition SYS_env_set_pgfault_upcall : Z := 10.
Definition SYS_yield : Z := 11.
Definition SYS_ipc_try_send : Z := 12.
Definition SYS_ipc_recv : Z := 13.

(** ** Traps, by name *)
Definition excnames : list string :=
  ["Divide error"; "Debug"; "Non-Maskable Interrupt"; "Breakpoint"; "Overflow";
   "BOUND Range Exceeded"; "Invalid Opcode"; "Device Not Available"; "Double Fault";
   "Coprocessor Segment Overrun"; "Invalid TSS"; "Segment Not Present"; "Stack Fault";
   "General Protection"; "Page Fault"; "(unknown trap)"; "x87 FPU Floating-Point Error";
   "Alignment Check"; "Machine-Check"; "SIMD Floating-Point Exception"]%string.
(** The comparison with the table's size is unsigned. *)
Definition trapname (trapno : Z) : string :=
  match excnames !! Z.to_nat (u32 trapno) with
  | Some s => s
  | None =>
      if trapno =? T_SYSCALL then "System call"%string
      else if (trapno >=? IRQ_OFFSET) && (trapno <? IRQ_OFFSET + 16) then "Hardware Interrupt"%string
      else "(unknown trap)"%string
  end.

(** ** Trap frames *)
Inductive tfptr : Type :=
| OnStack (tf : Trapframe)
| Saved (e : Z).
Definition tf_of (k : kern) (p : tfptr) : Trapframe :=
  match p with OnStack tf => tf | Saved e => env_tf (envs_at k e) end.
Definition get_tf (p : tfptr) : K Trapframe := kget (fun k => tf_of k p).

Definition print_regs (r : PushRegs) : K unit :=
  kprintln "  edi  0x%08x" [reg_edi r];; kprintln "  esi  0x%08x" [reg_esi r];;
  kprintln "  ebp  0x%08x" [reg_ebp r];; kprintln "  oesp 0x%08x" [reg_oesp r];;
  kprintln "  ebx  0x%08x" [reg_ebx r];; kprintln "  edx  0x%08x" [reg_edx r];;
  kprintln "  ecx  0x%08x" [reg_ecx r];; kprintln "  eax  0x%08x" [reg_eax r].
(** The address of the frame is not printed; [tf == last_tf] holds at every
    call. *)
Definition print_trapframe (p : tfptr) : K unit :=
  tf ← get_tf p;
  kprintln "TRAP frame at %p" [];;
  print_regs (tf_regs tf);;
  kprintln "  es   0x----%04x" [tf_es tf];; kprintln "  ds   0x----%04x" [tf_ds tf];;
  kprintln ("  trap 0x%08x " +:+ trapname (tf_trapno tf)) [tf_trapno tf];;
  va ← kget cr2;
  st_when (tf_trapno tf =? T_PGFLT) (kprintln "  cr2  0x%08x" [va]);;
  kprint "  err  0x%08x" [tf_err tf];;
  st_when (tf_trapno tf =? T_PGFLT)
    (kprintln (" [" +:+ (if negb (Z.land (tf_err tf) 4 =? 0) then "user" else "kernel") +:+ ", " +:+
       (if negb (Z.land (tf_err tf) 2 =? 0) then "write" else "read") +:+ ", " +:+
       (if negb (Z.land (tf_err tf) 1 =? 0) then "protection" else "not-present") +:+ "]") []);;
  st_when (negb (tf_trapno tf =? T_PGFLT)) (kprintln "" []);;
  kprintln "  eip  0x%08x" [tf_eip tf];; kprintln "  cs   0x----%04x" [tf_cs tf];;
  kprintln "  flag 0x%08x" [tf_eflags tf];;
  st_when (negb (Z.land (tf_cs tf) 3 =? 0))
    (kprintln "  esp  0x%08x" [tf_esp tf];; kprintln "  ss   0x----%04x" [tf_ss tf]).

(** ** System calls.  Errors are the negated codes of error.h. *)

(** The current environment; [curenv] is not null during a system call. *)
Definition the_curenv : K Z :=
  cur ← kget curenv;
  match cur with Some c => mret c | None => st_crash "curenv is null" end.
(** [envid2env(envid, &e, checkperm)] used on success only through [*e]. *)
Definition with_env {A} (envid : Z) (checkperm : bool) (err : A) (body : Z -> K A) : K A :=
  r ← envid2env envid checkperm;
  match r with
  | None => mret err
  | Some None => st_crash "curenv is null"
  | Some (Some e) => body e
  end.
(** [cprintf("%.*s", len, s)]: the string loop of [vprintfmt] reads [*p]
    before it looks at the precision, so it reads one character more than it
    prints; [n] bounds the reads.  The precision is [len] as an [int]: there is
    no limit when it is negative. *)
Fixpoint cputs_loop (n : nat) (va precision : Z) (acc : list Z) : K (list Z) :=
  match n with
  | O => st_crash "the string never ends"
  | S n' =>
      ch ← kread8 va;
      if negb (ch =? 0) && ((precision <? 0) || (precision - 1 >=? 0)) then
        cputs_loop n' (va + 1) (if precision <? 0 then precision else precision - 1) (acc ++ [s8 ch])
      else mret acc
  end.
(** A string without end wraps around the address space and prints for ever. *)
Definition cputs_fuel (precision : Z) : nat :=
  Z.to_nat (if precision <? 0 then 2 ^ 32 else precision + 1).
Definition sys_cputs (s len : Z) : K unit :=
  let precision := s32 len in
  cs ← (if s =? 0 then mret (snd (put_str emit (str_codes "(null)") precision 0 false []))
        else cputs_loop (cputs_fuel precision) s precision []);
  kset (fun k => k {{ klog ::= fun l => l ++ [Chars cs] }}).
Definition sys_cgetc : K Z :=
  c ← kget kcons;
  let '(ch, c) := cons_getc c in
  kset (fun k => k {{ kcons := c }});; mret ch.
Definition sys_getenvid : K Z :=
  c ← the_curenv; ev ← get_env c; mret (env_id ev).
Definition sys_env_destroy (envid : Z) : K Z :=
  with_env envid true (- E_BAD_ENV) (fun e => env_destroy e;; mret 0).
Definition sys_yield {A} : K A := sched_yield.
Definition sys_exofork : K Z :=
  c ← the_curenv; cv ← get_env c;
  r ← env_alloc (env_id cv);
  match r with
  | inr err => mret err
  | inl e =>
      set_env e (fun ev => ev {{ env_status := ENV_NOT_RUNNABLE }});;
      cv ← get_env c;
      set_env e (fun ev => ev {{ env_tf := env_tf cv }});;
      set_env e (fun ev => ev {{ env_tf -> tf_regs -> reg_eax := 0 }});;
      ev ← get_env e;
      mret (env_id ev)
  end.
Definition sys_env_set_status (envid status : Z) : K Z :=
  if negb (status =? ENV_RUNNABLE) && negb (status =? ENV_NOT_RUNNABLE) then mret (- E_INVAL)
  else with_env envid true (- E_BAD_ENV) (fun e =>
    set_env e (fun ev => ev {{ env_status := status }});; mret 0).
(** [*tf] read from the caller's memory: the fields at their offsets. *)
Definition read_regs (va : Z) : K PushRegs :=
  edi ← kread32 va; esi ← kread32 (va + 4); ebp ← kread32 (va + 8); oesp ← kread32 (va + 12);
  ebx ← kread32 (va + 16); edx ← kread32 (va + 20); ecx ← kread32 (va + 24);
  eax ← kread32 (va + 28);
  mret (mkPushRegs edi esi ebp oesp ebx edx ecx eax).
Definition read_tf (va : Z) : K Trapframe :=
  regs ← read_regs va;
  es ← kread32 (va + 32); ds ← kread32 (va + 36); trapno ← kread32 (va + 40);
  err ← kread32 (va + 44); eip ← kread32 (va + 48); cs ← kread32 (va + 52);
  eflags ← kread32 (va + 56); esp ← kread32 (va + 60); ss ← kread32 (va + 64);
  mret (mkTrapframe regs (u16 es) (u16 ds) trapno err eip (u16 cs) eflags esp (u16 ss)).
Definition sys_env_set_trapframe (envid tf : Z) : K Z :=
  with_env envid true (- E_BAD_ENV) (fun e =>
    t ← read_tf tf;
    set_env e (fun ev => ev {{ env_tf := t }});;
    set_env e (fun ev => ev {{ env_tf -> tf_eflags ::= fun f => Z.lor f FL_IF }});;
    mret 0).
Definition sys_env_set_pgfault_upcall (envid func : Z) : K Z :=
  with_env envid true (- E_BAD_ENV) (fun e =>
    if func =? 0 then mret (- E_INVAL)
    else set_env e (fun ev => ev {{ env_pgfault_upcall := func }});; mret 0).

(** The two tests on the permission bits of a mapping. *)
Definition perm_ok (perm : Z) : bool :=
  negb (Z.land perm PTE_U =? 0) && negb (Z.land perm PTE_P =? 0) &&
  (Z.land perm (Z.lnot (Z.lor (Z.lor (Z.lor PTE_P PTE_U) PTE_W) PTE_AVAIL)) =? 0).
Definition user_page (va : Z) : bool := negb ((u32 va >=? UTOP) || negb (u32 va mod PGSIZE =? 0)).

(** When [page_alloc] fails, [page_free(NULL)] is called. *)
Definition sys_page_alloc (envid va perm : Z) : K Z :=
  with_env envid true (- E_BAD_ENV) (fun e =>
    if negb (user_page va) then mret (- E_INVAL)
    else if negb (perm_ok perm) then mret (- E_INVAL)
    else
      pp ← page_alloc ALLOC_ZERO;
      match pp with
      | None => st_crash "page_free(NULL)"
      | Some pp =>
          ev ← get_env e;
          r ← page_insert (env_pgdir ev) pp va perm;
          if r <? 0 then page_free pp;; mret (- E_NO_MEM) else mret 0
      end).
(** The write test looks at the pointer [pte_store], not at the entry. *)
Definition sys_page_map (srcenvid srcva dstenvid dstva perm : Z) : K Z :=
  with_env srcenvid true (- E_BAD_ENV) (fun src =>
  with_env dstenvid true (- E_BAD_ENV) (fun dst =>
    if negb (user_page srcva && user_page dstva) then mret (- E_INVAL)
    else if negb (perm_ok perm) then mret (- E_INVAL)
    else
      sv ← get_env src;
      r ← page_lookup (env_pgdir sv) srcva;
      match r with
      | None => mret (- E_INVAL)
      | Some (pp, pte_store) =>
          if negb (Z.land perm PTE_W =? 0) && negb (Z.land pte_store PTE_W =? 0)
          then mret (- E_INVAL)
          else
            dv ← get_env dst;
            r ← page_insert (env_pgdir dv) pp dstva perm;
            if r <? 0 then mret (- E_NO_MEM) else mret 0
      end)).
Definition sys_page_unmap (envid va : Z) : K Z :=
  with_env envid true (- E_BAD_ENV) (fun e =>
    if negb (user_page va) then mret (- E_INVAL)
    else ev ← get_env e; page_remove (env_pgdir ev) va;; mret 0).

(** The page part of [sys_ipc_try_send]: [Some r] is an early [return r]. *)
Definition ipc_send_page (e srcva perm : Z) : K (option Z) :=
  if negb (srcva =? ROUNDDOWN srcva PGSIZE) then mret (Some (- E_INVAL))
  else if negb (perm_ok perm) then mret (Some (- E_INVAL))
  else
    c ← the_curenv; cv ← get_env c;
    r ← page_lookup (env_pgdir cv) srcva;
    match r with
    | None => mret (Some (- E_INVAL))
    | Some (pp, pte) =>
        entry ← pload pte;
        if negb (Z.land perm PTE_W =? 0) && (Z.land entry PTE_W =? 0)
        then mret (Some (- E_INVAL))
        else
          ev ← get_env e;
          if u32 (env_ipc_dstva ev) <? UTOP then
            r ← page_insert (env_pgdir ev) pp (env_ipc_dstva ev) perm;
            if r <? 0 then
              set_env e (fun ev => ev {{ env_ipc_perm := 0 }});; mret (Some r)
            else
              set_env e (fun ev => ev {{ env_ipc_perm := perm }});; mret None
          else mret None
    end.
Definition sys_ipc_try_send (envid value srcva perm : Z) : K Z :=
  with_env envid false (- E_BAD_ENV) (fun e =>
    ev ← get_env e;
    if negb (env_ipc_recving ev) then mret (- E_IPC_NOT_RECV)
    else
      set_env e (fun ev => ev {{ env_ipc_recving := false }});;
      r ← (if srcva <? UTOP then ipc_send_page e srcva perm else mret None);
      match r with
      | Some r => mret r
      | None =>
          c ← the_curenv; cv ← get_env c;
          set_env e (fun ev => ev {{ env_ipc_from := env_id cv; env_ipc_value := value;
                                     env_status := ENV_RUNNABLE;
                                     env_tf -> tf_regs -> reg_eax := 0 }});;
          mret 0
      end).
(** The [return 0] after [sched_yield] is not reached. *)
Definition sys_ipc_recv (dstva : Z) : K Z :=
  if (dstva <? UTOP) && negb (dstva mod PGSIZE =? 0) then mret (- E_INVAL)
  else
    c ← the_curenv;
    set_env c (fun ev => ev {{ env_ipc_recving := true; env_ipc_dstva := dstva;
                               env_status := ENV_NOT_RUNNABLE }});;
    sched_yield.

Definition syscall (syscallno a1 a2 a3 a4 a5 : Z) : K Z :=
  if syscallno =? SYS_cputs then sys_cputs a1 a2;; mret 0
  else if syscallno =? SYS_cgetc then sys_cgetc
  else if syscallno =? SYS_getenvid then sys_getenvid
  else if syscallno =? SYS_env_destroy then sys_env_destroy (s32 a1)
  else if syscallno =? SYS_yield then sys_yield
  else if syscallno =? SYS_exofork then sys_exofork
  else if syscallno =? SYS_env_set_status then sys_env_set_status (s32 a1) (s32 a2)
  else if syscallno =? SYS_page_alloc then sys_page_alloc (s32 a1) a2 (s32 a3)
  else if syscallno =? SYS_page_map then sys_page_map (s32 a1) a2 (s32 a3) a4 (s32 a5)
  else if syscallno =? SYS_page_unmap then sys_page_unmap (s32 a1) a2
  else if syscallno =? SYS_env_set_pgfault_upcall then sys_env_set_pgfault_upcall (s32 a1) a2
  else if syscallno =? SYS_ipc_try_send then sys_ipc_try_send (s32 a1) a2 a3 a4
  else if syscallno =? SYS_ipc_recv then sys_ipc_recv a1
  else if syscallno =? SYS_env_set_trapframe then sys_env_set_trapframe (s32 a1) a2
  else mret (- E_INVAL).

(** ** Page faults *)
Definition sizeof_UTrapframe : Z := 52.
Definition write_regs (va : Z) (r : PushRegs) : K unit :=
  kwrite32 va (reg_edi r);; kwrite32 (va + 4) (reg_esi r);; kwrite32 (va + 8) (reg_ebp r);;
  kwrite32 (va + 12) (reg_oesp r);; kwrite32 (va + 16) (reg_ebx r);;
  kwrite32 (va + 20) (reg_edx r);; kwrite32 (va + 24) (reg_ecx r);;
  kwrite32 (va + 28) (reg_eax r).
Definition page_fault_handler (p : tfptr) : K unit :=
  fault_va ← kget cr2;
  tf ← get_tf p;
  if Z.land (tf_cs tf) 3 =? 0 then st_panic "kernel-mode page faults"
  else
    c ← the_curenv; cv ← get_env c;
    (if negb (env_pgfault_upcall cv =? 0) then
       let utf :=
         if (tf_esp tf >=? UXSTACKTOP - PGSIZE) && (tf_esp tf <=? UXSTACKTOP - 1)
         then u32 (tf_esp tf - sizeof_UTrapframe - 4)
         else u32 (UXSTACKTOP - sizeof_UTrapframe) in
       kwrite32 utf fault_va;; kwrite32 (utf + 4) (tf_err tf);;
       write_regs (utf + 8) (tf_regs tf);; kwrite32 (utf + 40) (tf_eip tf);;
       kwrite32 (utf + 44) (tf_eflags tf);; kwrite32 (utf + 48) (tf_esp tf);;
       set_env c (fun ev => ev {{ env_tf -> tf_eip := env_pgfault_upcall cv;
                                  env_tf -> tf_esp := utf }});;
       env_run (A := unit) c
     else mret tt);;
    kprintln "[%08x] user fault va %08x ip %08x" [env_id cv; fault_va; tf_eip tf];;
    print_trapframe p;;
    env_destroy c.

(** ** Dispatch *)
Definition kbd_trap : K unit := kset (fun k => k {{ kcons ::= kbd_intr }}).
Definition serial_trap : K unit := kset (fun k => k {{ kcons ::= serial_intr }}).
Definition trap_dispatch (p : tfptr) : K unit :=
  tf ← get_tf p;
  let n := tf_trapno tf in
  if n =? T_PGFLT then page_fault_handler p
  else if n =? T_BRKPT then st_exit Monitor
  else if n =? T_SYSCALL then
    let r := tf_regs tf in
    ret ← syscall (reg_eax r) (reg_edx r) (reg_ecx r) (reg_ebx r) (reg_edi r) (reg_esi r);
    match p with
    | Saved e => set_env e (fun ev => ev {{ env_tf -> tf_regs -> reg_eax := u32 ret }})
    | OnStack _ => mret tt
    end
  else if n =? IRQ_OFFSET + IRQ_SPURIOUS then
    kprintln "Spurious interrupt on irq 7" [];; print_trapframe p
  else if n =? IRQ_OFFSET + IRQ_TIMER then sched_yield
  else if n =? IRQ_OFFSET + IRQ_KBD then kbd_trap
  else if n =? IRQ_OFFSET + IRQ_SERIAL then serial_trap
  else
    print_trapframe p;;
    if tf_cs tf =? GD_KT then st_panic "unhandled trap in kernel"
    else c ← the_curenv; env_destroy c.

(** One processor: a lock that is held is never released while it spins. *)
Definition lock_kernel : K unit :=
  held ← kget klocked;
  if (held : bool) then st_crash "lock_kernel spins for ever"
  else kset (fun k => k {{ klocked := true }}).

Definition trap (tf : Trapframe) : K unit :=
  p ← (if Z.land (tf_cs tf) 3 =? 3 then
         lock_kernel;;
         c ← the_curenv; cv ← get_env c;
         (if env_status cv =? ENV_DYING then
            env_free c;; kset (fun k => k {{ curenv := None }});; sched_yield (A := unit)
          else mret tt);;
         set_env c (fun ev => ev {{ env_tf := tf }});;
         mret (Saved c)
       else mret (OnStack tf));
  trap_dispatch p;;
  k ← st_get;
  match curenv k with
  | Some c => if env_status (envs_at k c) =? ENV_RUNNING then env_run c else sched_yield
  | None => sched_yield
  end.
