(* ===== verification/KernInv.v ===== *)
(** * The kernel's invariant

    What every trap preserves and how the kernel may leave: the environment
    table is well typed ([tbl]), the current environment is a live one
    ([live]), and control goes only to the current environment, with the
    kernel lock released, to the halted processor with no current environment,
    or to the monitor.  [holds m Q k] is the triple these facts are proved
    with: [m] returns a state in [Q], leaves the kernel in order, panics with
    one of the messages [panics], or runs into one of [crashes], the three
    defects of system calls that corrupt or hang the kernel; nothing else. *)
From S2P Require Import Prelude Layout Mem CString Printf Console Kern Pmap PmapFree EnvMod EnvProps TrapMod.

(** ** The invariant *)

Definition slot_ok (i : Z) : Prop := 0 <= i < NENV.
Record env_ok (i : Z) (ev : Env) : Prop := mkEnvOk {
  eok_status : ENV_FREE <= env_status ev <= ENV_NOT_RUNNABLE;
  eok_id : 0 <= env_id ev < 2 ^ 31;
  eok_slot : env_status ev <> ENV_FREE -> 0 < env_id ev /\ ENVX (env_id ev) = i;
  eok_link : forall j, env_link ev = Some j -> slot_ok j }.
Definition tbl (k : kern) : Prop :=
  (forall i, slot_ok i -> env_ok i (envs_at k i)) /\
  (forall e, env_free_list k = Some e -> slot_ok e).
Definition live (k : kern) : Prop :=
  forall c, curenv k = Some c -> slot_ok c /\ env_status (envs_at k c) <> ENV_FREE.
Definition wf (k : kern) : Prop := tbl k /\ live k.

(** How the kernel may be left. *)
Definition left_ok (x : leave) (k : kern) : Prop :=
  wf k /\
  match x with
  | Run e => curenv k = Some e /\ klocked k = false
  | Halt => curenv k = None
  | Monitor => True
  end.

(** The messages of the panics a trap can reach. *)
Definition panics : list string :=
  ["kernel-mode page faults"; "unhandled trap in kernel"; "page_free : pp->pp_ref is nonzero!";
   "page_free : pp->pp_link is not NULL!"]%string.
(** A frame number outside the page array in a page table, [sys_page_alloc]
    without a free page, [sys_cputs] of an endless string. *)
Definition crashes : list string :=
  ["page out of range"; "page_free(NULL)"; "the string never ends"]%string.

Definition holds {A} (m : K A) (Q : A -> kern -> Prop) (k : kern) : Prop :=
  match m k with
  | Ret a k' => Q a k'
  | Exit x k' => left_ok x k'
  | Panic why => why ∈ panics
  | Crash why => why ∈ crashes
  | NoFuel => False
  end.

(** [quiet m]: [m] returns, panics or crashes and touches neither the environments nor
    the current one. *)
Definition same_envs (k k' : kern) : Prop :=
  envs k' = envs k /\ curenv k' = curenv k /\ env_free_list k' = env_free_list k.
Definition quiet {A} (m : K A) : Prop := forall k,
  match m k with
  | Ret _ k' => same_envs k k'
  | Exit _ _ | NoFuel => False
  | Panic why => why ∈ panics
  | Crash why => why ∈ crashes
  end.

(** ** Rules *)
Section rules.
Implicit Types (k : kern).

Lemma holds_ret {A} (a : A) Q k : Q a k -> holds (mret a) Q k.
Proof. done. Qed.
Lemma holds_bind {A B} (m : K A) (f : A -> K B) Q k :
  holds m (fun a k' => holds (f a) Q k') k -> holds (m ≫= f) Q k.
Proof. unfold holds, mbind, ST_bind, st_bind. by destruct (m k). Qed.
Lemma holds_mono {A} (m : K A) (Q Q' : A -> kern -> Prop) k :
  holds m Q k -> (forall a k', Q a k' -> Q' a k') -> holds m Q' k.
Proof. unfold holds. destruct (m k); auto. Qed.
Lemma holds_get Q k : Q k k -> holds (st_get : K kern) Q k.
Proof. done. Qed.
Lemma holds_kget {A} (f : kern -> A) Q k : Q (f k) k -> holds (kget f) Q k.
Proof. done. Qed.
Lemma holds_get_env i Q k : Q (envs_at k i) k -> holds (get_env i) Q k.
Proof. done. Qed.
Lemma holds_kset (f : kern -> kern) Q k : Q tt (f k) -> holds (kset f) Q k.
Proof. done. Qed.
Lemma holds_exit {A} x (Q : A -> kern -> Prop) k : left_ok x k -> holds (st_exit x) Q k.
Proof. done. Qed.
Lemma holds_crash {A} why (Q : A -> kern -> Prop) k : why ∈ crashes -> holds (st_crash why) Q k.
Proof. intros H. exact H. Qed.
Lemma holds_panic {A} why (Q : A -> kern -> Prop) k : why ∈ panics -> holds (st_panic why) Q k.
Proof. intros H. exact H. Qed.
Lemma holds_quiet {A} (m : K A) Q k :
  quiet m -> (forall a k', same_envs k k' -> Q a k') -> holds m Q k.
Proof. intros Hm HQ. specialize (Hm k). unfold holds. destruct (m k); auto; done. Qed.
Lemma holds_for {R} (I : kern -> Prop) n i (body : Z -> K (option R)) k :
  I k -> (forall j k', I k' -> holds (body j) (fun _ k'' => I k'') k') ->
  holds (st_for n i body) (fun _ k' => I k') k.
Proof.
  intros HI Hb. revert i k HI. induction n as [|n IH]; intros i k HI; [exact HI|].
  cbn [st_for]. apply holds_bind. eapply holds_mono; [by apply Hb|].
  intros [r|] k' Hk'; [exact Hk'|by apply IH].
Qed.

Lemma same_envs_refl k : same_envs k k.
Proof. done. Qed.
Lemma same_envs_trans k1 k2 k3 : same_envs k1 k2 -> same_envs k2 k3 -> same_envs k1 k3.
Proof. unfold same_envs. intuition congruence. Qed.

Lemma quiet_ret {A} (a : A) : quiet (mret a : K A).
Proof. done. Qed.
Lemma quiet_bind {A B} (m : K A) (f : A -> K B) :
  quiet m -> (forall a, quiet (f a)) -> quiet (m ≫= f).
Proof.
  intros Hm Hf k. specialize (Hm k). unfold mbind, ST_bind, st_bind.
  destruct (m k) as [a k'| | | |]; try done. specialize (Hf a k').
  destruct (f a k'); try done. by eapply same_envs_trans.
Qed.
Lemma quiet_kget {A} (f : kern -> A) : quiet (kget f).
Proof. done. Qed.
Lemma quiet_get : quiet (st_get : K kern).
Proof. done. Qed.
Lemma quiet_kset (f : kern -> kern) : (forall k, same_envs k (f k)) -> quiet (kset f).
Proof. done. Qed.
Lemma quiet_crash {A} why : why ∈ crashes -> quiet (st_crash why : K A).
Proof. intros H k. exact H. Qed.
Lemma quiet_panic {A} why : why ∈ panics -> quiet (st_panic why : K A).
Proof. intros H k. exact H. Qed.
Lemma quiet_for {R} n i (body : Z -> K (option R)) :
  (forall j, quiet (body j)) -> quiet (st_for n i body).
Proof.
  intros Hb. revert i. induction n as [|n IH]; intros i; [done|].
  cbn [st_for]. apply quiet_bind; [done|]. intros [r|]; [done|apply IH].
Qed.
End rules.

Create HintDb quiet discriminated.
#[export] Hint Constants Opaque : quiet.
#[export] Hint Resolve quiet_ret quiet_kget quiet_get : quiet.

(** One of the listed messages. *)
Ltac listed := apply (bool_decide_eq_true_1 _); vm_compute; reflexivity.

(** Decomposes a computation; what remains is found in the database. *)
Ltac quiet_step :=
  lazymatch goal with
  | |- quiet (_ ≫= _) => apply quiet_bind; [|intros ?]
  | |- quiet (mret _) => apply quiet_ret
  | |- quiet (st_crash _) => apply quiet_crash; listed
  | |- quiet (st_panic _) => apply quiet_panic; listed
  | |- quiet (st_for _ _ _) => apply quiet_for; intros ?
  | |- quiet (kset _) => apply quiet_kset; intros ?; solve [split_and!; reflexivity]
  | |- quiet (st_when ?b _) => destruct b; cbn [st_when]
  | |- quiet (match ?x with _ => _ end) => destruct x
  | |- quiet _ => solve [auto 1 with quiet nocore]
  end.
Ltac quiet := repeat quiet_step.

Lemma quiet_get_env i : quiet (get_env i).
Proof. apply quiet_kget. Qed.
Lemma quiet_get_page i : quiet (get_page i).
Proof. unfold get_page. quiet. Qed.
#[export] Hint Resolve quiet_get_env quiet_get_page : quiet.
Lemma quiet_set_page i f : quiet (set_page i f).
Proof. unfold set_page. quiet. Qed.
Lemma quiet_pload a : quiet (pload a).
Proof. apply quiet_kget. Qed.
Lemma quiet_pstore a v : quiet (pstore a v).
Proof. unfold pstore. quiet. Qed.
Lemma quiet_kmemset a c n : quiet (kmemset a c n).
Proof. unfold kmemset. quiet. Qed.
Lemma quiet_kmemcpy a c n : quiet (kmemcpy a c n).
Proof. unfold kmemcpy. quiet. Qed.
Lemma quiet_kprint fmt args : quiet (kprint fmt args).
Proof. unfold kprint. quiet. Qed.
Lemma quiet_kprintln fmt args : quiet (kprintln fmt args).
Proof. apply quiet_kprint. Qed.
Lemma quiet_kread8 va : quiet (kread8 va).
Proof. unfold kread8. quiet. Qed.
Lemma quiet_kwrite8 va v : quiet (kwrite8 va v).
Proof. unfold kwrite8. quiet. Qed.
#[export] Hint Resolve quiet_set_page quiet_pload quiet_pstore quiet_kmemset quiet_kmemcpy
  quiet_kprint quiet_kprintln quiet_kread8 quiet_kwrite8 : quiet.
Lemma quiet_kread32 va : quiet (kread32 va).
Proof. unfold kread32. quiet. Qed.
Lemma quiet_kwrite32 va v : quiet (kwrite32 va v).
Proof. unfold kwrite32. quiet. Qed.
#[export] Hint Resolve quiet_kread32 quiet_kwrite32 : quiet.

(** ** The paging functions are quiet *)
Lemma quiet_page_alloc f : quiet (page_alloc f).
Proof. unfold page_alloc. quiet. Qed.
Lemma quiet_page_free pp : quiet (page_free pp).
Proof. unfold page_free. quiet. Qed.
#[export] Hint Resolve quiet_page_alloc quiet_page_free : quiet.
Lemma quiet_page_decref pp : quiet (page_decref pp).
Proof. unfold page_decref. quiet. Qed.
Lemma quiet_pgdir_walk pd va c : quiet (pgdir_walk pd va c).
Proof. unfold pgdir_walk. quiet. Qed.
Lemma quiet_tlb_invalidate pd va : quiet (tlb_invalidate pd va).
Proof. unfold tlb_invalidate. quiet. Qed.
#[export] Hint Resolve quiet_page_decref quiet_pgdir_walk quiet_tlb_invalidate : quiet.
Lemma quiet_page_lookup pd va : quiet (page_lookup pd va).
Proof. unfold page_lookup. quiet. Qed.
#[export] Hint Resolve quiet_page_lookup : quiet.
Lemma quiet_page_remove pd va : quiet (page_remove pd va).
Proof. unfold page_remove. quiet. Qed.
#[export] Hint Resolve quiet_page_remove : quiet.
Lemma quiet_page_insert pd pp va perm : quiet (page_insert pd pp va perm).
Proof. unfold page_insert. quiet. Qed.
Lemma quiet_env_free_tables dir : quiet (env_free_tables dir).
Proof. unfold env_free_tables, env_free_table. quiet. Qed.
#[export] Hint Resolve quiet_page_insert quiet_env_free_tables : quiet.
Lemma quiet_print_trapframe p : quiet (print_trapframe p).
Proof. unfold print_trapframe, print_regs, get_tf. quiet. Qed.
Lemma quiet_read_tf va : quiet (read_tf va).
Proof. unfold read_tf, read_regs. quiet. Qed.
Lemma quiet_write_regs va r : quiet (write_regs va r).
Proof. unfold write_regs. quiet. Qed.
Lemma quiet_cputs_loop n va p acc : quiet (cputs_loop n va p acc).
Proof. revert va p acc. induction n; intros; cbn [cputs_loop]; quiet. Qed.
#[export] Hint Resolve quiet_cputs_loop : quiet.
Lemma quiet_sys_cputs va n : quiet (sys_cputs va n).
Proof. unfold sys_cputs. quiet. Qed.
#[export] Hint Resolve quiet_sys_cputs quiet_print_trapframe quiet_read_tf quiet_write_regs : quiet.

(** ** Changing a slot *)

Lemma holds_set_env i f Q k :
  Q tt (put_env k i (f (envs_at k i))) -> holds (set_env i f) Q k.
Proof. done. Qed.
Lemma tbl_same k k' : same_envs k k' -> tbl k -> tbl k'.
Proof.
  intros (He & _ & Hf) [H1 H2]. split; [|by rewrite Hf].
  intros i Hi. rewrite (envs_at_same k k' i He). by apply H1.
Qed.
Lemma wf_same k k' : same_envs k k' -> wf k -> wf k'.
Proof.
  intros Hs [Ht Hl]. split; [by eapply tbl_same|]. destruct Hs as (He & Hc & _).
  intros c. rewrite Hc, (envs_at_same k k' c He). apply Hl.
Qed.
Lemma env_ok_change i ev ev' : env_ok i ev ->
  env_id ev' = env_id ev -> env_link ev' = env_link ev ->
  ENV_FREE <= env_status ev' <= ENV_NOT_RUNNABLE ->
  (env_status ev' <> ENV_FREE -> env_status ev <> ENV_FREE) -> env_ok i ev'.
Proof.
  intros [H1 H2 H3 H4] Hid Hln Hst Hfr. split; [done|by rewrite Hid| |by rewrite Hln].
  rewrite Hid. auto.
Qed.
Lemma tbl_put k i ev : tbl k -> env_ok i ev -> tbl (put_env k i ev).
Proof.
  intros [H1 H2] Hev. split; [|exact H2]. intros j Hj. rewrite envs_at_put_env.
  case_decide; [by subst|by apply H1].
Qed.
Lemma live_put k i ev : live k -> env_status ev <> ENV_FREE -> live (put_env k i ev).
Proof.
  intros Hl Hev c Hc. rewrite envs_at_put_env. destruct (Hl c Hc).
  split; [done|]. by case_decide.
Qed.
(** The common case: a live environment keeps its identity and stays live. *)
Lemma wf_put k i ev : wf k -> slot_ok i -> env_status (envs_at k i) <> ENV_FREE ->
  env_id ev = env_id (envs_at k i) -> env_link ev = env_link (envs_at k i) ->
  ENV_DYING <= env_status ev <= ENV_NOT_RUNNABLE -> wf (put_env k i ev).
Proof.
  intros [Ht Hl] Hi Hfr Hid Hln Hst. unfold ENV_DYING, ENV_NOT_RUNNABLE in Hst. split.
  - apply tbl_put; [done|]. eapply env_ok_change; [by apply Ht|done|done| |done].
    unfold ENV_FREE, ENV_NOT_RUNNABLE. lia.
  - apply live_put; [done|]. unfold ENV_FREE. lia.
Qed.
Lemma wf_status k i : wf k -> slot_ok i -> env_status (envs_at k i) <> ENV_FREE ->
  ENV_DYING <= env_status (envs_at k i) <= ENV_NOT_RUNNABLE.
Proof.
  intros [[Ht _] _] Hi Hfr. destruct (Ht i Hi) as [H _ _ _].
  unfold ENV_FREE, ENV_DYING, ENV_NOT_RUNNABLE in *. lia.
Qed.
(** Writing fields other than the status. *)
Lemma wf_put_fields k i ev : wf k -> slot_ok i ->
  env_id ev = env_id (envs_at k i) -> env_link ev = env_link (envs_at k i) ->
  env_status ev = env_status (envs_at k i) -> wf (put_env k i ev).
Proof.
  intros [Ht Hl] Hi Hid Hln Hst. split.
  - apply tbl_put; [done|]. eapply env_ok_change; [by apply Ht|done|done| |by rewrite Hst].
    rewrite Hst. by destruct (proj1 Ht i Hi).
  - intros c Hc. rewrite envs_at_put_env. destruct (Hl c Hc). split; [done|].
    case_decide; [|done]. subst. by rewrite Hst.
Qed.

(** ** Running and scheduling *)

Lemma wf_nocur k k' : wf k -> envs k' = envs k -> env_free_list k' = env_free_list k ->
  curenv k' = None -> wf k'.
Proof.
  intros [[H1 H2] _] He Hf Hc. split; [|by intros c; rewrite Hc].
  split; [|by rewrite Hf]. intros i Hi. rewrite (envs_at_same k k' i He). by apply H1.
Qed.
Lemma wf_stopped k e : wf k -> wf (stopped k e).
Proof.
  intros Hw. unfold stopped. destruct (curenv k) as [c|] eqn:Hc; [|done].
  case_bool_decide; [done|]. destruct (Z.eqb_spec (env_status (envs_at k c)) ENV_RUNNING) as [E|]; [|done].
  destruct (proj2 Hw c Hc) as [Hsl Hfr]. apply (wf_put k c); done.
Qed.
Lemma stopped_nonfree k e i :
  env_status (envs_at k i) <> ENV_FREE -> env_status (envs_at (stopped k e) i) <> ENV_FREE.
Proof.
  intros H. unfold stopped. destruct (curenv k) as [c|]; [|done]. case_bool_decide; [done|].
  destruct (_ =? _); [|done].
  change (env_status (envs_at (put_env k c ((envs_at k c) {{ env_status := ENV_RUNNABLE }})) i) <> ENV_FREE).
  rewrite envs_at_put_env. by case_decide.
Qed.
Lemma wf_running k e : wf k -> slot_ok e -> env_status (envs_at k e) <> ENV_FREE ->
  left_ok (Run e) (running k e).
Proof.
  intros Hw He Hfr. split; [|split; [apply running_curenv|]].
  2:{ unfold running. by destruct k. }
  unfold running. case_bool_decide; [by destruct Hw|].
  pose proof (wf_stopped k e Hw) as Hs. pose proof (stopped_nonfree k e e Hfr) as Hfs.
  assert (Hp : wf (put_env (stopped k e) e ((envs_at (stopped k e) e)
     {{ env_status := ENV_RUNNING; env_runs ::= fun r => u32 (r + 1) }}))) by by apply wf_put.
  split; [apply Hp|]. intros c Hc.
  assert (c = e) as -> by (unfold started in Hc; ksimp; congruence).
  split; [done|].
  change (env_status (envs_at (put_env (stopped k e) e ((envs_at (stopped k e) e)
     {{ env_status := ENV_RUNNING; env_runs ::= fun r => u32 (r + 1) }})) e) <> ENV_FREE).
  by rewrite envs_at_put_env, decide_True.
Qed.
Lemma choice_left_ok k x k' : wf k -> choice k x k' -> left_ok x k'.
Proof.
  intros Hw [i Hi Hs _|c _ Hc Hs|j _ _ _ _|_ _].
  - apply wf_running; [done|by apply Z.mod_pos_bound|]. unfold status in Hs. by rewrite Hs.
  - destruct (proj2 Hw c Hc). by apply wf_running.
  - split; [|done]. by eapply wf_nocur.
  - split; [|done]. by eapply wf_same.
Qed.
(** [sched_yield] does not return: any postcondition holds. *)
Lemma holds_sched_yield {A} (Q : A -> kern -> Prop) k : wf k -> holds sched_yield Q k.
Proof.
  intros Hw. destruct (sched_yield_choice (A := A) k) as (x & k' & E & Hc).
  unfold holds. rewrite E. by eapply choice_left_ok.
Qed.
Lemma holds_env_run {A} e (Q : A -> kern -> Prop) k : wf k -> slot_ok e ->
  env_status (envs_at k e) <> ENV_FREE -> holds (env_run e) Q k.
Proof. intros Hw He Hfr. unfold holds. rewrite env_run_eq. by apply wf_running. Qed.

(** ** Environments *)

(** Symbolic execution under [holds]: quiet computations are skipped. *)
Ltac hstep :=
  lazymatch goal with
  | |- holds (_ ≫= _) _ _ => apply holds_bind
  | |- holds (mret _) _ _ => apply holds_ret
  | |- holds st_get _ _ => apply holds_get
  | |- holds (kget _) _ _ => apply holds_kget
  | |- holds (get_env _) _ _ => apply holds_get_env
  | |- holds (set_env _ _) _ _ => apply holds_set_env
  | |- holds (kset _) _ _ => apply holds_kset
  | |- holds (st_crash _) _ _ => apply holds_crash; listed
  | |- holds (st_panic _) _ _ => apply holds_panic; listed
  | |- holds (st_exit _) _ _ => apply holds_exit
  | |- holds sched_yield _ _ => apply holds_sched_yield
  | |- holds (st_when ?b _) _ _ => destruct b; cbn [st_when]
  | |- holds (match ?x with _ => _ end) _ _ => let E := fresh "Hb" in destruct x eqn:E
  end; cbv beta.
Ltac hsteps := repeat hstep.
(** Skips one quiet computation. *)
Ltac hquiet := eapply holds_quiet; [solve [quiet]|]; intros ? ? ?.

(** A current environment stays one. *)
Ltac cur :=
  repeat match goal with
  | |- curenv ?x <> None => is_var x; unfold x
  | |- curenv (put_env ?k _ _) <> None => change (curenv k <> None)
  | H : same_envs _ ?k |- curenv ?k <> None => rewrite (proj1 (proj2 H))
  end; assumption.

Lemma holds_envid2env envid chk Q k : wf k -> curenv k <> None -> Q None k ->
  (forall e, slot_ok e -> env_status (envs_at k e) <> ENV_FREE -> Q (Some (Some e)) k) ->
  holds (envid2env envid chk) Q k.
Proof.
  intros [Ht Hl] HC HN HS. unfold envid2env. hstep. hstep.
  destruct (curenv k) as [c|] eqn:Hc; [|done].
  destruct (envid =? 0); [apply holds_ret; destruct (Hl c Hc); auto|].
  hsteps; try done; zbool; apply HS; try done; apply ENVX_bound.
Qed.
Lemma holds_with_env {A} envid chk (err : A) body Q k : wf k -> curenv k <> None -> Q err k ->
  (forall e, slot_ok e -> env_status (envs_at k e) <> ENV_FREE -> holds (body e) Q k) ->
  holds (with_env envid chk err body) Q k.
Proof. intros Hw Hc He Hb. unfold with_env. by apply holds_bind, holds_envid2env. Qed.
Lemma holds_the_curenv Q k : wf k -> curenv k <> None ->
  (forall c, curenv k = Some c -> slot_ok c -> env_status (envs_at k c) <> ENV_FREE -> Q c k) ->
  holds the_curenv Q k.
Proof.
  intros [_ Hl] HC HQ. unfold the_curenv. hstep. hstep. destruct (curenv k) as [c|] eqn:Hc; [|done].
  hstep. destruct (Hl c Hc). by apply HQ.
Qed.

Lemma holds_env_free e Q k : tbl k -> slot_ok e ->
  (forall k', tbl k' -> curenv k' = curenv k ->
     (forall j, j <> e -> envs_at k' j = envs_at k j) -> Q tt k') ->
  holds (env_free e) Q k.
Proof.
  intros Ht He HQ. unfold env_free. hstep. hstep. hstep. hstep. hstep. hquiet. hsteps. hquiet. hstep. hquiet.
  hstep. hstep. hstep. hquiet. hsteps.
  assert (Ht1 : tbl k'1) by (by repeat (eapply tbl_same; [eassumption|])).
  assert (Ht2 : tbl k'2).
  { eapply tbl_same; [exact H2|]. apply tbl_put; [done|].
    eapply env_ok_change; [by apply Ht1|done|done| |done]. by destruct (proj1 Ht1 e He). }
  assert (Hs1 : same_envs k k'1) by (by repeat (eapply same_envs_trans; [eassumption|])).
  destruct Hs1 as (He1 & Hc1 & _). destruct H2 as (He2 & Hc2 & _).
  apply HQ.
  - split; [|by intros ? [= <-]].
    apply (tbl_put k'2); [done|]. destruct (proj1 Ht2 e He). split; try done. exact (proj2 Ht2).
  - change (curenv k'2 = curenv k). by rewrite Hc2, <- Hc1.
  - intros j Hj.
    change (envs_at (put_env k'2 e ((envs_at k'2 e) {{ env_status := ENV_FREE; env_link := env_free_list k'2 }})) j
            = envs_at k j).
    rewrite envs_at_put_env, decide_False by done. rewrite (envs_at_same _ _ j He2).
    rewrite envs_at_put_env, decide_False by done. by rewrite (envs_at_same _ _ j He1).
Qed.

Lemma holds_env_destroy e k : wf k -> slot_ok e -> env_status (envs_at k e) <> ENV_FREE ->
  holds (env_destroy e) (fun _ k' => wf k') k.
Proof.
  intros Hw He Hfr. unfold env_destroy. hsteps; zbool.
  - by apply wf_put.
  - eapply holds_env_free; [apply Hw|done|]. intros k' Ht' Hc' Ho'. hsteps.
    + eapply wf_nocur; [|done..]. apply bool_decide_eq_true in Hb0. split; [|by intros c]. exact Ht'.
    + split; [done|]. apply bool_decide_eq_false in Hb0. intros c Hc. rewrite Hc' in Hc, Hb0.
      assert (c <> e) by congruence. rewrite Ho' by done. by apply Hw.
Qed.

Lemma next_id_ok k e : wf k -> slot_ok e ->
  let id := next_env_id (env_id (envs_at k e)) e in 0 < id < 2 ^ 31 /\ ENVX id = e.
Proof.
  intros [Ht _] He. destruct (proj1 Ht e He) as [_ Hid _ _].
  by destruct (next_env_id_spec _ e Hid He) as (? & ? & _).
Qed.
Lemma holds_env_setup_vm e k : wf k -> slot_ok e ->
  holds (env_setup_vm e) (fun _ k' => wf k' /\ curenv k' = curenv k /\ env_free_list k' = env_free_list k) k.
Proof.
  intros Hw He. unfold env_setup_vm. hstep. hquiet. assert (Hw' : wf k') by by eapply wf_same.
  destruct H as (_ & Hc & Hf). hsteps; [|done].
  assert (Hp : wf (put_env k' e ((envs_at k' e) {{ env_pgdir := page2pa z }}))) by by apply wf_put_fields.
  hquiet. hstep. hquiet. hstep. hquiet. hstep.
  assert (Hs : same_envs (put_env k' e ((envs_at k' e) {{ env_pgdir := page2pa z }})) k'2)
    by (by repeat (eapply same_envs_trans; [eassumption|])).
  split; [by eapply wf_same|]. destruct Hs as (_ & Hc2 & Hf2). by rewrite Hc2, Hf2.
Qed.
Lemma holds_env_alloc pid Q k : wf k ->
  (forall r k', wf k' -> curenv k' = curenv k ->
     (forall e, r = inl e -> slot_ok e /\ env_status (envs_at k' e) <> ENV_FREE) -> Q r k') ->
  holds (env_alloc pid) Q k.
Proof.
  intros Hw HQ. unfold env_alloc. hstep. hstep. destruct (env_free_list k) as [e|] eqn:Hf.
  2:{ hstep. by apply HQ. }
  assert (He : slot_ok e) by by apply (proj2 (proj1 Hw)).
  hstep. eapply holds_mono; [by apply holds_env_setup_vm|]. intros r k1 (Hw1 & Hc1 & Hf1).
  hstep. { hstep. by apply HQ. }
  do 4 (apply holds_bind; apply holds_set_env; cbv beta;
        rewrite ?put_env_twice; rewrite ?envs_at_put_env, ?decide_True by done).
  destruct (next_id_ok k1 e Hw1 He) as [Hid Hx].
  match goal with |- context [put_env k1 e ?v] => set (ev := v) end.
  assert (Hp : wf (put_env k1 e ev)).
  { split.
    - apply tbl_put; [apply Hw1|]. destruct (proj1 (proj1 Hw1) e He) as [_ _ _ Hlk].
      split; [done| | |exact Hlk]; change (env_id ev) with (next_env_id (env_id (envs_at k1 e)) e); [lia|].
      intros _. split; [lia|done].
    - by apply live_put; [apply Hw1|]. }
  hsteps. hquiet. hstep. apply HQ.
  - eapply wf_same; [exact H|]. split; [|apply Hp]. split; [apply Hp|].
    apply (proj1 (proj1 Hp) e He).
  - destruct H as (_ & Hc & _). by rewrite Hc.
  - intros e' [= <-]. split; [done|]. destruct H as (Hen & _ & _).
    rewrite (envs_at_same (put_env k1 e ev) k' e Hen). by rewrite envs_at_put_env, decide_True.
Qed.

(** ** System calls *)

(** [m] keeps the invariant, when there is a current environment. *)
Definition keeps {A} (m : K A) : Prop :=
  forall k, wf k -> curenv k <> None -> holds m (fun _ k' => wf k') k.

Lemma keeps_quiet {A} (m : K A) : quiet m -> keeps m.
Proof. intros Hm k Hw _. apply holds_quiet; [done|]. intros a k' Hs. by eapply wf_same. Qed.
Lemma keeps_with_env {A} envid chk (err : A) body :
  (forall e k, wf k -> curenv k <> None -> slot_ok e -> env_status (envs_at k e) <> ENV_FREE ->
     holds (body e) (fun _ k' => wf k') k) -> keeps (with_env envid chk err body).
Proof. intros Hb k Hw HC. apply holds_with_env; auto. Qed.

Lemma keeps_sys_getenvid : keeps sys_getenvid.
Proof. intros k Hw HC. unfold sys_getenvid. hstep. apply holds_the_curenv; [done|cur|]. intros. by hsteps. Qed.
Lemma keeps_sys_env_destroy envid : keeps (sys_env_destroy envid).
Proof.
  apply keeps_with_env. intros e k Hw HC He Hfr. hstep. eapply holds_mono; [by apply holds_env_destroy|].
  intros [] k' Hw'. by hstep.
Qed.
Lemma keeps_sys_exofork : keeps sys_exofork.
Proof.
  intros k Hw HC. unfold sys_exofork. hstep. apply holds_the_curenv; [done|cur|]. intros c Hc Hcs Hcf.
  hstep. hstep. hstep. apply holds_env_alloc; [done|]. intros r k1 Hw1 Hc1 Hr.
  hstep; [|by hstep]. destruct (Hr z) as [Hz Hzf]; [by subst|]. hstep. hstep.
  assert (Hw2 : wf (put_env k1 z ((envs_at k1 z) {{ env_status := ENV_NOT_RUNNABLE }}))) by by apply wf_put.
  set (k2 := put_env k1 z _) in *. hstep. hstep. hstep. hstep.
  assert (Hw3 : wf (put_env k2 z ((envs_at k2 z) {{ env_tf := env_tf (envs_at k2 c) }}))) by by apply wf_put_fields.
  set (k3 := put_env k2 z _) in *. hsteps. by apply wf_put_fields.
Qed.
Lemma keeps_sys_env_set_status envid st : keeps (sys_env_set_status envid st).
Proof.
  unfold sys_env_set_status. destruct (_ && _) eqn:Hst; [apply keeps_quiet; quiet|].
  apply keeps_with_env. intros e k Hw HC He Hfr. hsteps. apply wf_put; try done.
  cbn. unfold constant. zbool. destruct Hst; zbool; subst; done.
Qed.
Lemma keeps_sys_env_set_trapframe envid va : keeps (sys_env_set_trapframe envid va).
Proof.
  apply keeps_with_env. intros e k Hw HC He Hfr. hstep. hquiet.
  assert (Hw1 : wf k') by by eapply wf_same. hstep. hstep.
  assert (Hw2 : wf (put_env k' e ((envs_at k' e) {{ env_tf := a }}))) by by apply wf_put_fields.
  set (k2 := put_env k' e _) in *. hsteps. by apply wf_put_fields.
Qed.
Lemma keeps_sys_env_set_pgfault_upcall envid va : keeps (sys_env_set_pgfault_upcall envid va).
Proof. apply keeps_with_env. intros e k Hw HC He Hfr. hsteps; [done|]. by apply wf_put_fields. Qed.
Lemma keeps_sys_page_alloc envid va perm : keeps (sys_page_alloc envid va perm).
Proof. apply keeps_with_env. intros e k Hw HC He Hfr. by (apply keeps_quiet; [quiet|..]). Qed.
Lemma keeps_sys_page_map s sva d dva perm : keeps (sys_page_map s sva d dva perm).
Proof.
  apply keeps_with_env. intros e k Hw HC He Hfr. apply holds_with_env; [done..|].
  intros e' He' Hfr'. by (apply keeps_quiet; [quiet|..]).
Qed.
Lemma keeps_sys_page_unmap envid va : keeps (sys_page_unmap envid va).
Proof. apply keeps_with_env. intros e k Hw HC He Hfr. by (apply keeps_quiet; [quiet|..]). Qed.

(** Every status is the same in both states. *)
Definition same_status (k k' : kern) : Prop :=
  curenv k' = curenv k /\ forall i, env_status (envs_at k' i) = env_status (envs_at k i).
Ltac cur ::=
  repeat match goal with
  | |- curenv ?x <> None => is_var x; unfold x
  | |- curenv (put_env ?k _ _) <> None => change (curenv k <> None)
  | H : same_envs _ ?k |- curenv ?k <> None => rewrite (proj1 (proj2 H))
  | H : same_status _ ?k |- curenv ?k <> None => rewrite (proj1 H)
  end; assumption.
Lemma same_status_of k k' : same_envs k k' -> same_status k k'.
Proof. intros (He & Hc & _). split; [done|]. intros i. by rewrite (envs_at_same k k' i He). Qed.
Lemma same_status_trans k1 k2 k3 : same_status k1 k2 -> same_status k2 k3 -> same_status k1 k3.
Proof. intros [? H1] [? H2]. split; [congruence|]. intros i. by rewrite H2. Qed.
Lemma same_status_put k e ev : env_status ev = env_status (envs_at k e) -> same_status k (put_env k e ev).
Proof. intros H. split; [done|]. intros i. rewrite envs_at_put_env. case_decide; [by subst|done]. Qed.

Lemma holds_ipc_send_page e va perm k : wf k -> curenv k <> None -> slot_ok e ->
  holds (ipc_send_page e va perm) (fun _ k' => wf k' /\ same_status k k') k.
Proof.
  intros Hw HC He. unfold ipc_send_page. hstep; [by hstep|]. hstep; [by hstep|]. hstep.
  apply holds_the_curenv; [done|cur|]. intros c Hc Hcs Hcf. hstep. hstep. hstep. hquiet.
  assert (Hw1 : wf k') by by eapply wf_same. apply same_status_of in H.
  destruct a as [[pp pte]|]; [|by hstep]. hstep. hquiet.
  assert (Hw2 : wf k'0) by by eapply wf_same. apply same_status_of in H0.
  pose proof (same_status_trans _ _ _ H H0) as Hs. hstep; [by hstep|]. hstep. hstep. hstep; [|by hstep].
  hstep. hquiet. assert (Hw3 : wf k'1) by by eapply wf_same. apply same_status_of in H1.
  pose proof (same_status_trans _ _ _ Hs H1) as Hs1.
  hsteps; (split; [by apply wf_put_fields|]; eapply same_status_trans; [exact Hs1|by apply same_status_put]).
Qed.
Lemma keeps_sys_ipc_try_send envid v va perm : keeps (sys_ipc_try_send envid v va perm).
Proof.
  apply keeps_with_env. intros e k Hw HC He Hfr. hstep. hstep. hstep; [by hstep|]. hstep. hstep.
  assert (Hw1 : wf (put_env k e ((envs_at k e) {{ env_ipc_recving := false }}))) by by apply wf_put_fields.
  assert (Hs1 : same_status k (put_env k e ((envs_at k e) {{ env_ipc_recving := false }})))
    by by apply same_status_put.
  set (k1 := put_env k e _) in *. hstep.
  assert (Hp : holds (if va <? UTOP then ipc_send_page e va perm else mret None)
                 (fun _ k' => wf k' /\ same_status k1 k') k1).
  { hstep; [by apply holds_ipc_send_page|by hstep]. }
  eapply holds_mono; [exact Hp|]. intros r k2 (Hw2 & Hs2). hstep; [by hstep|].
  hstep. apply holds_the_curenv; [done|cur|]. intros c Hc Hcs Hcf. hsteps. apply wf_put; try done.
  destruct (same_status_trans _ _ _ Hs1 Hs2) as [_ Hst]. by rewrite Hst.
Qed.
Lemma keeps_sys_ipc_recv va : keeps (sys_ipc_recv va).
Proof.
  intros k Hw HC. unfold sys_ipc_recv. hstep; [by hstep|]. hstep. apply holds_the_curenv; [done|cur|].
  intros c Hc Hcs Hcf. hsteps. by apply wf_put.
Qed.
Lemma keeps_syscall n a1 a2 a3 a4 a5 : keeps (syscall n a1 a2 a3 a4 a5).
Proof.
  unfold syscall.
  repeat match goal with |- keeps (if ?b then _ else _) => destruct b end;
    auto using keeps_sys_getenvid, keeps_sys_env_destroy, keeps_sys_exofork, keeps_sys_env_set_status,
      keeps_sys_env_set_trapframe, keeps_sys_env_set_pgfault_upcall, keeps_sys_page_alloc,
      keeps_sys_page_map, keeps_sys_page_unmap, keeps_sys_ipc_try_send, keeps_sys_ipc_recv.
  - apply keeps_quiet. quiet.
  - apply keeps_quiet. unfold sys_cgetc. quiet.
  - intros k Hw HC. by apply holds_sched_yield.
  - apply keeps_quiet. quiet.
Qed.

(** ** Traps *)

(** What a trap frame may be for [trap_dispatch]: one saved in an environment,
    or one of the kernel itself, which makes no system calls when no
    environment runs. *)
Definition frame_ok (k : kern) (p : tfptr) : Prop :=
  match p with
  | Saved e => slot_ok e /\ curenv k <> None
  | OnStack tf => tf_cs tf = GD_KT /\ (tf_trapno tf = T_SYSCALL -> curenv k <> None)
  end.
(** A page fault of the kernel is a panic. *)
Lemma keeps_kernel_fault tf k : wf k -> frame_ok k (OnStack tf) ->
  holds (page_fault_handler (OnStack tf)) (fun _ k' => wf k') k.
Proof.
  intros Hw [Hcs _]. unfold page_fault_handler, get_tf. hstep. hstep. hstep. hstep. cbn [tf_of].
  rewrite Hcs. change (Z.land GD_KT 3 =? 0) with true. cbv iota. by hstep.
Qed.
Lemma keeps_page_fault_handler p : keeps (page_fault_handler p).
Proof.
  intros k Hw HC. unfold page_fault_handler. hstep. hstep. hstep. unfold get_tf. hstep. hstep; [by hstep|].
  hstep. apply holds_the_curenv; [done|cur|]. intros c Hc Hcs Hcf. hstep. hstep. hstep. hstep.
  - do 6 (hstep; hquiet).
    assert (Hw1 : wf k'4) by (by repeat (eapply wf_same; [eassumption|])).
    assert (Hs : same_envs k k'4) by (by repeat (eapply same_envs_trans; [eassumption|])).
    hsteps. apply holds_env_run; [by apply wf_put_fields|done|].
    rewrite envs_at_put_env, decide_True by done. by apply (proj2 Hw1); rewrite (proj1 (proj2 Hs)).
  - hstep. hstep. hquiet. hstep. hquiet.
    assert (Hs : same_envs k k'0) by (by eapply same_envs_trans).
    apply holds_env_destroy; [by eapply wf_same|done|]. by rewrite (envs_at_same _ _ c (proj1 Hs)).
Qed.
Lemma holds_trap_dispatch p k : wf k -> frame_ok k p -> holds (trap_dispatch p) (fun _ k' => wf k') k.
Proof.
  intros Hw Hp. unfold trap_dispatch. hstep. unfold get_tf. hstep.
  hstep. { destruct p as [tf|e]; [by apply keeps_kernel_fault|apply keeps_page_fault_handler; [done|exact (proj2 Hp)]]. }
  hstep; [by hstep|]. hstep.
  { assert (HC : curenv k <> None).
    { destruct p as [tf|e]; [|exact (proj2 Hp)]. zbool. by apply (proj2 Hp). }
    hstep. eapply holds_mono; [by apply keeps_syscall|]. intros ret k' Hw'. hsteps; [done|].
    apply wf_put_fields; try done. exact (proj1 Hp). }
  hstep; [apply holds_quiet; [quiet|intros ? ? ?; by eapply wf_same]|]. hstep; [by hstep|].
  hstep; [apply holds_quiet; [unfold kbd_trap; quiet|intros ? ? ?; by eapply wf_same]|].
  hstep; [apply holds_quiet; [unfold serial_trap; quiet|intros ? ? ?; by eapply wf_same]|].
  hstep. hquiet. assert (Hw1 : wf k') by by eapply wf_same. hstep; [by hstep|]. hstep.
  assert (HC : curenv k <> None).
  { destruct p as [tf|e]; [|exact (proj2 Hp)]. destruct Hp as [Hcs _]. zbool. cbn [tf_of] in *. congruence. }
  apply holds_the_curenv; [done|cur|]. intros c Hc Hcs Hcf. by apply holds_env_destroy.
Qed.

(** The first half of [trap]: entering the kernel. *)
Definition trap_entry (tf : Trapframe) : K tfptr :=
  if Z.land (tf_cs tf) 3 =? 3 then
    lock_kernel;;
    c ← the_curenv; cv ← get_env c;
    (if env_status cv =? ENV_DYING then
       env_free c;; kset (fun k => k {{ curenv := None }});; sched_yield (A := unit)
     else mret tt);;
    set_env c (fun ev => ev {{ env_tf := tf }});;
    mret (Saved c)
  else mret (OnStack tf).

(** The next trap after the kernel was left in the way [x]: from user mode
    when it ran an environment; otherwise from the kernel itself (an interrupt
    of the halted processor, a fault of the monitor), which makes no system
    calls. *)
Definition next_trap (x : leave) (tf : Trapframe) : Prop :=
  match x with
  | Run _ => Z.land (tf_cs tf) 3 = 3
  | Halt | Monitor => tf_cs tf = GD_KT /\ tf_trapno tf <> T_SYSCALL
  end.
Lemma holds_trap_entry x tf k : left_ok x k -> next_trap x tf ->
  holds (trap_entry tf) (fun p k' => wf k' /\ frame_ok k' p) k.
Proof.
  intros [Hw Hx] Hn. unfold trap_entry. destruct x as [e| |]; cbn [next_trap] in Hn.
  2,3: destruct Hn as [Hcs Hno]; rewrite Hcs; change (Z.land GD_KT 3 =? 3) with false; cbv iota; hstep;
    (split; [exact Hw|]); split; [exact Hcs|by intros E].
  destruct Hx as [Hcur Hlk]. rewrite Hn. change (3 =? 3) with true. cbv iota.
  assert (HC : curenv k <> None) by congruence.
  hstep. unfold lock_kernel. hstep. hstep. rewrite Hlk. hstep. hstep.
  apply holds_the_curenv; [done|exact HC|]. intros c Hc Hcs Hcf. hstep. hstep. hstep. hstep.
  - hstep. apply holds_env_free; [apply Hw|done|]. intros k' Ht' _ _. hsteps.
    split; [exact Ht'|by intros ?].
  - hsteps. split; [by apply wf_put_fields|]. split; [done|]. cur.
Qed.

(** C4.  The kernel's invariant.  Let the kernel have been left in order - it
    runs the current environment with the kernel lock free, it has halted
    without a current environment, or it is in the monitor - and let the next
    trap come from where it was left.  Then [trap] never returns to the code it
    interrupted, never waits for the lock for ever, never uses a null [curenv];
    it leaves the kernel in order again: every slot of the environment table
    has one of the five statuses and a 31-bit identifier, which names its slot
    when the environment exists; free slots link to slots; the current
    environment exists, is the one that is run, with the lock released, and
    there is none on the halted processor.  The exceptions are listed: a panic
    with one of the messages [panics] (a fault in kernel mode, an unexpected
    trap in kernel mode, a page freed that is in use), and three defects of the
    code ([crashes]): a page table that maps memory beyond the page array,
    [sys_page_alloc] without a free page, [sys_cputs] of an endless string. *)
Theorem trap_keeps_invariant (x : leave) (k : kern) (tf : Trapframe) :
  left_ok x k -> next_trap x tf ->
  match trap tf k with
  | Ret _ _ => False
  | Exit y k' => left_ok y k'
  | Panic why => why ∈ panics
  | Crash why => why ∈ crashes
  | NoFuel => False
  end.
Proof.
  intros Hk Hn. enough (H : holds (trap tf) (fun _ _ => False) k) by exact H.
  unfold trap. hstep. eapply holds_mono; [by apply (holds_trap_entry x)|]. intros p k1 (Hw1 & Hp).
  hstep. eapply holds_mono; [by apply holds_trap_dispatch|]. intros [] k2 Hw2. hsteps; [|done..].
  destruct (proj2 Hw2 _ Hb). by apply holds_env_run.
Qed.

(** ** [env_init] *)

(** The slot [i] of a fresh table. *)
Definition init_env (old : Env) (i : Z) : Env :=
  old {{ env_id := 0; env_status := ENV_FREE; env_link := if i + 1 <? NENV then Some (i + 1) else None }}.
Definition init_upto (n : Z) (k0 k : kern) : Prop :=
  (forall i, n <= i < NENV -> envs_at k i = init_env (envs_at k0 i) i) /\
  (forall i, i < n -> envs_at k i = envs_at k0 i) /\
  env_free_list k = (if n <? NENV then Some n else None) /\
  curenv k = curenv k0 /\ pages k = pages k0 /\ pmem k = pmem k0.
Lemma env_init_loop_ok n k0 k : Z.of_nat n <= NENV -> init_upto (Z.of_nat n) k0 k ->
  exists k', env_init_loop n k = Ret tt k' /\ init_upto 0 k0 k'.
Proof.
  revert k. induction n as [|n IH]; intros k Hn (Hhi & Hlo & Hf & Hc & Hpg & Hm).
  { exists k. done. }
  cbn [env_init_loop]. set (i := Z.of_nat n) in *. set (ev := init_env (envs_at k i) i).
  assert (Hstep : (fl ← kget env_free_list;
      set_env i (fun e => e {{ env_id := 0; env_status := ENV_FREE; env_link := fl }});;
      kset (fun k => k {{ env_free_list := Some i }})) k =
      Ret tt ((put_env k i ev) {{ env_free_list := Some i }})).
  { unfold set_env. krun. rewrite Hf. unfold ev, init_env.
    by replace (Z.of_nat (S n)) with (i + 1) by lia. }
  destruct (IH ((put_env k i ev) {{ env_free_list := Some i }})) as (k' & E & Hk'); [lia| |].
  - split_and!; try done.
    + intros j Hj. change (envs_at (put_env k i ev) j = init_env (envs_at k0 j) j).
      rewrite envs_at_put_env. case_decide as Hji.
      * subst j. unfold ev. by rewrite (Hlo i) by lia.
      * apply Hhi. lia.
    + intros j Hj. change (envs_at (put_env k i ev) j = envs_at k0 j).
      rewrite envs_at_put_env, decide_False by lia. apply Hlo. lia.
    + by rewrite (proj2 (Z.ltb_lt i NENV)) by lia.
  - exists k'. split; [|done]. rewrite <- E. unfold mbind, ST_bind, st_bind in Hstep |- *.
    destruct (kget env_free_list k) as [fl k1| | | |]; [|done..].
    destruct (set_env i _ k1) as [[] k2| | | |]; [|done..].
    destruct (kset _ k2) as [[] k3| | | |]; [|done..]. by injection Hstep as ->.
Qed.

(** C27.  [env_init] threads the whole environment table into the free list in
    order: slot 0 first, every slot FREE with identifier 0 and linked to the
    next, the last to none; the state it leaves satisfies the kernel's
    invariant. *)
Theorem env_init_builds (k : kern) :
  env_free_list k = None -> curenv k = None ->
  exists k', env_init k = Ret tt k' /\ wf k' /\ env_free_list k' = Some 0 /\
    (forall i, 0 <= i < NENV ->
       env_status (envs_at k' i) = ENV_FREE /\ env_id (envs_at k' i) = 0 /\
       env_link (envs_at k' i) = if decide (i = NENV - 1) then None else Some (i + 1)) /\
    pages k' = pages k /\ pmem k' = pmem k.
Proof.
  intros Hf Hc. destruct (env_init_loop_ok (Z.to_nat NENV) k k) as (k' & E & Hhi & _ & Hf' & Hc' & Hpg & Hm).
  - done.
  - change (Z.of_nat (Z.to_nat NENV)) with NENV. split_and!; try done. intros i Hi. lia.
  - exists k'. split; [exact E|]. clear E. split; [split; [split|]|split; [done|split; [|done]]].
    + intros i Hi. rewrite Hhi by exact Hi. split; [done|done|done|].
      intros j. unfold init_env. cbn. unfold constant. destruct (Z.ltb_spec (i + 1) NENV); [|done].
      intros [= <-]. unfold slot_ok in *. lia.
    + rewrite Hf'. change (0 <? NENV) with true. by intros e [= <-].
    + intros c Hcc. congruence.
    + intros i Hi. rewrite Hhi by exact Hi. split; [done|]. split; [done|].
      cbn. unfold constant, NENV in *. case_decide.
      * by rewrite (proj2 (Z.ltb_ge _ _)) by lia.
      * by rewrite (proj2 (Z.ltb_lt _ _)) by lia.
Qed.

(** ** Examples *)
Lemma env_init_builds_witness :
  exists k', env_init small_kern = Ret tt k' /\ wf k' /\ env_free_list k' = Some 0.
Proof.
  destruct (env_init_builds small_kern eq_refl eq_refl) as (k' & E & Hw & Hf & _).
  exists k'. split; [exact E|]. split; [exact Hw|exact Hf].
Defined.

(** A breakpoint in environment 0 of [three_envs] enters the monitor; a
    [sys_yield] runs environment 1. *)
Lemma wf_three_envs : wf (three_envs ENV_RUNNING).
Proof.
  split.
  - split; [|by intros e [= <-]]. intros i Hi.
    destruct (decide (i = 0)) as [->|]; [by split|].
    destruct (decide (i = 1)) as [->|]; [by split|].
    destruct (decide (i = 2)) as [->|]; [by split|].
    assert (E : envs_at (three_envs ENV_RUNNING) i = env0).
    { unfold envs_at, three_envs. ksimp. by rewrite !lookup_insert_ne, lookup_singleton_ne by lia. }
    by rewrite E.
  - intros c [= <-]. done.
Qed.
Definition yield_frame : Trapframe :=
  fresh_tf {{ tf_trapno := T_SYSCALL; tf_regs := regs0 {{ reg_eax := SYS_yield }} }}.
Lemma trap_keeps_invariant_witness :
  exists k', trap yield_frame (three_envs ENV_RUNNING) = Exit (Run 1) k' /\ left_ok (Run 1) k'.
Proof.
  assert (Hl : left_ok (Run 0) (three_envs ENV_RUNNING)) by (split; [exact wf_three_envs|by split]).
  pose proof (trap_keeps_invariant (Run 0) (three_envs ENV_RUNNING) yield_frame Hl eq_refl) as H.
  assert (Hm : match trap yield_frame (three_envs ENV_RUNNING) with
               | Exit x _ => Some x | _ => None end = Some (Run 1)) by (vm_compute; reflexivity).
  destruct (trap yield_frame (three_envs ENV_RUNNING)) as [a s|x s|m|w|]; [destruct H| |discriminate Hm..].
  injection Hm as ->. exists s. split; [reflexivity|exact H].
Defined.
