(* ===== verification/TrapProps.v ===== *)
(** * System calls and page faults: theorems

    The outcomes of the messages between environments, the errors of the calls
    that name an environment, and the page-fault upcall. *)
From S2P Require Import Prelude Layout Mem CString Printf Console Kern Pmap PmapFree Vm EnvMod EnvProps TrapMod KernInv.

(** ** Runs of short computations *)
Lemma the_curenv_eq k c : curenv k = Some c -> the_curenv k = Ret c k.
Proof. intros Hc. unfold the_curenv. krun. by rewrite Hc. Qed.
Lemma with_env_eq {A} envid chk (err : A) body k r :
  envid2env envid chk k = Ret r k ->
  with_env envid chk err body k =
  match r with
  | None => Ret err k
  | Some None => Crash "curenv is null"
  | Some (Some e) => body e k
  end.
Proof. intros E. unfold with_env. krun. rewrite E. by destruct r as [[e|]|]. Qed.
(** The identifier of an existing environment resolves to its slot. *)
Lemma envid2env_id k e : wf k -> slot_ok e -> env_status (envs_at k e) <> ENV_FREE ->
  envid2env (env_id (envs_at k e)) false k = Ret (Some (Some e)) k.
Proof.
  intros [[Ht _] _] He Hfr. destruct (Ht e He) as [_ _ Hs _]. destruct (Hs Hfr) as [Hid Hx].
  unfold envid2env. krun. rewrite (proj2 (Z.eqb_neq _ 0)) by lia. rewrite Hx.
  rewrite (proj2 (Z.eqb_neq _ _) Hfr), Z.eqb_refl. done.
Qed.

(** ** Messages *)

(** The receiver after [sys_ipc_recv], and after a value has been sent to it. *)
Definition receiving (ev : Env) (dstva : Z) : Env :=
  ev {{ env_ipc_recving := true; env_ipc_dstva := dstva; env_status := ENV_NOT_RUNNABLE }}.
Definition delivered (ev : Env) (from value : Z) : Env :=
  ev {{ env_ipc_recving := false; env_ipc_from := from; env_ipc_value := value;
        env_status := ENV_RUNNABLE; env_tf -> tf_regs -> reg_eax := 0 }}.

Lemma ipc_send_value k c e envid value srcva perm :
  curenv k = Some c -> c <> e -> envid2env envid false k = Ret (Some (Some e)) k ->
  env_ipc_recving (envs_at k e) = true -> UTOP <= srcva ->
  sys_ipc_try_send envid value srcva perm k =
  Ret 0 (put_env k e (delivered (envs_at k e) (env_id (envs_at k c)) value)).
Proof.
  intros Hc Hne He Hr Hs. unfold sys_ipc_try_send. rewrite (with_env_eq _ _ _ _ _ _ He).
  krun. rewrite Hr. cbn [negb]. cbv iota. rewrite (proj2 (Z.ltb_ge _ _) Hs).
  set (k1 := put_env k e ((envs_at k e) {{ env_ipc_recving := false }})).
  change (k {{ envs := <[e := (envs_at k e) {{ env_ipc_recving := false }}]> (envs k) }}) with k1.
  rewrite (the_curenv_eq k1 c Hc).
  assert (Hk1 : envs_at k1 c = envs_at k c) by (unfold k1; by rewrite envs_at_put_env, decide_False).
  assert (Hk2 : envs_at k1 e = (envs_at k e) {{ env_ipc_recving := false }})
    by (unfold k1; by rewrite envs_at_put_env, decide_True).
  cbv iota. rewrite Hk1, Hk2. f_equal. unfold k1, put_env. destruct k as [k1' k2' k3' k4' k5' k6' k7' k8' en].
  ksimp. by rewrite insert_insert_eq.
Qed.

(** The scheduler leaves a stopped current environment alone. *)
Lemma stopped_at k e i : curenv k = Some i -> status k i <> ENV_RUNNING ->
  envs_at (stopped k e) i = envs_at k i.
Proof.
  intros Hc Hs. unfold stopped. rewrite Hc. case_bool_decide; [done|].
  unfold status in Hs. by rewrite (proj2 (Z.eqb_neq _ _) Hs).
Qed.
Lemma running_at k e i : curenv k = Some i -> status k i <> ENV_RUNNING -> e <> i ->
  envs_at (running k e) i = envs_at k i.
Proof.
  intros Hc Hs Hne. unfold running. rewrite bool_decide_false by congruence.
  change (envs_at (put_env (stopped k e) e ((envs_at (stopped k e) e)
     {{ env_status := ENV_RUNNING; env_runs ::= fun r => u32 (r + 1) }})) i = envs_at k i).
  rewrite envs_at_put_env, decide_False by done. by apply stopped_at.
Qed.
Lemma choice_keeps k x k' c : choice k x k' -> curenv k = Some c ->
  status k c = ENV_NOT_RUNNABLE -> x <> Run c /\ envs_at k' c = envs_at k c.
Proof.
  intros [i Hi Hs _|e _ He Hs|j _ _ _ _|_ _] Hc Hst; [| |by split..].
  - assert ((sched_start k + i) mod NENV <> c) by (intros E; by rewrite E, Hst in Hs).
    split; [congruence|]. apply running_at; [done|by rewrite Hst|done].
  - assert (e = c) as -> by congruence. by rewrite Hst in Hs.
Qed.

(** C8.  A value is received exactly once.  An environment that waits in
    [sys_ipc_recv] is not picked by the scheduler; whatever happens
    meanwhile, as long as its slot is untouched, the first [sys_ipc_try_send]
    of a value (no page: [srcva] is [UTOP] or above) to its identifier
    succeeds, makes it RUNNABLE with the value, the sender's identifier and a
    zero result of its own call, and changes no other environment; a second
    send finds it no longer waiting.  The receiver's [env_ipc_perm], which the
    comment of the code promises to be 0 when no page comes, keeps the value
    it had: the receiver sees the permissions of an earlier message. *)
Theorem ipc_rendezvous (k : kern) (c dstva : Z) :
  wf k -> curenv k = Some c -> UTOP <= dstva \/ dstva mod PGSIZE = 0 ->
  exists x k1, sys_ipc_recv dstva k = Exit x k1 /\ x <> Run c /\
    envs_at k1 c = receiving (envs_at k c) dstva /\
    forall k2 s value srcva perm,
      wf k2 -> curenv k2 = Some s -> s <> c -> envs_at k2 c = envs_at k1 c -> UTOP <= srcva ->
      exists k3,
        sys_ipc_try_send (env_id (envs_at k c)) value srcva perm k2 = Ret 0 k3 /\
        envs_at k3 c = delivered (envs_at k2 c) (env_id (envs_at k2 s)) value /\
        env_ipc_perm (envs_at k3 c) = env_ipc_perm (envs_at k c) /\
        (forall j, j <> c -> envs_at k3 j = envs_at k2 j) /\ pmem k3 = pmem k2 /\
        sys_ipc_try_send (env_id (envs_at k c)) value srcva perm k3 = Ret (- E_IPC_NOT_RECV) k3.
Proof.
  intros Hw Hc Hva. destruct (proj2 Hw c Hc) as [Hcs Hcf].
  set (kr := put_env k c (receiving (envs_at k c) dstva)).
  assert (Hrun : sys_ipc_recv dstva k = sched_yield (A := Z) kr).
  { unfold sys_ipc_recv. replace ((dstva <? UTOP) && negb (dstva mod PGSIZE =? 0)) with false.
    - krun. by rewrite (the_curenv_eq k c Hc).
    - destruct Hva as [Hva|Hva]; [by rewrite (proj2 (Z.ltb_ge _ _) Hva)|].
      rewrite Hva. by rewrite andb_false_r. }
  assert (Hkr : envs_at kr c = receiving (envs_at k c) dstva)
    by (unfold kr; by rewrite envs_at_put_env, decide_True).
  destruct (sched_yield_choice (A := Z) kr) as (x & k1 & Hy & Hch).
  destruct (choice_keeps kr x k1 c Hch Hc) as [Hx H1]; [unfold status; by rewrite Hkr|].
  exists x, k1. split; [by rewrite Hrun|]. split; [done|]. rewrite H1. split; [done|].
  intros k2 s value srcva perm Hw2 Hs Hsc H2 Hsrc. rewrite Hkr in H2.
  assert (Hid : env_id (envs_at k c) = env_id (envs_at k2 c)) by by rewrite H2.
  rewrite Hid. assert (Hl2 : envid2env (env_id (envs_at k2 c)) false k2 = Ret (Some (Some c)) k2).
  { apply envid2env_id; [done|done|]. by rewrite H2. }
  set (k3 := put_env k2 c (delivered (envs_at k2 c) (env_id (envs_at k2 s)) value)).
  assert (H3 : envs_at k3 c = delivered (envs_at k2 c) (env_id (envs_at k2 s)) value)
    by (unfold k3; by rewrite envs_at_put_env, decide_True).
  exists k3. split_and!; [apply ipc_send_value; try done; by rewrite H2|exact H3|by rewrite H3, H2| |done|].
  - intros j Hj. unfold k3. by rewrite envs_at_put_env, decide_False.
  - assert (Hw3 : wf k3) by (apply wf_put; try done; by rewrite H2).
    assert (Hl3 : envid2env (env_id (envs_at k3 c)) false k3 = Ret (Some (Some c)) k3).
    { apply envid2env_id; [done|done|]. by rewrite H3. }
    rewrite H3 in Hl3. change (env_id (delivered _ _ _)) with (env_id (envs_at k2 c)) in Hl3.
    unfold sys_ipc_try_send. rewrite (with_env_eq _ _ _ _ _ _ Hl3). krun. by rewrite H3.
Qed.

(** C40.  A send that is refused for its page arguments is not harmless: the
    receiver is no longer marked as waiting although it stays not runnable,
    so every later send to it is refused as well. *)
Theorem ipc_failed_send_deafens (k : kern) (e envid value srcva perm : Z) :
  envid2env envid false k = Ret (Some (Some e)) k -> envid <> 0 ->
  env_ipc_recving (envs_at k e) = true -> env_status (envs_at k e) = ENV_NOT_RUNNABLE ->
  srcva < UTOP -> srcva <> ROUNDDOWN srcva PGSIZE \/ perm_ok perm = false ->
  exists k', sys_ipc_try_send envid value srcva perm k = Ret (- E_INVAL) k' /\
    envs_at k' e = (envs_at k e) {{ env_ipc_recving := false }} /\
    forall value' srcva' perm',
      sys_ipc_try_send envid value' srcva' perm' k' = Ret (- E_IPC_NOT_RECV) k'.
Proof.
  intros He Hz Hr Hst Hs Hbad.
  set (k1 := put_env k e ((envs_at k e) {{ env_ipc_recving := false }})).
  assert (H1 : envs_at k1 e = (envs_at k e) {{ env_ipc_recving := false }})
    by (unfold k1; by rewrite envs_at_put_env, decide_True).
  exists k1. split; [|split; [done|]].
  - unfold sys_ipc_try_send. rewrite (with_env_eq _ _ _ _ _ _ He).
    krun. rewrite Hr. cbn [negb]. cbv iota. rewrite (proj2 (Z.ltb_lt _ _) Hs). unfold ipc_send_page. krun.
    destruct (Z.eqb_spec srcva (ROUNDDOWN srcva PGSIZE)) as [E|E]; cbn [negb]; cbv iota; [|done].
    destruct Hbad as [|Hp]; [done|]. by rewrite Hp.
  - intros value' srcva' perm'.
    assert (He' : envid2env envid false k1 = Ret (Some (Some e)) k1).
    { revert He. unfold envid2env. krun. rewrite (proj2 (Z.eqb_neq _ _) Hz).
      assert (Hsame : env_status (envs_at k1 (ENVX envid)) = env_status (envs_at k (ENVX envid)) /\
                      env_id (envs_at k1 (ENVX envid)) = env_id (envs_at k (ENVX envid))).
      { unfold k1. rewrite envs_at_put_env. case_decide as Hx; [rewrite Hx|]; done. }
      destruct Hsame as [-> ->]. destruct (_ || _); [done|]. cbn [andb]. by intros [= ->]. }
    unfold sys_ipc_try_send. rewrite (with_env_eq _ _ _ _ _ _ He'). krun. by rewrite H1.
Qed.

(** ** Errors *)

(** The calls whose first argument names an environment the caller must be
    allowed to change; [sys_env_set_status] looks at the status first. *)
Definition env_calls : list Z :=
  [SYS_env_destroy; SYS_env_set_trapframe; SYS_env_set_pgfault_upcall; SYS_page_alloc;
   SYS_page_map; SYS_page_unmap].
(** The environment a call names cannot be resolved: the one it changes, or
    either of the two of [sys_page_map], with the permission check; the
    receiver of a message without it. *)
Definition names_bad_env (k : kern) (n a1 a2 a3 : Z) : Prop :=
  (n ∈ env_calls /\ envid2env (s32 a1) true k = Ret None k) \/
  (n = SYS_env_set_status /\ s32 a2 ∈ [ENV_RUNNABLE; ENV_NOT_RUNNABLE] /\
     envid2env (s32 a1) true k = Ret None k) \/
  (n = SYS_page_map /\ (exists e, envid2env (s32 a1) true k = Ret (Some (Some e)) k) /\
     envid2env (s32 a3) true k = Ret None k) \/
  (n = SYS_ipc_try_send /\ envid2env (s32 a1) false k = Ret None k).

(** C26.  Refused system calls.  A call that names an environment which does
    not exist, or which the caller may not change, fails with E_BAD_ENV and
    has no effect, for every call with such an argument: the source and the
    destination of [sys_page_map], the receiver of [sys_ipc_try_send] (which
    only has to exist), and [sys_env_set_status] when the status is one it
    accepts.  With any other status that call fails with E_INVAL, as an
    undefined call does, and has no effect either. *)
Theorem syscall_refused (k : kern) (n a1 a2 a3 a4 a5 : Z) :
  (names_bad_env k n a1 a2 a3 -> syscall n a1 a2 a3 a4 a5 k = Ret (- E_BAD_ENV) k) /\
  (n < 0 \/ 13 < n -> syscall n a1 a2 a3 a4 a5 k = Ret (- E_INVAL) k) /\
  (s32 a2 ∉ [ENV_RUNNABLE; ENV_NOT_RUNNABLE] ->
     syscall SYS_env_set_status a1 a2 a3 a4 a5 k = Ret (- E_INVAL) k).
Proof.
  split_and!.
  - intros [[Hn He]|[(-> & Hst & He)|[(-> & (e & Hs) & He)|(-> & He)]]].
    + unfold env_calls in Hn.
      repeat (apply elem_of_cons in Hn as [->|Hn]; [exact (with_env_eq _ _ _ _ _ None He)|]).
      by apply elem_of_nil in Hn.
    + change (sys_env_set_status (s32 a1) (s32 a2) k = Ret (- E_BAD_ENV) k). unfold sys_env_set_status.
      apply elem_of_cons in Hst as [->|Hst%list_elem_of_singleton]; [|rewrite Hst];
        exact (with_env_eq _ _ _ _ _ None He).
    + change (sys_page_map (s32 a1) a2 (s32 a3) a4 (s32 a5) k = Ret (- E_BAD_ENV) k). unfold sys_page_map.
      rewrite (with_env_eq _ _ _ _ _ _ Hs). exact (with_env_eq _ _ _ _ _ None He).
    + exact (with_env_eq _ _ _ _ _ None He).
  - intros Hn. unfold syscall.
    unfold SYS_cputs, SYS_cgetc, SYS_getenvid, SYS_env_destroy, SYS_yield, SYS_exofork,
      SYS_env_set_status, SYS_page_alloc, SYS_page_map, SYS_page_unmap,
      SYS_env_set_pgfault_upcall, SYS_ipc_try_send, SYS_ipc_recv, SYS_env_set_trapframe.
    repeat rewrite (proj2 (Z.eqb_neq _ _)) by lia. done.
  - intros [H1 [H2 _]%not_elem_of_cons]%not_elem_of_cons.
    change (sys_env_set_status (s32 a1) (s32 a2) k = Ret (- E_INVAL) k). unfold sys_env_set_status.
    by rewrite (proj2 (Z.eqb_neq _ _) H1), (proj2 (Z.eqb_neq _ _) H2).
Qed.

(** ** The page-fault upcall *)

(** [vp] is the start of a page the kernel can write through the current page
    tables, at physical address [pa]; the two table entries that map it lie
    outside that frame. *)
Definition outside (pa a : Z) : Prop := a + 4 <= pa \/ pa + 4096 <= a.
Definition writable_page (k : kern) (vp pa : Z) : Prop :=
  vp mod 4096 = 0 /\ 0 <= vp /\ vp + 4096 <= 2 ^ 32 /\ translate k true vp = Some pa /\
  outside pa (cr3 k + 4 * PDX vp) /\
  outside pa (PTE_ADDR (load32 (pmem k) (cr3 k + 4 * PDX vp)) + 4 * PTX vp).

Lemma page_offset vp off : vp mod 4096 = 0 -> 0 <= vp -> vp + 4096 <= 2 ^ 32 -> 0 <= off < 4096 ->
  u32 (vp + off) = vp + off /\ PDX (vp + off) = PDX vp /\ PTX (vp + off) = PTX vp /\
  PGOFF (vp + off) = PGOFF vp + off.
Proof.
  intros H1 H2 H3 H4. rewrite !PDX_eq, !PTX_eq, !PGOFF_eq, u32_small by lia. split_and!; [done|zdiv|f_equal; zdiv|zdiv].
Qed.

Lemma translate_page k vp pa off : writable_page k vp pa -> 0 <= off < 4096 ->
  translate k true (u32 (vp + off)) = Some (pa + off).
Proof.
  intros (H1 & H2 & H3 & Ht & _) Hoff. destruct (page_offset vp off H1 H2 H3 Hoff) as (Hu & Hd & Hp & Ho).
  revert Ht. unfold translate. rewrite Hu, Hd, Hp, Ho.
  destruct (_ && _); [|done]. intros [= <-]. f_equal. lia.
Qed.
(** Writing inside the frame leaves the page mapped. *)
Lemma writable_page_mem k vp pa m : writable_page k vp pa ->
  (forall a, outside pa a -> load32 m a = load32 (pmem k) a) -> writable_page (k {{ pmem := m }}) vp pa.
Proof.
  intros (H1 & H2 & H3 & Ht & Ha & Hb) Hm. unfold writable_page, translate in *.
  change (pmem (k {{ pmem := m }})) with m. change (cr3 (k {{ pmem := m }})) with (cr3 k).
  by rewrite (Hm _ Ha), (Hm _ Hb).
Qed.
Lemma kwrite8_page k vp pa off v : writable_page k vp pa -> 0 <= off < 4096 ->
  kwrite8 (vp + off) v k = Ret tt (k {{ pmem := store8 (pmem k) (pa + off) v }}).
Proof. intros Hw Hoff. unfold kwrite8. krun. by rewrite (translate_page k vp pa). Qed.
Lemma kwrite32_page k vp pa off v : writable_page k vp pa -> 0 <= off -> off + 4 <= 4096 ->
  kwrite32 (vp + off) v k = Ret tt (k {{ pmem := store32 (pmem k) (pa + off) v }}) /\
  writable_page (k {{ pmem := store32 (pmem k) (pa + off) v }}) vp pa.
Proof.
  intros Hw H0 H4.
  assert (Hw' : forall o u (k' : kern), writable_page k' vp pa -> 0 <= o < 4096 ->
      writable_page (k' {{ pmem := store8 (pmem k') (pa + o) u }}) vp pa).
  { intros o u k' Hk' Ho. apply writable_page_mem; [done|]. intros a Ha.
    apply load32_store8_ne. unfold outside in Ha. lia. }
  split.
  - unfold kwrite32. rewrite <- !Z.add_assoc. unfold mbind, ST_bind, st_bind.
    rewrite (kwrite8_page k vp pa) by (done || lia). apply (Hw' off v) in Hw; [|lia].
    rewrite (kwrite8_page _ vp pa) by (done || lia). eapply (Hw' (off + 1)) in Hw; [|lia].
    rewrite (kwrite8_page _ vp pa) by (done || lia). eapply (Hw' (off + 2)) in Hw; [|lia].
    rewrite (kwrite8_page _ vp pa) by (done || lia). 
    unfold store32, store16. rewrite Z.div_div by lia. rewrite <- !Z.add_assoc. done.
  - apply writable_page_mem; [done|]. intros a Ha. apply load32_store32_ne. unfold outside in Ha. lia.
Qed.

Lemma store32_cong m m' a a' v : m = m' -> a = a' -> store32 m a v = store32 m' a' v.
Proof. by intros -> ->. Qed.
Fixpoint store_words (m : mem) (a : Z) (ws : list Z) : mem :=
  match ws with [] => m | w :: ws' => store_words (store32 m a w) (a + 4) ws' end.
Lemma store_words_frame ws m a b : b < a \/ a + 4 * Z.of_nat (length ws) <= b ->
  load8 (store_words m a ws) b = load8 m b.
Proof.
  revert m a. induction ws as [|w ws IH]; intros m a Hb; [done|]. cbn [store_words length] in *.
  rewrite IH by lia. apply load8_store32_ne. lia.
Qed.
Lemma store_words_load ws m a i w : ws !! i = Some w ->
  load32 (store_words m a ws) (a + 4 * Z.of_nat i) = u32 w.
Proof.
  revert m a i. induction ws as [|x ws IH]; intros m a [|i] Hi; try done; cbn [store_words].
  - injection Hi as ->. rewrite Z.add_0_r. erewrite load32_bytes_ext; [apply load32_store32_eq|].
    intros b Hb. apply store_words_frame. lia.
  - replace (a + 4 * Z.of_nat (S i)) with (a + 4 + 4 * Z.of_nat i) by lia. by apply IH.
Qed.

(** The frame pushed on the exception stack, as words, and its address. *)
Definition utf_words (fault_va : Z) (tf : Trapframe) : list Z :=
  let r := tf_regs tf in
  [fault_va; tf_err tf; reg_edi r; reg_esi r; reg_ebp r; reg_oesp r; reg_ebx r; reg_edx r;
   reg_ecx r; reg_eax r; tf_eip tf; tf_eflags tf; tf_esp tf].
Definition utf_addr (tf : Trapframe) : Z :=
  if (tf_esp tf >=? UXSTACKTOP - PGSIZE) && (tf_esp tf <=? UXSTACKTOP - 1)
  then u32 (tf_esp tf - sizeof_UTrapframe - 4)
  else u32 (UXSTACKTOP - sizeof_UTrapframe).

Lemma wp_kwrite32 (k : kern) m vp pa off a v (Q : unit -> kern -> Prop) E :
  writable_page (k {{ pmem := m }}) vp pa -> a = vp + off -> 0 <= off -> off + 4 <= 4096 ->
  (writable_page (k {{ pmem := store32 m (pa + off) v }}) vp pa ->
   Q tt (k {{ pmem := store32 m (pa + off) v }})) ->
  wp (kwrite32 a v) Q E (k {{ pmem := m }}).
Proof.
  intros Hw -> H0 H4 HQ. destruct (kwrite32_page _ vp pa off v Hw H0 H4) as [Hrun Hw'].
  eapply wp_run; [exact Hrun|]. by apply HQ.
Qed.
Lemma pmem_same (k : kern) : k {{ pmem := pmem k }} = k.
Proof. by destruct k. Qed.

Lemma wp_env_run {A} e (Q : A -> kern -> Prop) (E : leave -> kern -> Prop) k :
  E (Run e) (running k e) -> wp (env_run e) Q E k.
Proof. intros H. eapply wp_left; [apply env_run_eq|exact H]. Qed.

(** The environment that resumes in its upcall. *)
Definition upcalled (ev : Env) (utf : Z) : Env :=
  ev {{ env_tf -> tf_eip := env_pgfault_upcall ev; env_tf -> tf_esp := utf }}.

(** C17.  A user page fault with an upcall.  When the frame fits into a page
    the kernel can write, the kernel pushes the faulting address, the error
    code, the registers, the eip, the flags and the stack pointer there, at
    the top of the exception stack or, for a fault on that stack, below the
    interrupted frame and a spare word, and resumes the environment in its
    upcall with the stack pointer on the frame; nothing else in memory and no
    other environment changes.  When the page is not writable the kernel
    itself panics. *)
Theorem page_fault_upcall (k : kern) (c vp pa off : Z) :
  let ev := envs_at k c in
  let utf := utf_addr (env_tf ev) in
  curenv k = Some c -> Z.land (tf_cs (env_tf ev)) 3 <> 0 -> env_pgfault_upcall ev <> 0 ->
  (writable_page k vp pa -> utf = vp + off -> 0 <= off -> off + sizeof_UTrapframe <= 4096 ->
   exists k', page_fault_handler (Saved c) k = Exit (Run c) k' /\
     (forall i w, utf_words (cr2 k) (env_tf ev) !! i = Some w ->
        load32 (pmem k') (pa + off + 4 * Z.of_nat i) = u32 w) /\
     (forall a, a < pa + off \/ pa + off + sizeof_UTrapframe <= a ->
        load8 (pmem k') a = load8 (pmem k) a) /\
     envs_at k' c = upcalled ev utf /\ (forall j, j <> c -> envs_at k' j = envs_at k j)) /\
  (translate k true (u32 utf) = None ->
   page_fault_handler (Saved c) k = Panic "kernel-mode page faults").
Proof.
  intros ev utf Hc Hcs Hup. set (tf := env_tf ev) in *.
  split.
  - intros Hw Ho H0 H52. unfold sizeof_UTrapframe in H52.
    set (ws := utf_words (cr2 k) tf).
    set (kw := k {{ pmem := store_words (pmem k) (pa + off) ws }}).
    assert (Hrun : wp (page_fault_handler (Saved c)) (fun _ _ => False)
      (fun x k' => x = Run c /\ k' = (put_env kw c (upcalled ev utf)) {{ klocked := false }}) k).
    { unfold page_fault_handler. kstep. kstep. kstep. unfold get_tf. kstep. cbn [tf_of].
      fold ev. fold tf. rewrite (proj2 (Z.eqb_neq _ _) Hcs). kstep. eapply wp_run; [by apply the_curenv_eq|].
      kstep. kstep. fold ev. kstep. rewrite (proj2 (Z.eqb_neq _ _) Hup). cbn [negb]. cbv iota.
      fold (utf_addr tf). change (utf_addr tf) with utf.
      match goal with |- wp ?m ?Q ?E k => enough (H : wp m Q E (k {{ pmem := pmem k }})) by (by rewrite pmem_same in H) end.
      rewrite <- (pmem_same k) in Hw. unfold write_regs.
      repeat lazymatch goal with
      | |- wp (_ ≫= _) _ _ _ => apply wp_bind
      | |- wp (kwrite32 ?a _) _ _ _ =>
          apply (wp_kwrite32 k _ vp pa (a - vp)); [exact Hw|lia|lia|lia|clear Hw; intros Hw]
      end.
      match goal with |- context [k {{ pmem := ?m }}] =>
        assert (Hm : m = store_words (pmem k) (pa + off) ws)
          by (cbn [store_words ws utf_words]; repeat (apply store32_cong; [|lia]); reflexivity);
        rewrite Hm; clear Hm Hw
      end.
      ksteps. apply wp_env_run. split; [done|]. unfold running. by rewrite bool_decide_true. }
    destruct (wp_left_inv _ _ _ Hrun) as (x & k' & E & -> & ->). eexists. split; [exact E|].
    clear E Hrun. split_and!.
    + intros i w Hi. by apply store_words_load.
    + intros a Ha. apply store_words_frame. exact Ha.
    + change (envs_at (put_env kw c (upcalled ev utf)) c = upcalled ev utf).
      by rewrite envs_at_put_env, decide_True.
    + intros j Hj. change (envs_at (put_env kw c (upcalled ev utf)) j = envs_at k j).
      by rewrite envs_at_put_env, decide_False.
  - intros Ht. unfold page_fault_handler, get_tf. krun. cbn [tf_of]. fold ev. fold tf.
    rewrite (proj2 (Z.eqb_neq _ _) Hcs). rewrite (the_curenv_eq k c Hc). fold ev.
    rewrite (proj2 (Z.eqb_neq _ _) Hup). cbn [negb]. cbv iota. fold (utf_addr tf). change (utf_addr tf) with utf.
    unfold kwrite32, kwrite8. krun. by rewrite Ht.
Qed.

(** [sys_env_set_trapframe] installs the caller's frame as it is, with
    interrupts enabled but with any code segment: nothing makes the
    environment run at user privilege, and a frame whose [cs] asks for
    ring 0 is accepted. *)
Theorem env_set_trapframe_installs (k : kern) (e envid va : Z) (t : Trapframe) :
  envid2env envid true k = Ret (Some (Some e)) k -> read_tf va k = Ret t k ->
  exists k', sys_env_set_trapframe envid va k = Ret 0 k' /\
    env_tf (envs_at k' e) = t {{ tf_eflags ::= fun f => Z.lor f FL_IF }} /\
    tf_cs (env_tf (envs_at k' e)) = tf_cs t /\
    env_status (envs_at k' e) = env_status (envs_at k e) /\
    (forall j, j <> e -> envs_at k' j = envs_at k j).
Proof.
  intros He Ht. set (ev := (envs_at k e) {{ env_tf := t {{ tf_eflags ::= fun f => Z.lor f FL_IF }} }}).
  assert (Hk : envs_at (put_env k e ev) e = ev) by (by rewrite envs_at_put_env, decide_True).
  exists (put_env k e ev). split.
  - unfold sys_env_set_trapframe. rewrite (with_env_eq _ _ _ _ _ _ He). unfold mbind at 1, ST_bind, st_bind.
    rewrite Ht. krun.
    change (k {{ envs := <[e := (envs_at k e) {{ env_tf := t }}]> (envs k) }}) with
      (put_env k e ((envs_at k e) {{ env_tf := t }})).
    f_equal. rewrite envs_at_put_env, decide_True by done. apply put_env_twice.
  - rewrite Hk. split_and!; try done. intros j Hj. by rewrite envs_at_put_env, decide_False.
Qed.

(** ** Examples *)
Lemma ipc_rendezvous_witness :
  exists x k1, sys_ipc_recv UTOP (three_envs ENV_RUNNING) = Exit x k1 /\ x <> Run 0 /\
    env_ipc_recving (envs_at k1 0) = true.
Proof.
  destruct (ipc_rendezvous (three_envs ENV_RUNNING) 0 UTOP) as (x & k1 & E & Hx & H1 & _).
  - exact wf_three_envs.
  - reflexivity.
  - left. lia.
  - exists x, k1. split; [exact E|]. split; [exact Hx|]. rewrite H1. reflexivity.
Defined.

Definition waiting_one : kern :=
  put_env (three_envs ENV_RUNNING) 1 (receiving (env_at 1 0 ENV_RUNNING) 0).
Lemma ipc_failed_send_deafens_witness :
  exists k', sys_ipc_try_send 4097 42 0x1001 PTE_P waiting_one = Ret (- E_INVAL) k' /\
    sys_ipc_try_send 4097 42 UTOP 0 k' = Ret (- E_IPC_NOT_RECV) k'.
Proof.
  destruct (ipc_failed_send_deafens waiting_one 1 4097 42 0x1001 PTE_P) as (k' & E & _ & H).
  - reflexivity.
  - discriminate.
  - reflexivity.
  - reflexivity.
  - reflexivity.
  - left. discriminate.
  - exists k'. split; [exact E|]. apply H.
Defined.

Lemma syscall_refused_witness :
  syscall SYS_page_map 0 0 4097 0 0 (three_envs ENV_RUNNING) =
    Ret (- E_BAD_ENV) (three_envs ENV_RUNNING) /\
  syscall SYS_env_set_status 4098 7 0 0 0 (three_envs ENV_RUNNING) =
    Ret (- E_INVAL) (three_envs ENV_RUNNING).
Proof.
  split.
  - apply (syscall_refused (three_envs ENV_RUNNING) SYS_page_map 0 0 4097 0 0). right. right. left.
    split; [reflexivity|]. split; [exists 0; reflexivity|reflexivity].
  - apply (syscall_refused (three_envs ENV_RUNNING) SYS_env_set_status 4098 7 0 0 0).
    apply (bool_decide_eq_true_1 _). vm_compute. reflexivity.
Defined.

(** Environment 0 faults with an upcall and a mapped exception stack. *)
Definition upcall_kern : kern :=
  put_env ((three_envs ENV_RUNNING)
      {{ cr3 := 0x150000; cr2 := 0x1234;
         pmem := store32 (store32 ∅ (0x150000 + 4 * PDX (UXSTACKTOP - PGSIZE)) 0x151007)
                   (0x151000 + 4 * PTX (UXSTACKTOP - PGSIZE)) 0x152007 }})
    0 ((env_at 0 0 ENV_RUNNING) {{ env_tf := fresh_tf; env_pgfault_upcall := 0x800020 }}).
Lemma page_fault_upcall_witness :
  exists k', page_fault_handler (Saved 0) upcall_kern = Exit (Run 0) k' /\
    load32 (pmem k') (0x152000 + 4044) = 0x1234.
Proof.
  destruct (page_fault_upcall upcall_kern 0 (UXSTACKTOP - PGSIZE) 0x152000 4044) as [H _].
  - reflexivity.
  - discriminate.
  - discriminate.
  - destruct H as (k' & E & Hw & _).
    + split_and!; [reflexivity|discriminate|discriminate|vm_compute; reflexivity| |];
        unfold outside; vm_compute; left; discriminate.
    + reflexivity.
    + discriminate.
    + discriminate.
    + exists k'. split; [exact E|]. exact (Hw 0%nat 0x1234 eq_refl).
Defined.

(** A frame of zeros, [cs] included, on the mapped page. *)
Lemma env_set_trapframe_installs_witness :
  exists k', sys_env_set_trapframe 0 (UXSTACKTOP - PGSIZE) upcall_kern = Ret 0 k' /\
    tf_cs (env_tf (envs_at k' 0)) = 0.
Proof.
  destruct (env_set_trapframe_installs upcall_kern 0 0 (UXSTACKTOP - PGSIZE) tf0) as (k' & E & _ & Hcs & _).
  - reflexivity.
  - vm_compute. reflexivity.
  - exists k'. split; [exact E|exact Hcs].
Defined.
