(* ===== verification/FsServ.v ===== *)
(** * The file server: src/src/serv.c, pageref.c

    The open-file table and one handler per request.  Handlers are file-system
    programs over the server's memory, which holds the request page [fsreq],
    one [struct Fd] page per open-file entry (shared with the clients) and the
    disk window; the table itself is passed explicitly.  What the kernel tells
    the server - how many address spaces map an [Fd] page, whether a page can
    be allocated - is part of that state. *)
From S2P Require Import Prelude Layout Mem CString FsMach DamnFS.

(** ** The request page: [union Fsipc] (damnfs.h) *)
Definition fsreq : Z := 0x0ffff000.
Definition FSREQ_OPEN : Z := 1.
Definition FSREQ_SET_SIZE : Z := 2.
Definition FSREQ_READ : Z := 3.
Definition FSREQ_WRITE : Z := 4.
Definition FSREQ_STAT : Z := 5.
Definition FSREQ_FLUSH : Z := 6.
Definition FSREQ_MKDIR : Z := 7.
Definition FSREQ_REMOVE : Z := 8.
Definition FSREQ_SYNC : Z := 9.
Definition req_omode (req : Z) : Z := req + MAXPATHLEN.
Definition req_fileid (req : Z) : Z := req.
Definition req_size (req : Z) : Z := req + 4.
Definition req_n (req : Z) : Z := req + 4.
Definition req_buf (req : Z) : Z := req + 8.
Definition ret_name (req : Z) : Z := req.
Definition ret_size (req : Z) : Z := req + MAXNAMELEN.
Definition ret_isdir (req : Z) : Z := req + MAXNAMELEN + 4.

(** ** [struct Fd] (fd.h) and the open modes (syslib.h) *)
Definition fd_dev_id (fd : Z) : Z := fd.
Definition fd_offset (fd : Z) : Z := fd + 4.
Definition fd_omode (fd : Z) : Z := fd + 8.
Definition fd_file_id (fd : Z) : Z := fd + 12.
Definition devfile_dev_id : Z := 102.
Definition O_RDONLY : Z := 0.
Definition O_WRONLY : Z := 1.
Definition O_RDWR : Z := 2.
Definition O_ACCMODE : Z := 3.
Definition O_CREAT : Z := 0x100.
Definition O_TRUNC : Z := 0x200.
Definition O_EXCL : Z := 0x400.
Definition O_MKDIR : Z := 0x800.
Definition has (mode flag : Z) : bool := negb (Z.land mode flag =? 0).

(** ** The open-file table *)
Record OpenFile : Type := mkOpen { o_fileid : Z; o_file : Z; o_mode : Z; o_fd : Z }.
Definition MAXOPEN : Z := 1024.
Definition FILEVA : Z := 0xD0000000.

(** [fd_refs]: what [pageref] reports for an entry's [Fd] page;
    [alloc_error]: what [sys_page_alloc] answers (0 is success). *)
Record server : Type := mkServer {
  opentab : gmap Z OpenFile; fd_refs : gmap Z Z; alloc_error : Z }.
Definition entry (s : server) (i : Z) : OpenFile :=
  default (mkOpen 0 0 0 0) (opentab s !! i).
Definition set_entry (i : Z) (o : OpenFile) (s : server) : server :=
  mkServer (<[i := o]> (opentab s)) (fd_refs s) (alloc_error s).
Definition set_refs (i n : Z) (s : server) : server :=
  mkServer (opentab s) (<[i := n]> (fd_refs s)) (alloc_error s).
Definition pageref (s : server) (i : Z) : Z := default 0 (fd_refs s !! i).

(** [serve_init]: entry [i] gets file id [i] and the [i]-th page. *)
Fixpoint serve_init_loop (n : nat) (i va : Z) (s : server) : server :=
  match n with
  | O => s
  | S n' =>
      let o := entry s i in
      serve_init_loop n' (i + 1) (va + PGSIZE) (set_entry i (mkOpen i (o_file o) (o_mode o) va) s)
  end.
Definition serve_init (s : server) : server :=
  serve_init_loop (Z.to_nat MAXOPEN) 0 FILEVA s.

(** [memset(fd, 0, PGSIZE)]. *)
Definition clear_page (a : Z) : prog unit :=
  _ ← pfor (R := unit) (Z.to_nat PGSIZE) 0 (fun i => st8 (a + i) 0;; mret None);
  mret tt.

(** A free entry [i] gets its next file id and a cleared page. *)
Definition openfile_take (i : Z) (s : server) : prog ((Z + Z) * server) :=
  let o := entry s i in
  clear_page (o_fd o);;
  mret (inr i, set_entry i (mkOpen (u32 (o_fileid o + MAXOPEN)) (o_file o) (o_mode o) (o_fd o)) s).
(** [inl r]: the error [r]; [inr i]: [*o = &opentab[i]], and the result is
    the entry's new file id. *)
Fixpoint openfile_alloc_loop (n : nat) (i : Z) (s : server) : prog ((Z + Z) * server) :=
  match n with
  | O => mret (inl (- E_MAX_OPEN), s)
  | S n' =>
      if pageref s i =? 0 then
        if alloc_error s <? 0 then mret (inl (alloc_error s), s)
        else openfile_take i (set_refs i 1 s)
      else if pageref s i =? 1 then openfile_take i s
      else openfile_alloc_loop n' (i + 1) s
  end.
Definition openfile_alloc (s : server) : prog ((Z + Z) * server) :=
  openfile_alloc_loop (Z.to_nat MAXOPEN) 0 s.

Definition openfile_lookup (s : server) (fileid : Z) : option Z :=
  let i := fileid mod MAXOPEN in
  if (pageref s i <=? 1) || negb (o_fileid (entry s i) =? fileid) then None else Some i.

(** ** The handlers *)

(** A path of the request, cut at the end of its array. *)
Fixpoint read_path (n : nat) (a : Z) : prog (list Z) :=
  match n with
  | O => mret []
  | S n' =>
      b ← ld8 a;
      if b =? 0 then mret [] else rest ← read_path n' (a + 1); mret (b :: rest)
  end.
Definition get_path (req : Z) : prog (list Z) := read_path (Z.to_nat (MAXPATHLEN - 1)) req.

(** What [serve_open] hands back: the result, [*pg_store], [*perm_store]
    (0: not stored) and the table. *)
Record open_reply : Type := mkReply { or_r : Z; or_pg : Z; or_perm : Z; or_srv : server }.
Definition PTE_SHARED : Z := Z.lor (Z.lor (Z.lor PTE_P PTE_U) PTE_W) PTE_SHARE.

Section handlers.
(** The address of the server's [rt_entry], an entry named "/" of inode 0. *)
Context (rt_entry : Z).

(** From the open of the file on: [f] was created or opened as entry [i]. *)
Definition serve_open_file (req i : Z) (path : list Z) (s : server) (f : Z) : prog open_reply :=
  omode ← ld32 (req_omode req);
  t ← (if has omode O_TRUNC then r ← file_set_size f 0; mret (if r <? 0 then Some r else None)
       else mret None);
  match t with
  | Some r => mret (mkReply r 0 0 s)
  | None =>
      op ← file_open path;
      if fst op <? 0 then mret (mkReply (fst op) 0 0 s)
      else
        let o := entry s i in
        let file := if snd op =? 0 then rt_entry else snd op in
        st32 (fd_file_id (o_fd o)) (o_fileid o);;
        omode ← ld32 (req_omode req);
        st32 (fd_omode (o_fd o)) (Z.land omode O_ACCMODE);;
        st32 (fd_dev_id (o_fd o)) devfile_dev_id;;
        mret (mkReply 0 (o_fd o) PTE_SHARED
                (set_entry i (mkOpen (o_fileid o) file omode (o_fd o)) s))
  end.
(** [r = (file_create(...) < 0)]: a failed creation of a directory answers 1.
    A file id that is negative as an [int] counts as an error. *)
Definition serve_open (req : Z) (s : server) : prog open_reply :=
  path ← get_path req;
  omode ← ld32 (req_omode req);
  d ← (if has omode O_MKDIR then
         c ← file_create path FTYPE_DIR; mret (match c with inl _ => true | inr _ => false end)
       else mret false);
  if (d : bool) then mret (mkReply 1 0 0 s)
  else
    a ← openfile_alloc s;
    match a with
    | (inl r, s) => mret (mkReply r 0 0 s)
    | (inr i, s) =>
        let id := s32 (o_fileid (entry s i)) in
        let try_open :=
          op ← file_open path;
          if fst op <? 0 then mret (mkReply (fst op) 0 0 s)
          else serve_open_file req i path s (snd op) in
        if id <? 0 then mret (mkReply id 0 0 s)
        else if has omode O_CREAT then
          c ← file_create path FTYPE_REG;
          match c with
          | inl r =>
              if negb (has omode O_EXCL) && (r =? - E_FILE_EXISTS) then try_open
              else mret (mkReply r 0 0 s)
          | inr f => serve_open_file req i path s f
          end
        else try_open
    end.

(** The part common to the requests on an open file. *)
Definition on_open_file (req : Z) (s : server) (body : OpenFile -> prog Z) : prog Z :=
  id ← ld32 (req_fileid req);
  match openfile_lookup s id with
  | None => mret (- E_INVAL)
  | Some i => body (entry s i)
  end.
Definition serve_set_size (req : Z) (s : server) : prog Z :=
  on_open_file req s (fun o => size ← ld32 (req_size req); file_set_size (o_file o) (s32 size)).
(** The result advances the offset; a negative one is returned as it is. *)
Definition advance (o : OpenFile) (r : Z) : prog Z :=
  if r >=? 0 then
    off ← ld32 (fd_offset (o_fd o)); st32 (fd_offset (o_fd o)) (u32 (off + r));; mret r
  else mret r.
Definition serve_read (req : Z) (s : server) : prog Z :=
  on_open_file req s (fun o =>
    n ← ld32 (req_n req);
    off ← ld32 (fd_offset (o_fd o));
    r ← file_read (o_file o) req n (s32 off);
    advance o r).
Definition serve_write (req : Z) (s : server) : prog Z :=
  on_open_file req s (fun o =>
    n ← ld32 (req_n req);
    off ← ld32 (fd_offset (o_fd o));
    r ← file_write (o_file o) (req_buf req) n (s32 off);
    advance o r).
(** [strcpy] in the server's memory. *)
Fixpoint prog_strcpy (n : nat) (dst src : Z) : prog unit :=
  match n with
  | O => OutOfFuel
  | S n' => b ← ld8 src; st8 dst b;; if b =? 0 then mret tt else prog_strcpy n' (dst + 1) (src + 1)
  end.
Definition serve_stat (req : Z) (s : server) : prog Z :=
  on_open_file req s (fun o =>
    inode ← (if o_file o =? 0 then
               ins ← get_inodes; fs_strcpy (ret_name req) [47];; mret ins
             else
               ind ← ld16 (d_in_ind (o_file o)); inode ← inode_of ind;
               prog_strcpy (Z.to_nat MAXPATHLEN) (ret_name req) (d_name (o_file o));; mret inode);
    size ← ld16 (i_size inode);
    st32 (ret_size req) size;;
    type ← ld16 (i_type inode);
    st32 (ret_isdir req) (if type =? FTYPE_DIR then 1 else 0);;
    mret 0).
(** For the root the inode table is passed where a directory entry is
    expected. *)
Definition serve_flush (req : Z) (s : server) : prog Z :=
  on_open_file req s (fun o =>
    ind ← ld16 (d_in_ind (o_file o));
    ins ← get_inodes;
    (if negb (ind =? 0) then file_flush (o_file o) else file_flush ins);;
    mret 0).
Definition serve_mkdir (req : Z) (s : server) : prog Z :=
  path ← get_path req;
  c ← file_create path FTYPE_DIR;
  mret (match c with inl r => r | inr _ => 0 end).
Definition serve_remove (req : Z) (s : server) : prog Z :=
  path ← get_path req; file_remove path.
Definition serve_sync (req : Z) (s : server) : prog Z := fs_sync;; mret 0.

(** [handlers[req]]; entries 0 and 1 are null. *)
Definition handlers (req : Z) : option (Z -> server -> prog Z) :=
  if req =? FSREQ_SET_SIZE then Some serve_set_size
  else if req =? FSREQ_READ then Some serve_read
  else if req =? FSREQ_WRITE then Some serve_write
  else if req =? FSREQ_STAT then Some serve_stat
  else if req =? FSREQ_FLUSH then Some serve_flush
  else if req =? FSREQ_MKDIR then Some serve_mkdir
  else if req =? FSREQ_REMOVE then Some serve_remove
  else if req =? FSREQ_SYNC then Some serve_sync
  else None.

(** One turn of [serve]'s loop, for a request [req] received with [perm]: the
    answer ([ipc_send]'s value, page and permissions), or none. *)
Record answer : Type := mkAnswer { an_value : Z; an_pg : Z; an_perm : Z }.
Definition serve (req perm : Z) (s : server) : prog (option answer * server) :=
  if Z.land perm PTE_P =? 0 then mret (None, s)
  else if req =? FSREQ_OPEN then
    o ← serve_open fsreq s;
    mret (Some (mkAnswer (or_r o) (or_pg o) (if or_pg o =? 0 then perm else or_perm o)), or_srv o)
  else match handlers req with
  | Some h => r ← h fsreq s; mret (Some (mkAnswer r 0 perm), s)
  | None => mret (Some (mkAnswer (- E_INVAL) 0 perm), s)
  end.
End handlers.
