(* ===== verification/FsServProps.v ===== *)
(** * The file server: theorems

    The open-file table hands out identifiers that are never valid twice; what
    the handlers of reads and writes on an open file do. *)
From S2P Require Import Prelude Layout Mem CString FsMach DamnFS FsLogic FsBitmap FsFile FsRW FsServ.

(** ** The open-file table *)

(** Entry [i] carries an identifier congruent to [i] and the [i]-th page. *)
Definition tab_ok (s : server) : Prop := forall i, 0 <= i < MAXOPEN ->
  0 <= o_fileid (entry s i) < 2 ^ 32 /\ o_fileid (entry s i) mod MAXOPEN = i /\
  o_fd (entry s i) = FILEVA + PGSIZE * i.

Lemma entry_set_entry i o s j : entry (set_entry i o s) j = if decide (j = i) then o else entry s j.
Proof.
  unfold entry, set_entry. cbn. case_decide as E; [subst; by rewrite lookup_insert_eq|].
  by rewrite lookup_insert_ne.
Qed.
Lemma pageref_set_refs i n s j : pageref (set_refs i n s) j = if decide (j = i) then n else pageref s j.
Proof.
  unfold pageref, set_refs. cbn. case_decide as E; [subst; by rewrite lookup_insert_eq|].
  by rewrite lookup_insert_ne.
Qed.

(** [memset(fd, 0, PGSIZE)] on a page outside the disk window. *)
Lemma clear_page_ok a (Q : unit -> flat -> Prop) f :
  PGSIZE <= a -> a + PGSIZE <= DISKMAP \/ DISKMAP + DISKSIZE <= a ->
  (forall f', fl_disk f' = fl_disk f -> fl_super f' = fl_super f -> fl_inodes f' = fl_inodes f ->
     (forall b, load8 (fl_mem f') b =
        if decide (a <= b < a + PGSIZE) then 0 else load8 (fl_mem f) b) -> Q tt f') ->
  fwp (clear_page a) Q f.
Proof.
  intros Ha Hw HQ. unfold clear_page. apply fwp_bind.
  apply (fwp_pfor (fun i g => fl_disk g = fl_disk f /\ fl_super g = fl_super f /\
    fl_inodes g = fl_inodes f /\ forall b, load8 (fl_mem g) b =
      if decide (a <= b < a + i) then 0 else load8 (fl_mem f) b)).
  - split_and!; [done..|]. intros b. by rewrite decide_False by lia.
  - intros j g Hj (Hd & Hs & Hi & Hm). apply fwp_bind. apply fwp_st8.
    { unfold flat_ok. replace (window (a + j)) with false.
      - apply Z.leb_le. change PGSIZE with 4096 in *. lia.
      - symmetry. unfold window. change PGSIZE with 4096 in *. apply andb_false_iff.
        destruct Hw; [left; apply Z.leb_gt|right; apply Z.ltb_ge]; lia. }
    apply fwp_ret. split_and!; [done..|]. intros b. cbn [fl_mem fset_mem]. rewrite load8_store8, Hm. cases_lia. done.
  - intros g (Hd & Hs & Hi & Hm). by apply fwp_ret, HQ.
Qed.

(** What [openfile_alloc] promises. *)
Definition alloc_result (s : server) (f : flat) (r : Z + Z) (s' : server) (f' : flat) : Prop :=
  match r with
  | inl e => s' = s /\ f' = f /\
      ((e = - E_MAX_OPEN /\ forall i, 0 <= i < MAXOPEN -> 2 <= pageref s i) \/
       (e = alloc_error s /\ e < 0))
  | inr i => 0 <= i < MAXOPEN /\ 0 <= pageref s i <= 1 /\ pageref s' i = 1 /\ tab_ok s' /\
      o_fileid (entry s' i) = u32 (o_fileid (entry s i) + MAXOPEN) /\
      (forall j, 0 <= j < i -> 2 <= pageref s j) /\
      (forall j, j <> i -> entry s' j = entry s j /\ pageref s' j = pageref s j) /\
      fl_disk f' = fl_disk f /\
      forall b, load8 (fl_mem f') b =
        if decide (FILEVA + PGSIZE * i <= b < FILEVA + PGSIZE * (i + 1)) then 0 else load8 (fl_mem f) b
  end.

Lemma next_fileid id i : 0 <= id < 2 ^ 32 -> id mod MAXOPEN = i ->
  0 <= u32 (id + MAXOPEN) < 2 ^ 32 /\ u32 (id + MAXOPEN) mod MAXOPEN = i /\ u32 (id + MAXOPEN) <> id.
Proof. intros Hid <-. unfold u32, MAXOPEN in *. split; [apply Z.mod_pos_bound; lia|]. split; zdiv. Qed.

(** Taking entry [i], whose page has one reference. *)
Lemma openfile_take_ok i s0 s f : tab_ok s -> 0 <= i < MAXOPEN ->
  (forall j, 0 <= j < i -> 2 <= pageref s0 j) -> 0 <= pageref s0 i <= 1 -> pageref s i = 1 ->
  (forall j, entry s j = entry s0 j) -> (forall j, j <> i -> pageref s j = pageref s0 j) ->
  fwp (openfile_take i s) (fun r f' => alloc_result s0 f (fst r) (snd r) f') f.
Proof.
  intros Ht Hi Hlow Hr0 Hr He Hp. destruct (Ht i Hi) as (Hid & Hm & Hfd).
  unfold openfile_take. apply fwp_bind, clear_page_ok.
  - rewrite Hfd. change PGSIZE with 4096. unfold FILEVA. lia.
  - right. rewrite Hfd. change PGSIZE with 4096. unfold FILEVA, DISKMAP, DISKSIZE. lia.
  - intros f' Hd _ _ Hmem. apply fwp_ret. cbn [fst snd alloc_result].
    destruct (next_fileid _ i Hid Hm) as (Hb & Hm' & _).
    split_and!; try done; try lia.
    + intros j Hj. rewrite entry_set_entry. case_decide; [subst j; cbn; split_and!; done || lia|by apply Ht].
    + by rewrite entry_set_entry, decide_True, <- He.
    + intros j Hj. rewrite entry_set_entry, decide_False by done. split; [done|by apply Hp].
    + intros b. rewrite Hmem, Hfd. replace (FILEVA + PGSIZE * i + PGSIZE) with (FILEVA + PGSIZE * (i + 1)) by lia. done.
Qed.
Lemma openfile_alloc_loop_ok n i s f : tab_ok s -> (forall j, 0 <= pageref s j) ->
  0 <= i -> i + Z.of_nat n = MAXOPEN -> (forall j, 0 <= j < i -> 2 <= pageref s j) ->
  fwp (openfile_alloc_loop n i s) (fun r f' => alloc_result s f (fst r) (snd r) f') f.
Proof.
  intros Ht Hpos. revert i. induction n as [|n IH]; intros i Hi Hn Hlow; cbn [openfile_alloc_loop].
  { apply fwp_ret. split_and!; [done..|]. left. split; [done|]. intros j Hj. apply Hlow. lia. }
  destruct (Z.eqb_spec (pageref s i) 0) as [E0|E0].
  - destruct (Z.ltb_spec (alloc_error s) 0) as [Ha|Ha].
    { apply fwp_ret. split_and!; [done..|]. by right. }
    apply openfile_take_ok; try done; try lia.
    + by rewrite pageref_set_refs, decide_True.
    + intros j Hj. by rewrite pageref_set_refs, decide_False.
  - destruct (Z.eqb_spec (pageref s i) 1) as [E1|E1].
    { apply openfile_take_ok; try done; lia. }
    apply IH; [lia|lia|]. intros j Hj. destruct (decide (j = i)) as [->|]; [|apply Hlow; lia].
    pose proof (Hpos i). lia.
Qed.

(** [opened i s0 n s]: from [s0] to [s] the entry [i] was handed out [n] times,
    with anything in between that leaves its identifier alone (openings of
    other entries, pages mapped and unmapped by clients, requests). *)
Inductive opened (i : Z) (s0 : server) : nat -> server -> Prop :=
| opened_none : opened i s0 0 s0
| opened_again n s f s' f' : opened i s0 n s -> tab_ok s -> (forall j, 0 <= pageref s j) ->
    run_flat (openfile_alloc s) f = Ret (inr i, s') f' -> opened i s0 (S n) s'
| opened_same n s s' : opened i s0 n s -> o_fileid (entry s' i) = o_fileid (entry s i) ->
    opened i s0 n s'.

Lemma openfile_alloc_run s f : tab_ok s -> (forall j, 0 <= pageref s j) ->
  exists r s' f', run_flat (openfile_alloc s) f = Ret (r, s') f' /\ alloc_result s f r s' f'.
Proof.
  intros Ht Hpos.
  assert (H : fwp (openfile_alloc s) (fun r f' => alloc_result s f (fst r) (snd r) f') f).
  { apply openfile_alloc_loop_ok; [done|done|lia|done|lia]. }
  destruct (fwp_inv _ _ _ H) as ([r s'] & f' & E & Hres). by exists r, s', f'.
Qed.
Lemma opened_fileid i s0 n s : 0 <= o_fileid (entry s0 i) < 2 ^ 32 -> opened i s0 n s ->
  o_fileid (entry s i) = u32 (o_fileid (entry s0 i) + MAXOPEN * Z.of_nat n).
Proof.
  intros Hid. induction 1 as [|n s f s' f' _ IH Ht Hpos E|n s s' _ IH E].
  - rewrite Z.mul_0_r, Z.add_0_r. by rewrite u32_small.
  - destruct (openfile_alloc_run s f Ht Hpos) as (r & s2 & f2 & E2 & Hr). rewrite E2 in E.
    injection E as -> -> ->. destruct Hr as (_ & _ & _ & _ & -> & _). rewrite IH. unfold u32.
    rewrite Zplus_mod_idemp_l. f_equal. lia.
  - by rewrite E.
Qed.
(** The identifiers of [2 ^ 22] openings in a row are different. *)
Lemma opened_stale i s0 n s : tab_ok s0 -> 0 <= i < MAXOPEN -> opened i s0 n s ->
  (0 < Z.of_nat n < 2 ^ 22 -> openfile_lookup s (o_fileid (entry s0 i)) = None) /\
  (Z.of_nat n = 2 ^ 22 -> o_fileid (entry s i) = o_fileid (entry s0 i)).
Proof.
  intros Ht Hi Ho. destruct (Ht i Hi) as (Hid & Hm & _). pose proof (opened_fileid i s0 n s Hid Ho) as E.
  unfold u32, MAXOPEN in *. split; intros Hn.
  - unfold openfile_lookup, MAXOPEN. rewrite Hm, E, (proj2 (Z.eqb_neq _ _)) by zdiv. by rewrite orb_true_r.
  - rewrite E, Hn. zdiv.
Qed.

(** C21.  Identifiers of open files.  [openfile_alloc] takes the first entry
    whose page no client maps, clears that page and nothing else, and gives
    the entry an identifier it did not have; the table stays well formed.
    Once a client maps the page, the new identifier is the only one that
    [openfile_lookup] resolves to that entry - the entry's previous
    identifier is refused - and the lookups of other entries are unchanged.
    It fails only when all entries are mapped by clients or no page can be
    allocated, without changes.  An identifier is refused after the next
    opening of its entry and for [2 ^ 22 - 1] openings in all; not longer: the
    identifiers wrap around, and with the [2 ^ 22]-nd the old one is the
    entry's identifier again. *)
Theorem openfile_ids_fresh (s : server) (f : flat) :
  tab_ok s -> (forall j, 0 <= pageref s j) ->
  (exists r s' f', run_flat (openfile_alloc s) f = Ret (r, s') f' /\ alloc_result s f r s' f' /\
    forall i, r = inr i ->
      let mapped := set_refs i 2 s' in
      (forall id, id mod MAXOPEN = i ->
         openfile_lookup mapped id = if decide (id = o_fileid (entry s' i)) then Some i else None) /\
      openfile_lookup mapped (o_fileid (entry s i)) = None /\
      (forall id, id mod MAXOPEN <> i -> openfile_lookup mapped id = openfile_lookup s id)) /\
  (forall i n s', 0 <= i < MAXOPEN -> opened i s n s' ->
    (0 < Z.of_nat n < 2 ^ 22 -> openfile_lookup s' (o_fileid (entry s i)) = None) /\
    (Z.of_nat n = 2 ^ 22 -> o_fileid (entry s' i) = o_fileid (entry s i))).
Proof.
  intros Ht Hpos. split; [|intros i n s' Hi; by apply opened_stale].
  destruct (openfile_alloc_run s f Ht Hpos) as (r & s' & f' & E & Hres).
  exists r, s', f'. split; [done|]. split; [done|]. intros i ->.
  destruct Hres as (Hi & _ & Hr' & Ht' & Hid' & _ & Hoth & _ & _).
  assert (Hl : forall id, id mod MAXOPEN = i -> openfile_lookup (set_refs i 2 s') id =
      if decide (id = o_fileid (entry s' i)) then Some i else None).
  { intros id Hid. unfold openfile_lookup. rewrite Hid, pageref_set_refs, decide_True by done.
    change (2 <=? 1) with false. change (entry (set_refs i 2 s') i) with (entry s' i).
    case_decide as Heq; [by rewrite Heq, Z.eqb_refl|]. by rewrite (proj2 (Z.eqb_neq _ _)) by congruence. }
  destruct (Ht i Hi) as (Hid & Hm & _). destruct (next_fileid _ i Hid Hm) as (_ & _ & Hne).
  split_and!; [done| |].
  - rewrite Hl by done. rewrite decide_False by congruence. done.
  - intros id Hne'. destruct (Hoth _ Hne') as [He Hp]. unfold openfile_lookup.
    rewrite pageref_set_refs, decide_False by done. change (entry (set_refs i 2 s')) with (entry s').
    by rewrite He, Hp.
Qed.

(** [serve_init] builds a well-formed table. *)
Lemma serve_init_loop_ok n i s j : 0 <= i -> i + Z.of_nat n = MAXOPEN ->
  entry (serve_init_loop n i (FILEVA + PGSIZE * i) s) j =
  if decide (i <= j < MAXOPEN) then
    mkOpen j (o_file (entry s j)) (o_mode (entry s j)) (FILEVA + PGSIZE * j) else entry s j.
Proof.
  revert i s. induction n as [|n IH]; intros i s Hi Hn; cbn [serve_init_loop].
  { by rewrite decide_False by lia. }
  replace (FILEVA + PGSIZE * i + PGSIZE) with (FILEVA + PGSIZE * (i + 1)) by lia.
  rewrite IH by lia. rewrite !entry_set_entry. cases_lia; subst; done.
Qed.
Lemma serve_init_ok s : tab_ok (serve_init s).
Proof.
  intros i Hi. unfold serve_init. replace FILEVA with (FILEVA + PGSIZE * 0) at 1 2 3 4 by lia.
  rewrite serve_init_loop_ok, decide_True by (done || lia). cbn. unfold MAXOPEN in *. split_and!; [lia..| |done].
  by apply Z.mod_small.
Qed.

Lemma serve_init_refs j : 0 <= pageref (serve_init (mkServer empty empty 0)) j.
Proof.
  assert (H : forall n i va s, fd_refs (serve_init_loop n i va s) = fd_refs s).
  { induction n as [|n IH]; intros; cbn [serve_init_loop]; [done|]. by rewrite IH. }
  unfold pageref, serve_init. rewrite H. cbn. by rewrite lookup_empty.
Qed.

(** A fresh table: entry 0 is taken with identifier 1024. *)
Definition fresh_server : server := serve_init (mkServer empty empty 0).
Lemma openfile_ids_fresh_witness :
  exists s' f', run_flat (openfile_alloc fresh_server) (mkFlat empty empty 0 0) = Ret (inr 0, s') f' /\
    o_fileid (entry s' 0) = 1024 /\ openfile_lookup s' 0 = None.
Proof.
  assert (Ht : tab_ok fresh_server) by apply serve_init_ok.
  assert (Hp : forall j, 0 <= pageref fresh_server j) by (intros j; apply serve_init_refs).
  assert (H0 : forall j, pageref fresh_server j = 0) by (intros j; reflexivity).
  assert (Ha : alloc_error fresh_server = 0) by (vm_compute; reflexivity).
  assert (Hid0 : o_fileid (entry fresh_server 0) = 0) by (vm_compute; reflexivity).
  pose proof (openfile_ids_fresh fresh_server (mkFlat empty empty 0 0) Ht Hp) as Hth.
  revert Ht Hp H0 Ha Hid0 Hth. generalize fresh_server (mkFlat empty empty 0 0).
  intros sv f Ht Hp H0 Ha Hid0 [(r & s' & f' & E & H & _) Hst].
  destruct r as [e|i].
  - destruct H as (_ & _ & [[_ H]|[-> H]]); [|lia].
    specialize (H 0 ltac:(unfold MAXOPEN; lia)). rewrite H0 in H. lia.
  - destruct H as (Hi & _ & _ & _ & Hid & Hlow & _).
    assert (i = 0) as ->.
    { destruct (decide (i = 0)) as [|Hne]; [done|]. specialize (Hlow 0 ltac:(lia)). rewrite H0 in Hlow. lia. }
    assert (Hop : opened 0 sv 1 s')
      by exact (opened_again 0 sv 0 sv f s' f' (opened_none 0 sv) Ht Hp E).
    destruct (Hst 0 1%nat s' Hi Hop) as [Hn _]. rewrite Hid0 in Hid, Hn.
    exists s', f'. split; [exact E|]. split; [exact Hid|]. apply Hn. lia.
Defined.

(** ** Requests on an open file *)

(** Entry [i] is in use by a client, for the directory entry [e]. *)
Record open_at (s : server) (i e : Z) : Prop := {
  oa_i : 0 <= i < MAXOPEN; oa_id : o_fileid (entry s i) mod MAXOPEN = i;
  oa_refs : 2 <= pageref s i; oa_file : o_file (entry s i) = e;
  oa_fd : o_fd (entry s i) = FILEVA + PGSIZE * i }.
Record file_ok (f : flat) (e ip : Z) : Prop := {
  fo_fs : fs_ok f; fo_entry : entry_at (fl_mem f) e ip; fo_wf : file_wf (fl_mem f) ip;
  fo_size : isize (fl_mem f) ip <= MAXFILE }.

Lemma openfile_lookup_open s i e : open_at s i e -> openfile_lookup s (o_fileid (entry s i)) = Some i.
Proof.
  intros [Hi Hid Hr _ _]. unfold openfile_lookup. rewrite Hid, Z.eqb_refl.
  by rewrite (proj2 (Z.leb_gt _ _)) by lia.
Qed.

(** The file is the same where the disk window is. *)
Lemma file_ok_window f g e ip : file_ok f e ip ->
  (forall x, window x = true -> load8 (fl_mem g) x = load8 (fl_mem f) x) ->
  fl_super g = fl_super f -> fl_inodes g = fl_inodes f ->
  file_ok g e ip /\ isize (fl_mem g) ip = isize (fl_mem f) ip /\
  (forall k, 0 <= k < NDIRECT -> slot (fl_mem g) ip k = slot (fl_mem f) ip k) /\
  (forall i, 0 <= i < MAXFILE -> slot (fl_mem f) ip (i / BLKSIZE) <> 0 ->
     fdata (fl_mem g) ip i = fdata (fl_mem f) ip i).
Proof.
  intros [Hf He Hwf Hsz] Hw Hs Hi. pose proof (entry_inode_ptr _ _ _ He) as Hip.
  destruct (window_same_keeps ip f g Hf Hip Hwf Hw Hs Hi) as (Hg & Hwg & Hsl & Hd).
  destruct (inode_below ip Hip) as [H1 H2]. change (blk_addr 2) with (DISKMAP + 8192) in H2.
  unfold INSIZE in H2.
  assert (Hsize : isize (fl_mem g) ip = isize (fl_mem f) ip).
  { apply load16_ext; apply Hw, window_iff; unfold i_size, DISKSIZE; lia. }
  pose proof (en_blk _ _ _ He) as Hb. pose proof (blk_range (blk_of e) ltac:(lia)) as Hr.
  split; [|done]. split; [done| |done|by rewrite Hsize].
  eapply entry_at_ext; [exact He| | |].
  - apply (live_ext (fl_mem f)); [lia| |apply (en_live _ _ _ He)]. intros x Hx. symmetry.
    apply Hw, window_iff. unfold INO_MAP, DISKSIZE in *. lia.
  - intros x Hx. apply Hw. replace x with (blk_addr (blk_of e) + (x - blk_addr (blk_of e))) by lia.
    apply blk_addr_of; [done|lia].
  - intros k Hk. rewrite Hsl by done. by apply (en_sep _ _ _ He).
Qed.

(** Words of pages outside the disk window. *)
Definition outside (a : Z) : Prop := PGSIZE <= a /\ (a + 4 <= DISKMAP \/ DISKMAP + DISKSIZE <= a).
Lemma outside_byte a i : outside a -> 0 <= i < 4 -> window (a + i) = false /\ forall f, flat_ok f (a + i) = true.
Proof.
  intros [Ha Hw] Hi. assert (Hb : window (a + i) = false).
  { destruct (window (a + i)) eqn:E; [|done]. apply window_iff in E. lia. }
  split; [done|]. intros f. unfold flat_ok. rewrite Hb. apply Z.leb_le. lia.
Qed.
Lemma fwp_ld32_outside a Q f : outside a -> Q (load32 (fl_mem f) a) f -> fwp (ld32 a) Q f.
Proof. intros Ha. apply fwp_ld32. intros i Hi. by apply outside_byte. Qed.
Lemma fwp_st32_outside a v Q f : outside a ->
  Q tt (fset_mem (store32 (fl_mem f) a v) f) -> fwp (st32 a v) Q f.
Proof. intros Ha. apply fwp_st32. intros m i Hi _. by apply outside_byte. Qed.
Lemma fsreq_outside o : 0 <= o <= PGSIZE - 4 -> outside (fsreq + o).
Proof. unfold outside, fsreq, PGSIZE, DISKMAP. lia. Qed.
Lemma fd_outside s i e o : open_at s i e -> 0 <= o <= PGSIZE - 4 -> outside (o_fd (entry s i) + o).
Proof.
  intros [Hi _ _ _ ->] Ho. unfold outside, FILEVA, PGSIZE, DISKMAP, DISKSIZE in *. lia.
Qed.
Lemma st32_window a v f x : outside a -> window x = true ->
  load8 (store32 (fl_mem f) a v) x = load8 (fl_mem f) x.
Proof. intros [_ Ha] Hx%window_iff. apply load8_store32_ne. lia. Qed.

Lemma fwp_advance s i e r Q f : open_at s i e ->
  (r < 0 -> Q r f) ->
  (0 <= r -> Q r (fset_mem (store32 (fl_mem f) (fd_offset (o_fd (entry s i)))
     (u32 (load32 (fl_mem f) (fd_offset (o_fd (entry s i))) + r))) f)) ->
  fwp (advance (entry s i) r) Q f.
Proof.
  intros Ho Hneg Hpos. unfold advance. rewrite Z.geb_leb. destruct (Z.leb_spec 0 r); [|by apply fwp_ret, Hneg].
  assert (Hout : outside (fd_offset (o_fd (entry s i))))
    by (apply (fd_outside s i e 4); [done|unfold PGSIZE; lia]).
  apply fwp_bind, fwp_ld32_outside; [done|]. apply fwp_bind, fwp_st32_outside; [done|].
  by apply fwp_ret, Hpos.
Qed.
Lemma fwp_on_open_file s i e (body : OpenFile -> prog Z) Q f : open_at s i e ->
  load32 (fl_mem f) (req_fileid fsreq) = o_fileid (entry s i) ->
  fwp (body (entry s i)) Q f -> fwp (on_open_file fsreq s body) Q f.
Proof.
  intros Ho Hid Hb. unfold on_open_file. apply fwp_bind, fwp_ld32_outside.
  { unfold req_fileid. rewrite <- (Z.add_0_r fsreq). by apply fsreq_outside. }
  rewrite Hid. by rewrite (openfile_lookup_open s i e Ho).
Qed.
(** The offset is advanced and the file stays as it is. *)
Lemma advance_keeps s i e ip f r : open_at s i e -> file_ok f e ip ->
  let g := fset_mem (store32 (fl_mem f) (fd_offset (o_fd (entry s i))) r) f in
  file_ok g e ip /\ isize (fl_mem g) ip = isize (fl_mem f) ip /\
  (forall k, 0 <= k < NDIRECT -> slot (fl_mem g) ip k = slot (fl_mem f) ip k) /\
  (forall i, 0 <= i < MAXFILE -> slot (fl_mem f) ip (i / BLKSIZE) <> 0 ->
     fdata (fl_mem g) ip i = fdata (fl_mem f) ip i).
Proof.
  intros Ho Hf g. apply file_ok_window; [done| |done|done].
  intros x. apply st32_window, (fd_outside s i e 4); [done|unfold PGSIZE; lia].
Qed.

(** Only the offset of the open file has changed outside the disk window. *)
Definition only_offset (s : server) (i : Z) (f g : flat) : Prop :=
  let a := fd_offset (o_fd (entry s i)) in
  forall x, window x = false -> x < a \/ a + 4 <= x -> load8 (fl_mem g) x = load8 (fl_mem f) x.

(** Every byte of the range is in the file. *)
Definition holds_range (g : flat) (ip off n : Z) (data : Z -> Z) : Prop :=
  forall j, 0 <= j < n -> off + j < isize (fl_mem g) ip /\
    slot (fl_mem g) ip ((off + j) / BLKSIZE) <> 0 /\ fdata (fl_mem g) ip (off + j) = data j.

Lemma serve_write_fwp s i e ip f n off : open_at s i e -> file_ok f e ip ->
  load32 (fl_mem f) (req_fileid fsreq) = o_fileid (entry s i) ->
  load32 (fl_mem f) (req_n fsreq) = n -> load32 (fl_mem f) (fd_offset (o_fd (entry s i))) = off ->
  n <= PGSIZE - 8 -> off + n <= MAXFILE ->
  fwp (serve_write fsreq s) (fun r g => file_ok g e ip /\ only_offset s i f g /\
    (r = - E_NO_DISK \/
     r = n /\ holds_range g ip off n (fun j => load8 (fl_mem f) (req_buf fsreq + j)))) f.
Proof.
  intros Ho Hf Hid Hn Hoff Hnb Hend.
  pose proof (load32_bound (fl_mem f) (req_n fsreq)) as Bn. rewrite Hn in Bn.
  pose proof (load32_bound (fl_mem f) (fd_offset (o_fd (entry s i)))) as Bo. rewrite Hoff in Bo.
  assert (HM : MAXFILE = 53248) by done.
  unfold serve_write. eapply fwp_on_open_file; [done|done|].
  apply fwp_bind, fwp_ld32_outside; [by apply (fsreq_outside 4)|]. rewrite Hn.
  apply fwp_bind, fwp_ld32_outside; [by apply (fd_outside s i e 4)|]. rewrite Hoff.
  rewrite s32_small by lia. rewrite (oa_file _ _ _ Ho).
  apply fwp_bind. eapply fwp_mono; [apply (file_write_fwp f e ip)|].
  { apply Hf. } { apply Hf. } { apply Hf. }
  { unfold client, req_buf, fsreq, PGSIZE, DISKMAP in *. lia. } { lia. } { done. }
  cbv beta. intros r g (Hg & Hwg & Heg & Hszg & _ & Hout & _ & Hr).
  assert (Hfg : file_ok g e ip).
  { split; [done..|]. rewrite Hszg. pose proof (fo_size _ _ _ Hf). lia. }
  apply (fwp_advance s i e); [done| |].
  - intros Hneg. split; [done|]. split; [intros x Hx _; by apply Hout|].
    left. destruct Hr as [[-> _]|[-> _]]; [done|lia].
  - intros Hpos. destruct Hr as [[-> _]|[-> (Hw & _)]]; [done|].
    destruct (advance_keeps s i e ip g (u32 (load32 (fl_mem g) (fd_offset (o_fd (entry s i))) + n)) Ho Hfg)
      as (Hh & Hsz & Hsl & Hd).
    split; [exact Hh|]. split.
    + intros x Hx Ha. cbn. rewrite load8_store32_ne by done. by apply Hout.
    + right. split; [done|]. intros j Hj. specialize (Hw (off + j) ltac:(lia)).
      rewrite decide_True in Hw by lia. destruct Hw as [Hs Hb].
      assert (0 <= (off + j) / BLKSIZE < NDIRECT) by (change BLKSIZE with 4096; unfold NDIRECT; zdiv).
      rewrite Hsz, Hsl, Hd by (done || lia). split; [lia|]. split; [done|].
      rewrite Hb. f_equal. lia.
Qed.

(** Reading [n] bytes of the file, all of which are there. *)
Lemma serve_read_fwp s i e ip f n off data : open_at s i e -> file_ok f e ip ->
  load32 (fl_mem f) (req_fileid fsreq) = o_fileid (entry s i) ->
  load32 (fl_mem f) (req_n fsreq) = n -> load32 (fl_mem f) (fd_offset (o_fd (entry s i))) = off ->
  n <= PGSIZE -> off + n <= MAXFILE -> holds_range f ip off n data ->
  fwp (serve_read fsreq s) (fun r g => r = n /\ forall j, 0 <= j < n -> load8 (fl_mem g) (fsreq + j) = data j) f.
Proof.
  intros Ho Hf Hid Hn Hoff Hnb Hend Hdata.
  pose proof (load32_bound (fl_mem f) (req_n fsreq)) as Bn. rewrite Hn in Bn.
  pose proof (load32_bound (fl_mem f) (fd_offset (o_fd (entry s i)))) as Bo. rewrite Hoff in Bo.
  assert (HM : MAXFILE = 53248) by done.
  assert (Hmin : Z.max 0 (Z.min n (isize (fl_mem f) ip - off)) = n).
  { destruct (decide (n = 0)) as [->|]; [lia|].
    destruct (Hdata (n - 1) ltac:(lia)) as (Hlt & _ & _). lia. }
  unfold serve_read. eapply fwp_on_open_file; [done|done|].
  apply fwp_bind, fwp_ld32_outside; [by apply (fsreq_outside 4)|]. rewrite Hn.
  apply fwp_bind, fwp_ld32_outside; [by apply (fd_outside s i e 4)|]. rewrite Hoff.
  rewrite s32_small by lia. rewrite (oa_file _ _ _ Ho).
  apply fwp_bind. eapply fwp_mono; [apply (file_read_fwp f e ip); [apply Hf|apply Hf|apply Hf|apply Hf|lia|lia|..]|].
  - rewrite Hmin. unfold client, fsreq, PGSIZE, DISKMAP in *. lia.
  - rewrite Hmin. intros x Hx. replace x with (off + (x - off)) by lia. apply Hdata. lia.
  - rewrite Hmin. cbv beta. intros r g (-> & _ & _ & _ & Hrd). apply (fwp_advance s i e); [done|lia|].
    intros _. split; [done|]. intros j Hj. cbn.
    rewrite load8_store32_ne by (rewrite (oa_fd _ _ _ Ho); pose proof (oa_i _ _ _ Ho);
      unfold fd_offset, FILEVA, fsreq, PGSIZE in *; lia).
    specialize (Hrd (off + j) ltac:(lia)). replace (off + j - off) with j in Hrd by lia.
    rewrite Hrd. by apply Hdata.
Qed.
