(* ===== verification/Boot.v ===== *)
(** * Booting: src/src/entrypgdir.c, main.c, init.c

    The page table the kernel starts with, the boot loader that reads the
    kernel from the disk, and the kernel's initialisation.  The boot loader
    runs before paging: memory is physical, and the disk is a byte sequence
    read sector by sector. *)
From S2P Require Import Prelude Layout Mem CString Printf Console Kern Pmap EnvMod.

(** ** entrypgdir.c *)

(** The 1024 entries [i * 0x1000 | PTE_P | PTE_W]. *)
Definition entry_pgtable (i : Z) : Z := Z.lor (Z.lor (4096 * i) PTE_P) PTE_W.
(** [table] is the link address of [entry_pgtable]. *)
Definition entry_pgdir (table d : Z) : Z :=
  if d =? 0 then u32 (u32 (table - KERNBASE) + PTE_P)
  else if d =? Z.shiftr KERNBASE PDXSHIFT then u32 (u32 (table - KERNBASE) + PTE_P + PTE_W)
  else 0.
(** The two tables in physical memory, directory at [dir]. *)
Fixpoint write_words (n : nat) (a i : Z) (f : Z -> Z) (m : mem) : mem :=
  match n with
  | O => m
  | S n' => write_words n' a (i + 1) f (store32 m (a + 4 * i) (f i))
  end.
Definition entry_memory (dir table : Z) (m : mem) : mem :=
  write_words 1024 dir 0 (entry_pgdir table)
    (write_words 1024 (table - KERNBASE) 0 entry_pgtable m).

(** ** main.c *)
Definition SECTSIZE : Z := 512.
Definition ELF_MAGIC : Z := 0x464C457F.
Definition ELFHDR : Z := 0x10000.

(** [readsect]: the sector of the disk, copied to [dst]; the controller takes
    a 28-bit sector number. *)
Fixpoint copy_bytes (n : nat) (m : mem) (dst : Z) (disk : mem) (src : Z) : mem :=
  match n with
  | O => m
  | S n' => copy_bytes n' (store8 m dst (load8 disk src)) (dst + 1) disk (src + 1)
  end.
Definition readsect (disk m : mem) (dst offset : Z) : mem :=
  copy_bytes (Z.to_nat SECTSIZE) m dst disk (u32 offset mod 2 ^ 28 * SECTSIZE).
(** [while (pa < end_pa)]; [fuel] bounds the number of sectors. *)
Fixpoint readseg_loop (fuel : nat) (disk m : mem) (pa end_pa offset : Z) : option mem :=
  if pa <? end_pa then
    match fuel with
    | O => None
    | S f => readseg_loop f disk (readsect disk m pa offset) (u32 (pa + SECTSIZE)) end_pa
               (u32 (offset + 1))
    end
  else Some m.
Definition readseg (fuel : nat) (disk m : mem) (pa count offset : Z) : option mem :=
  let end_pa := u32 (pa + count) in
  let pa := Z.land pa (u32 (Z.lnot (SECTSIZE - 1))) in
  readseg_loop fuel disk m pa end_pa (u32 (offset / SECTSIZE + 1)).

(** The program segments, and the entry point jumped to ([inl]); [inr] is the
    halt after a bad header. *)
Fixpoint load_segments (n fuel : nat) (disk m : mem) (ph : Z) : option mem :=
  match n with
  | O => Some m
  | S n' =>
      m' ← readseg fuel disk m (load32 m (ph + 12)) (load32 m (ph + 20)) (load32 m (ph + 4));
      load_segments n' fuel disk m' (ph + 32)
  end.
Definition bootmain (fuel : nat) (disk m : mem) : option (mem * Z + mem) :=
  m ← readseg fuel disk m ELFHDR (SECTSIZE * 8) 0;
  if negb (load32 m ELFHDR =? ELF_MAGIC) then Some (inr m)
  else
    let ph := ELFHDR + load32 m (ELFHDR + 28) in
    let n := load16 m (ELFHDR + 44) in
    m' ← load_segments (Z.to_nat n) fuel disk m ph;
    Some (inl (m', load32 m' (ELFHDR + 24))).

(** ** init.c: from a machine whose memory and images are in place; [damnfs]
    and [sh] are the physical addresses of the two binaries. *)
Definition i386_init (baselo extlo kend bootstack damnfs sh : Z) : K unit :=
  mem_init baselo extlo kend bootstack;;
  env_init;;
  env_create damnfs ENV_TYPE_FS;;
  env_create sh ENV_TYPE_USER;;
  sched_yield.

(** ** Theorems *)

Lemma load32_write_words n a i f m b :
  0 <= i -> (b < a + 4 * i \/ a + 4 * (i + Z.of_nat n) <= b) -> b + 4 <= a + 4 * i \/ a + 4 * (i + Z.of_nat n) <= b ->
  load32 (write_words n a i f m) b = load32 m b.
Proof.
  revert i m. induction n as [|n IH]; intros i m Hi Hb Hb'; [done|]. simpl.
  rewrite IH by lia. apply load32_store32_ne. lia.
Qed.
Lemma load32_write_words_in n a i f m j :
  0 <= i -> i <= j < i + Z.of_nat n ->
  load32 (write_words n a i f m) (a + 4 * j) = u32 (f j).
Proof.
  revert i m. induction n as [|n IH]; intros i m Hi Hj; [lia|]. simpl.
  destruct (decide (j = i)) as [->|].
  - rewrite load32_write_words by lia. apply load32_store32_eq.
  - apply IH; lia.
Qed.
Lemma entry_pgtable_eq i : 0 <= i < 1024 -> entry_pgtable i = 4096 * i + 3.
Proof.
  intros Hi. unfold entry_pgtable. rewrite <- Z.lor_assoc. change (Z.lor PTE_P PTE_W) with 3.
  apply (PTE_ADDR_lor (4096 * i) 3); [lia|zdiv|lia].
Qed.

Lemma entry_bits x f : x mod 4096 = 0 -> 0 <= x -> f = 1 \/ f = 3 ->
  Z.land (Z.lor x f) PTE_P = 1 /\ Z.land (Z.lor x f) PTE_W = f - 1.
Proof.
  intros Hx0 Hxp Hf. rewrite !Z.land_lor_distr_l.
  assert (H0 : forall w, w = 1 \/ w = 2 -> Z.land x w = 0).
  { intros w Hw. apply testbit_ext. intros i Hi. rewrite Z.land_spec, Z.bits_0.
    destruct (decide (i < 12)).
    - rewrite <- (Z.mod_pow2_bits_low x 12 i) by lia. change (2 ^ 12) with 4096.
      by rewrite Hx0, Z.bits_0.
    - rewrite (testbit_high w 12 i); [apply andb_false_r|lia|lia]. }
  unfold PTE_P, PTE_W. rewrite !H0 by lia. by destruct Hf as [-> | ->].
Qed.

#[local] Opaque write_words.

Section entry_tables.
Context (dir table : Z) (m : mem).
Context (Ht : table mod 4096 = 0) (Hdr : 0 <= dir < 2 ^ 30)
  (Htr : KERNBASE <= table < KERNBASE + 2 ^ 28)
  (Hdisj : dir + 4096 <= table - KERNBASE \/ table - KERNBASE + 4096 <= dir).

Lemma entry_pde d : 0 <= d < 1024 ->
  load32 (entry_memory dir table m) (dir + 4 * d) = u32 (entry_pgdir table d).
Proof. intros Hb. unfold entry_memory. apply load32_write_words_in; lia. Qed.
Lemma entry_pte t : 0 <= t < 1024 ->
  load32 (entry_memory dir table m) (table - KERNBASE + 4 * t) = 4096 * t + 3.
Proof.
  intros Hb. unfold entry_memory. rewrite load32_write_words by lia.
  rewrite load32_write_words_in, entry_pgtable_eq by lia. apply u32_small. lia.
Qed.

#[local] Opaque entry_memory.
(** An access through directory entry [d], when it points to the table. *)
Lemma translate_entry k write va d fl :
  pmem k = entry_memory dir table m -> cr3 k = dir -> 0 <= va < 2 ^ 32 -> PDX va = d ->
  entry_pgdir table d = table - KERNBASE + fl -> fl = 1 \/ fl = 3 ->
  translate k write va =
  if negb write || (fl =? 3) then Some (PTX va * 4096 + PGOFF va) else None.
Proof.
  intros Hm Hc Hva Hdx He Hfl. unfold translate. rewrite Hm, Hc, Hdx.
  assert (Hb : 0 <= d < 1024) by (subst d; apply PDX_bound).
  rewrite entry_pde, He by done. rewrite u32_small by (unfold KERNBASE in *; lia).
  assert (Hmod : (table - KERNBASE) mod 4096 = 0).
  { unfold KERNBASE in *. rewrite Zminus_mod, Ht. done. }
  destruct (PTE_ADDR_lor (table - KERNBASE) fl) as [Ha Hl];
    [unfold KERNBASE in *; lia|done|lia|]. rewrite <- Hl, Ha.
  rewrite entry_pte by apply PTX_bound. pose proof (PTX_bound va) as Hx.
  destruct (PTE_ADDR_lor (4096 * PTX va) 3) as [Hpa Hpl]; [lia|zdiv|lia|].
  rewrite <- Hpl, Hpa.
  destruct (entry_bits (table - KERNBASE) fl) as [-> ->]; [done|unfold KERNBASE in *; lia|done|].
  destruct (entry_bits (4096 * PTX va) 3) as [-> ->]; [zdiv|lia|lia|].
  destruct write, Hfl as [-> | ->]; cbn; by rewrite ?(Z.mul_comm 4096).
Qed.
End entry_tables.

(** The page tables the kernel starts with map the first four megabytes
    of physical memory twice: at the bottom of the address space, readable,
    and at [KERNBASE], readable and writable; the processor's translation
    computes exactly that. *)
Theorem entry_tables_map (k : kern) (dir table va : Z) (m : mem) :
  pmem k = entry_memory dir table m -> cr3 k = dir ->
  table mod 4096 = 0 ->
  0 <= dir < 2 ^ 30 -> KERNBASE <= table < KERNBASE + 2 ^ 28 ->
  (dir + 4096 <= table - KERNBASE \/ table - KERNBASE + 4096 <= dir) ->
  0 <= va < 4194304 ->
  translate k false va = Some va /\ translate k true va = None /\
  forall write, translate k write (KERNBASE + va) = Some va.
Proof.
  intros Hm Hc Ht Hdr Htr Hdisj Hva.
  assert (Hlow : forall write, translate k write va = if negb write || (1 =? 3)
    then Some (PTX va * 4096 + PGOFF va) else None).
  { intros w. apply (translate_entry dir table m Ht Hdr Htr Hdisj k w va 0 1 Hm Hc).
    - lia.
    - rewrite PDX_eq by lia. clear -Hva. zdiv.
    - unfold entry_pgdir. cbn [Z.eqb]. unfold PTE_P. clear -Htr. unfold KERNBASE in *.
      rewrite (u32_small (table - _)), u32_small by lia. reflexivity.
    - by left. }
  assert (Hhi : forall write, translate k write (KERNBASE + va) =
    Some (PTX (KERNBASE + va) * 4096 + PGOFF (KERNBASE + va))).
  { intros w. rewrite (translate_entry dir table m Ht Hdr Htr Hdisj k w _ 960 3 Hm Hc).
    - by rewrite orb_true_r.
    - clear -Hva. unfold KERNBASE in *. lia.
    - rewrite PDX_eq by (unfold KERNBASE in *; lia). clear -Hva. unfold KERNBASE in *. zdiv.
    - unfold entry_pgdir. change (960 =? 0) with false.
      change (960 =? Z.shiftr KERNBASE PDXSHIFT) with true. cbv iota. clear -Htr.
      unfold PTE_P, PTE_W, KERNBASE in *. rewrite (u32_small (table - _)), u32_small by lia. lia.
    - by right. }
  clear -Hva Hlow Hhi.
  assert (Hsplit : PTX va * 4096 + PGOFF va = va).
  { pose proof (va_split va ltac:(lia)). rewrite PDX_eq in H by lia. zdiv. }
  assert (Hsplit' : PTX (KERNBASE + va) * 4096 + PGOFF (KERNBASE + va) = va).
  { rewrite PTX_eq, PGOFF_eq by (unfold KERNBASE; lia). unfold KERNBASE. zdiv. }
  split_and!.
  - rewrite Hlow. cbn. by rewrite Hsplit.
  - by rewrite Hlow.
  - intros w. by rewrite Hhi, Hsplit'.
Qed.

(** A processor with the given memory and page directory, for examples. *)
Definition boot_kern (m : mem) (dir : Z) : kern :=
  mkKern m 0 0 empty None 0 0 0 empty None None dir 0 [] false (console0 [] []) [].
Lemma boot_kern_pmem m dir : pmem (boot_kern m dir) = m.
Proof. done. Qed.
Lemma boot_kern_cr3 m dir : cr3 (boot_kern m dir) = dir.
Proof. done. Qed.

(** A directory at 1 MB, the table behind it. *)
Lemma entry_tables_map_witness :
  translate (boot_kern (entry_memory 0x100000 0xF0101000 empty) 0x100000) true 0xF0012345 =
  Some 0x12345.
Proof.
  exact (proj2 (proj2 (entry_tables_map _ 0x100000 0xF0101000 0x12345 empty
    (boot_kern_pmem _ _) (boot_kern_cr3 _ _) eq_refl
    ltac:(lia) ltac:(unfold KERNBASE; lia) ltac:(unfold KERNBASE; lia) ltac:(lia))) true).
Defined.
