(* ===== verification/User.v ===== *)
(** * User programs: src/src/syscall.c, pageref.c, ipc.c, pgfault.c, fork.c, wait.c, exit.c, libmain.c

    Code that runs outside the kernel is a program ([uprog]) over what a user
    environment can do: atomic accesses to its memory, reads of the tables the
    kernel shows it ([uvpd], [uvpt], [pages], [envs]), system calls, and
    console output.  [urun] runs one as the current environment of the kernel;
    PipeProps.v interleaves two of them.

    Loops that wait for another environment, or for a NUL, take fuel. *)
From S2P Require Import Prelude Layout Mem CString Printf Console Kern Pmap EnvMod TrapMod.

Inductive uprog (A : Type) : Type :=
| UDone (a : A)
| UPanics (msg : string)
| UFuel
| ULoad8 (a : Z) (k : Z -> uprog A)
| ULoad32 (a : Z) (k : Z -> uprog A)
| UStore8 (a v : Z) (k : uprog A)
| UStore32 (a v : Z) (k : uprog A)
| UPde (i : Z) (k : Z -> uprog A)                     (* [uvpd[i]] *)
| UPte (i : Z) (k : Z -> uprog A)                     (* [uvpt[i]] *)
| URef (i : Z) (k : Z -> uprog A)                     (* [pages[i].pp_ref] *)
| UEnvs (i : Z) (k : Env -> uprog A)                  (* a field of [envs[i]] *)
| USys (num a1 a2 a3 a4 a5 : Z) (k : Z -> uprog A)    (* [int $T_SYSCALL] *)
| UPrint (m : message) (k : uprog A).
Arguments UDone {A} a.
Arguments UPanics {A} msg.
Arguments UFuel {A}.
Arguments ULoad8 {A} a k.
Arguments ULoad32 {A} a k.
Arguments UStore8 {A} a v k.
Arguments UStore32 {A} a v k.
Arguments UPde {A} i k.
Arguments UPte {A} i k.
Arguments URef {A} i k.
Arguments UEnvs {A} i k.
Arguments USys {A} num a1 a2 a3 a4 a5 k.
Arguments UPrint {A} m k.

Fixpoint ubind {A B} (f : A -> uprog B) (p : uprog A) : uprog B :=
  match p with
  | UDone a => f a
  | UPanics msg => UPanics msg
  | UFuel => UFuel
  | ULoad8 a k => ULoad8 a (fun v => ubind f (k v))
  | ULoad32 a k => ULoad32 a (fun v => ubind f (k v))
  | UStore8 a v k => UStore8 a v (ubind f k)
  | UStore32 a v k => UStore32 a v (ubind f k)
  | UPde i k => UPde i (fun v => ubind f (k v))
  | UPte i k => UPte i (fun v => ubind f (k v))
  | URef i k => URef i (fun v => ubind f (k v))
  | UEnvs i k => UEnvs i (fun v => ubind f (k v))
  | USys n a1 a2 a3 a4 a5 k => USys n a1 a2 a3 a4 a5 (fun v => ubind f (k v))
  | UPrint m k => UPrint m (ubind f k)
  end.
#[export] Instance uprog_ret : MRet uprog := fun _ a => UDone a.
#[export] Instance uprog_bind : MBind uprog := fun _ _ f p => ubind f p.

Definition uld8 (a : Z) : uprog Z := ULoad8 a UDone.
Definition uld32 (a : Z) : uprog Z := ULoad32 a UDone.
Definition ust8 (a v : Z) : uprog unit := UStore8 a v (UDone tt).
Definition ust32 (a v : Z) : uprog unit := UStore32 a v (UDone tt).
Definition uvpd (i : Z) : uprog Z := UPde i UDone.
Definition uvpt (i : Z) : uprog Z := UPte i UDone.
Definition env_field (i : Z) : uprog Env := UEnvs i UDone.
Definition uprint (fmt : string) (args : list Z) : uprog unit := UPrint (Msg fmt args) (UDone tt).

(** [for (i = 0; n rounds; i++)], [Some r] being an early [return r]. *)
Fixpoint ufor {R} (n : nat) (i : Z) (body : Z -> uprog (option R)) : uprog (option R) :=
  match n with
  | O => mret None
  | S n' => r ← body i; match r with Some v => mret (Some v) | None => ufor n' (i + 1) body end
  end.

(** ** Running a program as the current environment *)

(** A user access: both entries must be present, user and, to write, writable. *)
Definition utranslate (k : kern) (write : bool) (va : Z) : option Z :=
  let pde := load32 (pmem k) (cr3 k + 4 * PDX va) in
  let pte := load32 (pmem k) (PTE_ADDR pde + 4 * PTX va) in
  let ok e := negb (Z.land e PTE_P =? 0) && negb (Z.land e PTE_U =? 0) &&
              (negb write || negb (Z.land e PTE_W =? 0)) in
  if ok pde && ok pte then Some (PTE_ADDR pte + PGOFF va) else None.
(** What a page fault of the program turns into is the trap's business. *)
Definition uread8 (va : Z) : K Z :=
  k ← st_get;
  match utranslate k false (u32 va) with
  | Some pa => mret (load8 (pmem k) pa)
  | None => st_crash "user page fault"
  end.
Definition uwrite8 (va v : Z) : K unit :=
  k ← st_get;
  match utranslate k true (u32 va) with
  | Some pa => kset (fun k => k {{ pmem := store8 (pmem k) pa v }})
  | None => st_crash "user page fault"
  end.
Definition uread32 (va : Z) : K Z :=
  b0 ← uread8 va; b1 ← uread8 (va + 1); b2 ← uread8 (va + 2); b3 ← uread8 (va + 3);
  mret (b0 + 256 * b1 + 65536 * b2 + 16777216 * b3).
Definition uwrite32 (va v : Z) : K unit :=
  uwrite8 va v;; uwrite8 (va + 1) (v / 256);; uwrite8 (va + 2) (v / 65536);;
  uwrite8 (va + 3) (v / 16777216).
(** [uvpd[i]] is entry [i] of the directory; [uvpt[i]] faults when the page
    table does not exist. *)
Definition read_pde (i : Z) : K Z := kget (fun k => load32 (pmem k) (cr3 k + 4 * i)).
Definition read_pte (i : Z) : K Z :=
  pde ← read_pde (i / 1024);
  if Z.land pde PTE_P =? 0 then st_crash "user page fault" else pload (PTE_ADDR pde + 4 * (i mod 1024)).

Fixpoint urun {A} (p : uprog A) : K A :=
  match p with
  | UDone a => mret a
  | UPanics msg => st_panic msg
  | UFuel => fun _ => NoFuel
  | ULoad8 a k => v ← uread8 a; urun (k v)
  | ULoad32 a k => v ← uread32 a; urun (k v)
  | UStore8 a v k => uwrite8 a v;; urun k
  | UStore32 a v k => uwrite32 a v;; urun k
  | UPde i k => v ← read_pde i; urun (k v)
  | UPte i k => v ← read_pte i; urun (k v)
  | URef i k => p ← get_page i; urun (k (pp_ref p))
  | UEnvs i k => e ← get_env i; urun (k e)
  | USys n a1 a2 a3 a4 a5 k => r ← syscall n (u32 a1) (u32 a2) (u32 a3) (u32 a4) (u32 a5); urun (k r)
  | UPrint m k => kset (fun k => k {{ klog ::= fun l => l ++ [m] }});; urun k
  end.

(** ** syscall.c *)

(** With [check], a positive result is a panic. *)
Definition usyscall (num : Z) (check : bool) (a1 a2 a3 a4 a5 : Z) : uprog Z :=
  USys num a1 a2 a3 a4 a5 (fun ret =>
    if check && (ret >? 0) then UPanics "syscall %d returned %d (> 0)" else UDone ret).
Definition usys_cputs (s len : Z) : uprog unit := usyscall SYS_cputs false s len 0 0 0;; mret tt.
Definition usys_cgetc : uprog Z := usyscall SYS_cgetc false 0 0 0 0 0.
Definition usys_env_destroy (envid : Z) : uprog Z := usyscall SYS_env_destroy true envid 0 0 0 0.
Definition usys_getenvid : uprog Z := usyscall SYS_getenvid false 0 0 0 0 0.
Definition usys_yield : uprog unit := usyscall SYS_yield false 0 0 0 0 0;; mret tt.
Definition usys_page_alloc (envid va perm : Z) : uprog Z :=
  usyscall SYS_page_alloc true envid va perm 0 0.
Definition usys_page_map (srcenv srcva dstenv dstva perm : Z) : uprog Z :=
  usyscall SYS_page_map true srcenv srcva dstenv dstva perm.
Definition usys_page_unmap (envid va : Z) : uprog Z := usyscall SYS_page_unmap true envid va 0 0 0.
Definition usys_exofork : uprog Z := USys SYS_exofork 0 0 0 0 0 UDone.
Definition usys_env_set_status (envid status : Z) : uprog Z :=
  usyscall SYS_env_set_status true envid status 0 0 0.
Definition usys_env_set_trapframe (envid tf : Z) : uprog Z :=
  usyscall SYS_env_set_trapframe true envid tf 0 0 0.
Definition usys_env_set_pgfault_upcall (envid upcall : Z) : uprog Z :=
  usyscall SYS_env_set_pgfault_upcall true envid upcall 0 0 0.
Definition usys_ipc_try_send (envid value srcva perm : Z) : uprog Z :=
  usyscall SYS_ipc_try_send false envid value srcva perm 0.
Definition usys_ipc_recv (dstva : Z) : uprog Z := usyscall SYS_ipc_recv true dstva 0 0 0 0.

(** ** pageref.c *)
Definition upageref (v : Z) : uprog Z :=
  pde ← uvpd (PDX v);
  if Z.land pde PTE_P =? 0 then mret 0
  else
    pte ← uvpt (PGNUM v);
    if Z.land pte PTE_P =? 0 then mret 0 else URef (PGNUM pte) UDone.

(** [memmove], [strcpy] and [strlen] in user memory, byte by byte. *)
Fixpoint uload_bytes (n : nat) (a : Z) : uprog (list Z) :=
  match n with O => mret [] | S n' => b ← uld8 a; r ← uload_bytes n' (a + 1); mret (b :: r) end.
Fixpoint ustore_bytes (l : list Z) (a : Z) : uprog unit :=
  match l with [] => mret tt | b :: l' => ust8 a b;; ustore_bytes l' (a + 1) end.
Definition umemmove (dst src n : Z) : uprog unit :=
  bs ← uload_bytes (Z.to_nat n) src; ustore_bytes bs dst.
Fixpoint ustrcpy (fuel : nat) (dst src : Z) : uprog unit :=
  match fuel with
  | O => UFuel
  | S f => b ← uld8 src; ust8 dst b;; if b =? 0 then mret tt else ustrcpy f (dst + 1) (src + 1)
  end.
Fixpoint ustrlen (fuel : nat) (s n : Z) : uprog Z :=
  match fuel with
  | O => UFuel
  | S f => b ← uld8 s; if b =? 0 then mret n else ustrlen f (s + 1) (n + 1)
  end.
(** [strcpy] of a literal. *)
Fixpoint ustrcpy_lit (dst : Z) (l : list Z) : uprog unit :=
  match l with [] => ust8 dst 0 | c :: l' => ust8 dst c;; ustrcpy_lit (dst + 1) l' end.

(** ** The globals of a program: [thisenv] (the index of the environment it
    points to), [fsenv] of fsipc, [_pgfault_handler] and the address of the
    assembly upcall *)
Section program.
Context (thisenv fsenv pgfault_handler upcall : Z).

Definition this_env : uprog Env := t ← uld32 thisenv; env_field t.
Definition set_thisenv : uprog unit := id ← usys_getenvid; ust32 thisenv (ENVX id).

(** ** ipc.c: the results are stored through [from_env_store] and
    [perm_store] unless they are null; the error is overwritten. *)
Definition ipc_recv (from_env_store pg perm_store : Z) : uprog Z :=
  r ← usys_ipc_recv (if pg =? 0 then -1 else pg);
  (if r <? 0 then
     (if negb (from_env_store =? 0) then ust32 from_env_store 0 else mret tt);;
     (if negb (perm_store =? 0) then ust32 perm_store 0 else mret tt)
   else mret tt);;
  (if negb (from_env_store =? 0) then e ← this_env; ust32 from_env_store (env_ipc_from e) else mret tt);;
  (if negb (perm_store =? 0) then e ← this_env; ust32 perm_store (env_ipc_perm e) else mret tt);;
  e ← this_env;
  mret (s32 (env_ipc_value e)).
Fixpoint ipc_send_loop (fuel : nat) (to_env val pg perm : Z) : uprog unit :=
  match fuel with
  | O => UFuel
  | S f =>
      r ← usys_ipc_try_send to_env val pg perm;
      if r =? 0 then mret tt
      else if negb (r =? - E_IPC_NOT_RECV) then UPanics "ipc_send : %e"
      else usys_yield;; ipc_send_loop f to_env val pg perm
  end.
Definition ipc_send (fuel : nat) (to_env val pg perm : Z) : uprog unit :=
  ipc_send_loop fuel to_env val (if pg =? 0 then -1 else pg) perm.
Definition ipc_find_env (type : Z) : uprog Z :=
  r ← ufor (Z.to_nat NENV) 0 (fun i =>
    e ← env_field i; mret (if env_type e =? type then Some (env_id e) else None));
  mret (default 0 r).

(** ** pgfault.c *)
Definition set_pgfault_handler (handler : Z) : uprog unit :=
  h ← uld32 pgfault_handler;
  (if h =? 0 then
     r ← usys_page_alloc 0 (UXSTACKTOP - PGSIZE) (Z.lor (Z.lor PTE_P PTE_U) PTE_W);
     if r <? 0 then UPanics "set_pgfault_handler : %e"
     else
       r ← usys_env_set_pgfault_upcall 0 upcall;
       if r <? 0 then UPanics "set_pgfault_handler : %e" else mret tt
   else mret tt);;
  ust32 pgfault_handler handler.

(** ** fork.c *)
Definition FEC_WR : Z := 0x2.
Definition UTEMP : Z := PTSIZE.
Definition PFTEMP : Z := UTEMP + PTSIZE - PGSIZE.
Definition rwu : Z := Z.lor (Z.lor PTE_W PTE_U) PTE_P.
Definition cow : Z := Z.lor (Z.lor PTE_COW PTE_U) PTE_P.

(** The handler, given the frame at [utf]: only a read of a page that is not
    copy-on-write is refused. *)
Definition pgfault (utf : Z) : uprog unit :=
  fault_va ← uld32 utf;
  let addr := ROUNDDOWN fault_va PGSIZE in
  err ← uld32 (utf + 4);
  bad ← (if negb (Z.land err FEC_WR =? 0) then mret false
         else pte ← uvpt (PGNUM fault_va); mret (Z.land pte PTE_COW =? 0));
  if (bad : bool) then UPanics "pgfault check access fails"
  else
    r ← usys_page_alloc 0 PFTEMP rwu;
    if r <? 0 then UPanics "pgfault : sys_page_alloc : %e"
    else
      umemmove PFTEMP addr PGSIZE;;
      r ← usys_page_map 0 PFTEMP 0 addr rwu;
      if r <? 0 then UPanics "pgfault : sys_page_map : %e"
      else
        r ← usys_page_unmap 0 PFTEMP;
        if r <? 0 then UPanics "pgfault : sys_page_unmap : %e" else mret tt.

Definition duppage (envid pn : Z) : uprog Z :=
  let addr := u32 (pn * PGSIZE) in
  let map src dst perm :=
    r ← usys_page_map src addr dst addr perm;
    if r <? 0 then UPanics "duppage : sys_page_map : %e" else mret tt in
  pte ← uvpt pn;
  if negb (Z.land pte PTE_SHARE =? 0) then map 0 envid (Z.lor PTE_SHARE PTE_SYSCALL);; mret 0
  else
    w ← uvpt pn;
    c ← (if negb (Z.land w PTE_W =? 0) then mret true
         else c ← uvpt pn; mret (negb (Z.land c PTE_COW =? 0)));
    if (c : bool) then map 0 envid cow;; map 0 0 cow;; mret 0
    else map 0 envid (Z.lor PTE_U PTE_P);; mret 0.

(** The four tests of the copying loops, on the page at [va]; [bits] are those
    the entry must have. *)
Fixpoint pte_has (va : Z) (bits : list Z) : uprog bool :=
  match bits with
  | [] => mret true
  | b :: bits' => pte ← uvpt (PGNUM va); if Z.land pte b =? 0 then mret false else pte_has va bits'
  end.
Definition page_has (va : Z) (bits : list Z) : uprog bool :=
  pde ← uvpd (PDX va); if Z.land pde PTE_P =? 0 then mret false else pte_has va bits.

(** The loop of [fork] over the pages below [USTACKTOP], and its body. *)
Definition fork_page (child j : Z) : uprog (option unit) :=
  let i := PGSIZE * j in
  here ← page_has i [PTE_P; PTE_U];
  if (here : bool) then duppage child (PGNUM i);; mret None else mret None.
Definition fork_pages (child : Z) : uprog (option unit) :=
  ufor (Z.to_nat (USTACKTOP / PGSIZE)) 0 (fork_page child).

(** The address of [pgfault] is [handler]; the negative result of
    [sys_exofork] is not tested. *)
Definition fork (handler : Z) : uprog Z :=
  set_pgfault_handler handler;;
  child ← usys_exofork;
  if child =? 0 then set_thisenv;; mret 0
  else
    fork_pages child;;
    r ← usys_page_alloc child (UXSTACKTOP - PGSIZE) rwu;
    if r <? 0 then UPanics "fork : sys_page_alloc : %e"
    else
      r ← usys_env_set_pgfault_upcall child upcall;
      if r <? 0 then UPanics "fork : sys_env_set_pgfault_upcall : %e"
      else
        r ← usys_env_set_status child ENV_RUNNABLE;
        if r <? 0 then UPanics "sys_env_set_status: %e" else mret child.

(** ** wait.c *)
Fixpoint wait (fuel : nat) (envid : Z) : uprog unit :=
  match fuel with
  | O => UFuel
  | S f =>
      e ← env_field (ENVX envid);
      if negb (env_id e =? envid) then mret tt
      else
        e ← env_field (ENVX envid);
        if env_status e =? ENV_FREE then mret tt else usys_yield;; wait f envid
  end.
End program.
