(* ===== verification/Fd.v ===== *)
(** * File descriptors and devices: src/src/fd.c, pipe.c, file.c, uconsole.c

    A descriptor is a page: [struct Fd] at [INDEX2FD i], with one data page at
    [INDEX2DATA i].  The three devices are the cases of [dev]; a call through
    a device's function table is a match on it.  Debug output, which is off,
    is left out. *)
From S2P Require Import Prelude Layout Mem CString Printf Console FsMach FsServ Kern Pmap EnvMod TrapMod User.

(** ** fd.c: addresses *)
Definition MAXFD : Z := 32.
Definition FDTABLE : Z := 0x20000000.
Definition FILEDATA : Z := FDTABLE + MAXFD * PGSIZE.
Definition INDEX2FD (i : Z) : Z := FDTABLE + i * PGSIZE.
Definition INDEX2DATA (i : Z) : Z := FILEDATA + i * PGSIZE.
Definition fd2num (fd : Z) : Z := u32 (fd - FDTABLE) / PGSIZE.
Definition fd2data (fd : Z) : Z := INDEX2DATA (fd2num fd).

(** The page holding [va] is mapped. *)
Definition mapped (va : Z) : uprog bool := page_has va [PTE_P].
(** [inl r]: the error; [inr fd]: [*fd_store]. *)
Definition fd_alloc : uprog (Z + Z) :=
  r ← ufor (Z.to_nat MAXFD) 0 (fun i =>
    m ← mapped (INDEX2FD i); mret (if (m : bool) then None else Some (INDEX2FD i)));
  mret (match r with Some fd => inr fd | None => inl (- E_MAX_OPEN) end).
Definition fd_lookup (fdnum : Z) : uprog (Z + Z) :=
  if (fdnum <? 0) || (fdnum >=? MAXFD) then mret (inl (- E_INVAL))
  else
    m ← mapped (INDEX2FD fdnum);
    mret (if (m : bool) then inr (INDEX2FD fdnum) else inl (- E_INVAL)).

(** ** Devices *)
Inductive dev : Type := devfile | devpipe | devcons.
Definition dev_id (d : dev) : Z := match d with devfile => 102 | devpipe => 112 | devcons => 99 end.
Definition dev_lookup (id : Z) : uprog (option dev) :=
  match filter (fun d => dev_id d = id) [devfile; devpipe; devcons] with
  | d :: _ => mret (Some d)
  | [] => uprint "[%08x] unknown device type %d" [id];; mret None
  end.

(** [struct Stat]. *)
Definition st_name (st : Z) : Z := st.
Definition st_size (st : Z) : Z := st + MAXNAMELEN.
Definition st_isdir (st : Z) : Z := st + MAXNAMELEN + 4.
Definition st_dev (st : Z) : Z := st + MAXNAMELEN + 8.

Definition prwu : Z := Z.lor (Z.lor PTE_P PTE_W) PTE_U.
Definition prwus : Z := Z.lor prwu PTE_SHARE.

(** ** pipe.c *)
Definition PIPEBUFSIZ : Z := 32.
Definition p_rpos (p : Z) : Z := p.
Definition p_wpos (p : Z) : Z := p + 4.
Definition p_buf (p i : Z) : Z := p + 8 + i.

Section program.
Context (thisenv fsenv : Z).

(** [n] and [nn] are [env_runs] before and after the two counts are read. *)
Fixpoint _pipeisclosed (fuel : nat) (fd p : Z) : uprog bool :=
  match fuel with
  | O => UFuel
  | S f =>
      e ← this_env thisenv;
      let n := env_runs e in
      rf ← upageref fd; rp ← upageref p;
      let ret := rf =? rp in
      e ← this_env thisenv;
      let nn := env_runs e in
      if n =? nn then mret ret
      else (if ret then uprint "pipe race avoided" [] else mret tt);; _pipeisclosed f fd p
  end.
Definition pipeisclosed (fuel : nat) (fdnum : Z) : uprog Z :=
  r ← fd_lookup fdnum;
  match r with
  | inl r => mret r
  | inr fd => c ← _pipeisclosed fuel fd (fd2data fd); mret (if (c : bool) then 1 else 0)
  end.

(** The [while] of [devpipe_read]: [Some r] is [return r], [None] a byte is
    there.  Positions are [int]s, compared as they are. *)
Fixpoint devpipe_read_wait (fuel : nat) (fd p i : Z) : uprog (option Z) :=
  match fuel with
  | O => UFuel
  | S f =>
      rpos ← uld32 (p_rpos p); wpos ← uld32 (p_wpos p);
      if negb (rpos =? wpos) then mret None
      else if i >? 0 then mret (Some i)
      else
        c ← _pipeisclosed f fd p;
        if (c : bool) then mret (Some 0) else usys_yield;; devpipe_read_wait f fd p i
  end.
(** The index is a remainder of [int]s: negative for a negative position. *)
Fixpoint devpipe_read_loop (fuel : nat) (fd p buf n i : Z) : uprog Z :=
  match fuel with
  | O => UFuel
  | S f =>
      if i <? n then
        r ← devpipe_read_wait f fd p i;
        match r with
        | Some r => mret r
        | None =>
            rpos ← uld32 (p_rpos p);
            b ← uld8 (p_buf p (Z.rem (s32 rpos) PIPEBUFSIZ));
            ust8 (buf + i) b;;
            rpos ← uld32 (p_rpos p); ust32 (p_rpos p) (u32 (rpos + 1));;
            devpipe_read_loop f fd p buf n (i + 1)
        end
      else mret i
  end.
Definition devpipe_read (fuel : nat) (fd buf n : Z) : uprog Z :=
  devpipe_read_loop fuel fd (fd2data fd) buf n 0.

(** The comparison with [sizeof(p->p_buf)] is unsigned.  A pipe without
    readers is reported as 0 bytes, also when some were written. *)
Fixpoint devpipe_write_wait (fuel : nat) (fd p : Z) : uprog (option Z) :=
  match fuel with
  | O => UFuel
  | S f =>
      wpos ← uld32 (p_wpos p); rpos ← uld32 (p_rpos p);
      if wpos <? u32 (rpos + PIPEBUFSIZ) then mret None
      else
        c ← _pipeisclosed f fd p;
        if (c : bool) then mret (Some 0) else usys_yield;; devpipe_write_wait f fd p
  end.
Fixpoint devpipe_write_loop (fuel : nat) (fd p buf n i : Z) : uprog Z :=
  match fuel with
  | O => UFuel
  | S f =>
      if i <? n then
        r ← devpipe_write_wait f fd p;
        match r with
        | Some r => mret r
        | None =>
            wpos ← uld32 (p_wpos p);
            b ← uld8 (buf + i);
            ust8 (p_buf p (Z.rem (s32 wpos) PIPEBUFSIZ)) b;;
            wpos ← uld32 (p_wpos p); ust32 (p_wpos p) (u32 (wpos + 1));;
            devpipe_write_loop f fd p buf n (i + 1)
        end
      else mret i
  end.
Definition devpipe_write (fuel : nat) (fd buf n : Z) : uprog Z :=
  devpipe_write_loop fuel fd (fd2data fd) buf n 0.

(** [&devpipe] and the other device records are represented by [dev_id]. *)
Definition devpipe_stat (fd st : Z) : uprog Z :=
  let p := fd2data fd in
  ustrcpy_lit (st_name st) (str_codes "<pipe>");;
  wpos ← uld32 (p_wpos p); rpos ← uld32 (p_rpos p);
  ust32 (st_size st) (u32 (wpos - rpos));;
  ust32 (st_isdir st) 0;;
  ust32 (st_dev st) (dev_id devpipe);;
  mret 0.
Definition devpipe_close (fd : Z) : uprog Z :=
  usys_page_unmap 0 fd;; usys_page_unmap 0 (fd2data fd).

(** [inl r]: the error; [inr (pfd[0], pfd[1])]. *)
Definition pipe : uprog (Z + Z * Z) :=
  a ← fd_alloc;
  match a with
  | inl r => mret (inl r)
  | inr fd0 =>
  r ← usys_page_alloc 0 fd0 prwus;
  if r <? 0 then mret (inl r) else
  let err1 r := usys_page_unmap 0 fd0;; mret (inl r) in
  a ← fd_alloc;
  match a with
  | inl r => err1 r
  | inr fd1 =>
  r ← usys_page_alloc 0 fd1 prwus;
  if r <? 0 then err1 r else
  let err2 r := usys_page_unmap 0 fd1;; err1 r in
  let va := fd2data fd0 in
  r ← usys_page_alloc 0 va prwus;
  if r <? 0 then err2 r else
  r ← usys_page_map 0 va 0 (fd2data fd1) prwus;
  if r <? 0 then usys_page_unmap 0 va;; err2 r else
  ust32 (fd_dev_id fd0) (dev_id devpipe);; ust32 (fd_omode fd0) O_RDONLY;;
  ust32 (fd_dev_id fd1) (dev_id devpipe);; ust32 (fd_omode fd1) O_WRONLY;;
  mret (inr (fd2num fd0, fd2num fd1))
  end end.

(** ** uconsole.c *)
Fixpoint devcons_wait (fuel : nat) : uprog Z :=
  match fuel with
  | O => UFuel
  | S f => c ← usys_cgetc; if c =? 0 then usys_yield;; devcons_wait f else mret c
  end.
Definition devcons_read (fuel : nat) (fd vbuf n : Z) : uprog Z :=
  if n =? 0 then mret 0
  else
    c ← devcons_wait fuel;
    if c <? 0 then mret c else if c =? 4 then mret 0 else ust8 vbuf c;; mret 1.
(** [buf] is the function's array of 128 bytes. *)
Fixpoint devcons_write_loop (fuel : nat) (buf vbuf n tot : Z) : uprog Z :=
  match fuel with
  | O => UFuel
  | S f =>
      if tot <? n then
        let m := if n - tot >? 127 then 127 else n - tot in
        umemmove buf (vbuf + tot) m;; usys_cputs buf m;; devcons_write_loop f buf vbuf n (tot + m)
      else mret tot
  end.
Definition devcons_close : uprog Z := mret 0.
Definition devcons_stat (st : Z) : uprog Z := ustrcpy_lit (st_name st) (str_codes "<cons>");; mret 0.
Definition iscons (fdnum : Z) : uprog Z :=
  r ← fd_lookup fdnum;
  match r with
  | inl r => mret r
  | inr fd => id ← uld32 (fd_dev_id fd); mret (if id =? dev_id devcons then 1 else 0)
  end.
Definition opencons : uprog Z :=
  a ← fd_alloc;
  match a with
  | inl r => mret r
  | inr fd =>
      r ← usys_page_alloc 0 fd prwus;
      if r <? 0 then mret r
      else ust32 (fd_dev_id fd) (dev_id devcons);; ust32 (fd_omode fd) O_RDWR;; mret (fd2num fd)
  end.
Definition cputchar (tmp ch : Z) : uprog unit := ust8 tmp ch;; usys_cputs tmp 1.

(** ** file.c: requests in [fsipcbuf], laid out as the server's [union Fsipc] *)
Context (fsipcbuf : Z).
Definition fsipc (fuel : nat) (type dstva : Z) : uprog Z :=
  e ← uld32 fsenv;
  (if e =? 0 then e ← ipc_find_env ENV_TYPE_FS; ust32 fsenv e else mret tt);;
  e ← uld32 fsenv;
  ipc_send fuel e type fsipcbuf prwu;;
  ipc_recv thisenv 0 dstva 0.
Definition file_request (fuel : nat) (fd type : Z) : uprog Z :=
  id ← uld32 (fd_file_id fd); ust32 (req_fileid fsipcbuf) id;; fsipc fuel type 0.
Definition devfile_flush (fuel : nat) (fd : Z) : uprog Z := file_request fuel fd FSREQ_FLUSH.
(** The request is not limited to the size of the page. *)
Definition devfile_read (fuel : nat) (fd buf n : Z) : uprog Z :=
  id ← uld32 (fd_file_id fd); ust32 (req_fileid fsipcbuf) id;;
  ust32 (req_n fsipcbuf) n;;
  r ← fsipc fuel FSREQ_READ 0;
  if r <? 0 then mret r else umemmove buf fsipcbuf r;; mret r.
Definition devfile_write (fuel : nat) (fd buf n : Z) : uprog Z :=
  let max := PGSIZE - 8 in
  let n := if n >? max then max else n in
  id ← uld32 (fd_file_id fd); ust32 (req_fileid fsipcbuf) id;;
  ust32 (req_n fsipcbuf) n;;
  umemmove (req_buf fsipcbuf) buf n;;
  fsipc fuel FSREQ_WRITE 0.
Definition devfile_stat (fuel : nat) (fd st : Z) : uprog Z :=
  r ← file_request fuel fd FSREQ_STAT;
  if r <? 0 then mret r
  else
    ustrcpy fuel (st_name st) (ret_name fsipcbuf);;
    size ← uld32 (ret_size fsipcbuf); ust32 (st_size st) size;;
    isdir ← uld32 (ret_isdir fsipcbuf); ust32 (st_isdir st) isdir;;
    mret 0.
Definition devfile_trunc (fuel : nat) (fd newsize : Z) : uprog Z :=
  id ← uld32 (fd_file_id fd); ust32 (req_fileid fsipcbuf) id;;
  ust32 (req_size fsipcbuf) newsize;; fsipc fuel FSREQ_SET_SIZE 0.
Definition sync (fuel : nat) : uprog Z := fsipc fuel FSREQ_SYNC 0.

(** ** fd.c: the operations.  [buf128] is the array of [devcons_write]. *)
Context (buf128 : Z).
Definition dev_close (fuel : nat) (d : dev) (fd : Z) : uprog Z :=
  match d with
  | devfile => devfile_flush fuel fd
  | devpipe => devpipe_close fd
  | devcons => devcons_close
  end.
(** [r] is the lookup's error when the device is unknown. *)
Definition fd_close (fuel : nat) (fd : Z) (must_exist : bool) : uprog Z :=
  l ← fd_lookup (fd2num fd);
  match l with
  | inl r => mret (if must_exist then r else 0)
  | inr fd2 =>
      if negb (fd =? fd2) then mret 0
      else
        id ← uld32 (fd_dev_id fd);
        d ← dev_lookup id;
        r ← (match d with Some d => dev_close fuel d fd | None => mret (- E_INVAL) end);
        usys_page_unmap 0 fd;;
        mret r
  end.
Definition close (fuel : nat) (fdnum : Z) : uprog Z :=
  l ← fd_lookup fdnum;
  match l with inl r => mret r | inr fd => fd_close fuel fd true end.
Definition close_all (fuel : nat) : uprog unit :=
  ufor (R := unit) (Z.to_nat MAXFD) 0 (fun i => close fuel i;; mret None);; mret tt.

(** [newfdnum] is not checked. *)
Definition dup (fuel : nat) (oldfdnum newfdnum : Z) : uprog Z :=
  l ← fd_lookup oldfdnum;
  match l with
  | inl r => mret r
  | inr oldfd =>
      close fuel newfdnum;;
      let newfd := INDEX2FD newfdnum in
      let ova := fd2data oldfd in
      let nva := fd2data newfd in
      let err r := usys_page_unmap 0 newfd;; usys_page_unmap 0 nva;; mret r in
      let map_fd :=
        pte ← uvpt (PGNUM oldfd);
        r ← usys_page_map 0 oldfd 0 newfd (Z.land pte PTE_SYSCALL);
        if r <? 0 then err r else mret newfdnum in
      m ← mapped ova;
      if (m : bool) then
        pte ← uvpt (PGNUM ova);
        r ← usys_page_map 0 ova 0 nva (Z.land pte PTE_SYSCALL);
        if r <? 0 then err r else map_fd
      else map_fd
  end.

(** A descriptor and its device, or the error. *)
Definition fd_dev (fdnum : Z) : uprog (Z + Z * dev) :=
  l ← fd_lookup fdnum;
  match l with
  | inl r => mret (inl r)
  | inr fd =>
      id ← uld32 (fd_dev_id fd);
      d ← dev_lookup id;
      mret (match d with Some d => inr (fd, d) | None => inl (- E_INVAL) end)
  end.
(** [read], [write] and [ftruncate] refuse a descriptor opened in [bad] mode. *)
Definition with_fd (fdnum bad : Z) (what : string) (body : Z -> dev -> uprog Z) : uprog Z :=
  l ← fd_dev fdnum;
  match l with
  | inl r => mret r
  | inr (fd, d) =>
      mode ← uld32 (fd_omode fd);
      if Z.land mode O_ACCMODE =? bad then uprint what [fdnum];; mret (- E_INVAL)
      else body fd d
  end.
Definition read (fuel : nat) (fdnum buf n : Z) : uprog Z :=
  with_fd fdnum O_WRONLY "[%08x] read %d -- bad mode" (fun fd d =>
    match d with
    | devfile => devfile_read fuel fd buf n
    | devpipe => devpipe_read fuel fd buf n
    | devcons => devcons_read fuel fd buf n
    end).
Fixpoint readn_loop (fuel : nat) (fdnum buf n tot : Z) : uprog Z :=
  match fuel with
  | O => UFuel
  | S f =>
      if tot <? n then
        m ← read f fdnum (buf + tot) (n - tot);
        if m <? 0 then mret m else if m =? 0 then mret tot else readn_loop f fdnum buf n (tot + m)
      else mret tot
  end.
Definition readn (fuel : nat) (fdnum buf n : Z) : uprog Z := readn_loop fuel fdnum buf n 0.
Definition write (fuel : nat) (fdnum buf n : Z) : uprog Z :=
  with_fd fdnum O_RDONLY "[%08x] write %d -- bad mode" (fun fd d =>
    match d with
    | devfile => devfile_write fuel fd buf n
    | devpipe => devpipe_write fuel fd buf n
    | devcons => devcons_write_loop fuel buf128 buf n 0
    end).
Definition seek (fdnum offset : Z) : uprog Z :=
  l ← fd_lookup fdnum;
  match l with inl r => mret r | inr fd => ust32 (fd_offset fd) offset;; mret 0 end.
Definition ftruncate (fuel : nat) (fdnum newsize : Z) : uprog Z :=
  with_fd fdnum O_RDONLY "[%08x] ftruncate %d -- bad mode" (fun fd d =>
    match d with devfile => devfile_trunc fuel fd newsize | _ => mret (- E_NOT_SUPP) end).
Definition fstat (fuel : nat) (fdnum st : Z) : uprog Z :=
  l ← fd_dev fdnum;
  match l with
  | inl r => mret r
  | inr (fd, d) =>
      ust8 (st_name st) 0;; ust32 (st_size st) 0;; ust32 (st_isdir st) 0;;
      ust32 (st_dev st) (dev_id d);;
      match d with
      | devfile => devfile_stat fuel fd st
      | devpipe => devpipe_stat fd st
      | devcons => devcons_stat st
      end
  end.

(** ** file.c: paths *)
Definition path_request (fuel : nat) (path : Z) (fill : uprog unit) (type : Z) : uprog (Z + Z) :=
  len ← ustrlen fuel path 0;
  if len >=? MAXPATHLEN then mret (inl (- E_BAD_PATH))
  else
    a ← fd_alloc;
    match a with
    | inl r => mret (inl r)
    | inr fd =>
        ustrcpy fuel fsipcbuf path;;
        fill;;
        r ← fsipc fuel type fd;
        if r <? 0 then fd_close fuel fd false;; mret (inl r) else mret (inr fd)
    end.
Definition open (fuel : nat) (path mode : Z) : uprog Z :=
  r ← path_request fuel path (ust32 (req_omode fsipcbuf) mode) FSREQ_OPEN;
  mret (match r with inl r => r | inr fd => fd2num fd end).
Definition makedir (fuel : nat) (path : Z) : uprog Z :=
  r ← path_request fuel path (mret tt) FSREQ_MKDIR;
  match r with inl r => mret r | inr fd => fd_close fuel fd false;; mret 0 end.
Definition remove (fuel : nat) (path : Z) : uprog Z :=
  r ← path_request fuel path (mret tt) FSREQ_REMOVE;
  match r with inl r => mret r | inr fd => fd_close fuel fd false;; mret 0 end.
Definition stat (fuel : nat) (path st : Z) : uprog Z :=
  fd ← open fuel path O_RDONLY;
  if fd <? 0 then mret fd
  else r ← fstat fuel fd st; close fuel fd;; mret r.

(** [getchar] reads one byte of descriptor 0 into [tmp]. *)
Definition getchar (fuel : nat) (tmp : Z) : uprog Z :=
  r ← read fuel 0 tmp 1;
  if r <? 0 then mret r else if r <? 1 then mret (- E_EOF) else uld8 tmp.

(** ** exit.c, libmain.c *)
Definition exit (fuel : nat) : uprog unit := close_all fuel;; usys_env_destroy 0;; mret tt.
Definition libmain (fuel : nat) (umain : uprog unit) : uprog unit :=
  set_thisenv thisenv;; umain;; exit fuel.
End program.
