(* ===== verification/PipeProps.v ===== *)
(** * Pipes: a reader and a writer interleaved

    The two ends of a pipe run in different environments that share one page.
    [duo_step] interleaves their programs at the granularity of single memory
    accesses, with whatever the kernel's tables show each of them; [pipe_fifo]
    shows that in every interleaving the reader gets exactly the bytes the
    writer put in, in order.  The proof is a rely-guarantee argument: [safe]
    is the triple of one thread, whose rules ([rules]) say what the thread may
    do to the shared page and what it knows about it. *)
From S2P Require Import Prelude Layout Mem CString Printf Console FsMach FsServ Kern Pmap EnvMod TrapMod User Fd.

(** ** Interleaving *)

(** One thread, which sees the shared page at [pg]: its program, its own
    memory, and the page.  The tables of the kernel may show anything. *)
Definition in_page (pg a : Z) : Prop := pg <= a < pg + 4096.
Definition off_page (pg a : Z) : Prop := a + 4 <= pg \/ pg + 4096 <= a.
Inductive tstep (pg : Z) {A} : uprog A -> mem -> mem -> uprog A -> mem -> mem -> Prop :=
| ts_ld8_page a k m sh : in_page pg a -> tstep pg (ULoad8 a k) m sh (k (load8 sh (a - pg))) m sh
| ts_ld8 a k m sh : ~ in_page pg a -> tstep pg (ULoad8 a k) m sh (k (load8 m a)) m sh
| ts_ld32_page a k m sh : in_page pg a -> a + 4 <= pg + 4096 ->
    tstep pg (ULoad32 a k) m sh (k (load32 sh (a - pg))) m sh
| ts_ld32 a k m sh : off_page pg a -> tstep pg (ULoad32 a k) m sh (k (load32 m a)) m sh
| ts_st8_page a v k m sh : in_page pg a -> tstep pg (UStore8 a v k) m sh k m (store8 sh (a - pg) v)
| ts_st8 a v k m sh : ~ in_page pg a -> tstep pg (UStore8 a v k) m sh k (store8 m a v) sh
| ts_st32_page a v k m sh : in_page pg a -> a + 4 <= pg + 4096 ->
    tstep pg (UStore32 a v k) m sh k m (store32 sh (a - pg) v)
| ts_st32 a v k m sh : off_page pg a -> tstep pg (UStore32 a v k) m sh k (store32 m a v) sh
| ts_pde i v k m sh : tstep pg (UPde i k) m sh (k v) m sh
| ts_pte i v k m sh : tstep pg (UPte i k) m sh (k v) m sh
| ts_ref i v k m sh : tstep pg (URef i k) m sh (k v) m sh
| ts_envs i e k m sh : tstep pg (UEnvs i k) m sh (k e) m sh
| ts_yield a1 a2 a3 a4 a5 v k m sh : tstep pg (USys SYS_yield a1 a2 a3 a4 a5 k) m sh (k v) m sh
| ts_print l k m sh : tstep pg (UPrint l k) m sh k m sh.

(** A thread can go on: it is finished, out of fuel, or has a step. *)
Definition goes_on {A} (pg : Z) (p : uprog A) (m sh : mem) : Prop :=
  (exists a, p = UDone a) \/ p = UFuel \/ exists p' m' sh', tstep pg p m sh p' m' sh'.
Lemma in_page_dec pg a : {in_page pg a} + {~ in_page pg a}.
Proof. unfold in_page. destruct (decide (pg <= a < pg + 4096)); auto. Qed.

(** Two threads and the page they share. *)
Record duo : Type := mkDuo {
  du_rd : uprog Z; du_rm : mem; du_wr : uprog Z; du_wm : mem; du_page : mem }.
Inductive duo_step (pgr pgw : Z) : duo -> duo -> Prop :=
| duo_reader p m q w sh p' m' sh' : tstep pgr p m sh p' m' sh' ->
    duo_step pgr pgw (mkDuo p m q w sh) (mkDuo p' m' q w sh')
| duo_writer p m q w sh q' w' sh' : tstep pgw q w sh q' w' sh' ->
    duo_step pgr pgw (mkDuo p m q w sh) (mkDuo p m q' w' sh').

(** ** Triples of one thread *)

(** What a thread's memory accesses do to its local knowledge [L]. *)
Record rules (L : Type) : Type := mkRules {
  r_ld8 : Z -> (Z -> L -> Prop) -> L -> Prop;
  r_ld32 : Z -> (Z -> L -> Prop) -> L -> Prop;
  r_st8 : Z -> Z -> (L -> Prop) -> L -> Prop;
  r_st32 : Z -> Z -> (L -> Prop) -> L -> Prop;
  r_ld8_mono a (K K' : Z -> L -> Prop) l : r_ld8 a K l -> (forall v l', K v l' -> K' v l') -> r_ld8 a K' l;
  r_ld32_mono a (K K' : Z -> L -> Prop) l : r_ld32 a K l -> (forall v l', K v l' -> K' v l') -> r_ld32 a K' l;
  r_st8_mono a v (K K' : L -> Prop) l : r_st8 a v K l -> (forall l', K l' -> K' l') -> r_st8 a v K' l;
  r_st32_mono a v (K K' : L -> Prop) l : r_st32 a v K l -> (forall l', K l' -> K' l') -> r_st32 a v K' l }.
Arguments r_ld8 {L}.
Arguments r_ld32 {L}.
Arguments r_st8 {L}.
Arguments r_st32 {L}.

Section triples.
Context {L : Type} (T : rules L).

Fixpoint safe {A} (p : uprog A) (Q : A -> L -> Prop) (l : L) : Prop :=
  match p with
  | UDone a => Q a l
  | UPanics _ => False
  | UFuel => True
  | ULoad8 a k => r_ld8 T a (fun v l' => safe (k v) Q l') l
  | ULoad32 a k => r_ld32 T a (fun v l' => safe (k v) Q l') l
  | UStore8 a v k => r_st8 T a v (fun l' => safe k Q l') l
  | UStore32 a v k => r_st32 T a v (fun l' => safe k Q l') l
  | UPde _ k | UPte _ k | URef _ k => forall v, safe (k v) Q l
  | UEnvs _ k => forall e, safe (k e) Q l
  | USys n _ _ _ _ _ k => n = SYS_yield /\ forall v, safe (k v) Q l
  | UPrint _ k => safe k Q l
  end.

Lemma safe_mono {A} (p : uprog A) Q Q' l :
  safe p Q l -> (forall a l', Q a l' -> Q' a l') -> safe p Q' l.
Proof.
  intros Hp HQ. revert l Hp. induction p as [a| | |a k IH|a k IH|a v k IH|a v k IH|i k IH|i k IH|i k IH|i k IH|n ? ? ? ? ? k IH|m k IH];
    intros l Hp; cbn [safe] in *; auto.
  - eapply r_ld8_mono; [exact Hp|]. intros v l'. apply IH.
  - eapply r_ld32_mono; [exact Hp|]. intros v l'. apply IH.
  - eapply r_st8_mono; [exact Hp|]. intros l'. apply IH.
  - eapply r_st32_mono; [exact Hp|]. intros l'. apply IH.
  - destruct Hp as [? Hp]. split; [done|]. intros v. apply IH, Hp.
Qed.
Lemma safe_bind {A B} (p : uprog A) (f : A -> uprog B) Q l :
  safe p (fun a l' => safe (f a) Q l') l -> safe (p ≫= f) Q l.
Proof.
  change (p ≫= f) with (ubind f p).
  revert l. induction p as [a| | |a k IH|a k IH|a v k IH|a v k IH|i k IH|i k IH|i k IH|i k IH|n ? ? ? ? ? k IH|m k IH];
    intros l Hp; cbn [safe ubind] in *; auto.
  - eapply r_ld8_mono; [exact Hp|]. intros v l'. apply IH.
  - eapply r_ld32_mono; [exact Hp|]. intros v l'. apply IH.
  - eapply r_st8_mono; [exact Hp|]. intros l'. apply IH.
  - eapply r_st32_mono; [exact Hp|]. intros l'. apply IH.
  - destruct Hp as [? Hp]. split; [done|]. intros v. apply IH, Hp.
Qed.
Lemma safe_ret {A} (a : A) Q l : Q a l -> safe (mret a) Q l.
Proof. done. Qed.
Lemma safe_uld8 a Q l : r_ld8 T a Q l -> safe (uld8 a) Q l.
Proof. done. Qed.
Lemma safe_uld32 a Q l : r_ld32 T a Q l -> safe (uld32 a) Q l.
Proof. done. Qed.
Lemma safe_ust8 a v Q l : r_st8 T a v (Q tt) l -> safe (ust8 a v) Q l.
Proof. done. Qed.
Lemma safe_ust32 a v Q l : r_st32 T a v (Q tt) l -> safe (ust32 a v) Q l.
Proof. done. Qed.
Lemma safe_yield Q l : Q tt l -> safe usys_yield Q l.
Proof. intros HQ. by split. Qed.

Lemma safe_uvpd i Q l : (forall v, Q v l) -> safe (uvpd i) Q l.
Proof. done. Qed.
Lemma safe_uvpt i Q l : (forall v, Q v l) -> safe (uvpt i) Q l.
Proof. done. Qed.

(** Reading the reference counts and [env_runs] teaches nothing. *)
Lemma safe_upageref v Q l : (forall n, Q n l) -> safe (upageref v) Q l.
Proof.
  intros HQ. unfold upageref. apply safe_bind, safe_uvpd. intros pde.
  destruct (_ =? 0); [apply safe_ret, HQ|]. apply safe_bind, safe_uvpt. intros pte.
  destruct (_ =? 0); [apply safe_ret, HQ|]. exact HQ.
Qed.
Context (thisenv : Z) (Hthis : forall (K : Z -> L -> Prop) l, (forall v, K v l) -> r_ld32 T thisenv K l).
Lemma safe_this_env Q l : (forall e, Q e l) -> safe (this_env thisenv) Q l.
Proof. intros HQ. unfold this_env. apply safe_bind, safe_uld32, Hthis. intros v. exact HQ. Qed.
Lemma safe_pipeisclosed fuel fd p Q l :
  (forall b, Q b l) -> safe (_pipeisclosed thisenv fuel fd p) Q l.
Proof.
  intros HQ. induction fuel as [|f IH]; [done|]. cbn [_pipeisclosed].
  apply safe_bind, safe_this_env. intros e. apply safe_bind, safe_upageref. intros rf.
  apply safe_bind, safe_upageref. intros rp. apply safe_bind, safe_this_env. intros e'.
  destruct (_ =? env_runs e'); [apply safe_ret, HQ|]. apply safe_bind. by destruct (rf =? rp).
Qed.
End triples.

(** ** The two ends *)
Section pipe.
(** The page in each address space, the buffers, the start positions, the
    number of bytes to write, and the stream: byte [k] of everything that ever
    passes through the pipe. *)
Context (pgr pgw rbuf wbuf r0 w0 count : Z) (stream : Z -> Z).
Context (Hpos : 0 <= r0 <= w0) (Hmax : 0 <= count /\ w0 + count + 32 < 2 ^ 31)
  (Hstream : forall k, u8 (stream k) = stream k).

(** The reader's buffer holds the stream up to position [r]. *)
Definition got (m : mem) (r : Z) : Prop :=
  forall i, 0 <= i < r - r0 -> load8 m (rbuf + i) = stream (r0 + i).

(** The reader knows its own position [r] and a bound [lo] that the writer's
    position has reached; only it moves [r], and it takes bytes below [lo]. *)
Record rlocal : Type := mkRl { rl_mem : mem; rl_pos : Z; rl_lo : Z }.
Definition reader_ld8 (a : Z) (K : Z -> rlocal -> Prop) (l : rlocal) : Prop :=
  (in_page pgr a /\ exists j, rl_pos l <= j < rl_lo l /\ a = pgr + 8 + j mod 32 /\ K (stream j) l) \/
  (~ in_page pgr a /\ K (load8 (rl_mem l) a) l).
Definition reader_ld32 (a : Z) (K : Z -> rlocal -> Prop) (l : rlocal) : Prop :=
  (a = pgr /\ K (rl_pos l) l) \/
  (a = pgr + 4 /\ forall w, rl_lo l <= w <= rl_pos l + 32 -> rl_pos l <= w <= w0 + count ->
     K w (mkRl (rl_mem l) (rl_pos l) w)) \/
  (off_page pgr a /\ forall v, K v l).
Definition reader_st8 (a v : Z) (K : rlocal -> Prop) (l : rlocal) : Prop :=
  let m := store8 (rl_mem l) a v in
  ~ in_page pgr a /\ got m (rl_pos l) /\ K (mkRl m (rl_pos l) (rl_lo l)).
Definition reader_st32 (a v : Z) (K : rlocal -> Prop) (l : rlocal) : Prop :=
  a = pgr /\ v = rl_pos l + 1 /\ rl_pos l < rl_lo l /\ got (rl_mem l) (rl_pos l + 1) /\
  K (mkRl (rl_mem l) (rl_pos l + 1) (rl_lo l)).
Program Definition reader : rules rlocal := mkRules _ reader_ld8 reader_ld32 reader_st8 reader_st32 _ _ _ _.
Next Obligation. unfold reader_ld8. naive_solver. Qed.
Next Obligation. unfold reader_ld32. naive_solver. Qed.
Next Obligation. unfold reader_st8. naive_solver. Qed.
Next Obligation. unfold reader_st32. naive_solver. Qed.

(** The writer knows its own position [w], a bound [lo] the reader's position
    has reached, and the byte it has put in the next slot, if any. *)
Record wlocal : Type := mkWl { wl_mem : mem; wl_pos : Z; wl_lo : Z; wl_put : option Z }.
Definition writer_ld8 (a : Z) (K : Z -> wlocal -> Prop) (l : wlocal) : Prop :=
  ~ in_page pgw a /\ K (load8 (wl_mem l) a) l.
Definition writer_ld32 (a : Z) (K : Z -> wlocal -> Prop) (l : wlocal) : Prop :=
  (a = pgw + 4 /\ K (wl_pos l) l) \/
  (a = pgw /\ forall r, wl_lo l <= r <= wl_pos l -> r0 <= r -> wl_pos l <= r + 32 ->
     K r (mkWl (wl_mem l) (wl_pos l) r (wl_put l))) \/
  (off_page pgw a /\ forall v, K v l).
Definition writer_st8 (a v : Z) (K : wlocal -> Prop) (l : wlocal) : Prop :=
  in_page pgw a /\ a = pgw + 8 + wl_pos l mod 32 /\ wl_pos l < wl_lo l + 32 /\
  K (mkWl (wl_mem l) (wl_pos l) (wl_lo l) (Some (u8 v))).
Definition writer_st32 (a v : Z) (K : wlocal -> Prop) (l : wlocal) : Prop :=
  a = pgw + 4 /\ v = wl_pos l + 1 /\ wl_pos l < wl_lo l + 32 /\ wl_pos l < w0 + count /\
  wl_put l = Some (stream (wl_pos l)) /\
  K (mkWl (wl_mem l) (wl_pos l + 1) (wl_lo l) None).
Program Definition writer : rules wlocal := mkRules _ writer_ld8 writer_ld32 writer_st8 writer_st32 _ _ _ _.
Next Obligation. unfold writer_ld8. naive_solver. Qed.
Next Obligation. unfold writer_ld32. naive_solver. Qed.
Next Obligation. unfold writer_st8. naive_solver. Qed.
Next Obligation. unfold writer_st32. naive_solver. Qed.

(** *** The invariant of the two threads and the page *)
Definition page_ok (sh : mem) (r w : Z) : Prop :=
  r0 <= r <= w /\ w <= r + 32 /\ w0 <= w <= w0 + count /\ load32 sh 0 = r /\ load32 sh 4 = w /\
  forall k, r <= k < w -> load8 sh (8 + k mod 32) = stream k.
Definition duo_ok (Qr : Z -> rlocal -> Prop) (Qw : Z -> wlocal -> Prop) (d : duo) : Prop :=
  exists (lr : rlocal) (lw : wlocal),
    page_ok (du_page d) (rl_pos lr) (wl_pos lw) /\
    rl_mem lr = du_rm d /\ rl_lo lr <= wl_pos lw /\ got (du_rm d) (rl_pos lr) /\
    wl_mem lw = du_wm d /\ wl_lo lw <= rl_pos lr /\
    (forall v, wl_put lw = Some v -> load8 (du_page d) (8 + wl_pos lw mod 32) = v) /\
    safe reader (du_rd d) Qr lr /\ safe writer (du_wr d) Qw lw.

Lemma slot_apart j k : j < k < j + 32 -> j mod 32 <> k mod 32.
Proof. intros H. zdiv. Qed.

Lemma reader_step Qr Qw p m q w sh p' m' sh' :
  tstep pgr p m sh p' m' sh' -> duo_ok Qr Qw (mkDuo p m q w sh) -> duo_ok Qr Qw (mkDuo p' m' q w sh').
Proof.
  intros Hst ([lm r lo] & lw & Hpg & Hm & Hlo & Hgot & Hwm & Hwlo & Hput & Hr & Hw).
  cbn [du_rd du_rm du_wr du_wm du_page rl_mem rl_pos rl_lo] in *. subst lm.
  pose proof Hpg as (Hr0 & Hw32 & Hww & H0 & H4 & Hq).
  destruct Hst as [a k m sh Ha|a k m sh Ha|a k m sh Ha Ha4|a k m sh Ha|a v k m sh Ha|a v k m sh Ha|a v k m sh Ha Ha4|a v k m sh Ha
    |i v k m sh|i v k m sh|i v k m sh|i e k m sh|a1 a2 a3 a4 a5 v k m sh|l k m sh]; cbn [safe] in Hr;
    unfold duo_ok; cbn [du_rd du_rm du_wr du_wm du_page].
  - destruct Hr as [(_ & j & Hj & -> & Hr)|[? _]]; [|done].
    replace (pgr + 8 + j mod 32 - pgr) with (8 + j mod 32) by lia. cbn in Hj. rewrite Hq by lia.
    exists (mkRl m r lo), lw. split_and!; try done; apply Hpg.
  - destruct Hr as [(? & _)|[_ Hr]]; [done|]. exists (mkRl m r lo), lw. by split_and!; try apply Hpg.
  - destruct Hr as [(-> & Hr)|[(-> & Hr)|[Hoff _]]].
    + rewrite Z.sub_diag, H0. exists (mkRl m r lo), lw. by split_and!; try apply Hpg.
    + replace (pgr + 4 - pgr) with 4 by lia. rewrite H4. exists (mkRl m r (wl_pos lw)), lw.
      cbn in Hr. specialize (Hr (wl_pos lw)). split_and!; try apply Hpg; try done. apply Hr; lia.
    + unfold in_page, off_page in *. lia.
  - destruct Hr as [(-> & _)|[(-> & _)|[_ Hr]]]; [unfold off_page in *; lia..|].
    exists (mkRl m r lo), lw. by split_and!; try apply Hpg.
  - destruct Hr as [? _]. done.
  - destruct Hr as (_ & Hg & Hr). cbn in Hg, Hr. eexists _, lw. split_and!; try exact Hr; try done; apply Hpg.
  - destruct Hr as (-> & -> & Hlt & Hg & Hr). rewrite Z.sub_diag. cbn in Hlt, Hg, Hr.
    eexists _, lw. split; [|split; [|split; [|split; [|split; [|split; [|split; [|split; [exact Hr|exact Hw]]]]]]]]; cbn; try done; try lia.
    + split_and!; try lia.
      * rewrite load32_store32_eq. apply u32_small. lia.
      * by rewrite load32_store32_ne by lia.
      * intros j Hj. rewrite load8_store32_ne by (pose proof (Z.mod_pos_bound j 32); lia). apply Hq. lia.
    + intros v Hv. rewrite load8_store32_ne by (pose proof (Z.mod_pos_bound (wl_pos lw) 32); lia). by apply Hput.
  - destruct Hr as (-> & _). unfold off_page in *. lia.
  - exists (mkRl m r lo), lw. by split_and!; try apply Hpg; try apply Hr.
  - exists (mkRl m r lo), lw. by split_and!; try apply Hpg; try apply Hr.
  - exists (mkRl m r lo), lw. by split_and!; try apply Hpg; try apply Hr.
  - exists (mkRl m r lo), lw. by split_and!; try apply Hpg; try apply Hr.
  - exists (mkRl m r lo), lw. by split_and!; try apply Hpg; try apply Hr.
  - exists (mkRl m r lo), lw. by split_and!; try apply Hpg; try apply Hr.
Qed.
Lemma writer_step Qr Qw p m q w sh q' w' sh' :
  tstep pgw q w sh q' w' sh' -> duo_ok Qr Qw (mkDuo p m q w sh) -> duo_ok Qr Qw (mkDuo p m q' w' sh').
Proof.
  intros Hst (lr & [lm wp lo put] & Hpg & Hm & Hlo & Hgot & Hwm & Hwlo & Hput & Hr & Hw).
  cbn [du_rd du_rm du_wr du_wm du_page wl_mem wl_pos wl_lo wl_put] in *. subst lm.
  pose proof Hpg as (Hr0 & Hw32 & Hww & H0 & H4 & Hq).
  destruct Hst as [a k w sh Ha|a k w sh Ha|a k w sh Ha Ha4|a k w sh Ha|a v k w sh Ha|a v k w sh Ha|a v k w sh Ha Ha4|a v k w sh Ha
    |i v k w sh|i v k w sh|i v k w sh|i e k w sh|a1 a2 a3 a4 a5 v k w sh|l k w sh]; cbn [safe] in Hw;
    unfold duo_ok; cbn [du_rd du_rm du_wr du_wm du_page].
  - by destruct Hw as [? _].
  - destruct Hw as [_ Hw]. exists lr, (mkWl w wp lo put). by split_and!; try apply Hpg.
  - destruct Hw as [(-> & Hw)|[(-> & Hw)|[Hoff _]]].
    + replace (pgw + 4 - pgw) with 4 by lia. rewrite H4. exists lr, (mkWl w wp lo put).
      by split_and!; try apply Hpg.
    + rewrite Z.sub_diag, H0. cbn in Hw. exists lr, (mkWl w wp (rl_pos lr) put).
      split_and!; try apply Hpg; try done. apply Hw; lia.
    + unfold in_page, off_page in *. lia.
  - destruct Hw as [(-> & _)|[(-> & _)|[_ Hw]]]; [unfold off_page in *; lia..|].
    exists lr, (mkWl w wp lo put). by split_and!; try apply Hpg.
  - destruct Hw as (_ & -> & Hlt & Hw). cbn in Hlt, Hw. cbn [wl_pos].
    replace (pgw + 8 + wp mod 32 - pgw) with (8 + wp mod 32) by lia.
    pose proof (Z.mod_pos_bound wp 32 eq_refl) as Hb.
    exists lr, (mkWl w wp lo (Some (u8 v))). cbn. split; [|split_and!; try done].
    + unfold page_ok. rewrite !load32_store8_ne by lia. split_and!; try done; try lia.
      intros k' Hk'. rewrite load8_store8_ne; [by apply Hq|].
      pose proof (slot_apart k' wp). lia.
    + intros v' [= <-]. apply load8_store8_eq.
  - destruct Hw as [? _]. done.
  - destruct Hw as (-> & -> & Hlt & Hmx & Hp & Hw). cbn in Hlt, Hmx, Hp, Hw.
    replace (pgw + 4 - pgw) with 4 by lia.
    exists lr, (mkWl w (wp + 1) lo None). cbn. split; [|split_and!; try done; lia].
    unfold page_ok. rewrite load32_store32_ne, load32_store32_eq by lia.
    split_and!; try lia; [apply u32_small; lia|].
    intros k' Hk'. rewrite load8_store32_ne by (pose proof (Z.mod_pos_bound k' 32 eq_refl); lia).
    destruct (decide (k' = wp)) as [->|]; [by apply Hput|apply Hq; lia].
  - destruct Hw as (-> & _). unfold off_page in *. lia.
  - exists lr, (mkWl w wp lo put). by split_and!; try apply Hpg; try apply Hw.
  - exists lr, (mkWl w wp lo put). by split_and!; try apply Hpg; try apply Hw.
  - exists lr, (mkWl w wp lo put). by split_and!; try apply Hpg; try apply Hw.
  - exists lr, (mkWl w wp lo put). by split_and!; try apply Hpg; try apply Hw.
  - exists lr, (mkWl w wp lo put). by split_and!; try apply Hpg; try apply Hw.
  - exists lr, (mkWl w wp lo put). by split_and!; try apply Hpg; try apply Hw.
Qed.
Lemma duo_steps_ok Qr Qw d d' : rtc (duo_step pgr pgw) d d' -> duo_ok Qr Qw d -> duo_ok Qr Qw d'.
Proof.
  induction 1 as [|d d1 d' Hst _ IH]; [done|]. intros Hd. apply IH.
  destruct Hst; [by eapply reader_step|by eapply writer_step].
Qed.

(** *** A thread with a triple is never stuck *)
Lemma reader_goes_on {A} (p : uprog A) Q l m sh : safe reader p Q l -> goes_on pgr p m sh.
Proof.
  intros Hs. destruct p; cbn [safe] in Hs; [left; eauto|done|right; left; done|right; right..].
  - destruct (in_page_dec pgr a); eexists _, _, _; [by apply ts_ld8_page|by apply ts_ld8].
  - destruct Hs as [(-> & _)|[(-> & _)|[? _]]]; eexists _, _, _;
      [apply ts_ld32_page|apply ts_ld32_page|by apply ts_ld32]; unfold in_page; lia.
  - destruct (in_page_dec pgr a); eexists _, _, _; [by apply ts_st8_page|by apply ts_st8].
  - destruct Hs as (-> & _). eexists _, _, _. apply ts_st32_page; unfold in_page; lia.
  - exists (k 0), m, sh. constructor.
  - exists (k 0), m, sh. constructor.
  - exists (k 0), m, sh. constructor.
  - exists (k env0), m, sh. constructor.
  - destruct Hs as [-> _]. exists (k 0), m, sh. constructor.
  - exists p, m, sh. constructor.
Qed.
Lemma writer_goes_on {A} (p : uprog A) Q l m sh : safe writer p Q l -> goes_on pgw p m sh.
Proof.
  intros Hs. destruct p; cbn [safe] in Hs; [left; eauto|done|right; left; done|right; right..].
  - destruct (in_page_dec pgw a); eexists _, _, _; [by apply ts_ld8_page|by apply ts_ld8].
  - destruct Hs as [(-> & _)|[(-> & _)|[? _]]]; eexists _, _, _;
      [apply ts_ld32_page|apply ts_ld32_page|by apply ts_ld32]; unfold in_page; lia.
  - destruct (in_page_dec pgw a); eexists _, _, _; [by apply ts_st8_page|by apply ts_st8].
  - destruct Hs as (-> & _). eexists _, _, _. apply ts_st32_page; unfold in_page; lia.
  - exists (k 0), m, sh. constructor.
  - exists (k 0), m, sh. constructor.
  - exists (k 0), m, sh. constructor.
  - exists (k env0), m, sh. constructor.
  - destruct Hs as [-> _]. exists (k 0), m, sh. constructor.
  - exists p, m, sh. constructor.
Qed.

(** *** The code satisfies its triples *)
Context (thisenv : Z) (Hthr : off_page pgr thisenv) (Hthw : off_page pgw thisenv).

Lemma index_eq k : 0 <= k < 2 ^ 31 -> Z.rem (s32 k) PIPEBUFSIZ = k mod 32.
Proof. intros Hk. rewrite s32_small by lia. unfold PIPEBUFSIZ. apply Z.rem_mod_nonneg; lia. Qed.
Lemma reader_this (K : Z -> rlocal -> Prop) l : (forall v, K v l) -> r_ld32 reader thisenv K l.
Proof. intros HK. right. right. by split. Qed.
Lemma writer_this (K : Z -> wlocal -> Prop) l : (forall v, K v l) -> r_ld32 writer thisenv K l.
Proof. intros HK. right. right. by split. Qed.

Lemma read_wait_safe fuel fd i (Q : option Z -> rlocal -> Prop) m r lo :
  r0 <= r ->
  (forall lo', 0 < i -> Q (Some i) (mkRl m r lo')) ->
  (forall lo', i <= 0 -> Q (Some 0) (mkRl m r lo')) ->
  (forall lo', r < lo' <= r + 32 -> lo' <= w0 + count -> Q None (mkRl m r lo')) ->
  safe reader (devpipe_read_wait thisenv fuel fd pgr i) Q (mkRl m r lo).
Proof.
  intros Hr Hi H0 Hn. revert lo. induction fuel as [|f IH]; intros lo; [done|]. cbn [devpipe_read_wait].
  apply safe_bind, safe_uld32. left. split; [done|]. apply safe_bind, safe_uld32. right. left.
  split; [done|]. cbn. intros w Hw Hw'. destruct (Z.eqb_spec r w) as [<-|Hne]; cbn [negb].
  - rewrite Z.gtb_ltb. destruct (Z.ltb_spec 0 i) as [Hi0|Hi0]; [by apply safe_ret, Hi|].
    apply safe_bind, safe_pipeisclosed; [exact reader_this|]. intros c. cbv beta.
    destruct c; [by apply safe_ret, H0|]. split; [done|]. intros _. apply IH.
  - apply safe_ret, Hn; lia.
Qed.

(** The loop has stored [r - r0] bytes; it ends with the count it returns. *)
Lemma read_loop_safe fuel fd n m r lo :
  r0 <= r <= r0 + Z.max 0 n -> got m r -> (forall i, 0 <= i < n -> ~ in_page pgr (rbuf + i)) ->
  safe reader (devpipe_read_loop thisenv fuel fd pgr rbuf n (r - r0))
    (fun i l => i = rl_pos l - r0 /\ i <= Z.max 0 n) (mkRl m r lo).
Proof.
  intros Hr Hg Hb. revert m r lo Hr Hg. induction fuel as [|f IH]; intros m r lo Hr Hg; [done|].
  cbn [devpipe_read_loop]. destruct (Z.ltb_spec (r - r0) n) as [Hn|Hn]; [|apply safe_ret; cbn; lia].
  apply safe_bind, read_wait_safe; [lia|..].
  - intros lo' Hi. apply safe_ret. cbn. lia.
  - intros lo' Hi. apply safe_ret. cbn. lia.
  - intros lo' Hlo Hlo'. apply safe_bind, safe_uld32. left. split; [done|]. cbn [rl_pos].
    rewrite index_eq by lia. pose proof (Z.mod_pos_bound r 32 eq_refl) as Hm.
    apply safe_bind, safe_uld8. left. unfold p_buf. split; [unfold in_page; lia|].
    exists r. cbn [rl_pos rl_lo]. split; [lia|]. split; [done|].
    apply safe_bind, safe_ust8. cbn [reader r_st8]. unfold reader_st8. cbn [rl_mem rl_pos rl_lo].
    assert (Hg' : got (store8 m (rbuf + (r - r0)) (stream r)) (r + 1)).
    { intros i Hi. rewrite load8_store8. case_decide as Ei.
      - replace (r0 + i) with r by lia. apply Hstream.
      - apply Hg. lia. }
    split; [apply Hb; lia|]. split; [intros i Hi; apply Hg'; lia|].
    apply safe_bind, safe_uld32. left. split; [done|]. cbn [rl_pos].
    apply safe_bind, safe_ust32. split; [done|]. cbn [rl_mem rl_pos rl_lo].
    rewrite u32_small by lia. split; [done|]. split; [lia|]. split; [exact Hg'|].
    replace (r - r0 + 1) with (r + 1 - r0) by lia. apply IH; [lia|exact Hg'].
Qed.

Lemma write_wait_safe fuel fd (Q : option Z -> wlocal -> Prop) m w lo :
  0 <= w -> w + 32 < 2 ^ 31 ->
  (forall lo', Q (Some 0) (mkWl m w lo' None)) ->
  (forall lo', w < lo' + 32 -> lo' <= w -> Q None (mkWl m w lo' None)) ->
  safe writer (devpipe_write_wait thisenv fuel fd pgw) Q (mkWl m w lo None).
Proof.
  intros Hw Hmx H0 Hn. revert lo. induction fuel as [|f IH]; intros lo; [done|]. cbn [devpipe_write_wait].
  apply safe_bind, safe_uld32. left. split; [done|]. apply safe_bind, safe_uld32. right. left.
  split; [done|]. cbn. intros r Hr Hr0 Hr32. unfold PIPEBUFSIZ. rewrite u32_small by lia.
  destruct (Z.ltb_spec w (r + 32)) as [Hlt|Hge]; [apply safe_ret, Hn; lia|].
  apply safe_bind, safe_pipeisclosed; [exact writer_this|]. intros c. cbv beta.
  destruct c; [by apply safe_ret, H0|]. split; [done|]. intros _. apply IH.
Qed.

Lemma write_loop_safe fuel fd m w lo :
  w0 <= w <= w0 + count -> (forall i, 0 <= i < count -> ~ in_page pgw (wbuf + i)) ->
  (forall i, 0 <= i < count -> load8 m (wbuf + i) = stream (w0 + i)) ->
  safe writer (devpipe_write_loop thisenv fuel fd pgw wbuf count (w - w0))
    (fun i l => i = 0 \/ i = count /\ wl_pos l = w0 + count) (mkWl m w lo None).
Proof.
  intros Hw Hb Hs. revert w lo Hw. induction fuel as [|f IH]; intros w lo Hw; [done|].
  cbn [devpipe_write_loop]. destruct (Z.ltb_spec (w - w0) count) as [Hn|Hn]; [|apply safe_ret; cbn; lia].
  apply safe_bind, write_wait_safe; [lia..| |].
  - intros lo'. apply safe_ret. by left.
  - intros lo' Hlo Hlo'. apply safe_bind, safe_uld32. left. split; [done|]. cbn [wl_pos].
    apply safe_bind, safe_uld8. split; [apply Hb; lia|]. cbn [wl_mem]. rewrite Hs by lia.
    replace (w0 + (w - w0)) with w by lia.
    rewrite index_eq by lia. pose proof (Z.mod_pos_bound w 32 eq_refl) as Hm. unfold p_buf.
    apply safe_bind, safe_ust8. cbn [writer r_st8]. unfold writer_st8. cbn [wl_mem wl_pos wl_lo].
    split; [unfold in_page; lia|]. split; [done|]. split; [lia|]. rewrite Hstream.
    apply safe_bind, safe_uld32. left. split; [done|]. cbn [wl_pos].
    apply safe_bind, safe_ust32. split; [done|]. cbn [wl_mem wl_pos wl_lo wl_put].
    rewrite u32_small by lia. split; [done|]. split; [lia|]. split; [lia|]. split; [done|].
    replace (w - w0 + 1) with (w + 1 - w0) by lia. apply IH. lia.
Qed.
End pipe.

(** ** What passes through a pipe *)

(** Byte [k] of the stream: queued already, or still in the writer's buffer. *)
Definition stream_of (sh wm : mem) (wbuf w0 k : Z) : Z :=
  if k <? w0 then load8 sh (8 + k mod 32) else load8 wm (wbuf + (k - w0)).
Definition buffer_off (pg buf n : Z) : Prop := forall i, 0 <= i < n -> ~ in_page pg (buf + i).

Lemma u8_stream_of sh wm wbuf w0 k : u8 (stream_of sh wm wbuf w0 k) = stream_of sh wm wbuf w0 k.
Proof. unfold stream_of. destruct (_ <? _); apply u8_small, load8_bound. Qed.

(** The two threads start with what they know of the page. *)
Lemma pipe_start_ok fuelr fuelw fdr fdw rbuf wbuf n count thisr thisw rm wm sh r0 w0
    (Hpos : 0 <= r0 <= w0) (Hmax : 0 <= count /\ w0 + count + 32 < 2 ^ 31) :
  let stream := stream_of sh wm wbuf w0 in
  let pgr := fd2data fdr in let pgw := fd2data fdw in
  load32 sh 0 = r0 -> load32 sh 4 = w0 -> w0 <= r0 + 32 ->
  buffer_off pgr rbuf n -> buffer_off pgw wbuf count ->
  off_page pgr thisr -> off_page pgw thisw ->
  duo_ok pgr pgw rbuf r0 w0 count stream Hpos Hmax
    (fun i l => i = rl_pos l - r0 /\ i <= Z.max 0 n)
    (fun i l => i = 0 \/ i = count /\ wl_pos l = w0 + count)
    (mkDuo (devpipe_read thisr fuelr fdr rbuf n) rm (devpipe_write thisw fuelw fdw wbuf count) wm sh).
Proof.
  intros stream pgr pgw H0 H4 H32 Hrb Hwb Htr Htw.
  assert (Hstream : forall k, u8 (stream k) = stream k) by (intros k; apply u8_stream_of).
  exists (mkRl rm r0 r0), (mkWl wm w0 r0 None). cbn. split; [|split_and!; try done; try lia].
  - split_and!; try lia. intros k Hk. unfold stream, stream_of. destruct (Z.ltb_spec k w0); [done|lia].
  - intros i Hi. lia.
  - unfold devpipe_read. pose proof (read_loop_safe pgr rbuf r0 w0 count stream Hpos Hmax) as Hs.
    specialize (Hs Hstream thisr Htr fuelr fdr n rm r0 r0). rewrite Z.sub_diag in Hs. apply Hs; try lia; [|done].
    intros i Hi. lia.
  - unfold devpipe_write. pose proof (write_loop_safe pgw wbuf r0 w0 count stream Hpos Hmax) as Hs.
    specialize (Hs Hstream thisw Htw fuelw fdw wm w0 r0). rewrite Z.sub_diag in Hs. apply Hs; try lia; [done|].
    intros i Hi. unfold stream, stream_of. destruct (Z.ltb_spec (w0 + i) w0); [lia|]. f_equal. lia.
Qed.

(** C35. A pipe is a queue, whatever the scheduling: run [devpipe_read] at
    one end and [devpipe_write] at the other, one memory access at a time in
    any order, from a page that holds positions [r0] and [w0].  At every
    moment the positions are at most 32 apart, the page holds the bytes of the
    stream between them, and the reader's buffer the bytes of the stream it
    has taken, each one once and in order; a reader that returns has stored as many
    bytes as it says (at most [n]); a writer that returns has put in all its bytes, or
    reports 0; and no end panics or gets stuck. *)
Theorem pipe_fifo fuelr fuelw fdr fdw rbuf wbuf n count thisr thisw rm wm sh r0 w0 d :
  let stream := stream_of sh wm wbuf w0 in
  let pgr := fd2data fdr in let pgw := fd2data fdw in
  load32 sh 0 = r0 -> load32 sh 4 = w0 -> 0 <= r0 <= w0 -> w0 <= r0 + 32 ->
  0 <= count -> w0 + count + 32 < 2 ^ 31 ->
  buffer_off pgr rbuf n -> buffer_off pgw wbuf count ->
  off_page pgr thisr -> off_page pgw thisw ->
  rtc (duo_step pgr pgw)
    (mkDuo (devpipe_read thisr fuelr fdr rbuf n) rm (devpipe_write thisw fuelw fdw wbuf count) wm sh) d ->
  let r := load32 (du_page d) 0 in let w := load32 (du_page d) 4 in
  (r0 <= r <= w /\ w <= r + 32 /\ w0 <= w <= w0 + count) /\
  (forall k, r <= k < w -> load8 (du_page d) (8 + k mod 32) = stream k) /\
  (forall k, r0 <= k < r -> load8 (du_rm d) (rbuf + (k - r0)) = stream k) /\
  (forall v, du_rd d = UDone v -> v = r - r0 /\ v <= Z.max 0 n) /\
  (forall v, du_wr d = UDone v -> v = 0 \/ v = count /\ w = w0 + count) /\
  goes_on pgr (du_rd d) (du_rm d) (du_page d) /\ goes_on pgw (du_wr d) (du_wm d) (du_page d).
Proof.
  intros stream pgr pgw H0 H4 Hpos H32 Hc Hmx Hrb Hwb Htr Htw Hsteps r w.
  assert (Hmax : 0 <= count /\ w0 + count + 32 < 2 ^ 31) by done.
  pose proof (pipe_start_ok fuelr fuelw fdr fdw rbuf wbuf n count thisr thisw rm wm sh r0 w0 Hpos Hmax
    H0 H4 H32 Hrb Hwb Htr Htw) as Hok.
  apply (duo_steps_ok _ _ _ _ _ _ _ _ _ _ _ _ _ Hsteps) in Hok.
  destruct Hok as (lr & lw & (Hr & Hrw & Hw & Er & Ew & Hq) & Erm & _ & Hgot & Ewm & _ & _ & Sr & Sw).
  subst r w. rewrite Er, Ew. split_and!; try lia.
  - exact Hq.
  - intros k Hk. rewrite Hgot by lia. f_equal. lia.
  - intros v Ev. rewrite Ev in Sr. apply Sr.
  - intros v Ev. rewrite Ev in Sw. exact Sw.
  - by eapply reader_goes_on.
  - by eapply writer_goes_on.
Qed.

(** *** Running a schedule: [true] lets the reader take a step *)
Definition tnext {A} (pg : Z) (p : uprog A) (m sh : mem) : option (uprog A * mem * mem) :=
  let inb a := (pg <=? a) && (a <? pg + 4096) in
  let off a := (a + 4 <=? pg) || (pg + 4096 <=? a) in
  match p with
  | ULoad8 a k => Some (k (if inb a then load8 sh (a - pg) else load8 m a), m, sh)
  | ULoad32 a k =>
      if off a then Some (k (load32 m a), m, sh)
      else if inb a && (a + 4 <=? pg + 4096) then Some (k (load32 sh (a - pg)), m, sh) else None
  | UStore8 a v k =>
      Some (if inb a then (k, m, store8 sh (a - pg) v) else (k, store8 m a v, sh))
  | UStore32 a v k =>
      if off a then Some (k, store32 m a v, sh)
      else if inb a && (a + 4 <=? pg + 4096) then Some (k, m, store32 sh (a - pg) v) else None
  | UPde _ k | UPte _ k | URef _ k => Some (k 0, m, sh)
  | UEnvs _ k => Some (k env0, m, sh)
  | USys num _ _ _ _ _ k => if num =? SYS_yield then Some (k 0, m, sh) else None
  | UPrint _ k => Some (k, m, sh)
  | _ => None
  end.
Fixpoint schedule (pgr pgw : Z) (s : list bool) (d : duo) : duo :=
  match s with
  | [] => d
  | true :: s' =>
      match tnext pgr (du_rd d) (du_rm d) (du_page d) with
      | Some (p, m, sh) => schedule pgr pgw s' (mkDuo p m (du_wr d) (du_wm d) sh)
      | None => d
      end
  | false :: s' =>
      match tnext pgw (du_wr d) (du_wm d) (du_page d) with
      | Some (q, w, sh) => schedule pgr pgw s' (mkDuo (du_rd d) (du_rm d) q w sh)
      | None => d
      end
  end.
Lemma tnext_step {A} pg (p p' : uprog A) m sh m' sh' :
  tnext pg p m sh = Some (p', m', sh') -> tstep pg p m sh p' m' sh'.
Proof.
  destruct p; cbn [tnext]; intros E; try done.
  all: repeat match type of E with context [if ?b then _ else _] => let H := fresh "E" in destruct b eqn:H end;
    simplify_eq.
  all: try (apply Z.eqb_eq in E0; subst num).
  all: econstructor; unfold in_page, off_page; lia.
Qed.
Lemma schedule_steps pgr pgw s d : rtc (duo_step pgr pgw) d (schedule pgr pgw s d).
Proof.
  revert d. induction s as [|[|] s IH]; intros [p m q w sh]; cbn [schedule du_rd du_rm du_wr du_wm du_page]; [done|..].
  - destruct (tnext pgr p m sh) as [[[p' m'] sh']|] eqn:E; [|done].
    eapply rtc_l; [by apply duo_reader, tnext_step|apply IH].
  - destruct (tnext pgw q w sh) as [[[q' w'] sh']|] eqn:E; [|done].
    eapply rtc_l; [by apply duo_writer, tnext_step|apply IH].
Qed.

(** The writer puts two bytes in, the reader takes both, interleaved. *)
Definition demo_start : duo :=
  mkDuo (devpipe_read 0 9 0xD0000000 0x1000 2) ∅
        (devpipe_write 0 9 0xD0001000 0x2000 2) (store8 (store8 ∅ 0x2000 65) 0x2001 66) ∅.
Definition demo_end : duo :=
  schedule (fd2data 0xD0000000) (fd2data 0xD0001000)
    (replicate 7 false ++ replicate 5 true ++ replicate 4 false ++ replicate 2 true ++ replicate 3 false ++ replicate 7 true)
    demo_start.
Lemma pipe_fifo_witness :
  load8 (du_rm demo_end) 0x1000 = 65 /\ load8 (du_rm demo_end) 0x1001 = 66 /\ du_rd demo_end = UDone 2.
Proof.
  pose proof (pipe_fifo 9 9 0xD0000000 0xD0001000 0x1000 0x2000 2 2 0 0 ∅ (store8 (store8 ∅ 0x2000 65) 0x2001 66) ∅
    0 0 demo_end eq_refl eq_refl ltac:(lia) ltac:(lia) ltac:(lia) ltac:(lia)) as H.
  assert (Hb : forall fd buf, fd2data fd > 4096 * 5 -> 0 <= buf < 4096 * 4 -> buffer_off (fd2data fd) buf 2).
  { intros fd buf Hf Hbuf i Hi. unfold in_page. lia. }
  assert (Ho : forall fd, fd2data fd > 4096 * 5 -> off_page (fd2data fd) 0).
  { intros fd Hf. unfold off_page. lia. }
  assert (F1 : fd2data 0xD0000000 > 4096 * 5) by (vm_compute; reflexivity).
  assert (F2 : fd2data 0xD0001000 > 4096 * 5) by (vm_compute; reflexivity).
  specialize (H (Hb _ 0x1000 F1 ltac:(lia)) (Hb _ 0x2000 F2 ltac:(lia)) (Ho _ F1) (Ho _ F2) (schedule_steps _ _ _ _)).
  destruct H as (_ & _ & Hbytes & Hret & _).
  assert (Er : load32 (du_page demo_end) 0 = 2) by (vm_compute; reflexivity).
  rewrite Er in Hbytes. split; [|split].
  - etransitivity; [exact (Hbytes 0 ltac:(lia))|vm_compute; reflexivity].
  - etransitivity; [exact (Hbytes 1 ltac:(lia))|vm_compute; reflexivity].
  - vm_compute. reflexivity.
Defined.
