(* ===== verification/Ustdio.v ===== *)
(** * Formatted output and line input of programs: src/src/stdio.c with __FOR_USER__

    [Printf.v] models the formatter as a function; here its characters go
    through [fputch] to a descriptor, and [readline] reads descriptor 0. *)
From S2P Require Import Prelude Layout Mem CString Printf Console Kern User Fd.

(** An argument of [printf]: a number, or the address of a string. *)
Inductive uarg : Type :=
| AInt (z : Z)
| AStr (p : Z).
Fixpoint uload_str (fuel : nat) (p : Z) : uprog (list Z) :=
  match fuel with
  | O => UFuel
  | S f => c ← uld8 p; if c =? 0 then mret [] else l ← uload_str f (p + 1); mret (c :: l)
  end.
Fixpoint load_args (fuel : nat) (args : list uarg) : uprog (list varg) :=
  match args with
  | [] => mret []
  | AInt z :: args' => r ← load_args fuel args'; mret (VInt z :: r)
  | AStr p :: args' =>
      s ← (if p =? 0 then mret None else l ← uload_str fuel p; mret (Some l));
      r ← load_args fuel args'; mret (VStr s :: r)
  end.

Section program.
Context (thisenv fsenv fsipcbuf buf128 : Z).

(** [pbuf] is the array of [struct fprintbuf]; its other fields are locals. *)
Context (pbuf : Z).
Definition uwritebuf (fuel : nat) (fd idx result error : Z) : uprog (Z * Z) :=
  if error >? 0 then
    r ← write thisenv fsenv fsipcbuf buf128 fuel fd pbuf idx;
    mret (if r >? 0 then result + r else result,
          if negb (r =? idx) then (if r <? 0 then r else 0) else error)
  else mret (result, error).
Fixpoint ufputs (fuel : nat) (fd idx result error : Z) (cs : list Z) : uprog Z :=
  match cs with
  | [] =>
      re ← (if idx >? 0 then uwritebuf fuel fd idx result error else mret (result, error));
      mret (if negb (fst re =? 0) then fst re else snd re)
  | c :: cs' =>
      ust8 (pbuf + idx) c;;
      if idx + 1 =? 256 then
        re ← uwritebuf fuel fd 256 result error; ufputs fuel fd 0 (fst re) (snd re) cs'
      else ufputs fuel fd (idx + 1) result error cs'
  end.
Definition uvfprintf (fuel : nat) (fd : Z) (fmt : string) (args : list uarg) : uprog Z :=
  ap ← load_args fuel args;
  match format fuel (str_codes fmt) ap with
  | FDone cs => ufputs fuel fd 0 0 1 cs
  | _ => UFuel
  end.
Definition uprintf (fuel : nat) (fmt : string) (args : list uarg) : uprog unit :=
  uvfprintf fuel 1 fmt args;; mret tt.

(** [readline]: [line] is its static buffer, [tmp] the byte of [getchar] and
    [cputchar]. *)
Context (line tmp : Z).
Fixpoint ureadline_loop (fuel : nat) (echoing : bool) (i : Z) : uprog Z :=
  match fuel with
  | O => UFuel
  | S f =>
      let echo c := if echoing then cputchar tmp c else mret tt in
      c ← getchar thisenv fsenv fsipcbuf fuel tmp;
      if c <? 0 then
        (if negb (c =? - E_EOF) then uprint "read error: %e" [c] else mret tt);; mret 0
      else if (c =? 8) || (c =? 127) then
        if i >? 0 then echo 8;; ureadline_loop f echoing (i - 1) else ureadline_loop f echoing i
      else if (c >=? 32) && (i <? BUFLEN - 1) then
        echo c;; ust8 (line + i) c;; ureadline_loop f echoing (i + 1)
      else if (c =? 10) || (c =? 13) then echo 10;; ust8 (line + i) 0;; mret line
      else ureadline_loop f echoing i
  end.
Definition ureadline (fuel : nat) (prompt : Z) : uprog Z :=
  (if negb (prompt =? 0) then uvfprintf fuel 1 "%s" [AStr prompt];; mret tt else mret tt);;
  echoing ← iscons 0;
  ureadline_loop fuel (negb (echoing =? 0)) 0.
End program.
