(* ===== verification/Spawn.v ===== *)
(** * Starting programs: src/src/spawn.c, args.c

    [spawn] builds a child environment from a program file: its first stack
    page, its segments, the shared pages; and the parsing of flags from an
    argument vector. *)
From S2P Require Import Prelude Layout Mem CString Printf Console FsMach FsServ Kern Pmap EnvMod TrapMod User Fd.

Definition UTEMP2USTACK (addr : Z) : Z := u32 (addr + (USTACKTOP - PGSIZE) - UTEMP).

(** ** args.c.  [struct Argstate]: four pointers; [empty] is the literal "". *)
Definition a_argc (args : Z) : Z := args.
Definition a_argv (args : Z) : Z := args + 4.
Definition a_curarg (args : Z) : Z := args + 8.
Definition a_argvalue (args : Z) : Z := args + 12.

Definition argstart (empty argc argv args : Z) : uprog unit :=
  ust32 (a_argc args) argc;;
  ust32 (a_argv args) argv;;
  n ← uld32 argc;
  ust32 (a_curarg args) (if (s32 n >? 1) && negb (argv =? 0) then empty else 0);;
  ust32 (a_argvalue args) 0.
(** [memmove(argv + 1, argv + 2, 4 * (argc - 1)); argc--]. *)
Definition shift_args (args : Z) : uprog unit :=
  argv ← uld32 (a_argv args); pargc ← uld32 (a_argc args); n ← uld32 pargc;
  umemmove (argv + 4) (argv + 8) (u32 (4 * u32 (n - 1)));;
  pargc ← uld32 (a_argc args); n ← uld32 pargc; ust32 pargc (u32 (n - 1)).
Definition endofargs (args : Z) : uprog Z := ust32 (a_curarg args) 0;; mret (-1).
Definition argnext (args : Z) : uprog Z :=
  ust32 (a_argvalue args) 0;;
  cur ← uld32 (a_curarg args);
  if cur =? 0 then mret (-1)
  else
    let take :=
      cur ← uld32 (a_curarg args); arg ← uld8 cur;
      ust32 (a_curarg args) (u32 (cur + 1));; mret arg in
    c ← uld8 cur;
    if negb (c =? 0) then take
    else
      pargc ← uld32 (a_argc args); n ← uld32 pargc;
      if n =? 1 then endofargs args
      else
        argv ← uld32 (a_argv args); a1 ← uld32 (argv + 4); c0 ← uld8 a1;
        if negb (c0 =? 45) then endofargs args
        else
          c1 ← uld8 (a1 + 1);
          if c1 =? 0 then endofargs args
          else
            ust32 (a_curarg args) (u32 (a1 + 1));;
            shift_args args;;
            cur ← uld32 (a_curarg args); c0 ← uld8 cur;
            if negb (c0 =? 45) then take
            else c1 ← uld8 (cur + 1); if c1 =? 0 then endofargs args else take.
Definition argnextvalue (empty args : Z) : uprog Z :=
  cur ← uld32 (a_curarg args);
  if cur =? 0 then mret 0
  else
    c ← uld8 cur;
    pargc ← uld32 (a_argc args); n ← uld32 pargc;
    (if negb (c =? 0) then ust32 (a_argvalue args) cur;; ust32 (a_curarg args) empty
     else if s32 n >? 1 then
       argv ← uld32 (a_argv args); a1 ← uld32 (argv + 4); ust32 (a_argvalue args) a1;; shift_args args
     else ust32 (a_argvalue args) 0;; ust32 (a_curarg args) 0);;
    uld32 (a_argvalue args).
Definition argvalue (empty args : Z) : uprog Z :=
  v ← uld32 (a_argvalue args); if negb (v =? 0) then mret v else argnextvalue empty args.

(** ** spawn.c *)
Definition ELF_MAGIC : Z := 0x464C457F.
Definition ELF_PROG_FLAG_WRITE : Z := 2.

(** [argc] and the space of the strings. *)
Fixpoint count_args (fuel : nat) (argv argc size : Z) : uprog (Z * Z) :=
  match fuel with
  | O => UFuel
  | S f =>
      a ← uld32 (argv + 4 * argc);
      if a =? 0 then mret (argc, size)
      else len ← ustrlen fuel a 0; count_args f argv (argc + 1) (size + len + 1)
  end.
(** The loop that writes the strings and the pointers to them. *)
Fixpoint copy_args (fuel : nat) (n : nat) (argv argv_store i store : Z) : uprog unit :=
  match n with
  | O => mret tt
  | S n' =>
      ust32 (argv_store + 4 * i) (UTEMP2USTACK store);;
      a ← uld32 (argv + 4 * i);
      ustrcpy fuel store a;;
      a ← uld32 (argv + 4 * i); len ← ustrlen fuel a 0;
      copy_args fuel n' argv argv_store (i + 1) (store + len + 1)
  end.
(** [inl r]: the error; [inr esp]: [*init_esp]. *)
Definition init_stack (fuel : nat) (child argv : Z) : uprog (Z + Z) :=
  c ← count_args fuel argv 0 0;
  let argc := fst c in
  let string_store := u32 (UTEMP + PGSIZE - snd c) in
  let argv_store := u32 (ROUNDDOWN string_store 4 - 4 * (argc + 1)) in
  if u32 (argv_store - 8) <? UTEMP then mret (inl (- E_NO_MEM))
  else
    r ← usys_page_alloc 0 UTEMP prwu;
    if r <? 0 then mret (inl r)
    else
      copy_args fuel (Z.to_nat argc) argv argv_store 0 string_store;;
      ust32 (argv_store + 4 * argc) 0;;
      ust32 (argv_store - 4) (UTEMP2USTACK argv_store);;
      ust32 (argv_store - 8) argc;;
      let esp := UTEMP2USTACK (argv_store - 8) in
      r ← usys_page_map 0 UTEMP child (USTACKTOP - PGSIZE) prwu;
      if r <? 0 then usys_page_unmap 0 UTEMP;; mret (inl r)
      else
        r ← usys_page_unmap 0 UTEMP;
        if r <? 0 then usys_page_unmap 0 UTEMP;; mret (inl r) else mret (inr esp).

Section program.
Context (thisenv fsenv fsipcbuf buf128 : Z).

(** [memsz] and [filesz] are already extended to the start of the page. *)
Definition map_segment (fuel : nat) (child va memsz fd filesz fileoffset perm : Z) : uprog Z :=
  let o := PGOFF va in
  let va := va - o in
  let memsz := u32 (memsz + o) in
  let filesz := u32 (filesz + o) in
  let fileoffset := fileoffset - o in
  r ← ufor (Z.to_nat ((memsz + PGSIZE - 1) / PGSIZE)) 0 (fun j =>
    let i := PGSIZE * j in
    if i >=? filesz then
      r ← usys_page_alloc child (u32 (va + i)) perm; mret (if r <? 0 then Some r else None)
    else
      r ← usys_page_alloc 0 UTEMP prwu;
      if r <? 0 then mret (Some r)
      else
        r ← seek fd (u32 (fileoffset + i));
        if r <? 0 then mret (Some r)
        else
          r ← readn thisenv fsenv fsipcbuf fuel fd UTEMP (Z.min PGSIZE (filesz - i));
          if r <? 0 then mret (Some r)
          else
            r ← usys_page_map 0 UTEMP child (u32 (va + i)) perm;
            if r <? 0 then UPanics "spawn: sys_page_map data: %e"
            else usys_page_unmap 0 UTEMP;; mret None);
  mret (default 0 r).
(** [i] is an [int] compared with the unsigned [UTOP]. *)
Definition copy_shared_pages (child : Z) : uprog Z :=
  ufor (R := unit) (Z.to_nat (UTOP / PGSIZE)) 0 (fun j =>
    let i := PGSIZE * j in
    here ← page_has i [PTE_P; PTE_U; PTE_SHARE];
    if (here : bool) then usys_page_map 0 i child i (Z.lor PTE_SHARE PTE_SYSCALL);; mret None
    else mret None);;
  mret 0.

(** The arrays on [spawn]'s stack: [elf_buf] (512 bytes) and [child_tf]. *)
Context (elf_buf child_tf : Z).
Fixpoint ustore_words (l : list Z) (a : Z) : uprog unit :=
  match l with [] => mret tt | w :: l' => ust32 a w;; ustore_words l' (a + 4) end.
(** The segments from [i] on: [Some r] is the jump to [error] with [r]. *)
Definition spawn_segments (fuel : nat) (child fd phoff phnum : Z) : uprog (option Z) :=
  ufor (Z.to_nat phnum) 0 (fun i =>
    let ph := elf_buf + phoff + sizeof_Proghdr * i in
    p_type ← uld32 ph;
    if negb (p_type =? ELF_PROG_LOAD) then mret None
    else
      flags ← uld32 (ph + 24);
      let perm := Z.lor PTE_P PTE_U in
      let perm := if negb (Z.land flags ELF_PROG_FLAG_WRITE =? 0) then Z.lor perm PTE_W else perm in
      va ← uld32 (ph + 8); memsz ← uld32 (ph + 20); filesz ← uld32 (ph + 16); off ← uld32 (ph + 4);
      r ← map_segment fuel child va memsz fd filesz off perm;
      mret (if r <? 0 then Some r else None)).
(** The descriptor stays open when [sys_exofork] or [init_stack] fails. *)
Definition spawn (fuel : nat) (prog argv : Z) : uprog Z :=
  fd ← open thisenv fsenv fsipcbuf fuel prog O_RDONLY;
  if fd <? 0 then mret fd
  else
    n ← readn thisenv fsenv fsipcbuf fuel fd elf_buf 512;
    ok ← (if n =? 512 then m ← uld32 elf_buf; mret (m =? ELF_MAGIC) else mret false);
    if negb ok then close thisenv fsenv fsipcbuf fuel fd;; mret (- E_NOT_EXEC)
    else
      child ← usys_exofork;
      if child <? 0 then mret child
      else
        e ← env_field (ENVX child);
        ustore_words (tf_words (env_tf e)) child_tf;;
        entry ← uld32 (elf_buf + 24);
        ust32 (child_tf + 48) entry;;
        s ← init_stack fuel child argv;
        match s with
        | inl r => mret r
        | inr esp =>
            ust32 (child_tf + 60) esp;;
            phoff ← uld32 (elf_buf + 28);
            l ← uld8 (elf_buf + 44); h ← uld8 (elf_buf + 45);
            r ← spawn_segments fuel child fd phoff (l + 256 * h);
            match r with
            | Some r => usys_env_destroy child;; close thisenv fsenv fsipcbuf fuel fd;; mret r
            | None =>
                close thisenv fsenv fsipcbuf fuel fd;;
                r ← copy_shared_pages child;
                if r <? 0 then UPanics "copy_shared_pages: %e"
                else
                  r ← usys_env_set_trapframe child child_tf;
                  if r <? 0 then UPanics "sys_env_set_trapframe: %e"
                  else
                    r ← usys_env_set_status child ENV_RUNNABLE;
                    if r <? 0 then UPanics "sys_env_set_status: %e" else mret child
            end
        end.
(** [args] are the variable arguments before the null, [av] the array. *)
Definition spawnl (fuel : nat) (prog arg0 : Z) (args : list Z) (av : Z) : uprog Z :=
  ust32 av arg0;;
  ust32 (av + 4 * (Z.of_nat (length args) + 1)) 0;;
  ustore_words args (av + 4);;
  spawn fuel prog av.
End program.
