(* ===== verification/Shell.v ===== *)
(** * The shell: src/src/sh.c

    The tokenizer, the current directory, the built-in commands, redirections,
    pipes and the command loop.  Globals, statics and the arrays of stack
    frames are addresses in the program's memory; [lit] gives the address of a
    string literal.  [exit] does not return: the kernel never resumes a
    destroyed environment, so what the C code has behind a call of it is left out. *)
From S2P Require Import Prelude Layout Mem CString Printf Console FsMach FsServ Kern Pmap EnvMod TrapMod User Fd Ustdio Spawn.

Definition BUFSIZ : Z := 1024.
Definition MAXARGS : Z := 16.
Definition WHITESPACE : list Z := [32; 9; 13; 10].
Definition SYMBOLS : list Z := str_codes "<|>&;()".
(** [strchr] of a literal: whether the (non-NUL) character occurs in it. *)
Definition is_in (c : Z) (l : list Z) : bool := bool_decide (c ∈ l).

(** The character tests on a whole word, in order up to the first difference. *)
Fixpoint word_is (p : Z) (l : list Z) : uprog bool :=
  c ← uld8 p;
  match l with
  | [] => mret (c =? 0)
  | x :: l' => if c =? x then word_is (p + 1) l' else mret false
  end.
Definition nl : string := String (Ascii.ascii_of_nat 10) "".
(** [strcmp(p, q) == 0]. *)
Fixpoint ustreq (fuel : nat) (p q : Z) : uprog bool :=
  match fuel with
  | O => UFuel
  | S f =>
      c ← uld8 p;
      if c =? 0 then d ← uld8 q; mret (d =? 0)
      else d ← uld8 q; if c =? d then ustreq f (p + 1) (q + 1) else mret false
  end.

Section shell.
(** Library globals and scratch, as in Fd.v, User.v, Spawn.v and Ustdio.v. *)
Context (thisenv fsenv fsipcbuf buf128 pbuf line tmp : Z).
Context (pgfault_handler upcall handler elf_buf child_tf : Z).
Context (lit : string -> Z).
(** sh.c: [buf], [debug], [flag], [curpath], [oldpath], [fullpath], and
    [nc], [np1], [np2] of [gettoken]. *)
Context (buf debug flag curpath oldpath fullpath nc np1 np2 : Z).
Local Abbreviation open := (Fd.open thisenv fsenv fsipcbuf).
Local Abbreviation close := (Fd.close thisenv fsenv fsipcbuf).
Local Abbreviation dup := (Fd.dup thisenv fsenv fsipcbuf).
Local Abbreviation stat := (Fd.stat thisenv fsenv fsipcbuf).
Local Abbreviation readn := (Fd.readn thisenv fsenv fsipcbuf).
Local Abbreviation write := (Fd.write thisenv fsenv fsipcbuf buf128).
Local Abbreviation printf := (uprintf thisenv fsenv fsipcbuf buf128 pbuf).

Definition exits {A} (fuel : nat) : uprog A :=
  Fd.exit thisenv fsenv fsipcbuf fuel;; UPanics "exit returned".
(** [if (debug)] and [if (debug > 1)]. *)
Definition if_debug (body : uprog unit) : uprog unit :=
  d ← uld32 debug; if negb (d =? 0) then body else mret tt.
Definition if_debug1 (body : uprog unit) : uprog unit :=
  d ← uld32 debug; if s32 d >? 1 then body else mret tt.

(** ** Tokens *)

(** [while (strchr(WHITESPACE, *s)) *s++ = 0]. *)
Fixpoint skip_white (fuel : nat) (s : Z) : uprog Z :=
  match fuel with
  | O => UFuel
  | S f => c ← uld8 s; if is_in c WHITESPACE then ust8 s 0;; skip_white f (s + 1) else mret s
  end.
(** [while ( *s && !strchr(WHITESPACE SYMBOLS, *s)) s++]. *)
Fixpoint skip_word (fuel : nat) (s : Z) : uprog Z :=
  match fuel with
  | O => UFuel
  | S f =>
      c ← uld8 s;
      if c =? 0 then mret s else if is_in c (WHITESPACE ++ SYMBOLS) then mret s else skip_word f (s + 1)
  end.
Definition _gettoken (fuel : nat) (s p1 p2 : Z) : uprog Z :=
  if s =? 0 then if_debug1 (uprint "GETTOKEN NULL" []);; mret 0
  else
    if_debug1 (uprint "GETTOKEN: %s" [s]);;
    ust32 p1 0;; ust32 p2 0;;
    s ← skip_white fuel s;
    c ← uld8 s;
    if c =? 0 then if_debug1 (uprint "EOL" []);; mret 0
    else if is_in c SYMBOLS then
      ust32 p1 s;; ust8 s 0;; ust32 p2 (u32 (s + 1));; if_debug1 (uprint "TOK %c" [c]);; mret c
    else
      ust32 p1 s;;
      e ← skip_word fuel s;
      ust32 p2 e;;
      if_debug1 (t ← uld8 e; ust8 e 0;; uprint "WORD: %s" [s];; ust8 e t);;
      mret 119.
(** [gettoken(s, 0)] for a non-null [s]. *)
Definition gettoken_start (fuel : nat) (s : Z) : uprog Z :=
  t ← _gettoken fuel s np1 np2; ust32 nc t;; mret 0.
(** [gettoken(0, &t)]: the token and [t]. *)
Definition gettoken (fuel : nat) : uprog (Z * Z) :=
  c ← uld32 nc; t ← uld32 np1; s ← uld32 np2;
  n ← _gettoken fuel s np1 np2; ust32 nc n;;
  mret (c, t).

(** ** The current directory *)

(** The search for the last slash of [curpath], from [len - 1] down. *)
Fixpoint last_slash (n : nat) (i : Z) : uprog Z :=
  match n with
  | O => mret i
  | S n' => c ← uld8 (curpath + i); if negb (c =? 47) && (i >? 1) then last_slash n' (i - 1) else mret i
  end.
Definition update_curpath (fuel : nat) (post size : Z) : uprog unit :=
  len ← ustrlen fuel curpath 0;
  if size >? 0 then
    c ← uld8 post;
    slash ← (if negb (c =? 47) then l ← uld8 (curpath + len - 1); mret (negb (l =? 47)) else mret false);
    len ← (if (slash : bool) then ust8 (curpath + len) 47;; mret (len + 1) else mret len);
    umemmove (curpath + len) post size;;
    ust8 (curpath + len + size) 0
  else
    i ← last_slash (Z.to_nat len) (len - 1);
    ust8 (curpath + i) 0.
Definition update_fullpath (fuel : nat) (post : Z) : uprog unit :=
  len ← ustrlen fuel curpath 0;
  ustrcpy fuel fullpath curpath;;
  l ← uld8 (curpath + len - 1);
  len ← (if negb (l =? 47) then
           ust8 (fullpath + len) 47;; ust8 (fullpath + len + 1) 0;; mret (len + 1)
         else mret len);
  ustrcpy fuel (fullpath + len) post.

(** The arrays of the stack frames: [st] and [f] of the commands, [target] of [cd]. *)
Context (st f target : Z).
(** [while (path[end] != '/' && path[end]) ++end]. *)
Fixpoint elem_end (fuel : nat) (path end_ : Z) : uprog Z :=
  match fuel with
  | O => UFuel
  | S n =>
      c ← uld8 (path + end_);
      if (c =? 47) || (c =? 0) then mret end_ else elem_end n path (end_ + 1)
  end.
(** The loop of [cd] over the directory's entries: the entry was found, or not. *)
Fixpoint cd_search (fuel : nat) (fd end_ : Z) : uprog bool :=
  match fuel with
  | O => UFuel
  | S n =>
      r ← readn fuel fd f DIRESIZE;
      if negb (r =? DIRESIZE) then mret false
      else
        same ← ustreq fuel (d_name f) target;
        if negb same then cd_search n fd end_
        else
          dd ← word_is (d_name f) [46; 46];
          root ← (if (dd : bool) then word_is curpath [47] else mret true);
          (if dd && negb root then update_curpath fuel (lit "") (-1)
           else
             dd ← word_is (d_name f) [46; 46];
             if (dd : bool) then mret tt
             else d ← word_is (d_name f) [46]; if (d : bool) then mret tt else update_curpath fuel target end_);;
          close fuel fd;; mret true
  end.
(** One element of the path per round.  A first element that is no directory
    answers the 0 of [stat]. *)
Fixpoint cd (fuel : nat) (path : Z) : uprog Z :=
  match fuel with
  | O => UFuel
  | S n =>
      c ← uld8 path;
      if c =? 0 then mret 0
      else
        c ← uld8 path;
        let path := if c =? 47 then path + 1 else path in
        end_ ← elem_end fuel path 0;
        c ← uld8 (path + end_);
        if (c =? 0) && (end_ =? 0) then mret 0
        else
          umemmove target path end_;; ust8 (target + end_) 0;;
          if end_ >? MAXNAMELEN then
            update_fullpath fuel target;; printf fuel ("cd %s: %e" +:+ nl) [AStr fullpath; AInt (- E_BAD_NAME)];; mret (-1)
          else
            c ← uld8 (path + end_);
            if negb (c =? 0) && (end_ =? 0) then
              update_fullpath fuel (lit "/");;
              printf fuel ("cd %s: %e" +:+ nl) [AStr fullpath; AInt (- E_BAD_PATH)];; mret (-1)
            else
              update_fullpath fuel target;;
              r ← stat fuel curpath st;
              if r <? 0 then printf fuel ("cd %s: %e" +:+ nl) [AStr fullpath; AInt r];; mret r
              else
                isdir ← uld32 (st_isdir st);
                if isdir =? 0 then printf fuel ("cd %s: not a directory" +:+ nl) [AStr fullpath];; mret r
                else
                  fd ← open fuel curpath O_RDONLY;
                  if fd <? 0 then printf fuel ("cd %s: %e" +:+ nl) [AStr path; AInt fd];; mret fd
                  else
                    found ← cd_search fuel fd end_;
                    if (found : bool) then cd n (path + end_)
                    else
                      printf fuel ("cd %s: no such directory" +:+ nl) [AStr fullpath];;
                      close fuel fd;; mret (-1)
  end.
Definition pwd (fuel : nat) : uprog unit := printf fuel ("    %s" +:+ nl) [AStr curpath].
(** [MAXPATHLEN] bytes are read into an array of [MAXPATHLEN]. *)
Definition load_curpath (fuel : nat) : uprog unit :=
  fd ← open fuel (lit "/.global_var") O_RDONLY;
  (if fd <? 0 then printf fuel "open %s: %e" [AStr (lit "/.global_var"); AInt fd] else mret tt);;
  n ← readn fuel fd curpath MAXPATHLEN;
  ust8 (curpath + n) 0;;
  close fuel fd;; mret tt.
Definition save_curpath (fuel : nat) : uprog unit :=
  fd ← open fuel (lit "/.global_var") (Z.lor O_WRONLY O_CREAT);
  if fd <? 0 then UPanics "open %s: %e"
  else
    len ← ustrlen fuel curpath 0;
    write fuel fd curpath len;; close fuel fd;; mret tt.

(** ** The built-in commands *)

(** [buf] is a full [BUFSIZ]: a read that fills it ends the loop unwritten. *)
Fixpoint cat (fuel : nat) (fd : Z) : uprog unit :=
  match fuel with
  | O => UFuel
  | S k =>
      n ← read thisenv fsenv fsipcbuf fuel fd buf BUFSIZ;
      if (n >? 0) && (n <? BUFSIZ) then
        r ← write fuel 1 buf n;
        if negb (r =? n) then UPanics "write error copying %s: %e" else cat k fd
      else if n <? 0 then UPanics "error reading %s: %e" else mret tt
  end.
Definition mkdir (fuel : nat) (path : Z) : uprog unit :=
  c ← uld8 path;
  path ← (if negb (c =? 47) then update_fullpath fuel path;; mret fullpath else mret path);
  r ← stat fuel path st;
  if r <? 0 then
    (if negb (r =? - E_NOT_FOUND) then printf fuel "mkdir %s: %e" [AStr path; AInt r] else mret tt);;
    r ← makedir thisenv fsenv fsipcbuf fuel path;
    (if r <? 0 then printf fuel "mkdir %s: %e" [AStr path; AInt r] else mret tt)
  else printf fuel ("mkdir %s: %e" +:+ nl) [AStr path; AInt (- E_FILE_EXISTS)].
(** [2*DIRESIZE] is unsigned, so a negative size would count as large. *)
Definition rm (fuel : nat) (path : Z) : uprog unit :=
  c ← uld8 path;
  path ← (if negb (c =? 47) then update_fullpath fuel path;; mret fullpath else mret path);
  r ← stat fuel path st;
  if r <? 0 then printf fuel ("rm %s: %e" +:+ nl) [AStr path; AInt r]
  else
    isdir ← uld32 (st_isdir st);
    full ← (if negb (isdir =? 0) then size ← uld32 (st_size st); mret (size >? 2 * DIRESIZE) else mret false);
    if (full : bool) then printf fuel ("rm %s: not an empty directory" +:+ nl) [AStr path]
    else
      r ← remove thisenv fsenv fsipcbuf fuel path;
      if r <? 0 then printf fuel ("rm %s: %e" +:+ nl) [AStr path; AInt r] else mret tt.
Definition ls1 (fuel : nat) (prefix isdir size name : Z) : uprog unit :=
  printf fuel "%6d %c " [AInt size; AInt (if negb (isdir =? 0) then 100 else 45)];;
  (if negb (prefix =? 0) then
     c ← uld8 prefix;
     slash ← (if negb (c =? 0) then
                len ← ustrlen fuel prefix 0; l ← uld8 (prefix + (len - 1)); mret (negb (l =? 47))
              else mret false);
     printf fuel "%s%s" [AStr prefix; AStr (if (slash : bool) then lit "/" else lit "")]
   else mret tt);;
  printf fuel "%s" [AStr name];;
  printf fuel nl [].
(** An entry that cannot be examined is printed with what [st] held before. *)
Fixpoint lsdir_loop (fuel : nat) (fd prefix : Z) : uprog Z :=
  match fuel with
  | O => UFuel
  | S k =>
      n ← readn fuel fd f DIRESIZE;
      if n =? DIRESIZE then
        c ← uld8 (d_name f);
        (if negb (c =? 0) then
           update_fullpath fuel (d_name f);;
           r ← stat fuel fullpath st;
           (if r <? 0 then printf fuel ("ls %s: %e" +:+ nl) [AStr fullpath; AInt r] else mret tt);;
           isdir ← uld32 (st_isdir st); size ← uld32 (st_size st);
           ls1 fuel prefix isdir size (d_name f)
         else mret tt);;
        lsdir_loop k fd prefix
      else mret n
  end.
Definition lsdir (fuel : nat) (path prefix : Z) : uprog unit :=
  ustrlen fuel path 0;;
  fd ← open fuel path O_RDONLY;
  if fd <? 0 then printf fuel ("ls %s: %e" +:+ nl) [AStr path; AInt fd]
  else
    n ← lsdir_loop fuel fd prefix;
    close fuel fd;;
    if n >? 0 then UPanics "short read in directory %s"
    else if n <? 0 then UPanics "error reading directory %s: %e" else mret tt.
(** [flag['d']] is the 101st [int] of [flag]. *)
Definition ls (fuel : nat) (path : Z) : uprog unit :=
  c ← uld8 path;
  path ← (if c =? 46 then update_fullpath fuel path;; mret fullpath else mret path);
  r ← stat fuel path st;
  (if r <? 0 then printf fuel "ls %s: %e" [AStr path; AInt r] else mret tt);;
  isdir ← uld32 (st_isdir st);
  d ← (if negb (isdir =? 0) then fl ← uld32 (flag + 4 * 100); mret (fl =? 0) else mret false);
  if (d : bool) then lsdir fuel path path
  else
    isdir ← uld32 (st_isdir st); size ← uld32 (st_size st);
    ls1 fuel 0 isdir size path.
(** [who] is the address of the local. *)
Context (who : Z).
Fixpoint pingpong_loop (fuel : nat) : uprog unit :=
  match fuel with
  | O => UFuel
  | S k =>
      v ← ipc_recv thisenv who 0 0;
      let i := u32 v in
      me ← usys_getenvid; w ← uld32 who; uprint "%x got %d from %x" [me; i; w];;
      if i >=? 10 then mret tt
      else
        w ← uld32 who;
        ipc_send fuel w (i + 1) 0 0;;
        if i + 1 >=? 10 then mret tt else pingpong_loop k
  end.
Definition pingpong (fuel : nat) : uprog unit :=
  r ← fork thisenv pgfault_handler upcall handler;
  ust32 who r;;
  (if negb (r =? 0) then
     w ← uld32 who; me ← usys_getenvid; uprint "send 0 from %x to %x" [me; w];;
     w ← uld32 who; ipc_send fuel w 0 0 0
   else mret tt);;
  pingpong_loop fuel.

(** ** Command lines *)

(** [argv] and [argv0buf] of [runcmd]. *)
Context (argv argv0buf : Z).
(** A redirection of descriptor [n] to the word that follows. *)
Definition redirect (fuel : nat) (mode n : Z) (nofile noopen : string) : uprog unit :=
  t ← gettoken fuel;
  if negb (fst t =? 119) then uprint nofile [];; exits fuel
  else
    update_fullpath fuel (snd t);;
    fd ← open fuel fullpath mode;
    if fd <? 0 then uprint noopen [snd t; fd];; exits fuel
    else if negb (fd =? n) then dup fuel fd n;; close fuel fd;; mret tt
    else mret tt.
(** The [while] that reads the command, up to [runit]: [argc] and [pipe_child].
    The child of a pipe starts over ([again]) with what follows the bar. *)
Fixpoint parse (fuel : nat) (argc pipe_child : Z) : uprog (Z * Z) :=
  match fuel with
  | O => UFuel
  | S k =>
      t ← gettoken fuel;
      let c := fst t in
      if c =? 119 then
        if argc =? MAXARGS then uprint "too many arguments" [];; exits fuel
        else ust32 (argv + 4 * argc) (snd t);; parse k (argc + 1) pipe_child
      else if c =? 60 then
        redirect fuel O_RDONLY 0 "syntax error: < not followed by word" "open %s for read: %e";;
        parse k argc pipe_child
      else if c =? 62 then
        redirect fuel (Z.lor (Z.lor O_WRONLY O_CREAT) O_TRUNC) 1
          "syntax error: > not followed by word" "open %s for write: %e";;
        parse k argc pipe_child
      else if c =? 124 then
        p ← pipe;
        match p with
        | inl r => uprint "pipe: %e" [r];; exits fuel
        | inr (p0, p1) =>
            if_debug (uprint "PIPE: %d %d" [p0; p1]);;
            r ← fork thisenv pgfault_handler upcall handler;
            if r <? 0 then uprint "fork: %e" [r];; exits fuel
            else if r =? 0 then
              (if negb (p0 =? 0) then dup fuel p0 0;; close fuel p0;; mret tt else mret tt);;
              close fuel p1;;
              parse k 0 pipe_child
            else
              (if negb (p1 =? 1) then dup fuel p1 1;; close fuel p1;; mret tt else mret tt);;
              close fuel p0;;
              mret (argc, r)
        end
      else if c =? 0 then mret (argc, pipe_child)
      else UPanics "bad return %d from gettoken"
  end.
Definition arg (i : Z) : uprog Z := uld32 (argv + 4 * i).
Definition run_cd (fuel : nat) (argc : Z) : uprog unit :=
  if argc =? 1 then ustrcpy_lit curpath [47]
  else if argc =? 2 then
    ustrcpy fuel oldpath curpath;;
    a1 ← arg 1; c ← uld8 a1;
    (if c =? 47 then
       ust8 curpath 47;;
       ust8 argv0buf 0;;
       a1 ← arg 1; ustrcpy fuel argv0buf (a1 + 1);;
       ust32 (argv + 4) argv0buf
     else mret tt);;
    a1 ← arg 1; r ← cd fuel a1;
    (if r <? 0 then ustrcpy fuel curpath oldpath else mret tt);;
    save_curpath fuel
  else printf fuel ("usage: cd [path]" +:+ nl) [].
(** [rm] and [mkdir]: one argument, resolved against the current directory. *)
Definition run_on_path (fuel : nat) (argc : Z) (usage : string) (cmd : Z -> uprog unit) : uprog unit :=
  (if negb (argc =? 2) then printf fuel usage []
   else a1 ← arg 1; update_fullpath fuel a1;; cmd fullpath);;
  exits fuel.
Definition run_echo (fuel : nat) (argc : Z) : uprog unit :=
  ufor (R := unit) (Z.to_nat (argc - 1)) 1 (fun i =>
    (if i >? 1 then write fuel 1 (lit " ") 1;; mret tt else mret tt);;
    a ← arg i; a' ← arg i; len ← ustrlen fuel a' 0; write fuel 1 a len;; mret None);;
  write fuel 1 (lit nl) 1;;
  exits fuel.
Definition run_cat (fuel : nat) (argc : Z) : uprog unit :=
  (if argc =? 1 then cat fuel 0
   else
     ufor (R := unit) (Z.to_nat (argc - 1)) 1 (fun i =>
       a ← arg i; update_fullpath fuel a;;
       fd ← open fuel fullpath O_RDONLY;
       (if fd <? 0 then a ← arg i; printf fuel ("can't open %s: %e" +:+ nl) [AStr a; AInt fd]
        else cat fuel fd;; close fuel fd;; mret tt);;
       mret None);;
     mret tt);;
  exits fuel.
Fixpoint print_args (fuel : nat) (i : Z) : uprog unit :=
  match fuel with
  | O => UFuel
  | S k => a ← arg i; if a =? 0 then mret tt else uprint " %s" [a];; print_args k (i + 1)
  end.
(** Any other command is a program: relative names get a slash in front. *)
Definition run_program (fuel : nat) (argc pipe_child : Z) : uprog unit :=
  a0 ← arg 0; c ← uld8 a0;
  (if negb (c =? 47) then
     ustrcpy fuel argv0buf curpath;;
     a0 ← arg 0; ustrcpy fuel (argv0buf + 1) a0;;
     ust32 argv argv0buf
   else mret tt);;
  ust32 (argv + 4 * argc) 0;;
  if_debug (e ← this_env thisenv; uprint "[%08x] SPAWN:" [env_id e];; print_args fuel 0;; uprint "" []);;
  a0 ← arg 0;
  r ← spawn thisenv fsenv fsipcbuf elf_buf child_tf fuel a0 argv;
  (if r <? 0 then a0 ← arg 0; uprint "spawn %s: %e" [a0; r] else mret tt);;
  close_all thisenv fsenv fsipcbuf fuel;;
  let finished := if_debug (e ← this_env thisenv; uprint "[%08x] wait finished" [env_id e]) in
  (if r >=? 0 then
     if_debug (e ← this_env thisenv; a0 ← arg 0; uprint "[%08x] WAIT %s %08x" [env_id e; a0; r]);;
     wait fuel r;; finished
   else mret tt);;
  (if negb (pipe_child =? 0) then
     if_debug (e ← this_env thisenv; uprint "[%08x] WAIT pipe_child %08x" [env_id e; pipe_child]);;
     wait fuel pipe_child;; finished
   else mret tt);;
  exits fuel.
Fixpoint dispatch (fuel : nat) (cmds : list (string * uprog unit)) (other : uprog unit) : uprog unit :=
  match cmds with
  | [] => other
  | (name, body) :: cmds' =>
      a0 ← arg 0; same ← word_is a0 (str_codes name);
      if (same : bool) then body else dispatch fuel cmds' other
  end.
(** [cd] runs in the shell itself and returns. *)
Definition runcmd (fuel : nat) (s : Z) : uprog unit :=
  gettoken_start fuel s;;
  ac ← parse fuel 0 0;
  let argc := fst ac in
  if argc =? 0 then if_debug (uprint "EMPTY COMMAND" [])
  else dispatch fuel
    [("cd", run_cd fuel argc);
     ("pwd", pwd fuel;; exits fuel);
     ("rm", run_on_path fuel argc ("usage: rm [path]" +:+ nl) (rm fuel));
     ("mkdir", run_on_path fuel argc ("usage: mkdir [path]" +:+ nl) (mkdir fuel));
     ("echo", run_echo fuel argc);
     ("pingpong", pingpong fuel;; exits fuel);
     ("cat", run_cat fuel argc);
     ("ls", (if argc =? 1 then ls fuel curpath else a1 ← arg 1; ls fuel a1);; exits fuel)]
    (run_program fuel argc (snd ac)).

(** ** The command loop *)
Definition usage {A} (fuel : nat) : uprog A := uprint "usage: sh [-dix] [command-file]" [];; exits fuel.
(** The flags, with [interactive] ([None] is '?') and [echocmds]. *)
Fixpoint flags (fuel : nat) (args : Z) (interactive : option bool) (echocmds : bool) :
    uprog (option bool * bool) :=
  match fuel with
  | O => UFuel
  | S k =>
      r ← argnext args;
      if r <? 0 then mret (interactive, echocmds)
      else if r =? 100 then d ← uld32 debug; ust32 debug (u32 (d + 1));; flags k args interactive echocmds
      else if r =? 105 then flags k args (Some true) echocmds
      else if r =? 120 then flags k args interactive true
      else usage fuel
  end.
Fixpoint command_loop (fuel : nat) (interactive echocmds : bool) : uprog unit :=
  match fuel with
  | O => UFuel
  | S k =>
      l ← ureadline thisenv fsenv fsipcbuf buf128 pbuf line tmp fuel (if interactive then lit "$> " else 0);
      (if l =? 0 then if_debug (uprint "EXITING" []);; exits fuel else mret tt);;
      if_debug (uprint "LINE: %s" [l]);;
      c ← uld8 l;
      if c =? 35 then command_loop k interactive echocmds
      else
        (if echocmds then printf fuel ("# %s" +:+ nl) [AStr l] else mret tt);;
        if_debug (uprint "BEFORE FORK" []);;
        len ← ustrlen fuel l 0;
        is_cd ← (if len >=? 2 then
                   c ← uld8 l;
                   if c =? 99 then d ← uld8 (l + 1); mret (d =? 100) else mret false
                 else mret false);
        if (is_cd : bool) then runcmd fuel l;; command_loop k interactive echocmds
        else
          r ← fork thisenv pgfault_handler upcall handler;
          if r <? 0 then UPanics "fork: %e"
          else
            if_debug (uprint "FORK: %d" [r]);;
            (if r =? 0 then runcmd fuel l;; exits fuel else wait fuel r);;
            command_loop k interactive echocmds
  end.
(** [argc] and [args] are the addresses of the locals, [av] the vector. *)
Definition umain (fuel : nat) (argc args av : Z) : uprog unit :=
  uprint "initsh: running sh" [];;
  close fuel 0;;
  r ← opencons;
  if r <? 0 then UPanics "opencons: %e"
  else if negb (r =? 0) then UPanics "first opencons used fd %d"
  else
    r ← dup fuel 0 1;
    if r <? 0 then UPanics "dup: %e"
    else
      uprint "initsh: starting sh" [];;
      ust8 curpath 47;; ust8 (curpath + 1) 0;;
      save_curpath fuel;;
      argstart (lit "") argc av args;;
      fe ← flags fuel args None false;
      n ← uld32 argc;
      (if s32 n >? 2 then usage fuel else mret tt);;
      (if n =? 2 then
         close fuel 0;;
         a1 ← uld32 (av + 4); r ← open fuel a1 O_RDONLY;
         if r <? 0 then UPanics "open %s: %e" else mret tt
       else mret tt);;
      interactive ← (match fst fe with Some b => mret b | None => r ← iscons 0; mret (negb (r =? 0)) end);
      command_loop fuel interactive (snd fe).
End shell.
