(* ===== verification/Programs.v ===== *)
(** * Programs: src/src/ls.c, echo.c, initsh.c

    Small user programs over the library.  Globals and arrays of stack frames
    are addresses; [lit] gives the address of a string literal. *)
From S2P Require Import Prelude Layout Mem CString Printf Console FsMach FsServ Kern Pmap EnvMod TrapMod User Fd Ustdio Spawn Shell.

Section programs.
Context (thisenv fsenv fsipcbuf buf128 pbuf elf_buf child_tf : Z) (lit : string -> Z).
Local Abbreviation open := (Fd.open thisenv fsenv fsipcbuf).
Local Abbreviation close := (Fd.close thisenv fsenv fsipcbuf).
Local Abbreviation dup := (Fd.dup thisenv fsenv fsipcbuf).
Local Abbreviation stat := (Fd.stat thisenv fsenv fsipcbuf).
Local Abbreviation readn := (Fd.readn thisenv fsenv fsipcbuf).
Local Abbreviation write := (Fd.write thisenv fsenv fsipcbuf buf128).
Local Abbreviation printf := (uprintf thisenv fsenv fsipcbuf buf128 pbuf).
Local Abbreviation exits := (Shell.exits thisenv fsenv fsipcbuf).

(** ** ls.c: the globals [flag], [curpath], [curpathlen] and the arrays of the frames *)
Context (flag curpath curpathlen st f fullpath : Z).
Definition flag_set (c : Z) : uprog bool := v ← uld32 (flag + 4 * c); mret (negb (v =? 0)).
Definition ls1 (fuel : nat) (prefix isdir size name : Z) : uprog unit :=
  l ← flag_set 108;
  (if (l : bool) then printf fuel "%11d %c " [AInt size; AInt (if negb (isdir =? 0) then 100 else 45)] else mret tt);;
  (if negb (prefix =? 0) then
     c ← uld8 prefix;
     slash ← (if negb (c =? 0) then
                len ← ustrlen fuel prefix 0; l ← uld8 (prefix + (len - 1)); mret (negb (l =? 47))
              else mret false);
     printf fuel "%s%s" [AStr prefix; AStr (if (slash : bool) then lit "/" else lit "")]
   else mret tt);;
  printf fuel "%s" [AStr name];;
  fl ← flag_set 70;
  (if fl && negb (isdir =? 0) then printf fuel "/" [] else mret tt);;
  printf fuel nl [].
Fixpoint lsdir_loop (fuel : nat) (fd path len prefix : Z) : uprog Z :=
  match fuel with
  | O => UFuel
  | S k =>
      n ← readn fuel fd f DIRESIZE;
      if n =? DIRESIZE then
        c ← uld8 (d_name f);
        (if negb (c =? 0) then
           ustrcpy fuel fullpath path;;
           ustrcpy fuel (fullpath + len) (d_name f);;
           r ← stat fuel fullpath st;
           if r <? 0 then UPanics "stat %s: %e"
           else
             isdir ← uld32 (st_isdir st); size ← uld32 (st_size st);
             ls1 fuel prefix isdir size (d_name f)
         else mret tt);;
        lsdir_loop k fd path len prefix
      else mret n
  end.
(** The descriptor is not closed. *)
Definition lsdir (fuel : nat) (path prefix : Z) : uprog unit :=
  len ← ustrlen fuel path 0;
  fd ← open fuel path O_RDONLY;
  if fd <? 0 then UPanics "open %s: %e"
  else
    n ← lsdir_loop fuel fd path len prefix;
    if n >? 0 then UPanics "short read in directory %s"
    else if n <? 0 then UPanics "error reading directory %s: %e" else mret tt.
Definition ls (fuel : nat) (path : Z) : uprog unit :=
  c ← uld8 path;
  path ← (if c =? 46 then
            ustrcpy fuel fullpath curpath;; len ← uld32 curpathlen;
            ustrcpy fuel (fullpath + len) path;; mret fullpath
          else mret path);
  r ← stat fuel path st;
  if r <? 0 then UPanics "stat %s: %e"
  else
    isdir ← uld32 (st_isdir st);
    d ← (if negb (isdir =? 0) then fl ← flag_set 100; mret (negb fl) else mret false);
    if (d : bool) then lsdir fuel path path
    else
      isdir ← uld32 (st_isdir st); size ← uld32 (st_size st);
      ls1 fuel 0 isdir size path.
Definition load_curpath (fuel : nat) : uprog unit :=
  fd ← open fuel (lit "/.global_var") O_RDONLY;
  if fd <? 0 then UPanics "open %s: %e"
  else
    n ← readn fuel fd curpath MAXPATHLEN;
    ust32 curpathlen n;;
    n ← uld32 curpathlen; ust8 (curpath + s32 n) 0;;
    close fuel fd;; mret tt.
Definition usage_ls (fuel : nat) : uprog unit := printf fuel ("usage: ls [file...]" +:+ nl) [];; exits fuel.
Fixpoint flags_ls (fuel : nat) (args : Z) : uprog unit :=
  match fuel with
  | O => UFuel
  | S k =>
      i ← argnext args;
      if i <? 0 then mret tt
      else
        (if (i =? 100) || (i =? 70) || (i =? 108) then
           v ← uld32 (flag + 4 * i); ust32 (flag + 4 * i) (u32 (v + 1))
         else usage_ls fuel);;
        flags_ls k args
  end.
(** [argc] and [args] are the addresses of the locals, [av] the vector. *)
Definition umain_ls (fuel : nat) (argc args av : Z) : uprog unit :=
  load_curpath fuel;;
  argstart (lit "") argc av args;;
  flags_ls fuel args;;
  n ← uld32 argc;
  if n =? 1 then ls fuel curpath
  else
    ufor (R := unit) (Z.to_nat (s32 n - 1)) 1 (fun i => a ← uld32 (av + 4 * i); ls fuel a;; mret None);;
    mret tt.

(** ** echo.c *)
Definition umain_echo (fuel : nat) (argc av : Z) : uprog unit :=
  n ← (if argc >? 1 then a1 ← uld32 (av + 4); word_is a1 (str_codes "-n") else mret false);
  let nflag : bool := n in
  let argc := if nflag then argc - 1 else argc in
  let av := if nflag then av + 4 else av in
  ufor (R := unit) (Z.to_nat (argc - 1)) 1 (fun i =>
    (if i >? 1 then write fuel 1 (lit " ") 1;; mret tt else mret tt);;
    a ← uld32 (av + 4 * i); len ← ustrlen fuel a 0; write fuel 1 a len;; mret None);;
  (if negb nflag then write fuel 1 (lit nl) 1;; mret tt else mret tt).

(** ** initsh.c: [data], [bss] and the array [args] *)
Context (data bss : Z).
(** Characters are signed. *)
Fixpoint sum (n : nat) (s i tot : Z) : uprog Z :=
  match n with
  | O => mret tot
  | S n' => c ← uld8 (s + i); sum n' s (i + 1) (Z.lxor tot (u32 (i * (if c <? 128 then c else c - 256))))
  end.
Definition ustrcat (fuel : nat) (dst src : Z) : uprog unit :=
  len ← ustrlen fuel dst 0; ustrcpy fuel (dst + len) src.
Fixpoint start_shells (fuel : nat) (av : Z) : uprog unit :=
  match fuel with
  | O => UFuel
  | S k =>
      uprint "init: starting sh" [];;
      r ← spawnl thisenv fsenv fsipcbuf elf_buf child_tf fuel (lit "/sh") (lit "sh") [] av;
      if r <? 0 then uprint "init: spawn sh: %e" [r];; start_shells k av
      else wait fuel r;; start_shells k av
  end.
(** [args] is not cleared before the first [strcat]. *)
Definition umain_init (fuel : nat) (argc argv args av : Z) : uprog unit :=
  uprint "init: running" [];;
  x ← sum (Z.to_nat 6000) data 0 0;
  (if negb (x =? 0xf989e) then uprint "init: data is not initialized: got sum %08x wanted %08x" [x; 0xf989e]
   else uprint "init: data seems okay" []);;
  x ← sum (Z.to_nat 6000) bss 0 0;
  (if negb (x =? 0) then uprint "bss is not initialized: wanted sum 0 got %08x" [x]
   else uprint "init: bss seems okay" []);;
  ustrcat fuel args (lit "init: args:");;
  ufor (R := unit) (Z.to_nat argc) 0 (fun i =>
    ustrcat fuel args (lit " '");; a ← uld32 (argv + 4 * i); ustrcat fuel args a;;
    ustrcat fuel args (lit "'");; mret None);;
  uprint "%s" [args];;
  uprint "init: running sh" [];;
  close fuel 0;;
  r ← opencons;
  if r <? 0 then UPanics "opencons: %e"
  else if negb (r =? 0) then UPanics "first opencons used fd %d"
  else r ← dup fuel 0 1; if r <? 0 then UPanics "dup: %e" else start_shells fuel av.
End programs.
