(* ===== verification/Cpu.v ===== *)
(** * Segments, gates and privilege: src/src/util.h, x86.h, env.c, trap.c, trapentry.S

    The descriptor tables the kernel builds, as the bit fields of the C
    structures and as the bytes of memory; the processor that reads them
    (segment loads, interrupt delivery, [iret], the I/O permission check, as
    the i386 manual defines them); the code that loads the registers
    ([env_init_percpu], [trap_init], [trap_init_percpu]) and the two halves of
    a trap: the entry stubs with [_alltraps], and [env_pop_tf].

    Addresses are linear: the pages of the tables and of the kernel stack are
    mapped for the kernel.  A segment load leaves the tables as they are: the
    Accessed bit the processor sets in the descriptor of a code or data segment
    is not modelled, and nothing here reads it.  The addresses of the tables and of the stubs,
    which the linker chooses, are arguments. *)
From S2P Require Import Prelude Layout Mem CString Printf Console Kern TrapMod.

(** ** Bit fields: a structure is its fields, lowest first, with their widths *)
Fixpoint pack (l : list (Z * Z)) : Z :=
  match l with
  | [] => 0
  | (w, v) :: l' => v mod 2 ^ w + 2 ^ w * pack l'
  end.
Definition field (v i w : Z) : Z := v / 2 ^ i mod 2 ^ w.
Definition load64 (m : mem) (a : Z) : Z := load32 m a + 2 ^ 32 * load32 m (a + 4).
Definition store64 (m : mem) (a v : Z) : mem := store32 (store32 m a v) (a + 4) (v / 2 ^ 32).

(** ** util.h *)
Definition GD_KD : Z := 0x10.
Definition GD_TSS0 : Z := 0x28.
Definition STA_X : Z := 0x8.
Definition STA_W : Z := 0x2.
Definition STA_R : Z := 0x2.
Definition STS_T32A : Z := 0x9.
Definition STS_IG32 : Z := 0xE.
Definition STS_TG32 : Z := 0xF.
Definition FL_TF : Z := 0x100.
Definition FL_NT : Z := 0x4000.
Definition FL_RF : Z := 0x10000.
Definition FL_VM : Z := 0x20000.
Definition KSTACKTOP : Z := KERNBASE.

Record Segdesc : Type := mkSegdesc {
  sd_lim_15_0 : Z; sd_base_15_0 : Z; sd_base_23_16 : Z; sd_type : Z; sd_s : Z;
  sd_dpl : Z; sd_p : Z; sd_lim_19_16 : Z; sd_avl : Z; sd_rsv1 : Z; sd_db : Z; sd_g : Z;
  sd_base_31_24 : Z }.
Definition seg_fields (d : Segdesc) : list (Z * Z) :=
  [(16, sd_lim_15_0 d); (16, sd_base_15_0 d); (8, sd_base_23_16 d); (4, sd_type d); (1, sd_s d);
   (2, sd_dpl d); (1, sd_p d); (4, sd_lim_19_16 d); (1, sd_avl d); (1, sd_rsv1 d); (1, sd_db d);
   (1, sd_g d); (8, sd_base_31_24 d)].
Definition SEG_NULL : Segdesc := mkSegdesc 0 0 0 0 0 0 0 0 0 0 0 0 0.
Definition SEG (type base lim dpl : Z) : Segdesc :=
  mkSegdesc (Z.land (Z.shiftr lim 12) 0xffff) (Z.land base 0xffff) (Z.land (Z.shiftr base 16) 0xff)
    type 1 dpl 1 (Z.shiftr (u32 lim) 28) 0 0 1 1 (Z.shiftr (u32 base) 24).
Definition SEG16 (type base lim dpl : Z) : Segdesc :=
  mkSegdesc (Z.land lim 0xffff) (Z.land base 0xffff) (Z.land (Z.shiftr base 16) 0xff)
    type 1 dpl 1 (Z.shiftr (u32 lim) 16) 0 0 1 0 (Z.shiftr (u32 base) 24).

Record Gatedesc : Type := mkGatedesc {
  gd_off_15_0 : Z; gd_sel : Z; gd_args : Z; gd_rsv1 : Z; gd_type : Z; gd_s : Z; gd_dpl : Z;
  gd_p : Z; gd_off_31_16 : Z }.
Definition gate_fields (g : Gatedesc) : list (Z * Z) :=
  [(16, gd_off_15_0 g); (16, gd_sel g); (5, gd_args g); (3, gd_rsv1 g); (4, gd_type g);
   (1, gd_s g); (2, gd_dpl g); (1, gd_p g); (16, gd_off_31_16 g)].
(** [SETGATE] assigns every field. *)
Definition SETGATE (istrap : bool) (sel off dpl : Z) : Gatedesc :=
  mkGatedesc (Z.land (u32 off) 0xffff) sel 0 0 (if istrap then STS_TG32 else STS_IG32) 0 dpl 1
    (Z.shiftr (u32 off) 16).

(** [struct Taskstate]: the size and the fields that are used. *)
Definition sizeof_Taskstate : Z := 104.
Definition ts_esp0 : Z := 4.
Definition ts_ss0 : Z := 8.
Definition ts_iomb : Z := 102.

(** ** The processor *)

(** A segment register with its hidden part. *)
Record sreg : Type := mkSreg { s_sel : Z; s_base : Z; s_limit : Z }.
Record processor : Type := mkProc {
  lmem : mem; gp : PushRegs (* with the stack pointer as [reg_oesp] *);
  c_eip : Z; c_eflags : Z;
  r_cs : sreg; r_ds : sreg; r_es : sreg; r_fs : sreg; r_gs : sreg; r_ss : sreg;
  r_ldt : Z; r_tr : sreg;
  gdtr : Z * Z; idtr : Z * Z (* limit and base *);
  c_cr0 : Z }.
Inductive fault : Type := GP (err : Z) | NP (err : Z) | StackFault (err : Z) | BadTSS (err : Z).
Definition CPU (A : Type) : Type := ST fault processor A.
Definition CPL (c : processor) : Z := Z.land (s_sel (r_cs c)) 3.
Definition IOPL (c : processor) : Z := field (c_eflags c) 12 2.

(** The fields of an 8-byte descriptor as the processor reads them. *)
Definition d_type (d : Z) : Z := field d 40 4.
Definition d_s (d : Z) : Z := field d 44 1.
Definition d_dpl (d : Z) : Z := field d 45 2.
Definition d_present (d : Z) : bool := field d 47 1 =? 1.
Definition d_base (d : Z) : Z :=
  field d 16 16 + 2 ^ 16 * field d 32 8 + 2 ^ 24 * field d 56 8.
Definition d_limit (d : Z) : Z :=
  let l := field d 0 16 + 2 ^ 16 * field d 48 4 in
  if field d 55 1 =? 1 then 4096 * l + 4095 else l.
Definition d_code (d : Z) : bool := (d_s d =? 1) && (field d 43 1 =? 1).
Definition d_conforming (d : Z) : bool := field d 42 1 =? 1.
Definition d_data_writable (d : Z) : bool := (d_s d =? 1) && (field d 43 1 =? 0) && (field d 41 1 =? 1).
Definition d_readable (d : Z) : bool := (d_s d =? 1) && ((field d 43 1 =? 0) || (field d 41 1 =? 1)).
Definition g_offset (d : Z) : Z := field d 0 16 + 2 ^ 16 * field d 48 16.
Definition g_selector (d : Z) : Z := field d 16 16.

(** Selectors: index, table, requested privilege. *)
Definition rpl (sel : Z) : Z := Z.land sel 3.
Definition null_sel (sel : Z) : bool := Z.land sel 0xfffc =? 0.
Definition sel_err (sel : Z) : Z := Z.land sel 0xfffc.
(** The descriptor a selector names; the local table is empty. *)
Definition fetch (c : processor) (sel : Z) : option Z :=
  if negb (Z.land sel 4 =? 0) || (fst (gdtr c) <? 8 * Z.shiftr sel 3 + 7) then None
  else Some (load64 (lmem c) (snd (gdtr c) + 8 * Z.shiftr sel 3)).
Definition fetch_or (f : fault) (sel : Z) : CPU Z :=
  c ← st_get; match fetch c sel with Some d => mret d | None => st_exit f end.
Definition require (b : bool) (f : fault) : CPU unit := if b then mret tt else st_exit f.
Definition sreg_of (sel d : Z) : sreg := mkSreg sel (d_base d) (d_limit d).

(** *** x86.h and the register loads of env.c *)
Definition lgdt (p : Z) : CPU unit :=
  st_mod (fun c => c {{ gdtr := (load16 (lmem c) p, load32 (lmem c) (p + 2)) }}).
Definition lidt (p : Z) : CPU unit :=
  st_mod (fun c => c {{ idtr := (load16 (lmem c) p, load32 (lmem c) (p + 2)) }}).
Definition rcr0 : CPU Z := st_gets c_cr0.
Definition lcr0 (val : Z) : CPU unit := st_mod (fun c => c {{ c_cr0 := u32 val }}).
Definition lldt (sel : Z) : CPU unit :=
  if null_sel sel then st_mod (fun c => c {{ r_ldt := sel }})
  else
    d ← fetch_or (GP (sel_err sel)) sel;
    require ((d_s d =? 0) && (d_type d =? 2)) (GP (sel_err sel));;
    require (d_present d) (NP (sel_err sel));;
    st_mod (fun c => c {{ r_ldt := sel }}).
(** Loading the task register marks the descriptor busy. *)
Definition ltr (sel : Z) : CPU unit :=
  require (negb (null_sel sel)) (GP 0);;
  d ← fetch_or (GP (sel_err sel)) sel;
  require ((d_s d =? 0) && ((d_type d =? 1) || (d_type d =? 9))) (GP (sel_err sel));;
  require (d_present d) (NP (sel_err sel));;
  st_mod (fun c => c {{ r_tr := sreg_of sel d }} {{ lmem :=
    store64 (lmem c) (snd (gdtr c) + 8 * Z.shiftr sel 3) (d + 2 ^ 41) }}).
(** What [ds], [es], [fs] and [gs] accept (here and in [stack_seg] the Accessed
    bit of the descriptor is not set). *)
Definition data_seg (sel : Z) : CPU sreg :=
  if null_sel sel then mret (mkSreg sel 0 0)
  else
    d ← fetch_or (GP (sel_err sel)) sel;
    c ← st_get;
    require (d_readable d) (GP (sel_err sel));;
    require (d_code d && d_conforming d || (rpl sel <=? d_dpl d) && (CPL c <=? d_dpl d)) (GP (sel_err sel));;
    require (d_present d) (NP (sel_err sel));;
    mret (sreg_of sel d).
(** What [ss] accepts at privilege [pl]. *)
Definition stack_seg (bad : Z -> fault) (pl sel : Z) : CPU sreg :=
  require (negb (null_sel sel)) (bad (sel_err sel));;
  d ← fetch_or (bad (sel_err sel)) sel;
  require ((rpl sel =? pl) && (d_dpl d =? pl) && d_data_writable d) (bad (sel_err sel));;
  require (d_present d) (StackFault (sel_err sel));;
  mret (sreg_of sel d).
Definition mov_ds (sel : Z) : CPU unit := s ← data_seg sel; st_mod (fun c => c {{ r_ds := s }}).
Definition mov_es (sel : Z) : CPU unit := s ← data_seg sel; st_mod (fun c => c {{ r_es := s }}).
Definition mov_fs (sel : Z) : CPU unit := s ← data_seg sel; st_mod (fun c => c {{ r_fs := s }}).
Definition mov_gs (sel : Z) : CPU unit := s ← data_seg sel; st_mod (fun c => c {{ r_gs := s }}).
Definition mov_ss (sel : Z) : CPU unit :=
  c ← st_get; s ← stack_seg GP (CPL c) sel; st_mod (fun c => c {{ r_ss := s }}).
(** A far jump to a code segment, which keeps the privilege level. *)
Definition ljmp (sel eip : Z) : CPU unit :=
  require (negb (null_sel sel)) (GP 0);;
  d ← fetch_or (GP (sel_err sel)) sel;
  c ← st_get;
  require (d_code d) (GP (sel_err sel));;
  require (if d_conforming d then d_dpl d <=? CPL c else (rpl sel <=? CPL c) && (d_dpl d =? CPL c))
    (GP (sel_err sel));;
  require (d_present d) (NP (sel_err sel));;
  st_mod (fun c => c {{ r_cs := sreg_of (Z.land sel 0xfffc + CPL c) d }} {{ c_eip := eip }}).

(** *** The stack *)
Definition esp (c : processor) : Z := reg_oesp (gp c).
Definition set_esp (v : Z) : CPU unit := st_mod (fun c => c {{ gp ::= fun r => r {{ reg_oesp := u32 v }} }}).
Definition pushl (v : Z) : CPU unit :=
  c ← st_get; set_esp (esp c - 4);;
  st_mod (fun c => c {{ lmem := store32 (lmem c) (s_base (r_ss c) + esp c) v }}).
Definition popl : CPU Z :=
  c ← st_get; set_esp (esp c + 4);; mret (load32 (lmem c) (s_base (r_ss c) + esp c)).
Definition push_all (l : list Z) : CPU unit :=
  foldr (fun v k => pushl v;; k) (mret tt) l.
Definition pushal : CPU unit :=
  c ← st_get;
  let r := gp c in
  push_all [reg_eax r; reg_ecx r; reg_edx r; reg_ebx r; reg_oesp r; reg_ebp r; reg_esi r; reg_edi r].
(** [popal] skips the saved stack pointer. *)
Definition popal : CPU unit :=
  edi ← popl; esi ← popl; ebp ← popl; popl;; ebx ← popl; edx ← popl; ecx ← popl; eax ← popl;
  st_mod (fun c => c {{ gp ::= fun r => mkPushRegs edi esi ebp (reg_oesp r) ebx edx ecx eax }}).

(** *** Interrupts: [soft] for an [int] instruction, [err] for the exceptions
    that push an error code *)
Definition gate_err (soft : bool) (n : Z) : Z := 8 * n + 2 + (if soft then 0 else 1).
Definition set_flags (f : Z -> Z) : CPU unit := st_mod (fun c => c {{ c_eflags ::= f }}).
Definition clear_bits (mask v : Z) : Z := Z.land v (Z.lnot mask).
(** The stack of privilege level [pl], from the task state. *)
Definition stack_switch (pl : Z) : CPU unit :=
  c ← st_get;
  let t := r_tr c in
  require (8 * pl + 9 <=? s_limit t) (BadTSS (sel_err (s_sel t)));;
  s ← stack_seg BadTSS pl (load16 (lmem c) (s_base t + ts_ss0 + 8 * pl));
  st_mod (fun c => c {{ r_ss := s }});;
  set_esp (load32 (lmem c) (s_base t + ts_esp0 + 8 * pl));;
  pushl (s_sel (r_ss c));; pushl (esp c).
Definition interrupt (soft : bool) (n : Z) (err : option Z) : CPU unit :=
  c ← st_get;
  require (8 * n + 7 <=? fst (idtr c)) (GP (gate_err soft n));;
  let g := load64 (lmem c) (snd (idtr c) + 8 * n) in
  require ((d_s g =? 0) && ((d_type g =? STS_IG32) || (d_type g =? STS_TG32))) (GP (gate_err soft n));;
  require (negb soft || (CPL c <=? d_dpl g)) (GP (gate_err soft n));;
  require (d_present g) (NP (gate_err soft n));;
  let sel := g_selector g in
  let ext := if soft then 0 else 1 in
  require (negb (null_sel sel)) (GP ext);;
  d ← fetch_or (GP (sel_err sel + ext)) sel;
  require (d_code d && (d_dpl d <=? CPL c)) (GP (sel_err sel + ext));;
  require (d_present d) (NP (sel_err sel + ext));;
  let pl := if d_conforming d then CPL c else d_dpl d in
  (if pl <? CPL c then stack_switch pl else mret tt);;
  pushl (c_eflags c);; pushl (s_sel (r_cs c));; pushl (c_eip c);;
  match err with Some e => pushl e | None => mret tt end;;
  st_mod (fun c => c {{ r_cs := sreg_of (Z.land sel 0xfffc + pl) d }} {{ c_eip := g_offset g }});;
  set_flags (clear_bits (Z.lor (Z.lor FL_TF FL_NT) (Z.lor FL_RF FL_VM)));;
  if d_type g =? STS_IG32 then set_flags (clear_bits FL_IF) else mret tt.

(** Returning to an outer level loads the stack too and takes away the data
    segments that level must not see. *)
Definition drop_seg (c : processor) (pl : Z) (s : sreg) : sreg :=
  match fetch c (s_sel s) with
  | Some d => if negb (null_sel (s_sel s)) && (d_dpl d <? pl) && negb (d_code d && d_conforming d)
              then mkSreg 0 0 0 else s
  | None => s
  end.
Definition iret : CPU unit :=
  c ← st_get;
  (if Z.land (c_eflags c) (Z.lor FL_NT FL_VM) =? 0 then mret tt else st_crash "task return");;
  eip ← popl; cs ← popl; efl ← popl;
  let sel := u16 cs in
  (if Z.land efl FL_VM =? 0 then mret tt else st_crash "return to virtual-8086 mode");;
  require (negb (null_sel sel)) (GP 0);;
  d ← fetch_or (GP (sel_err sel)) sel;
  require (d_code d && (CPL c <=? rpl sel)) (GP (sel_err sel));;
  require (if d_conforming d then d_dpl d <=? rpl sel else d_dpl d =? rpl sel) (GP (sel_err sel));;
  require (d_present d) (NP (sel_err sel));;
  if rpl sel =? CPL c then
    st_mod (fun c => c {{ r_cs := sreg_of sel d }} {{ c_eip := eip }} {{ c_eflags := efl }})
  else
    esp ← popl; ssel ← popl;
    s ← stack_seg GP (rpl sel) (u16 ssel);
    set_esp esp;;
    st_mod (fun c => c {{ r_cs := sreg_of sel d }} {{ c_eip := eip }} {{ c_eflags := efl }} {{ r_ss := s }});;
    st_mod (fun c => c {{ r_ds ::= drop_seg c (rpl sel) }} {{ r_es ::= drop_seg c (rpl sel) }}
                       {{ r_fs ::= drop_seg c (rpl sel) }} {{ r_gs ::= drop_seg c (rpl sel) }}).

(** Whether an access to [port] is allowed: by the I/O privilege level, or
    by the permission bit map of the task state. *)
Definition io_allowed (c : processor) (port : Z) : bool :=
  (CPL c <=? IOPL c) ||
  let t := r_tr c in
  let byte := load16 (lmem c) (s_base t + ts_iomb) + port / 8 in
  (ts_iomb + 1 <=? s_limit t) && (byte + 1 <=? s_limit t) &&
  negb (Z.testbit (load16 (lmem c) (s_base t + byte)) (port mod 8)).

(** ** The kernel's set-up: env.c and trap.c *)
Section setup.
Context (gdt gdt_pd idt idt_pd ts : Z) (trap_handle : Z -> Z).

(** The initial contents of [gdt], at 0x0, 0x8, ... *)
Definition gdt_init : list Segdesc :=
  [SEG_NULL; SEG (Z.lor STA_X STA_R) 0 0xffffffff 0; SEG STA_W 0 0xffffffff 0;
   SEG (Z.lor STA_X STA_R) 0 0xffffffff 3; SEG STA_W 0 0xffffffff 3; SEG_NULL].
Definition env_init_percpu : CPU unit :=
  lgdt gdt_pd;;
  mov_gs (Z.lor GD_UD 3);; mov_fs (Z.lor GD_UD 3);;
  mov_es GD_KD;; mov_ds GD_KD;; mov_ss GD_KD;;
  c ← st_get; ljmp GD_KT (c_eip c);;
  lldt 0.

(** The end of [mem_init] (pmap.c): the flags of [cr0]. *)
Definition CR0_PE : Z := 0x1.
Definition CR0_MP : Z := 0x2.
Definition CR0_EM : Z := 0x4.
Definition CR0_TS : Z := 0x8.
Definition CR0_NE : Z := 0x20.
Definition CR0_WP : Z := 0x10000.
Definition CR0_AM : Z := 0x40000.
Definition CR0_PG : Z := 0x80000000.
Definition mem_init_cr0 : CPU unit :=
  cr0 ← rcr0;
  let cr0 := Z.lor cr0 (Z.lor (Z.lor (Z.lor (Z.lor (Z.lor CR0_PE CR0_PG) CR0_AM) CR0_WP) CR0_NE) CR0_MP) in
  lcr0 (clear_bits (Z.lor CR0_TS CR0_EM) cr0).

Definition set_gate (n : Z) (g : Gatedesc) : CPU unit :=
  st_mod (fun c => c {{ lmem := store64 (lmem c) (idt + 8 * n) (pack (gate_fields g)) }}).
Definition trap_init_percpu : CPU unit :=
  st_mod (fun c => c {{ lmem := store32 (lmem c) (ts + ts_esp0) KSTACKTOP }});;
  st_mod (fun c => c {{ lmem := store16 (lmem c) (ts + ts_ss0) GD_KD }});;
  st_mod (fun c => c {{ lmem := store64 (lmem c) (gdt + GD_TSS0)
    (pack (seg_fields ((SEG16 STS_T32A ts sizeof_Taskstate 0) {{ sd_s := 0 }}))) }});;
  ltr GD_TSS0;;
  lidt idt_pd.
(** The gates of [trap_init], in its order; the handler of [n] is
    [trap_handle<n>]. *)
Definition gates : list (Z * Gatedesc) :=
  let exc n := (n, SETGATE false GD_KT (trap_handle n) 0) in
  [exc 0; exc 1; exc 2; (3, SETGATE false GD_KT (trap_handle 3) 3); exc 4; exc 5; exc 6; exc 7; exc 8;
   exc 10; exc 11; exc 12; exc 13; exc 14; exc 16; exc 17; exc 18; exc 19;
   (T_SYSCALL, SETGATE true GD_KT (trap_handle T_SYSCALL) 3);
   (IRQ_OFFSET + IRQ_TIMER, SETGATE false GD_KT (trap_handle (IRQ_OFFSET + IRQ_TIMER)) 0)].
Definition trap_init : CPU unit :=
  foldr (fun g k => set_gate (fst g) (snd g);; k) trap_init_percpu gates.
End setup.

(** ** trapentry.S and env_pop_tf *)

(** The stubs of the exceptions with an error code, of the others. *)
Definition TRAPHANDLER (num : Z) : CPU unit := pushl num.
Definition TRAPHANDLER_NOEC (num : Z) : CPU unit := pushl 0;; pushl num.
Definition has_error_code (num : Z) : bool := bool_decide (num ∈ [8; 10; 11; 12; 13; 14; 17]).
Definition trap_stub (num : Z) : CPU unit :=
  if has_error_code num then TRAPHANDLER num else TRAPHANDLER_NOEC num.
(** [_alltraps] up to the call of [trap], whose argument it returns. *)
Definition alltraps : CPU Z :=
  c ← st_get;
  pushl (s_sel (r_ds c));; pushl (s_sel (r_es c));; pushal;;
  st_mod (fun c => c {{ gp ::= fun r => r {{ reg_eax := Z.lor (Z.land (reg_eax r) 0xffff0000) GD_KD }} }});;
  mov_ds GD_KD;; mov_es GD_KD;;
  st_gets esp.
Definition env_pop_tf (tf : Z) : CPU unit :=
  set_esp tf;;
  popal;;
  es ← popl; mov_es (u16 es);;
  ds ← popl; mov_ds (u16 ds);;
  c ← st_get; set_esp (esp c + 8);;
  iret.
