(* ===== verification/CpuProps.v ===== *)
(** * Descriptor tables and the way into and out of the kernel: theorems

    What the bit fields decode to, what the registers hold after the set-up of
    env.c and trap.c, which vectors a user program can raise, the trap frame
    of a trap from user mode and its return through [env_pop_tf], and what
    the I/O permission map of the task state lets through. *)
From S2P Require Import Prelude Layout Mem CString Printf Console Kern TrapMod Cpu.

(** ** Bit fields *)

Definition widths_ok (l : list (Z * Z)) : Prop := Forall (fun f => 0 <= fst f) l.
Fixpoint width (l : list (Z * Z)) : Z :=
  match l with [] => 0 | (w, _) :: l' => w + width l' end.
Lemma width_nonneg l : widths_ok l -> 0 <= width l.
Proof. induction 1 as [|[w v] l ? ? IH]; cbn in *; lia. Qed.
Lemma pack_bound l : widths_ok l -> 0 <= pack l < 2 ^ width l.
Proof.
  induction 1 as [|[w v] l Hw Hl IH]; cbn in *; [lia|]. apply width_nonneg in Hl.
  rewrite Z.pow_add_r by lia. pose proof (Z.mod_pos_bound v (2 ^ w) ltac:(lia)). nia.
Qed.
Lemma pack_shift l1 l2 : widths_ok l1 -> pack (l1 ++ l2) / 2 ^ width l1 = pack l2.
Proof.
  induction 1 as [|[w v] l1 Hw Hl IH]; cbn in *; [by rewrite Z.div_1_r|].
  pose proof (width_nonneg _ Hl).
  rewrite Z.pow_add_r, <- Z.div_div by lia. rewrite <- IH. f_equal.
  pose proof (Z.mod_pos_bound v (2 ^ w) ltac:(lia)).
  rewrite Z.mul_comm, Z.div_add, Z.div_small by lia. done.
Qed.
(** A field reads back what was put in. *)
Lemma field_pack l1 w v l2 :
  widths_ok l1 -> 0 <= w -> field (pack (l1 ++ (w, v) :: l2)) (width l1) w = v mod 2 ^ w.
Proof.
  intros Hl Hw. unfold field. rewrite pack_shift by done. cbn [pack].
  rewrite Z.mul_comm, Z.mod_add by lia. apply Z.mod_mod. lia.
Qed.
Lemma field_at l n i w v :
  l !! n = Some (w, v) -> widths_ok l -> i = width (take n l) -> field (pack l) i w = v mod 2 ^ w.
Proof.
  intros Hn Hl ->. rewrite <- (take_drop_middle l n (w, v) Hn) at 1. apply field_pack.
  - by apply Forall_take.
  - by eapply (Forall_lookup_1 _ _ _ _ Hl) in Hn.
Qed.
Ltac fields n := erewrite (field_at _ n); [|reflexivity|repeat constructor; cbn; lia|reflexivity].

Lemma load64_store64 m a v : 0 <= v < 2 ^ 64 -> load64 (store64 m a v) a = v.
Proof.
  intros Hv. unfold load64, store64.
  rewrite load32_store32_ne, !load32_store32_eq by lia. unfold u32. zdiv.
Qed.
Lemma load64_store64_ne m a b v : b + 8 <= a \/ a + 8 <= b -> load64 (store64 m a v) b = load64 m b.
Proof. intros. unfold load64, store64. by rewrite !load32_store32_ne by lia. Qed.
Lemma load64_store32_ne m a b v : b + 8 <= a \/ a + 4 <= b -> load64 (store32 m a v) b = load64 m b.
Proof. intros. unfold load64. by rewrite !load32_store32_ne by lia. Qed.
Lemma load64_store16_ne m a b v : b + 8 <= a \/ a + 2 <= b -> load64 (store16 m a v) b = load64 m b.
Proof. intros. unfold load64. by rewrite !load32_store16_ne by lia. Qed.

(** *** What the macros of util.h encode *)
Lemma land_ones (a n : Z) m : 0 <= n -> m = Z.ones n -> Z.land a m = a mod 2 ^ n.
Proof. intros ? ->. by apply Z.land_ones. Qed.
Lemma SEG16_decodes type base lim dpl :
  0 <= base < 2 ^ 32 -> 0 <= lim < 2 ^ 16 ->
  let d := pack (seg_fields ((SEG16 type base lim dpl) {{ sd_s := 0 }})) in
  d_base d = base /\ d_limit d = lim /\ d_type d = type mod 16 /\ d_s d = 0 /\ d_present d = true.
Proof.
  intros Hb Hl d. unfold d, d_base, d_limit, d_type, d_s, d_present.
  fields 1%nat. fields 2%nat. fields 12%nat. fields 11%nat. fields 0%nat. fields 7%nat.
  fields 3%nat. fields 4%nat. fields 6%nat. cbn.
  rewrite (land_ones _ 16), (land_ones _ 8), (land_ones _ 16) by (lia || reflexivity).
  rewrite !Z.shiftr_div_pow2, !u32_small, !Z.mod_mod by lia.
  split_and!; try done; [zdiv|]. change (0 mod 2 ^ 1 =? 1) with false. cbn. zdiv.
Qed.
Lemma SETGATE_decodes istrap sel off dpl :
  0 <= off < 2 ^ 32 -> 0 <= sel < 2 ^ 16 -> 0 <= dpl < 4 ->
  let g := pack (gate_fields (SETGATE istrap sel off dpl)) in
  g_offset g = off /\ g_selector g = sel /\ d_dpl g = dpl /\ d_s g = 0 /\ d_present g = true /\
  d_type g = if istrap then STS_TG32 else STS_IG32.
Proof.
  intros Ho Hs Hd g. unfold g, g_offset, g_selector, d_dpl, d_s, d_present, d_type.
  fields 0%nat. fields 8%nat. fields 1%nat. fields 6%nat. fields 5%nat. fields 7%nat. fields 4%nat. cbn.
  rewrite (land_ones _ 16), !Z.shiftr_div_pow2, !u32_small, ?Z.mod_mod by (lia || reflexivity).
  split_and!; try done; [zdiv|zdiv| |]; [by apply Z.mod_small|]. by destruct istrap.
Qed.

(** ** The tables in memory *)

(** A segment of four gigabytes from 0 on. *)
Definition flat (sel : Z) : sreg := mkSreg sel 0 0xffffffff.
Definition apart (a n b m : Z) : Prop := a + n <= b \/ b + m <= a.

Section tables.
Context (gdt gdt_pd idt idt_pd ts : Z) (trap_handle : Z -> Z).

(** The linker's choices: kernel addresses, the objects apart. *)
Record places_ok : Prop := {
  pl_gdt : KERNBASE <= gdt <= 2 ^ 32 - 48; pl_idt : KERNBASE <= idt <= 2 ^ 32 - 2048;
  pl_ts : KERNBASE <= ts <= 2 ^ 32 - 104; pl_idt_pd : KERNBASE <= idt_pd <= 2 ^ 32 - 6;
  pl_gdt_idt : apart gdt 48 idt 2048; pl_gdt_ts : apart gdt 48 ts 104;
  pl_idt_ts : apart idt 2048 ts 104; pl_pd_gdt : apart idt_pd 6 gdt 48;
  pl_pd_idt : apart idt_pd 6 idt 2048; pl_pd_ts : apart idt_pd 6 ts 104;
  pl_handle : forall n, 0 <= n < 256 -> 0 <= trap_handle n < 2 ^ 32 }.

(** The five segments of the table; the sixth is the task state. *)
Definition gdt_holds (m : mem) : Prop :=
  forall i d, take 5 gdt_init !! i = Some d -> load64 m (gdt + 8 * Z.of_nat i) = pack (seg_fields d).
(** The data of the kernel image before the set-up runs. *)
Record image_ok (m : mem) : Prop := {
  im_gdt : gdt_holds m;
  im_gdt_pd : load16 m gdt_pd = 47 /\ load32 m (gdt_pd + 2) = gdt;
  im_idt_pd : load16 m idt_pd = 2047 /\ load32 m (idt_pd + 2) = idt;
  im_idt : forall n, 0 <= n < 256 -> load64 m (idt + 8 * n) = 0;
  im_ts : forall k, 0 <= k < sizeof_Taskstate -> load8 m (ts + k) = 0 }.

Definition gate_of (n : Z) : option Gatedesc :=
  snd <$> find (fun g => fst g =? n) (gates trap_handle).
Definition ts_byte (k : Z) : Z := if k =? 7 then 0xF0 else if k =? 8 then 0x10 else 0.
(** The tables as the processor sees them once they are loaded. *)
Record tables_ok (c : processor) : Prop := {
  tb_gdtr : gdtr c = (47, gdt);
  tb_idtr : idtr c = (2047, idt);
  tb_tr : r_tr c = mkSreg GD_TSS0 ts sizeof_Taskstate;
  tb_gdt : gdt_holds (lmem c);
  tb_idt : forall n, 0 <= n < 256 ->
    load64 (lmem c) (idt + 8 * n) = match gate_of n with Some g => pack (gate_fields g) | None => 0 end;
  tb_ts : forall k, 0 <= k < sizeof_Taskstate -> load8 (lmem c) (ts + k) = ts_byte k }.

(** *** Selectors of the kernel *)
Definition segs_ok (c : processor) : Prop := gdtr c = (47, gdt) /\ gdt_holds (lmem c).
Lemma tables_segs c : tables_ok c -> segs_ok c.
Proof. intros []. by split. Qed.

Lemma fetch_seg c sel d :
  segs_ok c -> Z.land sel 4 = 0 -> 0 <= sel < 40 -> take 5 gdt_init !! Z.to_nat (Z.shiftr sel 3) = Some d ->
  fetch c sel = Some (pack (seg_fields d)).
Proof.
  intros [Hr Hg] H4 Hsel Hd. unfold fetch. rewrite H4, Hr. cbn [fst snd].
  rewrite Z.shiftr_div_pow2 in * by lia. change (2 ^ 3) with 8 in *.
  replace (47 <? 8 * (sel / 8) + 7) with false by (symmetry; apply Z.ltb_ge; zdiv). cbn -[pack].
  rewrite <- (Hg _ _ Hd). rewrite Z2Nat.id by zdiv. done.
Qed.
(** The four selectors the kernel loads, and their descriptors. *)
Definition kernel_data : Z := pack (seg_fields (SEG STA_W 0 0xffffffff 0)).
Definition user_data : Z := pack (seg_fields (SEG STA_W 0 0xffffffff 3)).
Definition kernel_code : Z := pack (seg_fields (SEG (Z.lor STA_X STA_R) 0 0xffffffff 0)).
Definition user_code : Z := pack (seg_fields (SEG (Z.lor STA_X STA_R) 0 0xffffffff 3)).
Lemma fetch_kernel_data c : segs_ok c -> fetch c GD_KD = Some kernel_data.
Proof. intros H. by rewrite (fetch_seg c GD_KD _ H eq_refl ltac:(unfold GD_KD; lia) eq_refl). Qed.
Lemma fetch_user_data c : segs_ok c -> fetch c (Z.lor GD_UD 3) = Some user_data.
Proof.
  intros H. change (Z.lor GD_UD 3) with 35. by rewrite (fetch_seg c 35 _ H eq_refl ltac:(lia) eq_refl).
Qed.
Lemma fetch_kernel_code c : segs_ok c -> fetch c GD_KT = Some kernel_code.
Proof. intros H. by rewrite (fetch_seg c GD_KT _ H eq_refl ltac:(unfold GD_KT; lia) eq_refl). Qed.
Lemma fetch_user_code c : segs_ok c -> fetch c (Z.lor GD_UT 3) = Some user_code.
Proof.
  intros H. change (Z.lor GD_UT 3) with 27. by rewrite (fetch_seg c 27 _ H eq_refl ltac:(lia) eq_refl).
Qed.

(** *** Segment loads that succeed *)
Lemma data_seg_eq c sel d :
  null_sel sel = false -> fetch c sel = Some d -> d_readable d = true ->
  d_code d && d_conforming d || (rpl sel <=? d_dpl d) && (CPL c <=? d_dpl d) = true ->
  d_present d = true -> data_seg sel c = Ret (sreg_of sel d) c.
Proof.
  intros Hn Hf Hr Hp Hd. unfold data_seg, fetch_or, require. rewrite Hn.
  unfold mbind, ST_bind, st_bind, st_get. rewrite Hf. cbn. rewrite Hr. cbn. rewrite Hp. cbn. by rewrite Hd.
Qed.
Lemma stack_seg_eq bad c pl sel d :
  null_sel sel = false -> fetch c sel = Some d ->
  (rpl sel =? pl) && (d_dpl d =? pl) && d_data_writable d = true -> d_present d = true ->
  stack_seg bad pl sel c = Ret (sreg_of sel d) c.
Proof.
  intros Hn Hf Hr Hd. unfold stack_seg, fetch_or, require. rewrite Hn.
  unfold mbind, ST_bind, st_bind, st_get. cbn. rewrite Hf. cbn. rewrite Hr. cbn. by rewrite Hd.
Qed.
Lemma data_seg_flat c sel :
  segs_ok c -> CPL c = 0 -> sel = GD_KD \/ sel = Z.lor GD_UD 3 -> data_seg sel c = Ret (flat sel) c.
Proof.
  intros Hc Hp [-> | ->].
  - apply (data_seg_eq _ _ kernel_data); [done|by apply fetch_kernel_data|done|by rewrite Hp|done].
  - apply (data_seg_eq _ _ user_data); [done|by apply fetch_user_data|done|by rewrite Hp|done].
Qed.
Lemma stack_seg_flat bad c pl sel :
  segs_ok c -> pl = 0 /\ sel = GD_KD \/ pl = 3 /\ sel = Z.lor GD_UD 3 ->
  stack_seg bad pl sel c = Ret (flat sel) c.
Proof.
  intros Hc [[-> ->] | [-> ->]].
  - apply (stack_seg_eq _ _ _ _ kernel_data); [done|by apply fetch_kernel_data|done..].
  - apply (stack_seg_eq _ _ _ _ user_data); [done|by apply fetch_user_data|done..].
Qed.

Lemma st_bind_eq {A B} (m : CPU A) (k : A -> CPU B) c a c' : m c = Ret a c' -> (m ≫= k) c = k a c'.
Proof. unfold mbind, ST_bind, st_bind. by intros ->. Qed.
Lemma require_true b f c : b = true -> require b f c = Ret tt c.
Proof. by intros ->. Qed.
Lemma fetch_or_eq f c sel d : fetch c sel = Some d -> fetch_or f sel c = Ret d c.
Proof. intros H. unfold fetch_or, mbind, ST_bind, st_bind, st_get. by rewrite H. Qed.
Lemma mov_flat (upd : sreg -> processor -> processor) c sel :
  segs_ok c -> CPL c = 0 -> sel = GD_KD \/ sel = Z.lor GD_UD 3 ->
  (s ← data_seg sel; st_mod (upd s)) c = Ret tt (upd (flat sel) c).
Proof. intros. by erewrite st_bind_eq by (by apply data_seg_flat). Qed.
Lemma mov_ss_flat c :
  segs_ok c -> CPL c = 0 -> mov_ss GD_KD c = Ret tt (c {{ r_ss := flat GD_KD }}).
Proof.
  intros Hs Hp. unfold mov_ss, mbind at 1, ST_bind, st_bind, st_get. rewrite Hp.
  change ((s ← stack_seg GP 0 GD_KD; st_mod (fun c => c {{ r_ss := s }})) c = Ret tt (c {{ r_ss := flat GD_KD }})).
  by erewrite st_bind_eq by (apply stack_seg_flat; auto).
Qed.
Lemma ljmp_flat c eip :
  segs_ok c -> CPL c = 0 -> ljmp GD_KT eip c = Ret tt (c {{ r_cs := flat GD_KT }} {{ c_eip := eip }}).
Proof.
  intros Hs Hp. unfold ljmp.
  erewrite st_bind_eq by (by apply require_true).
  erewrite st_bind_eq by (by apply fetch_or_eq, fetch_kernel_code).
  erewrite st_bind_eq by done.
  erewrite st_bind_eq by (by apply require_true).
  erewrite st_bind_eq by (apply require_true; by rewrite Hp).
  erewrite st_bind_eq by (by apply require_true).
  unfold st_mod. cbv beta. by rewrite Hp.
Qed.

(** [env_init_percpu] faults nowhere and loads flat segments. *)
Lemma env_init_percpu_eq c :
  image_ok (lmem c) -> CPL c = 0 ->
  env_init_percpu gdt_pd c =
    Ret tt (c {{ gdtr := (47, gdt) }} {{ r_gs := flat (Z.lor GD_UD 3) }} {{ r_fs := flat (Z.lor GD_UD 3) }}
              {{ r_es := flat GD_KD }} {{ r_ds := flat GD_KD }} {{ r_ss := flat GD_KD }}
              {{ r_cs := flat GD_KT }} {{ r_ldt := 0 }}).
Proof.
  intros Him Hp. destruct (im_gdt_pd _ Him) as [H1 H2].
  assert (Hs : segs_ok (c {{ gdtr := (47, gdt) }})) by (split; [done|apply (im_gdt _ Him)]).
  unfold env_init_percpu.
  erewrite st_bind_eq by (unfold lgdt, st_mod; rewrite H1, H2; reflexivity).
  erewrite st_bind_eq by (apply mov_flat; [exact Hs|exact Hp|auto]).
  erewrite st_bind_eq by (apply mov_flat; [exact Hs|exact Hp|auto]).
  erewrite st_bind_eq by (apply mov_flat; [exact Hs|exact Hp|auto]).
  erewrite st_bind_eq by (apply mov_flat; [exact Hs|exact Hp|auto]).
  erewrite st_bind_eq by (apply mov_ss_flat; [exact Hs|exact Hp]).
  erewrite st_bind_eq by reflexivity.
  erewrite st_bind_eq by (apply ljmp_flat; [exact Hs|exact Hp]).
  reflexivity.
Qed.

(** *** The gates *)
Definition write_gates (l : list (Z * Gatedesc)) (m : mem) : mem :=
  foldl (fun m g => store64 m (idt + 8 * fst g) (pack (gate_fields (snd g)))) m l.
Lemma set_gates_eq {A} (l : list (Z * Gatedesc)) (k : CPU A) c :
  foldr (fun g k => set_gate idt (fst g) (snd g);; k) k l c = k (c {{ lmem := write_gates l (lmem c) }}).
Proof. revert c. induction l as [|g l IH]; intros c; [by destruct c|]. cbn. apply IH. Qed.
Lemma gate_word g : 0 <= pack (gate_fields g) < 2 ^ 64.
Proof. apply (pack_bound (gate_fields g)). repeat constructor; cbn; lia. Qed.
Lemma write_gates_cons g l m :
  write_gates (g :: l) m = write_gates l (store64 m (idt + 8 * fst g) (pack (gate_fields (snd g)))).
Proof. done. Qed.
Lemma write_gates_other l m a :
  (forall g, g ∈ l -> a + 8 <= idt + 8 * fst g \/ idt + 8 * fst g + 8 <= a) ->
  load64 (write_gates l m) a = load64 m a.
Proof.
  revert m. induction l as [|g l IH]; intros m H; [done|].
  rewrite write_gates_cons, IH by set_solver. apply load64_store64_ne. specialize (H g). set_solver.
Qed.
Lemma write_gates_at l m n :
  NoDup (fst <$> l) ->
  load64 (write_gates l m) (idt + 8 * n) =
  match find (fun g => fst g =? n) l with
  | Some g => pack (gate_fields (snd g))
  | None => load64 m (idt + 8 * n)
  end.
Proof.
  revert m. induction l as [|g l IH]; intros m Hnd; [done|]. rewrite write_gates_cons.
  cbn [find fmap list_fmap] in *. apply NoDup_cons in Hnd as [Hni Hnd]. destruct (Z.eqb_spec (fst g) n) as [<-|Hne].
  - rewrite write_gates_other; [apply load64_store64, gate_word|].
    intros g' Hg'. assert (fst g' <> fst g); [|lia].
    intros He. apply Hni. rewrite <- He. by apply list_elem_of_fmap_2.
  - rewrite IH by done. destruct (find _ l); [done|]. apply load64_store64_ne. lia.
Qed.
Lemma write_gates_load8 l m a :
  (forall g, g ∈ l -> a < idt + 8 * fst g \/ idt + 8 * fst g + 8 <= a) ->
  load8 (write_gates l m) a = load8 m a.
Proof.
  revert m. induction l as [|g l IH]; intros m H; [done|].
  rewrite write_gates_cons, IH by set_solver. unfold store64.
  assert (H' := H g ltac:(set_solver)). by rewrite !load8_store32_ne by lia.
Qed.
Lemma gates_range g : g ∈ gates trap_handle -> 0 <= fst g < 256.
Proof.
  intros Hg. revert g Hg. apply Forall_forall.
  repeat (apply Forall_cons; split; [cbn; unfold T_SYSCALL, IRQ_OFFSET, IRQ_TIMER; lia|]). by apply Forall_nil.
Qed.
Lemma gates_nodup : NoDup (fst <$> gates trap_handle).
Proof. exact (bool_decide_unpack (NoDup [0;1;2;3;4;5;6;7;8;10;11;12;13;14;16;17;18;19;48;32]) I). Qed.

(** The descriptor of the task state, available. *)
Definition tss_desc : Z := pack (seg_fields ((SEG16 STS_T32A ts sizeof_Taskstate 0) {{ sd_s := 0 }})).
Lemma tss_word : 0 <= tss_desc < 2 ^ 64.
Proof. apply (pack_bound (seg_fields ((SEG16 STS_T32A ts sizeof_Taskstate 0) {{ sd_s := 0 }}))). repeat constructor; cbn; lia. Qed.
(** Its type is 9, so that setting the busy bit cannot carry. *)
Lemma tss_busy_word : 0 <= tss_desc + 2 ^ 41 < 2 ^ 64.
Proof.
  pose proof tss_word. enough (tss_desc < 2 ^ 64 - 2 ^ 41) by lia.
  assert (Ht : field tss_desc 41 1 = 0).
  { unfold tss_desc, field. assert (d_type tss_desc = 9) as H9 by (unfold d_type, tss_desc; by fields 3%nat).
    unfold d_type, field in H9. change (2 ^ 41) with (2 ^ 40 * 2). rewrite <- Z.div_div by lia.
    fold tss_desc. zdiv. }
  unfold field in Ht. zdiv.
Qed.
(** The memory the set-up leaves. *)
Definition set_up_mem (m : mem) : mem :=
  store64 (store64 (store16 (store32 (write_gates (gates trap_handle) m) (ts + ts_esp0) KSTACKTOP)
    (ts + ts_ss0) GD_KD) (gdt + GD_TSS0) tss_desc) (gdt + GD_TSS0) (tss_desc + 2 ^ 41).
Hypothesis Hpl : places_ok.
Ltac places := destruct Hpl as [? ? ? ? ? ? ? ? ? ? ?]; unfold apart, ts_esp0, ts_ss0, GD_TSS0, sizeof_Taskstate, KERNBASE in *.

Lemma set_up_gdt m : gdt_holds m -> gdt_holds (set_up_mem m).
Proof.
  intros Hg i d Hd. assert (Hi : (i < 5)%nat) by (apply lookup_lt_Some in Hd; exact Hd).
  places. unfold set_up_mem, GD_TSS0, ts_esp0, ts_ss0.
  rewrite !load64_store64_ne, load64_store16_ne, load64_store32_ne by lia.
  rewrite write_gates_other; [by apply Hg|]. intros g Hin. apply gates_range in Hin. lia.
Qed.
Lemma set_up_idt m n :
  (forall n, 0 <= n < 256 -> load64 m (idt + 8 * n) = 0) -> 0 <= n < 256 ->
  load64 (set_up_mem m) (idt + 8 * n) =
  match gate_of n with Some g => pack (gate_fields g) | None => 0 end.
Proof.
  intros Hz Hn. places. unfold set_up_mem, GD_TSS0, ts_esp0, ts_ss0.
  rewrite !load64_store64_ne, load64_store16_ne, load64_store32_ne by lia.
  rewrite write_gates_at by apply gates_nodup. unfold gate_of.
  destruct (find _ _); [done|]. by apply Hz.
Qed.
Lemma set_up_ts m k :
  (forall k, 0 <= k < sizeof_Taskstate -> load8 m (ts + k) = 0) -> 0 <= k < sizeof_Taskstate ->
  load8 (set_up_mem m) (ts + k) = ts_byte k.
Proof.
  intros Hz Hk. places. unfold set_up_mem, store64, GD_TSS0, ts_esp0, ts_ss0.
  rewrite !load8_store32_ne by lia. unfold store16. rewrite !load8_store8, store32_load8.
  rewrite write_gates_load8, Hz by (try (intros g Hin; apply gates_range in Hin); lia).
  unfold ts_byte. repeat case_decide; try lia.
  all: try (assert (k = 8) as -> by lia; reflexivity).
  all: try (assert (k = 9) as -> by lia; reflexivity).
  - replace (ts + k - (ts + 4)) with (k - 4) by lia.
    assert (k = 4 \/ k = 5 \/ k = 6 \/ k = 7) as [->|[->|[->| ->]]] by lia; reflexivity.
  - destruct (Z.eqb_spec k 7); [lia|]. destruct (Z.eqb_spec k 8); [lia|done].
Qed.
Lemma tss_decodes :
  d_base tss_desc = ts /\ d_limit tss_desc = sizeof_Taskstate /\ d_type tss_desc = 9 /\
  d_s tss_desc = 0 /\ d_present tss_desc = true.
Proof. places. apply (SEG16_decodes STS_T32A ts 104 0); lia. Qed.
Lemma ltr_eq c :
  gdtr c = (47, gdt) -> load64 (lmem c) (gdt + GD_TSS0) = tss_desc ->
  ltr GD_TSS0 c = Ret tt (c {{ r_tr := mkSreg GD_TSS0 ts sizeof_Taskstate }}
    {{ lmem := store64 (lmem c) (gdt + GD_TSS0) (tss_desc + 2 ^ 41) }}).
Proof.
  intros Hr Hd. destruct tss_decodes as (Hb & Hl & Ht & Hs & Hp).
  assert (Hf : fetch c GD_TSS0 = Some tss_desc) by (unfold fetch; rewrite Hr, <- Hd; reflexivity).
  unfold ltr. erewrite st_bind_eq by (by apply require_true).
  erewrite st_bind_eq by (by apply fetch_or_eq).
  erewrite st_bind_eq by (apply require_true; by rewrite Hs, Ht).
  erewrite st_bind_eq by (by apply require_true).
  unfold st_mod, sreg_of. rewrite Hb, Hl, Hr. reflexivity.
Qed.
Lemma set_up_pd m :
  load16 m idt_pd = 2047 /\ load32 m (idt_pd + 2) = idt ->
  load16 (set_up_mem m) idt_pd = 2047 /\ load32 (set_up_mem m) (idt_pd + 2) = idt.
Proof.
  assert (H8 : forall k, 0 <= k < 6 -> load8 (set_up_mem m) (idt_pd + k) = load8 m (idt_pd + k)).
  { intros k Hk. places. unfold set_up_mem, store64, GD_TSS0, ts_esp0, ts_ss0.
    rewrite !load8_store32_ne, load8_store16_ne, load8_store32_ne by lia.
    apply write_gates_load8. intros g Hg. apply gates_range in Hg. lia. }
  pose proof (H8 0 ltac:(lia)) as E0. rewrite Z.add_0_r in E0.
  unfold load32, load16. rewrite <- !Z.add_assoc.
  change (2 + 1) with 3; change (2 + 2) with 4; change (2 + (2 + 1)) with 5.
  by rewrite E0, !H8 by lia.
Qed.
Lemma lidt_eq c p l b :
  load16 (lmem c) p = l -> load32 (lmem c) (p + 2) = b -> lidt p c = Ret tt (c {{ idtr := (l, b) }}).
Proof. intros <- <-. done. Qed.
Lemma trap_init_eq c :
  gdtr c = (47, gdt) -> load16 (lmem c) idt_pd = 2047 /\ load32 (lmem c) (idt_pd + 2) = idt ->
  trap_init gdt idt idt_pd ts trap_handle c =
    Ret tt (c {{ lmem := set_up_mem (lmem c) }} {{ r_tr := mkSreg GD_TSS0 ts sizeof_Taskstate }}
              {{ idtr := (2047, idt) }}).
Proof.
  intros Hr Hpd. destruct (set_up_pd _ Hpd) as [H1 H2]. unfold trap_init. rewrite set_gates_eq.
  unfold trap_init_percpu. do 3 (erewrite st_bind_eq by reflexivity).
  erewrite st_bind_eq by (apply ltr_eq; [exact Hr|apply load64_store64, tss_word]).
  unfold set_up_mem in H1, H2. rewrite (lidt_eq _ _ 2047 idt);
    cbn [lmem constant gdtr idtr r_tr]; [reflexivity|exact H1|exact H2].
Qed.

Lemma gate_of_shape n g :
  gate_of n = Some g ->
  g = SETGATE (n =? T_SYSCALL) GD_KT (trap_handle n) (if (n =? 3) || (n =? T_SYSCALL) then 3 else 0).
Proof.
  unfold gate_of. intros (p & Hp & ->)%fmap_Some_1. apply find_some in Hp as [Hin He].
  apply Z.eqb_eq in He as <-. apply list_elem_of_In in Hin. revert p Hin. apply Forall_forall.
  repeat (apply Forall_cons; split; [reflexivity|]). by apply Forall_nil.
Qed.
Lemma set_up_tables c m :
  image_ok m -> lmem c = set_up_mem m -> gdtr c = (47, gdt) -> idtr c = (2047, idt) ->
  r_tr c = mkSreg GD_TSS0 ts sizeof_Taskstate -> tables_ok c.
Proof.
  intros [Hg _ _ Hi Ht] Hm ? ? ?. split; try done; rewrite Hm.
  - by apply set_up_gdt.
  - intros n Hn. by apply set_up_idt.
  - intros k Hk. by apply set_up_ts.
Qed.
Lemma gate_decodes c n g :
  tables_ok c -> gate_of n = Some g -> 0 <= n < 256 ->
  let d := load64 (lmem c) (snd (idtr c) + 8 * n) in
  d_present d = true /\ d_s d = 0 /\ g_selector d = GD_KT /\ g_offset d = trap_handle n /\
  d_dpl d = (if (n =? 3) || (n =? T_SYSCALL) then 3 else 0) /\
  d_type d = (if n =? T_SYSCALL then STS_TG32 else STS_IG32).
Proof.
  intros Ht Hg Hn d. unfold d. rewrite (tb_idtr _ Ht). cbn [snd]. rewrite (tb_idt _ Ht), Hg by done.
  rewrite (gate_of_shape _ _ Hg). places.
  destruct (SETGATE_decodes (n =? T_SYSCALL) GD_KT (trap_handle n) (if (n =? 3) || (n =? T_SYSCALL) then 3 else 0))
    as (? & ? & ? & ? & ? & ?); [auto|unfold GD_KT; lia|destruct ((n =? 3) || (n =? T_SYSCALL)); lia|].
  by split_and!.
Qed.

Definition set_up (c : processor) : processor :=
  c {{ lmem := set_up_mem (lmem c) }} {{ gdtr := (47, gdt) }} {{ idtr := (2047, idt) }}
    {{ r_tr := mkSreg GD_TSS0 ts sizeof_Taskstate }} {{ r_ldt := 0 }}
    {{ r_cs := flat GD_KT }} {{ r_ds := flat GD_KD }} {{ r_es := flat GD_KD }} {{ r_ss := flat GD_KD }}
    {{ r_fs := flat (Z.lor GD_UD 3) }} {{ r_gs := flat (Z.lor GD_UD 3) }}.
Lemma set_up_eq c :
  image_ok (lmem c) -> CPL c = 0 ->
  (env_init_percpu gdt_pd;; trap_init gdt idt idt_pd ts trap_handle) c = Ret tt (set_up c).
Proof.
  intros Him Hp. erewrite st_bind_eq by (by apply env_init_percpu_eq).
  by rewrite trap_init_eq by (done || apply (im_idt_pd _ Him)).
Qed.

(** C31. The set-up of the processor establishes well-formed tables:
    [env_init_percpu] and then [trap_init], run at privilege level 0 on the
    kernel's image, fault nowhere; afterwards the code, data and stack
    registers hold flat segments of the kernel's privilege, [fs] and [gs] the
    user's, the table registers hold the tables' addresses and sizes, the
    task register an available task state with its base and limit, and every
    vector that has a gate decodes to that gate, every other to an absent one;
    general registers and flags are as before. *)
Theorem set_up_well_formed c :
  image_ok (lmem c) -> CPL c = 0 ->
  wp (env_init_percpu gdt_pd;; trap_init gdt idt idt_pd ts trap_handle)
    (fun _ c' => tables_ok c' /\
       r_cs c' = flat GD_KT /\ r_ds c' = flat GD_KD /\ r_es c' = flat GD_KD /\ r_ss c' = flat GD_KD /\
       r_fs c' = flat (Z.lor GD_UD 3) /\ r_gs c' = flat (Z.lor GD_UD 3) /\ r_ldt c' = 0 /\
       gp c' = gp c /\ c_eflags c' = c_eflags c /\
       (forall n g, gate_of n = Some g -> 0 <= n < 256 ->
          let d := load64 (lmem c') (snd (idtr c') + 8 * n) in
          d_present d = true /\ d_s d = 0 /\ g_selector d = GD_KT /\ g_offset d = trap_handle n /\
          d_dpl d = (if (n =? 3) || (n =? T_SYSCALL) then 3 else 0) /\
          d_type d = (if n =? T_SYSCALL then STS_TG32 else STS_IG32)) /\
       (forall n, gate_of n = None -> 0 <= n < 256 ->
          d_present (load64 (lmem c') (snd (idtr c') + 8 * n)) = false))
    (fun _ _ => False) c.
Proof.
  intros Him Hp. eapply wp_run; [by apply set_up_eq|].
  lazymatch goal with |- tables_ok ?c' /\ _ =>
    assert (Ht : tables_ok c') by (by apply (set_up_tables _ (lmem c))) end.
  split_and!; try reflexivity; [exact Ht| |].
  - intros n g Hg Hn. by apply (gate_decodes _ n g).
  - intros n Hg Hn. rewrite (tb_idtr _ Ht). cbn [snd]. by rewrite (tb_idt _ Ht), Hg by done.
Qed.

(** ** Frames on the stack *)
Definition with_esp (sp : Z) (c : processor) : processor := c {{ gp := (gp c) {{ reg_oesp := sp }} }}.
Definition with_stack (sp : Z) (m : mem) (c : processor) : processor := (with_esp sp c) {{ lmem := m }}.
Fixpoint pushed (top : Z) (l : list Z) (m : mem) : mem :=
  match l with
  | [] => m
  | v :: l' => pushed (top - 4) l' (store32 m (top - 4) v)
  end.
Definition words_at (m : mem) (a : Z) (l : list Z) : Prop :=
  forall i w, l !! i = Some w -> load32 m (a + 4 * Z.of_nat i) = w.
Definition word (w : Z) : Prop := 0 <= w < 2 ^ 32.

Lemma pushl_eq c v :
  s_base (r_ss c) = 0 -> 4 <= esp c < 2 ^ 32 ->
  pushl v c = Ret tt (with_stack (esp c - 4) (store32 (lmem c) (esp c - 4) v) c).
Proof.
  destruct c as [m [] ? ? ? ? ? ? ? ss ? ? ? ? ?]. cbn -[store32 Z.sub Z.add u32] in *. intros Hb He.
  unfold pushl, set_esp, mbind, ST_bind, st_bind, st_get, st_mod, esp, with_stack, with_esp.
  cbn -[store32 Z.sub Z.add u32] in *. by rewrite u32_small, Hb by lia.
Qed.
Lemma pushed_above top l m a : top <= a -> load32 (pushed top l m) a = load32 m a.
Proof.
  revert top m. induction l as [|v l IH]; intros top m Ha; [done|]. cbn.
  rewrite IH by lia. by rewrite load32_store32_ne by lia.
Qed.
Lemma pushed_load8 top l m b :
  b < top - 4 * Z.of_nat (length l) \/ top <= b -> load8 (pushed top l m) b = load8 m b.
Proof.
  revert top m. induction l as [|v l IH]; intros top m Hb; [done|]. cbn [pushed length] in *.
  rewrite IH by lia. by rewrite load8_store32_ne by lia.
Qed.
Lemma pushed_snoc top l v m :
  pushed top (l ++ [v]) m =
  store32 (pushed top l m) (top - 4 * Z.of_nat (length l) - 4) v.
Proof.
  revert top m. induction l as [|x l IH]; intros top m; cbn [pushed length app].
  - f_equal. lia.
  - rewrite IH. f_equal. lia.
Qed.
(** What was pushed last is lowest. *)
Lemma pushed_words top l m :
  Forall word l -> words_at (pushed top (reverse l) m) (top - 4 * Z.of_nat (length l)) l.
Proof.
  induction l as [|v l IH]; intros Hl; [done|]. apply Forall_cons in Hl as [Hv Hl].
  rewrite reverse_cons, pushed_snoc, length_reverse. cbn [length].
  intros [|i] w Hw; cbn in Hw.
  - injection Hw as <-. replace (_ + _) with (top - 4 * Z.of_nat (length l) - 4) by lia.
    rewrite load32_store32_eq. apply u32_small, Hv.
  - rewrite load32_store32_ne by lia. rewrite <- (IH Hl i w Hw). f_equal. lia.
Qed.
Lemma words_at_tail m a w l : words_at m a (w :: l) -> words_at m (a + 4) l.
Proof. intros H i x Hx. rewrite <- (H (S i) x Hx). f_equal. lia. Qed.
Lemma popl_eq c w l :
  s_base (r_ss c) = 0 -> words_at (lmem c) (esp c) (w :: l) -> 0 <= esp c -> esp c + 4 < 2 ^ 32 ->
  popl c = Ret w (with_esp (esp c + 4) c).
Proof.
  destruct c as [m [] ? ? ? ? ? ? ? ss ? ? ? ? ?]. cbn -[load32 Z.add u32 words_at] in *. intros Hb Hw H0 H1.
  unfold popl, set_esp, mbind, ST_bind, st_bind, st_get, st_mod, esp, with_esp.
  cbn -[load32 Z.add u32 words_at] in *. specialize (Hw 0%nat w eq_refl).
  rewrite Z.mul_0_r, Z.add_0_r in Hw. by rewrite u32_small, Hb, Z.add_0_l, Hw by lia.
Qed.
Lemma words_at_app_load8 m m' a l :
  (forall b, a <= b < a + 4 * Z.of_nat (length l) -> load8 m' b = load8 m b) ->
  words_at m a l -> words_at m' a l.
Proof.
  intros Hm Hw i w Hi. rewrite <- (Hw i w Hi). apply lookup_lt_Some in Hi.
  unfold load32, load16. rewrite !Hm by lia. done.
Qed.

Lemma pushl_stack c sp m v :
  s_base (r_ss c) = 0 -> 4 <= sp < 2 ^ 32 ->
  pushl v (with_stack sp m c) = Ret tt (with_stack (sp - 4) (store32 m (sp - 4) v) c).
Proof. intros Hb Hs. by rewrite pushl_eq. Qed.
Lemma push_all_stack c sp m l :
  s_base (r_ss c) = 0 -> 4 * Z.of_nat (length l) <= sp < 2 ^ 32 ->
  push_all l (with_stack sp m c) =
    Ret tt (with_stack (sp - 4 * Z.of_nat (length l)) (pushed sp l m) c).
Proof.
  intros Hb. revert sp m. induction l as [|v l IH]; intros sp m Hs; cbn [push_all foldr length pushed] in *.
  - unfold mret, ST_ret, st_ret. do 2 f_equal. lia.
  - erewrite st_bind_eq by (apply pushl_stack; [done|lia]). fold (push_all l). rewrite IH by lia.
    do 2 f_equal. lia.
Qed.

(** *** A trap from user mode *)
Record user_mode (c : processor) : Prop := {
  um_cs : r_cs c = flat (Z.lor GD_UT 3); um_ss : r_ss c = flat (Z.lor GD_UD 3);
  um_ds : r_ds c = flat (Z.lor GD_UD 3); um_es : r_es c = flat (Z.lor GD_UD 3);
  um_gp : Forall word [reg_edi (gp c); reg_esi (gp c); reg_ebp (gp c); reg_oesp (gp c);
                       reg_ebx (gp c); reg_edx (gp c); reg_ecx (gp c); reg_eax (gp c)];
  um_eip : word (c_eip c); um_eflags : word (c_eflags c); um_vm : Z.land (c_eflags c) FL_VM = 0 }.
(** The frame of trap [n]: what [trap] finds on its stack. *)
Definition frame (c : processor) (n err : Z) : Trapframe :=
  mkTrapframe ((gp c) {{ reg_oesp := KSTACKTOP - 36 }}) (s_sel (r_es c)) (s_sel (r_ds c)) n err
    (c_eip c) (s_sel (r_cs c)) (c_eflags c) (reg_oesp (gp c)) (s_sel (r_ss c)).
(** The flags the kernel starts with: an interrupt gate turns interrupts off,
    the trap gate of the system call leaves them. *)
Definition entry_flags (c : processor) (n : Z) : Z :=
  let f := clear_bits (Z.lor (Z.lor FL_TF FL_NT) (Z.lor FL_RF FL_VM)) (c_eflags c) in
  if n =? T_SYSCALL then f else clear_bits FL_IF f.

Lemma ts_stack c :
  tables_ok c -> load16 (lmem c) (ts + ts_ss0) = GD_KD /\ load32 (lmem c) (ts + ts_esp0) = KSTACKTOP.
Proof.
  intros [_ _ _ _ _ Hts]. unfold load32, load16, ts_ss0, ts_esp0, sizeof_Taskstate in *.
  rewrite <- !Z.add_assoc. change (8 + 1) with 9. change (4 + 1) with 5. change (4 + 2) with 6.
  change (4 + (2 + 1)) with 7. by rewrite !Hts by lia.
Qed.
Lemma stack_switch_eq c :
  tables_ok c ->
  stack_switch 0 c = Ret tt (with_stack (KSTACKTOP - 8) (pushed KSTACKTOP [s_sel (r_ss c); esp c] (lmem c))
                               (c {{ r_ss := flat GD_KD }})).
Proof.
  intros Ht. destruct (ts_stack _ Ht) as [Hs He]. unfold stack_switch.
  erewrite st_bind_eq by reflexivity. cbv zeta. rewrite (tb_tr _ Ht). cbn [s_base s_limit s_sel].
  erewrite st_bind_eq by (by apply require_true).
  change (ts + ts_ss0 + 8 * 0) with (ts + ts_ss0 + 0). change (ts + ts_esp0 + 8 * 0) with (ts + ts_esp0 + 0).
  rewrite !Z.add_0_r, Hs, He.
  erewrite st_bind_eq by (apply stack_seg_flat; [by apply tables_segs|auto]).
  erewrite st_bind_eq by reflexivity.
  erewrite st_bind_eq by (unfold set_esp, st_mod; rewrite (u32_small KSTACKTOP) by (unfold KSTACKTOP, KERNBASE; lia); reflexivity).
  change (_ {{ gp ::= _ }}) with (with_stack KSTACKTOP (lmem c) (c {{ r_ss := flat GD_KD }})).
  erewrite st_bind_eq by (apply pushl_stack; [done|unfold KSTACKTOP, KERNBASE; lia]).
  rewrite pushl_stack by (done || unfold KSTACKTOP, KERNBASE; lia). done.
Qed.

Definition opt_list (err : option Z) : list Z := match err with Some e => [e] | None => [] end.
(** What the processor pushes, and where it goes on. *)
Lemma interrupt_eq c soft n err g :
  tables_ok c -> user_mode c -> 0 <= n < 256 -> gate_of n = Some g ->
  (soft = true -> n = 3 \/ n = T_SYSCALL) ->
  let l := [s_sel (r_ss c); esp c; c_eflags c; s_sel (r_cs c); c_eip c] ++ opt_list err in
  interrupt soft n err c =
    Ret tt (with_stack (KSTACKTOP - 4 * Z.of_nat (length l)) (pushed KSTACKTOP l (lmem c))
      (c {{ r_ss := flat GD_KD }} {{ r_cs := flat GD_KT }} {{ c_eip := trap_handle n }}
         {{ c_eflags := entry_flags c n }})).
Proof.
  intros Ht Hu Hn Hg Hsoft l.
  destruct (gate_decodes _ _ _ Ht Hg Hn) as (Hp & Hs & Hsel & Ho & Hd & Hty).
  assert (Hcpl : CPL c = 3) by (unfold CPL; by rewrite (um_cs _ Hu)).
  unfold interrupt. erewrite st_bind_eq by reflexivity.
  erewrite st_bind_eq by (apply require_true; rewrite (tb_idtr _ Ht); cbn [fst]; lia). cbv zeta.
  erewrite st_bind_eq by (apply require_true; rewrite Hs, Hty; by destruct (n =? T_SYSCALL)).
  erewrite st_bind_eq by (apply require_true; rewrite Hd, Hcpl;
    destruct soft; [|done]; by destruct (Hsoft eq_refl) as [-> | ->]).
  erewrite st_bind_eq by (by apply require_true). rewrite Hsel.
  erewrite st_bind_eq by (by apply require_true).
  erewrite st_bind_eq by (by apply fetch_or_eq, fetch_kernel_code, tables_segs).
  erewrite st_bind_eq by (apply require_true; by rewrite Hcpl).
  erewrite st_bind_eq by (by apply require_true).
  change (d_conforming kernel_code) with false. change (d_dpl kernel_code) with 0. cbv iota.
  rewrite Hcpl. change (0 <? 3) with true. cbv iota.
  erewrite st_bind_eq by (by apply stack_switch_eq).
  erewrite st_bind_eq by (apply pushl_stack; [done|unfold KSTACKTOP, KERNBASE; lia]).
  erewrite st_bind_eq by (apply pushl_stack; [done|unfold KSTACKTOP, KERNBASE; lia]).
  erewrite st_bind_eq by (apply pushl_stack; [done|unfold KSTACKTOP, KERNBASE; lia]).
  rewrite Hty, Ho. unfold l, entry_flags. destruct err as [e|]; cbn [opt_list app length].
  - erewrite st_bind_eq by (apply pushl_stack; [done|unfold KSTACKTOP, KERNBASE; lia]).
    erewrite st_bind_eq by reflexivity. erewrite st_bind_eq by reflexivity.
    by destruct (n =? T_SYSCALL).
  - erewrite st_bind_eq by reflexivity. erewrite st_bind_eq by reflexivity.
    erewrite st_bind_eq by reflexivity. by destruct (n =? T_SYSCALL).
Qed.

(** Software interrupts with any other vector fault without an effect. *)
Lemma interrupt_refused c n :
  tables_ok c -> user_mode c -> 0 <= n < 256 -> n <> 3 -> n <> T_SYSCALL ->
  interrupt true n None c = Exit (GP (8 * n + 2)) c.
Proof.
  intros Ht Hu Hn H3 Hsys. assert (Hcpl : CPL c = 3) by (unfold CPL; by rewrite (um_cs _ Hu)).
  unfold interrupt. erewrite st_bind_eq by reflexivity.
  erewrite st_bind_eq by (apply require_true; rewrite (tb_idtr _ Ht); cbn [fst]; lia). cbv zeta.
  destruct (gate_of n) as [g|] eqn:Hg.
  - destruct (gate_decodes _ _ _ Ht Hg Hn) as (Hp & Hs & Hsel & Ho & Hd & Hty).
    erewrite st_bind_eq by (apply require_true; rewrite Hs, Hty; by destruct (n =? T_SYSCALL)).
    rewrite Hd, Hcpl. rewrite (proj2 (Z.eqb_neq n 3)), (proj2 (Z.eqb_neq n T_SYSCALL)) by done.
    unfold mbind, ST_bind, st_bind, gate_err. cbn. do 2 f_equal. lia.
  - rewrite (tb_idtr _ Ht). cbn [snd]. rewrite (tb_idt _ Ht), Hg by done.
    unfold mbind, ST_bind, st_bind, gate_err. cbn. do 2 f_equal. lia.
Qed.

(** The gates are the only doors, and two of them are open: an [int]
    instruction of a user program, with any of the 256 vectors, enters the
    kernel exactly for the breakpoint and the system call; with any other
    vector, one with a gate or without, the processor raises a general
    protection fault and changes nothing. *)
Theorem user_vectors c n :
  tables_ok c -> user_mode c -> 0 <= n < 256 ->
  (n = 3 \/ n = T_SYSCALL -> exists c', interrupt true n None c = Ret tt c' /\
     CPL c' = 0 /\ c_eip c' = trap_handle n /\ r_ss c' = flat GD_KD /\ esp c' = KSTACKTOP - 20) /\
  (n <> 3 /\ n <> T_SYSCALL -> interrupt true n None c = Exit (GP (8 * n + 2)) c).
Proof.
  intros Ht Hu Hn. split; [|intros []; by apply interrupt_refused].
  intros Hn'. assert (exists g, gate_of n = Some g) as [g Hg] by (destruct Hn' as [-> | ->]; by eexists).
  eexists. split; [by eapply interrupt_eq|]. done.
Qed.

Lemma pushed_app top l1 l2 m :
  pushed top (l1 ++ l2) m = pushed (top - 4 * Z.of_nat (length l1)) l2 (pushed top l1 m).
Proof.
  revert top m. induction l1 as [|v l1 IH]; intros top m; cbn [app pushed length]; [f_equal; lia|].
  rewrite IH. f_equal. lia.
Qed.
Lemma tables_pushed c c' l :
  tables_ok c -> gdtr c' = gdtr c -> idtr c' = idtr c -> r_tr c' = r_tr c ->
  lmem c' = pushed KSTACKTOP l (lmem c) -> tables_ok c'.
Proof.
  intros [H1 H2 H3 Hg Hi Hs] E1 E2 E3 Em. split; rewrite ?E1, ?E2, ?E3, ?Em; try done.
  - intros i d Hd. rewrite <- (Hg _ _ Hd). places. unfold load64. rewrite !pushed_above by (unfold KSTACKTOP, KERNBASE; lia). done.
  - intros n Hn. rewrite <- (Hi _ Hn). places. unfold load64. rewrite !pushed_above by (unfold KSTACKTOP, KERNBASE; lia). done.
  - intros k Hk. rewrite <- (Hs _ Hk). places. apply pushed_load8. right. unfold KSTACKTOP, KERNBASE. lia.
Qed.

(** Error codes come from the processor or from the stub. *)
Definition err_ok (n : Z) (err : option Z) : Prop :=
  match err with Some e => has_error_code n = true /\ word e | None => has_error_code n = false end.
Lemma trap_stub_eq c sp m n err :
  s_base (r_ss c) = 0 -> 12 <= sp < 2 ^ 32 -> err_ok n err ->
  trap_stub n (with_stack sp m c) =
    let l := (match err with Some _ => [] | None => [0] end) ++ [n] in
    Ret tt (with_stack (sp - 4 * Z.of_nat (length l)) (pushed sp l m) c).
Proof.
  intros Hb Hs He. unfold trap_stub. destruct err as [e|]; cbn in He.
  - destruct He as [-> _]. unfold TRAPHANDLER. by rewrite pushl_stack by (done || lia).
  - rewrite He. unfold TRAPHANDLER_NOEC.
    erewrite st_bind_eq by (apply pushl_stack; [done|lia]).
    rewrite pushl_stack by (done || lia). cbn [app length pushed]. do 2 f_equal. lia.
Qed.
(** The registers as the handler in C finds them. *)
Definition in_kernel (n : Z) (c : processor) : processor :=
  c {{ r_ss := flat GD_KD }} {{ r_cs := flat GD_KT }} {{ c_eip := trap_handle n }}
    {{ c_eflags := entry_flags c n }} {{ r_ds := flat GD_KD }} {{ r_es := flat GD_KD }}
    {{ gp ::= fun r => r {{ reg_eax := Z.lor (Z.land (reg_eax r) 0xffff0000) GD_KD }} }}.
Lemma alltraps_eq c sp m :
  s_base (r_ss c) = 0 -> CPL c = 0 -> 40 <= sp < 2 ^ 32 ->
  let l := [s_sel (r_ds c); s_sel (r_es c)] ++
    [reg_eax (gp c); reg_ecx (gp c); reg_edx (gp c); reg_ebx (gp c); sp - 8; reg_ebp (gp c); reg_esi (gp c);
     reg_edi (gp c)] in
  segs_ok (with_stack (sp - 40) (pushed sp l m) c) ->
  alltraps (with_stack sp m c) =
    Ret (sp - 40) (with_stack (sp - 40) (pushed sp l m)
      (c {{ r_ds := flat GD_KD }} {{ r_es := flat GD_KD }}
         {{ gp ::= fun r => r {{ reg_eax := Z.lor (Z.land (reg_eax r) 0xffff0000) GD_KD }} }})).
Proof.
  intros Hb Hp Hs l Hsegs. unfold alltraps. erewrite st_bind_eq by reflexivity.
  erewrite st_bind_eq by (apply pushl_stack; [done|lia]).
  erewrite st_bind_eq by (apply pushl_stack; [done|lia]).
  erewrite (st_bind_eq pushal); [|unfold pushal; erewrite st_bind_eq by reflexivity; cbv zeta;
    apply push_all_stack; [done|cbn [length]; lia]].
  set (m' := pushed _ _ (store32 _ _ _)).
  assert (Em : m' = pushed sp l m).
  { unfold m', l. rewrite pushed_app. cbn [pushed length with_stack with_esp gp constant].
    replace (sp - 4 - 4) with (sp - 8) by lia. replace (sp - 4 * Z.of_nat 2) with (sp - 8) by lia. done. }
  cbn [length]. replace (sp - 4 - 4 - 4 * Z.of_nat 8) with (sp - 40) by lia. rewrite Em.
  erewrite st_bind_eq by reflexivity.
  erewrite st_bind_eq by (apply mov_flat; [exact Hsegs|exact Hp|auto]).
  erewrite st_bind_eq by (apply mov_flat; [exact Hsegs|exact Hp|auto]).
  reflexivity.
Qed.

Definition tf_size : Z := 68.
Lemma trap_entry_eq c soft n err g :
  tables_ok c -> user_mode c -> 0 <= n < 256 -> gate_of n = Some g -> err_ok n err ->
  (soft = true -> n = 3 \/ n = T_SYSCALL) ->
  (interrupt soft n err;; trap_stub n;; alltraps) c =
    Ret (KSTACKTOP - tf_size)
      (with_stack (KSTACKTOP - tf_size)
        (pushed KSTACKTOP (reverse (tf_words (frame c n (default 0 err)))) (lmem c)) (in_kernel n c)).
Proof.
  intros Ht Hu Hn Hg He Hsoft.
  erewrite st_bind_eq by (by eapply interrupt_eq).
  erewrite st_bind_eq by (apply (trap_stub_eq _ _ _ _ err); [done|destruct err; cbn; unfold KSTACKTOP, KERNBASE; lia|done]).
  set (l0 := [s_sel (r_ss c); esp c; c_eflags c; s_sel (r_cs c); c_eip c]).
  set (l1 := l0 ++ opt_list err). set (l2 := match err with Some _ => [] | None => [0] end ++ [n]).
  assert (Hlen : (length (l1 ++ l2) = 7)%nat) by (by destruct err).
  assert (Hm : pushed (KSTACKTOP - 4 * Z.of_nat (length l1)) l2 (pushed KSTACKTOP l1 (lmem c)) =
    pushed KSTACKTOP (l1 ++ l2) (lmem c)) by (by rewrite pushed_app).
  cbv zeta. fold l2. rewrite Hm.
  replace (KSTACKTOP - 4 * Z.of_nat (length l1) - 4 * Z.of_nat (length l2)) with (KSTACKTOP - 28)
    by (rewrite length_app in Hlen; lia).
  set (C := c {{ r_ss := flat GD_KD }} {{ r_cs := flat GD_KT }} {{ c_eip := trap_handle n }} {{ c_eflags := entry_flags c n }}).
  set (l3 := [s_sel (r_ds c); s_sel (r_es c); reg_eax (gp c); reg_ecx (gp c); reg_edx (gp c); reg_ebx (gp c);
    KSTACKTOP - 28 - 8; reg_ebp (gp c); reg_esi (gp c); reg_edi (gp c)]).
  assert (Hfr : pushed (KSTACKTOP - 28) l3 (pushed KSTACKTOP (l1 ++ l2) (lmem c)) =
    pushed KSTACKTOP (reverse (tf_words (frame c n (default 0 err)))) (lmem c)).
  { replace (reverse _) with ((l1 ++ l2) ++ l3) by (by destruct err).
    rewrite (pushed_app _ (l1 ++ l2)), Hlen. f_equal. }
  rewrite (alltraps_eq C); [| | |unfold KSTACKTOP, KERNBASE; lia|].
  - change ([s_sel (r_ds C); s_sel (r_es C)] ++ _) with l3. rewrite Hfr. reflexivity.
  - done.
  - done.
  - change ([s_sel (r_ds C); s_sel (r_es C)] ++ _) with l3. rewrite Hfr. apply tables_segs.
    by eapply (tables_pushed c).
Qed.

(** *** The way back *)
Lemma pop_with c sp w l :
  s_base (r_ss c) = 0 -> words_at (lmem c) sp (w :: l) -> 0 <= sp -> sp + 4 < 2 ^ 32 ->
  popl (with_esp sp c) = Ret w (with_esp (sp + 4) c).
Proof. intros. by rewrite (popl_eq (with_esp sp c) w l). Qed.
Lemma set_esp_with c sp v : 0 <= v < 2 ^ 32 -> set_esp v (with_esp sp c) = Ret tt (with_esp v c).
Proof. intros Hv. unfold set_esp, st_mod. by rewrite u32_small. Qed.
Ltac pop W := erewrite st_bind_eq by (eapply pop_with; [done|exact W|lia|lia]); apply words_at_tail in W.
Definition set_gp (r : PushRegs) (c : processor) : processor := c {{ gp := r }}.
Lemma popal_eq c sp edi esi ebp oesp ebx edx ecx eax l :
  s_base (r_ss c) = 0 -> words_at (lmem c) sp (edi :: esi :: ebp :: oesp :: ebx :: edx :: ecx :: eax :: l) ->
  0 <= sp -> sp + 32 < 2 ^ 32 ->
  popal (with_esp sp c) = Ret tt (with_esp (sp + 32) (set_gp (mkPushRegs edi esi ebp 0 ebx edx ecx eax) c)) /\
  words_at (lmem c) (sp + 32) l.
Proof.
  intros Hb W H0 H1. unfold popal. pop W. pop W. pop W. pop W. pop W. pop W. pop W. pop W.
  replace (sp + 4 + 4 + 4 + 4 + 4 + 4 + 4 + 4) with (sp + 32) in * by lia. done.
Qed.
Lemma iret_eq c sp eip cs efl sp' ss :
  segs_ok c -> CPL c = 0 -> s_base (r_ss c) = 0 -> Z.land (c_eflags c) (Z.lor FL_NT FL_VM) = 0 ->
  words_at (lmem c) sp [eip; cs; efl; sp'; ss] -> 0 <= sp -> sp + 20 < 2 ^ 32 ->
  cs = Z.lor GD_UT 3 -> ss = Z.lor GD_UD 3 -> word sp' -> Z.land efl FL_VM = 0 ->
  exists c', iret (with_esp sp c) = Ret tt c' /\ gp c' = (gp c) {{ reg_oesp := sp' }} /\ lmem c' = lmem c /\
    r_cs c' = flat cs /\ r_ss c' = flat ss /\ c_eip c' = eip /\ c_eflags c' = efl /\
    r_ds c' = drop_seg c 3 (r_ds c) /\ r_es c' = drop_seg c 3 (r_es c).
Proof.
  intros Hs Hp Hb Hf W H0 H1 -> -> Hsp Hvm. eexists. split.
  { unfold iret. erewrite st_bind_eq by reflexivity. change (c_eflags (with_esp sp c)) with (c_eflags c). rewrite Hf. cbn [Z.eqb].
    erewrite st_bind_eq by reflexivity. pop W. pop W. pop W. rewrite Hvm. cbn [Z.eqb]. cbv zeta.
    change (u16 (Z.lor GD_UT 3)) with (Z.lor GD_UT 3).
    erewrite st_bind_eq by reflexivity.
    erewrite st_bind_eq by (by apply require_true).
    erewrite st_bind_eq by (by apply fetch_or_eq, fetch_user_code).
    change (CPL (with_esp sp c)) with (CPL c). rewrite Hp.
    erewrite st_bind_eq by (by apply require_true).
    erewrite st_bind_eq by (by apply require_true).
    erewrite st_bind_eq by (by apply require_true).
    change (rpl (Z.lor GD_UT 3)) with 3. cbn [Z.eqb].
    pop W. pop W. change (u16 (Z.lor GD_UD 3)) with (Z.lor GD_UD 3).
    erewrite st_bind_eq by (apply stack_seg_flat; [exact Hs|auto]).
    erewrite st_bind_eq by reflexivity. rewrite (u32_small sp') by exact Hsp.
    erewrite st_bind_eq by reflexivity. reflexivity. }
  done.
Qed.
Lemma drop_user_data c c' :
  segs_ok c -> fetch c' (Z.lor GD_UD 3) = fetch c (Z.lor GD_UD 3) -> drop_seg c' 3 (flat (Z.lor GD_UD 3)) = flat (Z.lor GD_UD 3).
Proof. intros Hs He. unfold drop_seg. cbn [flat s_sel]. by rewrite He, fetch_user_data. Qed.

(** A frame whose selectors are the user's. *)
Record user_frame (tf : Trapframe) : Prop := {
  uf_es : tf_es tf = Z.lor GD_UD 3; uf_ds : tf_ds tf = Z.lor GD_UD 3;
  uf_cs : tf_cs tf = Z.lor GD_UT 3; uf_ss : tf_ss tf = Z.lor GD_UD 3;
  uf_esp : word (tf_esp tf); uf_vm : Z.land (tf_eflags tf) FL_VM = 0 }.
(** [c] runs what [tf] holds. *)
Definition runs (tf : Trapframe) (c : processor) : Prop :=
  gp c = (tf_regs tf) {{ reg_oesp := tf_esp tf }} /\ c_eip c = tf_eip tf /\ c_eflags c = tf_eflags tf /\
  r_cs c = flat (tf_cs tf) /\ r_ss c = flat (tf_ss tf) /\ r_ds c = flat (tf_ds tf) /\ r_es c = flat (tf_es tf).
Lemma env_pop_tf_eq c a tf :
  segs_ok c -> CPL c = 0 -> s_base (r_ss c) = 0 -> Z.land (c_eflags c) (Z.lor FL_NT FL_VM) = 0 ->
  user_frame tf -> words_at (lmem c) a (tf_words tf) -> 0 <= a -> a + tf_size < 2 ^ 32 ->
  exists c', env_pop_tf a c = Ret tt c' /\ runs tf c' /\ lmem c' = lmem c.
Proof.
  intros Hs Hp Hb Hf [Hes Hds Hcs Hss Hsp Hvm] W H0 H1. unfold tf_size in H1.
  destruct tf as [[edi esi ebp oesp ebx edx ecx eax] es ds trapno err eip cs efl sp ss].
  cbn in Hes, Hds, Hcs, Hss, Hsp, Hvm. subst es ds.
  change (words_at (lmem c) a [edi; esi; ebp; oesp; ebx; edx; ecx; eax; Z.lor GD_UD 3; Z.lor GD_UD 3;
    trapno; err; eip; cs; efl; sp; ss]) in W.
  destruct (popal_eq c a _ _ _ _ _ _ _ _ _ Hb W H0 ltac:(lia)) as [Hpop W']. clear W.
  set (C := set_gp (mkPushRegs edi esi ebp 0 ebx edx ecx eax) c) in *.
  unfold env_pop_tf.
  erewrite st_bind_eq by (unfold set_esp, st_mod; rewrite (u32_small a) by lia; reflexivity).
  change (_ {{ gp ::= _ }}) with (with_esp a c). erewrite st_bind_eq by exact Hpop.
  pop W'. change (u16 (Z.lor GD_UD 3)) with (Z.lor GD_UD 3).
  erewrite st_bind_eq by (apply mov_flat; [exact Hs|exact Hp|auto]).
  change ((with_esp (a + 32 + 4) C) {{ r_es := flat (Z.lor GD_UD 3) }})
    with (with_esp (a + 32 + 4) (C {{ r_es := flat (Z.lor GD_UD 3) }})).
  set (C1 := C {{ r_es := flat (Z.lor GD_UD 3) }}).
  erewrite st_bind_eq by (eapply (pop_with C1); [done|exact W'|lia|lia]). apply words_at_tail in W'.
  change (u16 (Z.lor GD_UD 3)) with (Z.lor GD_UD 3).
  erewrite st_bind_eq by (apply mov_flat; [exact Hs|exact Hp|auto]).
  change ((with_esp (a + 32 + 4 + 4) C1) {{ r_ds := flat (Z.lor GD_UD 3) }})
    with (with_esp (a + 32 + 4 + 4) (C1 {{ r_ds := flat (Z.lor GD_UD 3) }})).
  set (C2 := C1 {{ r_ds := flat (Z.lor GD_UD 3) }}).
  erewrite st_bind_eq by reflexivity.
  change (esp (with_esp (a + 32 + 4 + 4) C2)) with (a + 32 + 4 + 4).
  erewrite st_bind_eq by (apply set_esp_with; lia).
  do 2 apply words_at_tail in W'. replace (a + 32 + 4 + 4 + 4 + 4) with (a + 32 + 4 + 4 + 8) in W' by lia.
  destruct (iret_eq C2 (a + 32 + 4 + 4 + 8) eip cs efl sp ss Hs Hp Hb Hf W' ltac:(lia) ltac:(lia) Hcs Hss Hsp Hvm)
    as (c' & Hret & Hgp & Hm & Hc & Hs' & He & Hfl & Hd & Hes).
  exists c'. split; [exact Hret|]. split; [|exact Hm]. unfold runs; cbn.
  change (r_ds C2) with (flat (Z.lor GD_UD 3)) in Hd. change (r_es C2) with (flat (Z.lor GD_UD 3)) in Hes.
  rewrite (drop_user_data c) in Hd, Hes by done. by rewrite Hgp.
Qed.

Lemma frame_user c n err : user_mode c -> user_frame (frame c n err).
Proof.
  intros [Hcs Hss Hds Hes Hgp _ _ Hvm]. split; cbn; rewrite ?Hcs, ?Hss, ?Hds, ?Hes; try done.
  by do 4 apply Forall_cons in Hgp as [? Hgp].
Qed.
Lemma frame_words c n err :
  user_mode c -> 0 <= n < 256 -> err_ok n err -> Forall word (tf_words (frame c n (default 0 err))).
Proof.
  intros [Hcs Hss Hds Hes Hgp Heip Hfl _] Hn He. unfold tf_words, frame.
  rewrite Hcs, Hss, Hds, Hes. destruct (gp c). cbn in *.
  do 8 apply Forall_cons in Hgp as [? Hgp]. unfold word, KSTACKTOP, KERNBASE in *.
  assert (0 <= default 0 err < 2 ^ 32) by (destruct err; cbn in *; unfold word in *; lia).
  repeat (apply Forall_cons; split; [first [lia | easy]|]). by apply Forall_nil.
Qed.
(** Bit 9 of the flags. *)
Lemma entry_flags_if c n :
  field (entry_flags c n) 9 1 = if n =? T_SYSCALL then field (c_eflags c) 9 1 else 0.
Proof.
  assert (Hf : forall v, field v 9 1 = Z.b2z (Z.testbit v 9)).
  { intros v. unfold field. change (2 ^ 1) with 2. rewrite <- Z.bit0_mod, <- Z.shiftr_div_pow2, Z.shiftr_spec by lia. done. }
  rewrite !Hf. unfold entry_flags, clear_bits. destruct (n =? T_SYSCALL).
  - f_equal. rewrite Z.land_spec, Z.lnot_spec by lia. by rewrite andb_true_r.
  - rewrite Z.land_spec, Z.lnot_spec by lia. by rewrite andb_false_r.
Qed.

(** C30. A trap saves the interrupted program and [env_pop_tf] brings it back.
    An interrupt, an exception or a system call that reaches user code runs,
    through the gate, the stack switch, the stub and [_alltraps], into [trap]
    with the [Trapframe] of the program on top of the kernel stack, every word
    at its place, in kernel segments and at privilege level 0 - with
    interrupts off, except in a system call, whose gate leaves them as they
    were; no memory but the frame's is touched.  Whenever that frame, copied
    to any address, is given to [env_pop_tf], the program goes on with the
    registers, flags, stack and segments it was interrupted with. *)
Theorem trap_and_return c soft n err g :
  tables_ok c -> user_mode c -> 0 <= n < 256 -> gate_of n = Some g -> err_ok n err ->
  (soft = true -> n = 3 \/ n = T_SYSCALL) ->
  wp (interrupt soft n err;; trap_stub n;; alltraps)
    (fun tf c1 => tf = KSTACKTOP - tf_size /\
       words_at (lmem c1) tf (tf_words (frame c n (default 0 err))) /\
       (forall a, a < tf \/ KSTACKTOP <= a -> load8 (lmem c1) a = load8 (lmem c) a) /\
       tables_ok c1 /\ CPL c1 = 0 /\ c_eip c1 = trap_handle n /\ esp c1 = tf /\
       r_ss c1 = flat GD_KD /\ r_ds c1 = flat GD_KD /\ r_es c1 = flat GD_KD /\
       field (c_eflags c1) 9 1 = (if n =? T_SYSCALL then field (c_eflags c) 9 1 else 0))
    (fun _ _ => False) c /\
  (forall c2 a, tables_ok c2 -> CPL c2 = 0 -> r_ss c2 = flat GD_KD ->
     Z.land (c_eflags c2) (Z.lor FL_NT FL_VM) = 0 -> 0 <= a < 2 ^ 32 - tf_size ->
     words_at (lmem c2) a (tf_words (frame c n (default 0 err))) ->
     wp (env_pop_tf a) (fun _ c3 => gp c3 = gp c /\ c_eip c3 = c_eip c /\ c_eflags c3 = c_eflags c /\
          r_cs c3 = r_cs c /\ r_ss c3 = r_ss c /\ r_ds c3 = r_ds c /\ r_es c3 = r_es c /\ lmem c3 = lmem c2)
       (fun _ _ => False) c2).
Proof.
  intros Ht Hu Hn Hg He Hsoft. split.
  - eapply wp_run; [by eapply trap_entry_eq|].
    set (l := reverse (tf_words (frame c n (default 0 err)))).
    assert (Hw : Forall word (tf_words (frame c n (default 0 err)))) by (by apply frame_words).
    split_and!; try done.
    + apply (pushed_words KSTACKTOP (tf_words (frame c n (default 0 err)))), Hw.
    + intros b Hb. apply (pushed_load8 KSTACKTOP l). exact Hb.
    + by apply (tables_pushed c _ l).
    + apply entry_flags_if.
  - intros c2 a Ht2 Hp2 Hs2 Hf2 Ha W.
    destruct (env_pop_tf_eq c2 a (frame c n (default 0 err))) as (c3 & Hrun & Hr & Hm);
      [by apply tables_segs|done|by rewrite Hs2|done|by apply frame_user|done|lia|lia|].
    eapply wp_run; [exact Hrun|]. destruct Hr as (Hgp & Heip & Hfl & Hcs & Hss & Hds & Hes).
    destruct Hu as [Ucs Uss Uds Ues _ _ _ _]. cbn [frame tf_cs tf_ss tf_ds tf_es] in Hcs, Hss, Hds, Hes.
    rewrite Ucs, Uss, Uds, Ues in *.
    split_and!; try done. rewrite Hgp. by destruct c as [? []].
Qed.

(** ** The I/O permission map *)
Lemma testbit_load16 m a i : 0 <= i < 8 -> Z.testbit (load16 m a) i = Z.testbit (load8 m a) i.
Proof.
  intros Hi. unfold load16.
  rewrite <- (Z.mod_pow2_bits_low (load8 m a + 256 * load8 m (a + 1)) 8) by lia.
  rewrite <- (Z.mod_pow2_bits_low (load8 m a) 8) by lia. f_equal. change (2 ^ 8) with 256.
  rewrite Z.mul_comm, Z.mod_add by lia. done.
Qed.
Lemma ts_byte_bit p :
  0 <= p -> Z.testbit (ts_byte (p / 8)) (p mod 8) = bool_decide (p ∈ [60; 61; 62; 63; 68]).
Proof.
  intros Hp. unfold ts_byte. destruct (Z.eqb_spec (p / 8) 7) as [H7|H7].
  { assert (p = 56 \/ p = 57 \/ p = 58 \/ p = 59 \/ p = 60 \/ p = 61 \/ p = 62 \/ p = 63) as Hc by zdiv.
    by destruct Hc as [->|[->|[->|[->|[->|[->|[->| ->]]]]]]]. }
  destruct (Z.eqb_spec (p / 8) 8) as [H8|H8].
  { assert (p = 64 \/ p = 65 \/ p = 66 \/ p = 67 \/ p = 68 \/ p = 69 \/ p = 70 \/ p = 71) as Hc by zdiv.
    by destruct Hc as [->|[->|[->|[->|[->|[->|[->| ->]]]]]]]. }
  rewrite Z.bits_0. symmetry. apply bool_decide_eq_false. intros Hin.
  assert (p = 60 \/ p = 61 \/ p = 62 \/ p = 63 \/ p = 68) as Hc by set_solver.
  destruct Hc as [->|[->|[->|[->| ->]]]]; done.
Qed.

Lemma io_allowed_eq u p :
  r_tr u = mkSreg GD_TSS0 ts sizeof_Taskstate -> CPL u = 3 -> IOPL u < 3 -> 0 <= p < 65536 ->
  (forall k, 0 <= k < sizeof_Taskstate -> load8 (lmem u) (ts + k) = ts_byte k) ->
  io_allowed u p = (p <? 832) && negb (bool_decide (p ∈ [60; 61; 62; 63; 68])).
Proof.
  intros Htr Hc Hi Hp Hts. unfold io_allowed. rewrite Hc, Htr. cbn [s_base s_limit].
  replace (3 <=? IOPL u) with false by (symmetry; apply Z.leb_gt; done).
  assert (Hb : load16 (lmem u) (ts + ts_iomb) = 0).
  { pose proof (Hts 102 ltac:(done)) as H1. pose proof (Hts 103 ltac:(done)) as H2.
    unfold load16, ts_iomb. rewrite <- Z.add_assoc. change (102 + 1) with 103. by rewrite H1, H2. }
  rewrite Hb, Z.add_0_l. unfold sizeof_Taskstate. cbn [orb andb Z.leb].
  destruct (Z.ltb_spec p 832) as [Hl|Hl].
  - replace (p / 8 + 1 <=? 104) with true by (symmetry; apply Z.leb_le; zdiv).
    rewrite testbit_load16, Hts, ts_byte_bit by (unfold sizeof_Taskstate; zdiv). done.
  - replace (p / 8 + 1 <=? 104) with false by (symmetry; apply Z.leb_gt; zdiv). done.
Qed.

(** C38. A defect: the task state's I/O map base is never set and stays 0, so
    that the processor takes the task state itself for the permission map,
    and a zero bit permits.  Any user program, although its I/O privilege
    level is below 3 as for every environment but the file server, may
    use every port below 832 but five - the disk's 0x1f0 to 0x1f7, the
    interrupt controllers' and the keyboard's among them - and no other. *)
Theorem user_io_ports c p :
  image_ok (lmem c) -> CPL c = 0 -> 0 <= p < 65536 ->
  wp (env_init_percpu gdt_pd;; trap_init gdt idt idt_pd ts trap_handle)
    (fun _ c' => forall u, r_tr u = r_tr c' -> CPL u = 3 -> IOPL u < 3 ->
       (forall k, 0 <= k < sizeof_Taskstate -> load8 (lmem u) (ts + k) = load8 (lmem c') (ts + k)) ->
       io_allowed u p = (p <? 832) && negb (bool_decide (p ∈ [60; 61; 62; 63; 68])))
    (fun _ _ => False) c.
Proof.
  intros Him H0 Hp. eapply wp_run; [by apply set_up_eq|].
  intros u Htr Hc Hi Hts.
  assert (Hb : forall k, 0 <= k < sizeof_Taskstate -> load8 (lmem u) (ts + k) = ts_byte k).
  { intros k Hk. rewrite (Hts k Hk). apply set_up_ts; [apply (im_ts _ Him)|done]. }
  by apply io_allowed_eq.
Qed.
End tables.

(** ** A machine *)
Fixpoint put_segs (l : list Segdesc) (a : Z) (m : mem) : mem :=
  match l with [] => m | d :: l' => put_segs l' (a + 8) (store64 m a (pack (seg_fields d))) end.
Definition g0 : Z := 0xF0110000.
Definition i0 : Z := 0xF0120000.
Definition t0 : Z := 0xF0110100.
Definition handle0 (n : Z) : Z := 0xF0100000 + 16 * n.
Definition image0 : mem :=
  store32 (store16 (store32 (store16 (put_segs gdt_init g0 ∅) (g0 + 64) 47) (g0 + 66) g0) (g0 + 80) 2047) (g0 + 82) i0.
Definition kernel0 : processor :=
  let s := mkSreg 0 0 0 in
  mkProc image0 regs0 0xF0100010 2 (flat GD_KT) s s s s s 0 s (0, 0) (0, 0) 0.
Definition user0 : processor :=
  let s := flat (Z.lor GD_UD 3) in
  mkProc (set_up_mem g0 i0 t0 handle0 image0) (mkPushRegs 1 2 3 0xEEBFDFF0 5 6 7 8) 0x800020 0x202
    (flat (Z.lor GD_UT 3)) s s s s s 0 (mkSreg GD_TSS0 t0 sizeof_Taskstate) (47, g0) (2047, i0) 0.

Lemma places0 : places_ok g0 i0 (g0 + 80) t0 handle0.
Proof. split; unfold apart, g0, i0, t0, handle0, KERNBASE; lia. Qed.
Lemma zeros_by_enumeration (f : Z -> Z) n :
  forallb (fun k => f k =? 0) (seqZ 0 n) = true -> forall k, 0 <= k < n -> f k = 0.
Proof.
  intros H k Hk. rewrite forallb_forall in H. apply Z.eqb_eq, H, list_elem_of_In, elem_of_seqZ. lia.
Qed.
Lemma image0_ok : image_ok g0 (g0 + 64) i0 (g0 + 80) t0 image0.
Proof.
  split.
  - intros i d Hd. do 5 (destruct i as [|i]; [injection Hd as <-; vm_compute; reflexivity|]). discriminate Hd.
  - split; vm_compute; reflexivity.
  - split; vm_compute; reflexivity.
  - apply (zeros_by_enumeration (fun n => load64 image0 (i0 + 8 * n)) 256). vm_compute. reflexivity.
  - apply (zeros_by_enumeration (fun k => load8 image0 (t0 + k)) 104). vm_compute. reflexivity.
Qed.
Lemma user0_tables : tables_ok g0 i0 t0 handle0 user0.
Proof. exact (set_up_tables g0 (g0 + 64) i0 (g0 + 80) t0 handle0 places0 user0 image0 image0_ok eq_refl eq_refl eq_refl eq_refl). Qed.
Lemma user0_mode : user_mode user0.
Proof.
  split; try reflexivity; try (split; [discriminate|reflexivity]).
  repeat (apply Forall_cons; split; [split; [discriminate|reflexivity]|]). by apply Forall_nil.
Qed.

Lemma set_up_well_formed_witness :
  wp (env_init_percpu (g0 + 64);; trap_init g0 i0 (g0 + 80) t0 handle0)
    (fun _ c' => tables_ok g0 i0 t0 handle0 c') (fun _ _ => False) kernel0.
Proof.
  eapply wp_mono; [apply (set_up_well_formed g0 (g0 + 64) i0 (g0 + 80) t0 handle0 places0 kernel0)| |].
  - exact image0_ok.
  - reflexivity.
  - intros a c' H. exact (proj1 H).
  - intros x c' [].
Defined.
Lemma user_vectors_witness :
  (exists c', interrupt true T_SYSCALL None user0 = Ret tt c' /\ CPL c' = 0) /\
  interrupt true 14 None user0 = Exit (GP (8 * 14 + 2)) user0.
Proof.
  split.
  - destruct (proj1 (user_vectors g0 i0 (g0 + 80) t0 handle0 places0 user0 T_SYSCALL user0_tables user0_mode
      ltac:(unfold T_SYSCALL; lia)) (or_intror eq_refl)) as (c' & H1 & H2 & _).
    exists c'. split; [exact H1|exact H2].
  - pose proof (user_vectors g0 i0 (g0 + 80) t0 handle0 places0 user0 14 user0_tables user0_mode
      ltac:(lia)) as H. destruct H as [_ H2]. apply H2. split; discriminate.
Defined.
(** A page fault of the user program, and its return. *)
Definition faulted0 : processor :=
  with_stack (KSTACKTOP - tf_size) (pushed KSTACKTOP (reverse (tf_words (frame user0 14 6))) (lmem user0))
    (in_kernel handle0 14 user0).
Lemma faulted0_tables : tables_ok g0 i0 t0 handle0 faulted0.
Proof.
  exact (tables_pushed g0 i0 (g0 + 80) t0 handle0 places0 user0 faulted0 _ user0_tables eq_refl eq_refl eq_refl eq_refl).
Qed.
Lemma faulted0_frame : words_at (lmem faulted0) (KSTACKTOP - tf_size) (tf_words (frame user0 14 6)).
Proof.
  apply (pushed_words KSTACKTOP (tf_words (frame user0 14 6))).
  apply (frame_words user0 14 (Some 6)); [exact user0_mode|lia|split; [reflexivity|split; [discriminate|reflexivity]]].
Qed.
Lemma gate14 : gate_of handle0 14 = Some (SETGATE false GD_KT (handle0 14) 0).
Proof. reflexivity. Qed.
Lemma err14 : err_ok 14 (Some 6).
Proof. split; [reflexivity|unfold word; lia]. Qed.
Lemma faulted0_flags : Z.land (c_eflags faulted0) (Z.lor FL_NT FL_VM) = 0.
Proof. reflexivity. Qed.
Lemma trap_and_return_witness :
  wp (env_pop_tf (KSTACKTOP - tf_size))
    (fun _ c3 => gp c3 = gp user0 /\ c_eip c3 = c_eip user0 /\ r_cs c3 = r_cs user0)
    (fun _ _ => False) faulted0.
Proof.
  pose proof (proj2 (trap_and_return g0 i0 (g0 + 80) t0 handle0 places0 user0 false 14 (Some 6)
      (SETGATE false GD_KT (handle0 14) 0) user0_tables user0_mode ltac:(lia) gate14 err14
      ltac:(discriminate)) faulted0 (KSTACKTOP - tf_size) faulted0_tables eq_refl eq_refl faulted0_flags
      ltac:(unfold KSTACKTOP, KERNBASE, tf_size; lia) faulted0_frame) as H.
  eapply wp_mono; [exact H| |].
  - intros a c' (H1 & H2 & _ & H3 & _). split; [exact H1|]. split; [exact H2|exact H3].
  - intros x c' [].
Defined.
(** The command register of the disk is within reach. *)
Lemma user_io_ports_witness :
  wp (env_init_percpu (g0 + 64);; trap_init g0 i0 (g0 + 80) t0 handle0)
    (fun _ c' => forall u, r_tr u = r_tr c' -> CPL u = 3 -> IOPL u < 3 -> lmem u = lmem c' ->
       io_allowed u 0x1F7 = true)
    (fun _ _ => False) kernel0.
Proof.
  eapply wp_mono.
  - apply (user_io_ports g0 (g0 + 64) i0 (g0 + 80) t0 handle0 places0 kernel0 0x1F7 image0_ok eq_refl).
    lia.
  - intros a c' H u H1 H2 H3 H4. apply (H u H1 H2 H3). intros k _. by rewrite H4.
  - intros x c' [].
Defined.
