(* ===== verification/Devices.v ===== *)
(** * Device drivers, the kernel lock and the monitor: src/src/spinlock.c, picirq.c, ide.c, monitor.c,
    the port accesses of main.c and pmap.c

    A driver is a program over the I/O ports ([pio]): what it writes where, in
    which order, given what the device answers.  The lock is a step relation
    over the processors that contend for it.  The monitor's command
    interpreter is a program over its line buffer. *)
From S2P Require Import Prelude Layout Mem CString Printf Console Kern TrapMod User Shell.

(** ** Port programs *)
Inductive pio (A : Type) : Type :=
| PDone (a : A)
| PFuel
| PFail (msg : string)
| PIn (port : Z) (k : Z -> pio A)                   (* [inb] *)
| POut (port v : Z) (k : pio A)                     (* [outb] *)
| PIns (port addr cnt : Z) (k : pio A)              (* [insl]: [cnt] words to [addr] *)
| POuts (port addr cnt : Z) (k : pio A)             (* [outsl] *)
| PLd (addr : Z) (k : Z -> pio A)                   (* device memory, 16 bits *)
| PSt (addr v : Z) (k : pio A)
| PPrint (m : message) (k : pio A).
Arguments PDone {A} a.
Arguments PFuel {A}.
Arguments PFail {A} msg.
Arguments PIn {A} port k.
Arguments POut {A} port v k.
Arguments PIns {A} port addr cnt k.
Arguments POuts {A} port addr cnt k.
Arguments PLd {A} addr k.
Arguments PSt {A} addr v k.
Arguments PPrint {A} m k.
Fixpoint pbind {A B} (f : A -> pio B) (p : pio A) : pio B :=
  match p with
  | PDone a => f a
  | PFuel => PFuel
  | PFail msg => PFail msg
  | PIn q k => PIn q (fun v => pbind f (k v))
  | POut q v k => POut q v (pbind f k)
  | PIns q a n k => PIns q a n (pbind f k)
  | POuts q a n k => POuts q a n (pbind f k)
  | PLd a k => PLd a (fun v => pbind f (k v))
  | PSt a v k => PSt a v (pbind f k)
  | PPrint m k => PPrint m (pbind f k)
  end.
#[export] Instance pio_ret : MRet pio := fun _ a => PDone a.
#[export] Instance pio_bind : MBind pio := fun _ _ f p => pbind f p.
Definition inb (port : Z) : pio Z := PIn port PDone.
Definition outb (port v : Z) : pio unit := POut port (u8 v) (PDone tt).
Definition pprint (fmt : string) (args : list Z) : pio unit := PPrint (Msg fmt args) (PDone tt).

(** ** ide.c *)
Definition IDE_BSY : Z := 0x80.
Definition IDE_DRDY : Z := 0x40.
Definition IDE_DF : Z := 0x20.
Definition IDE_ERR : Z := 0x01.
Fixpoint ide_wait_ready (fuel : nat) (check_error : bool) : pio Z :=
  match fuel with
  | O => PFuel
  | S f =>
      r ← inb 0x1F7;
      if negb (Z.land r (Z.lor IDE_BSY IDE_DRDY) =? IDE_DRDY) then ide_wait_ready f check_error
      else if check_error && negb (Z.land r (Z.lor IDE_DF IDE_ERR) =? 0) then mret (-1) else mret 0
  end.
Fixpoint probe_loop (n : nat) (x : Z) : pio Z :=
  match n with
  | O => mret x
  | S n' =>
      r ← inb 0x1F7;
      if negb (Z.land r (Z.lor IDE_BSY (Z.lor IDE_DF IDE_ERR)) =? 0) then probe_loop n' (x + 1) else mret x
  end.
Definition ide_probe_disk1 (fuel : nat) : pio bool :=
  ide_wait_ready fuel false;;
  outb 0x1F6 (Z.lor 0xE0 (Z.shiftl 1 4));;
  x ← probe_loop (Z.to_nat 1000) 0;
  outb 0x1F6 (Z.lor 0xE0 (Z.shiftl 0 4));;
  pprint "FS: Device 1 presence: %d" [if x <? 1000 then 1 else 0];;
  mret (x <? 1000).
(** The new value of [diskno]. *)
Definition ide_set_disk (d : Z) : pio Z :=
  if negb (d =? 0) && negb (d =? 1) then PFail "bad disk number" else mret d.
(** The registers of a request: sector count, 28-bit address, drive, command. *)
Definition ide_request (diskno secno nsecs command : Z) : pio unit :=
  outb 0x1F2 nsecs;;
  outb 0x1F3 (Z.land secno 0xFF);;
  outb 0x1F4 (Z.land (Z.shiftr secno 8) 0xFF);;
  outb 0x1F5 (Z.land (Z.shiftr secno 16) 0xFF);;
  outb 0x1F6 (Z.lor (Z.lor 0xE0 (Z.shiftl (Z.land diskno 1) 4)) (Z.land (Z.shiftr secno 24) 0x0F));;
  outb 0x1F7 command.
(** The transfer of [n] sectors, [SECTSIZE/4] words each. *)
Fixpoint ide_transfer (fuel n : nat) (word_io : Z -> pio unit) (addr : Z) : pio Z :=
  match n with
  | O => mret 0
  | S n' =>
      r ← ide_wait_ready fuel true;
      if r <? 0 then mret r else word_io addr;; ide_transfer fuel n' word_io (addr + 512)
  end.
Definition ide_read (fuel : nat) (diskno secno dst nsecs : Z) : pio Z :=
  ide_wait_ready fuel false;;
  ide_request diskno secno nsecs 0x20;;
  ide_transfer fuel (Z.to_nat nsecs) (fun a => PIns 0x1F0 a (512 / 4) (PDone tt)) dst.
Definition ide_write (fuel : nat) (diskno secno src nsecs : Z) : pio Z :=
  ide_wait_ready fuel false;;
  ide_request diskno secno nsecs 0x30;;
  ide_transfer fuel (Z.to_nat nsecs) (fun a => POuts 0x1F0 a (512 / 4) (PDone tt)) src.

(** ** main.c: the boot loader's own driver, and pmap.c: the CMOS memory *)
Fixpoint waitdisk (fuel : nat) : pio unit :=
  match fuel with
  | O => PFuel
  | S f => r ← inb 0x1F7; if negb (Z.land r 0xC0 =? 0x40) then waitdisk f else mret tt
  end.
(** [readsect]; [SECTSIZE / 4] words. *)
Definition readsect_io (fuel : nat) (dst offset : Z) : pio unit :=
  waitdisk fuel;;
  outb 0x1F2 1;;
  outb 0x1F3 offset;;
  outb 0x1F4 (Z.shiftr offset 8);;
  outb 0x1F5 (Z.shiftr offset 16);;
  outb 0x1F6 (Z.lor (Z.shiftr offset 24) 0xE0);;
  outb 0x1F7 0x20;;
  waitdisk fuel;;
  PIns 0x1F0 dst (512 / 4) (PDone tt).

Definition IO_RTC : Z := 0x70.
Definition NVRAM_BASELO : Z := 14 + 7.
Definition NVRAM_EXTLO : Z := 14 + 9.
Definition mc146818_read (reg : Z) : pio Z := outb IO_RTC reg;; inb (IO_RTC + 1).
Definition nvram_read (r : Z) : pio Z :=
  lo ← mc146818_read r; hi ← mc146818_read (r + 1); mret (Z.lor lo (Z.shiftl hi 8)).

(** ** picirq.c: [irq_mask_8259A] and [didinit] are passed and returned *)
Definition IO_PIC1 : Z := 0x20.
Definition IO_PIC2 : Z := 0xA0.
Definition IRQ_SLAVE : Z := 2.
Definition irq_mask_init : Z :=
  Z.land 0xFFFF (Z.lnot (Z.lor (Z.lor (Z.lor (Z.shiftl 1 IRQ_SLAVE) (Z.shiftl 1 IRQ_TIMER))
    (Z.shiftl 1 IRQ_SERIAL)) (Z.shiftl 1 IRQ_KBD))).
Fixpoint print_enabled (n : nat) (i mask : Z) : pio unit :=
  match n with
  | O => mret tt
  | S n' =>
      (if negb (Z.land (Z.lnot mask) (Z.shiftl 1 i) =? 0) then pprint " %d" [i] else mret tt);;
      print_enabled n' (i + 1) mask
  end.
Definition irq_setmask_8259A (didinit : bool) (mask : Z) : pio Z :=
  if negb didinit then mret mask
  else
    outb (IO_PIC1 + 1) mask;;
    outb (IO_PIC2 + 1) (Z.shiftr mask 8);;
    pprint "enabled interrupts:" [];;
    print_enabled 16 0 mask;;
    pprint "" [];;
    mret mask.
Definition pic_init (irq_mask_8259A : Z) : pio Z :=
  outb (IO_PIC1 + 1) 0xFF;; outb (IO_PIC2 + 1) 0xFF;;
  outb IO_PIC1 0x11;;
  outb (IO_PIC1 + 1) IRQ_OFFSET;;
  outb (IO_PIC1 + 1) (Z.shiftl 1 IRQ_SLAVE);;
  outb (IO_PIC1 + 1) 0x3;;
  outb IO_PIC2 0x11;;
  outb (IO_PIC2 + 1) (IRQ_OFFSET + 8);;
  outb (IO_PIC2 + 1) IRQ_SLAVE;;
  outb (IO_PIC2 + 1) 0x01;;
  outb IO_PIC1 0x68;; outb IO_PIC1 0x0a;;
  outb IO_PIC2 0x68;; outb IO_PIC2 0x0a;;
  if negb (irq_mask_8259A =? 0xFFFF) then irq_setmask_8259A true irq_mask_8259A else mret irq_mask_8259A.

(** ** spinlock.c *)

(** [xchg]: the old value and the new one. *)
Definition xchg (locked new : Z) : Z * Z := (locked, new).
Definition __spin_initlock : Z := 0.
(** One round of the loop of [spin_lock]: whether the lock was taken. *)
Definition spin_lock_round (locked : Z) : bool * Z :=
  let (old, now) := xchg locked 1 in (old =? 0, now).
Definition spin_unlock (locked : Z) : Z := snd (xchg locked 0).

(** A processor runs outside, spins in [spin_lock], or holds the lock. *)
Inductive cpu : Type := Outside | Spinning | Holding.
Record lock_state : Type := mkLock { lk_locked : Z; lk_cpus : list cpu }.
Inductive lock_step : lock_state -> lock_state -> Prop :=
| ls_call i l cs : cs !! i = Some Outside -> lock_step (mkLock l cs) (mkLock l (<[i := Spinning]> cs))
| ls_round i l cs : cs !! i = Some Spinning ->
    lock_step (mkLock l cs)
      (mkLock (snd (spin_lock_round l)) (if fst (spin_lock_round l) then <[i := Holding]> cs else cs))
| ls_unlock i l cs : cs !! i = Some Holding ->
    lock_step (mkLock l cs) (mkLock (spin_unlock l) (<[i := Outside]> cs)).

(** ** monitor.c: the symbols of the kernel image, the array [argv] and the
    [readline] of the kernel (Printf.v) are arguments *)
Section monitor.
Context (start entry etext edata kend argv : Z) (readline : uprog Z).
Definition commands : list (string * string) :=
  [("help", "Display this list of commands"); ("kerninfo", "Display information about the kernel")].
Fixpoint print_commands (l : list (string * string)) : uprog unit :=
  match l with [] => mret tt | (n, d) :: l' => uprint (n +:+ " - " +:+ d) [];; print_commands l' end.
Definition mon_help : uprog Z := print_commands commands;; mret 0.
Definition mon_kerninfo : uprog Z :=
  uprint "Special kernel symbols:" [];;
  uprint "  _start                  %08x (phys)" [start];;
  uprint "  entry  %08x (virt)  %08x (phys)" [entry; u32 (entry - KERNBASE)];;
  uprint "  etext  %08x (virt)  %08x (phys)" [etext; u32 (etext - KERNBASE)];;
  uprint "  edata  %08x (virt)  %08x (phys)" [edata; u32 (edata - KERNBASE)];;
  uprint "  end    %08x (virt)  %08x (phys)" [kend; u32 (kend - KERNBASE)];;
  uprint "Kernel executable memory footprint: %dKB" [ROUNDUP (u32 (kend - entry)) 1024 / 1024];;
  mret 0.
Fixpoint mon_white (fuel : nat) (p : Z) : uprog Z :=
  match fuel with
  | O => UFuel
  | S f => c ← uld8 p; if is_in c WHITESPACE then ust8 p 0;; mon_white f (p + 1) else mret p
  end.
Fixpoint mon_word (fuel : nat) (p : Z) : uprog Z :=
  match fuel with
  | O => UFuel
  | S f => c ← uld8 p; if (c =? 0) || is_in c WHITESPACE then mret p else mon_word f (p + 1)
  end.
(** [None]: too many arguments. *)
Fixpoint mon_args (fuel : nat) (p argc : Z) : uprog (option Z) :=
  match fuel with
  | O => UFuel
  | S f =>
      p ← mon_white fuel p;
      c ← uld8 p;
      if c =? 0 then mret (Some argc)
      else if argc =? MAXARGS - 1 then uprint "Too many arguments (max %d)" [MAXARGS];; mret None
      else
        ust32 (argv + 4 * argc) p;;
        p ← mon_word fuel p; mon_args f p (argc + 1)
  end.
Definition mon_runcmd (fuel : nat) (buf : Z) : uprog Z :=
  ust32 argv 0;;
  a ← mon_args fuel buf 0;
  match a with
  | None => mret 0
  | Some argc =>
      ust32 (argv + 4 * argc) 0;;
      if argc =? 0 then mret 0
      else
        a0 ← uld32 argv; help ← word_is a0 (str_codes "help");
        if (help : bool) then mon_help
        else
          a0 ← uld32 argv; info ← word_is a0 (str_codes "kerninfo");
          if (info : bool) then mon_kerninfo
          else a0 ← uld32 argv; uprint "Unknown command '%s'" [a0];; mret 0
  end.
Fixpoint monitor_loop (fuel : nat) : uprog unit :=
  match fuel with
  | O => UFuel
  | S f =>
      buf ← readline;
      if negb (buf =? 0) then r ← mon_runcmd fuel buf; if r <? 0 then mret tt else monitor_loop f
      else monitor_loop f
  end.
Definition monitor (fuel : nat) : uprog unit :=
  uprint "Welcome to the DamnOS Kernel Monitor!" [];;
  uprint "Type 'help' for a list of commands." [];;
  monitor_loop fuel.
End monitor.

(** * Theorems *)

Definition lock_inv (s : lock_state) : Prop :=
  (lk_locked s = 0 /\ forall i, lk_cpus s !! i <> Some Holding) \/
  (lk_locked s = 1 /\ exists i, lk_cpus s !! i = Some Holding /\
     forall j, lk_cpus s !! j = Some Holding -> j = i).
Lemma lock_step_inv s s' : lock_step s s' -> lock_inv s -> lock_inv s'.
Proof.
  assert (Hins : forall (cs : list cpu) i c d j, cs !! i = Some c -> d <> Holding ->
    <[i:=d]> cs !! j = Some Holding -> cs !! j = Some Holding /\ j <> i).
  { intros cs i c d j Hi Hd Hj. destruct (decide (i = j)) as [<-|Hn].
    - rewrite list_lookup_insert_eq in Hj by (by eapply lookup_lt_Some). congruence.
    - rewrite list_lookup_insert_ne in Hj by done. auto. }
  intros Hs Hi. destruct Hs as [i l cs Hc|i l cs Hc|i l cs Hc]; unfold lock_inv in *; cbn in *.
  - destruct Hi as [[-> Hno]|[-> (k & Hk & Hu)]]; [left|right]; (split; [done|]).
    + intros j Hj. destruct (Hins _ _ _ Spinning _ Hc ltac:(done) Hj) as [Hj' _]. by apply Hno in Hj'.
    + exists k. split.
      * rewrite list_lookup_insert_ne; [done|]. intros ->. congruence.
      * intros j Hj. destruct (Hins _ _ _ Spinning _ Hc ltac:(done) Hj) as [Hj' _]. by apply Hu.
  - destruct Hi as [[-> Hno]|[-> (k & Hk & Hu)]]; cbn; right; (split; [done|]).
    + exists i. rewrite list_lookup_insert_eq by (by eapply lookup_lt_Some). split; [done|].
      intros j Hj. destruct (decide (i = j)) as [->|Hn]; [done|].
      rewrite list_lookup_insert_ne in Hj by done. by apply Hno in Hj.
    + eauto.
  - left. split; [done|]. intros j Hj. destruct (Hins _ _ _ Outside _ Hc ltac:(done) Hj) as [Hj' Hne].
    destruct Hi as [[_ Hno]|[_ (k & Hk & Hu)]]; [by apply Hno in Hc|].
    apply Hu in Hc, Hj'. congruence.
Qed.

(** C37. The kernel lock excludes: however the processors interleave their calls
    of [spin_lock] and [spin_unlock], at most one of them holds the lock, and
    the word is 0, so that the next exchange takes it, exactly when none does. *)
Theorem spin_lock_excludes n s :
  rtc lock_step (mkLock __spin_initlock (replicate n Outside)) s ->
  (forall i j, lk_cpus s !! i = Some Holding -> lk_cpus s !! j = Some Holding -> i = j) /\
  ((forall i, lk_cpus s !! i <> Some Holding) <-> fst (spin_lock_round (lk_locked s)) = true).
Proof.
  intros Hs. assert (Hi : lock_inv s).
  { assert (H0 : lock_inv (mkLock __spin_initlock (replicate n Outside))).
    { left. split; [done|]. intros i Hi. cbn in Hi. apply lookup_replicate in Hi as [? _]. done. }
    revert H0. induction Hs as [|s s1 s' Hst _ IH]; [done|]. intros H0. by eapply IH, lock_step_inv. }
  destruct Hi as [[Hl Hno]|[Hl (k & Hk & Hu)]]; rewrite Hl; cbn.
  - split; [intros i j Hi; by apply Hno in Hi|done].
  - split; [intros i j Hi Hj; apply Hu in Hi, Hj; congruence|].
    split; [intros Hno; by apply Hno in Hk|done].
Qed.
Lemma spin_lock_excludes_witness :
  rtc lock_step (mkLock __spin_initlock [Outside; Outside]) (mkLock 1 [Holding; Spinning]) /\
  (forall i j, [Holding; Spinning] !! i = Some Holding -> [Holding; Spinning] !! j = Some Holding -> i = j).
Proof.
  assert (H : rtc lock_step (mkLock __spin_initlock [Outside; Outside]) (mkLock 1 [Holding; Spinning])).
  { eapply rtc_l; [apply (ls_call 0); reflexivity|].
    eapply rtc_l; [apply (ls_call 1); reflexivity|].
    eapply rtc_l; [apply (ls_round 0); reflexivity|].
    eapply rtc_l; [apply (ls_round 1); reflexivity|]. apply rtc_refl. }
  split; [exact H|]. exact (proj1 (spin_lock_excludes 2 (mkLock 1 [Holding; Spinning]) H)).
Defined.
