(* ===== verification/ShellProps.v ===== *)
(** * The shell's tokenizer computes the lexer it is meant to be

    [lex] is the reference: one pass over the line.  The code keeps one token
    of lookahead in static variables and cuts the line up in place; the
    theorem shows that the calls of [gettoken] return the tokens of [lex], and
    that in the end every word is a NUL-terminated string of its own. *)
From S2P Require Import Prelude Layout Mem CString Printf Console Kern User Shell.

(** ** Programs that only use memory *)
Fixpoint uexec {A} (p : uprog A) (m : mem) : option (A * mem) :=
  match p with
  | UDone a => Some (a, m)
  | ULoad8 a k => uexec (k (load8 m a)) m
  | ULoad32 a k => uexec (k (load32 m a)) m
  | UStore8 a v k => uexec k (store8 m a v)
  | UStore32 a v k => uexec k (store32 m a v)
  | UPrint _ k => uexec k m
  | _ => None
  end.
(** [p] finishes, and [Q] holds then. *)
Definition mwp {A} (p : uprog A) (Q : A -> mem -> Prop) (m : mem) : Prop :=
  match uexec p m with Some (a, m') => Q a m' | None => False end.
Lemma uexec_bind {A B} (p : uprog A) (f : A -> uprog B) m :
  uexec (p ≫= f) m = match uexec p m with Some (a, m') => uexec (f a) m' | None => None end.
Proof.
  change (p ≫= f) with (ubind f p). revert m.
  induction p; intros m'; cbn [uexec ubind]; auto.
Qed.
Lemma mwp_bind {A B} (p : uprog A) (f : A -> uprog B) Q m :
  mwp p (fun a m' => mwp (f a) Q m') m -> mwp (p ≫= f) Q m.
Proof. unfold mwp. rewrite uexec_bind. destruct (uexec p m) as [[a m']|]; [done|done]. Qed.
Lemma mwp_mono {A} (p : uprog A) Q Q' m : mwp p Q m -> (forall a m', Q a m' -> Q' a m') -> mwp p Q' m.
Proof. unfold mwp. destruct (uexec p m) as [[a m']|]; auto. Qed.
Lemma mwp_ret {A} (a : A) Q m : Q a m -> mwp (mret a) Q m.
Proof. done. Qed.
Lemma mwp_uld8 a Q m : Q (load8 m a) m -> mwp (uld8 a) Q m.
Proof. done. Qed.
Lemma mwp_uld32 a Q m : Q (load32 m a) m -> mwp (uld32 a) Q m.
Proof. done. Qed.
Lemma mwp_ust8 a v Q m : Q tt (store8 m a v) -> mwp (ust8 a v) Q m.
Proof. done. Qed.
Lemma mwp_ust32 a v Q m : Q tt (store32 m a v) -> mwp (ust32 a v) Q m.
Proof. done. Qed.

(** ** The reference lexer: one pass, with the word read so far *)
Inductive tok : Type := TSym (c : Z) | TWord (w : list Z).
Definition flush (w : list Z) (r : list tok) : list tok := match w with [] => r | _ => TWord w :: r end.
Fixpoint lex (w l : list Z) : list tok :=
  match l with
  | [] => flush w []
  | c :: l' =>
      if is_in c WHITESPACE then flush w (lex [] l')
      else if is_in c SYMBOLS then flush w (TSym c :: lex [] l')
      else lex (w ++ [c]) l'
  end.
Example lex_example : lex [] (str_codes "cat <a|b") =
  [TWord (str_codes "cat"); TSym 60; TWord (str_codes "a"); TSym 124; TWord (str_codes "b")].
Proof. vm_compute. reflexivity. Qed.

Definition is_sep (c : Z) : bool := is_in c (WHITESPACE ++ SYMBOLS).
Lemma is_in_app c l1 l2 : is_in c (l1 ++ l2) = is_in c l1 || is_in c l2.
Proof. unfold is_in. rewrite <- bool_decide_or. apply bool_decide_ext. by rewrite elem_of_app. Qed.
Lemma is_sep_eq c : is_sep c = is_in c WHITESPACE || is_in c SYMBOLS.
Proof. apply is_in_app. Qed.
Lemma sym_not_white c : is_in c SYMBOLS = true -> is_in c WHITESPACE = false.
Proof.
  unfold is_in. change SYMBOLS with [60; 124; 62; 38; 59; 40; 41].
  rewrite bool_decide_eq_true, bool_decide_eq_false. unfold WHITESPACE. rewrite !elem_of_cons, !elem_of_nil. lia.
Qed.
(** The end of the line or a separator: what ends a word. *)
Definition word_end (l : list Z) : Prop := match l with [] => True | c :: _ => is_sep c = true end.
Lemma lex_word (w x l : list Z) :
  Forall (fun c => is_sep c = false) x -> word_end l -> lex w (x ++ l) = flush (w ++ x) (lex [] l).
Proof.
  intros Hx Hl. revert w. induction Hx as [|c x Hc _ IH]; intros w; cbn [app].
  - rewrite app_nil_r. destruct l as [|c l]; [done|]. cbn [lex]. cbn [word_end] in Hl.
    rewrite is_sep_eq in Hl. destruct (is_in c WHITESPACE); [done|]. rewrite orb_false_l in Hl. by rewrite Hl.
  - cbn [lex]. rewrite is_sep_eq in Hc. apply orb_false_iff in Hc as [-> ->].
    rewrite IH. by rewrite <- app_assoc.
Qed.
Lemma lex_white (x l : list Z) : Forall (fun c => is_in c WHITESPACE = true) x -> lex [] (x ++ l) = lex [] l.
Proof. induction 1 as [|c x Hc _ IH]; [done|]. cbn [app lex]. by rewrite Hc. Qed.

(** What a line starts with. *)
Definition head_is (P : Z -> Prop) (l : list Z) : Prop := match l with [] => True | c :: _ => P c end.
Lemma split_at (p : Z -> bool) l :
  exists x r, l = x ++ r /\ Forall (fun c => p c = true) x /\ head_is (fun c => p c = false) r.
Proof.
  induction l as [|c l (x & r & -> & Hx & Hr)]; [by exists [], []|].
  destruct (p c) eqn:E; [exists (c :: x), r; auto|exists [], (c :: x ++ r); auto].
Qed.
(** A string followed by another. *)
Lemma cstr_at_app v i x l :
  cstr_at v i (x ++ l) -> cstr_at v (i + Z.of_nat (length x)) l.
Proof.
  revert i. induction x as [|c x IH]; intros i H; cbn in *.
  - by rewrite Z.add_0_r.
  - destruct H as (_ & _ & H). apply IH in H. by replace (i + Z.of_nat (S (length x))) with (i + 1 + Z.of_nat (length x)) by lia.
Qed.
(** A prefix, once a NUL is put behind it. *)
Lemma cstr_at_cut (v w : Z -> Z) i x l :
  cstr_at v i (x ++ l) -> (forall k, i <= k < i + Z.of_nat (length x) -> w k = v k) ->
  w (i + Z.of_nat (length x)) = 0 -> cstr_at w i x.
Proof.
  revert i. induction x as [|c x IH]; intros i H Hk H0; cbn in *.
  - by rewrite Z.add_0_r in H0.
  - destruct H as (Hc & ? & H). split_and!; try lia; [rewrite Hk by lia; done|].
    apply (IH _ H); [intros; apply Hk; lia|]. by replace (i + 1 + Z.of_nat (length x)) with (i + Z.of_nat (S (length x))) by lia.
Qed.

Section tokens.
Context (debug nc np1 np2 : Z).
(** The variables are four separate words. *)
Definition var (a : Z) : Prop := a = debug \/ a = nc \/ a = np1 \/ a = np2.
Definition off_vars (b : Z) : Prop := forall a, var a -> b < a \/ a + 4 <= b.
Definition vars_apart : Prop :=
  forall a b, (a, b) ∈ [(debug, nc); (debug, np1); (debug, np2); (nc, np1); (nc, np2); (np1, np2)] ->
  a + 4 <= b \/ b + 4 <= a.
Context (Hvars : vars_apart).

Lemma skip_white_spec fuel m q x l :
  cstr_at (load8 m) q (x ++ l) -> Forall (fun c => is_in c WHITESPACE = true) x ->
  head_is (fun c => is_in c WHITESPACE = false) l -> (length x < fuel)%nat ->
  mwp (skip_white fuel q) (fun q' m' => q' = q + Z.of_nat (length x) /\
    forall b, load8 m' b = if decide (q <= b < q + Z.of_nat (length x)) then 0 else load8 m b) m.
Proof.
  revert m q x. induction fuel as [|f IH]; intros m q x Hc Hx Hl Hf; [lia|]. cbn [skip_white].
  apply mwp_bind, mwp_uld8. destruct x as [|c x].
  - replace (is_in (load8 m q) WHITESPACE) with false.
    + apply mwp_ret. split; [cbn; lia|]. intros b. rewrite decide_False by (cbn; lia). done.
    + destruct l as [|c l]; cbn in Hc; [by rewrite Hc|]. destruct Hc as (-> & _). by symmetry.
  - cbn [app cstr_at] in Hc. destruct Hc as (-> & ? & Hc). apply Forall_cons in Hx as [-> Hx].
    apply mwp_bind, mwp_ust8. cbn [length] in *.
    eapply mwp_mono; [apply (IH _ (q + 1) x)|].
    + eapply cstr_at_ext; [|exact Hc]. intros k Hk. symmetry. apply load8_store8_ne. lia.
    + done.
    + done.
    + lia.
    + intros q' m' [-> Hm]. split; [lia|]. intros b. rewrite Hm. rewrite load8_store8.
      repeat case_decide; try lia. subst. reflexivity.
Qed.
Lemma skip_word_spec fuel m q x l :
  cstr_at (load8 m) q (x ++ l) -> Forall (fun c => is_sep c = false) x -> word_end l ->
  (length x < fuel)%nat ->
  mwp (skip_word fuel q) (fun q' m' => q' = q + Z.of_nat (length x) /\ m' = m) m.
Proof.
  revert q x. induction fuel as [|f IH]; intros q x Hc Hx Hl Hf; [lia|]. cbn [skip_word].
  apply mwp_bind, mwp_uld8. destruct x as [|c x].
  - destruct l as [|c l]; cbn in Hc.
    + rewrite Hc. apply mwp_ret. split; [cbn; lia|done].
    + destruct Hc as (-> & ? & _). destruct (Z.eqb_spec c 0); [lia|].
      cbn [word_end] in Hl. unfold is_sep in Hl. rewrite Hl. apply mwp_ret. split; [cbn; lia|done].
  - cbn [app cstr_at] in Hc. destruct Hc as (-> & ? & Hc). apply Forall_cons in Hx as [Hc' Hx].
    destruct (Z.eqb_spec c 0); [lia|]. unfold is_sep in Hc'. rewrite Hc'.
    eapply mwp_mono; [apply (IH (q + 1) x); try done; cbn in Hf; lia|].
    intros q' m' [-> ->]. split; [cbn; lia|done].
Qed.

(** *** One token *)
Lemma load8_var m a v b : var a -> off_vars b -> load8 (store32 m a v) b = load8 m b.
Proof. intros Ha Hb. apply load8_store32_ne, Hb, Ha. Qed.
Lemma load32_off m a v b : var a -> off_vars b -> load32 (store8 m b v) a = load32 m a.
Proof. intros Ha Hb. apply load32_store8_ne. specialize (Hb a Ha). lia. Qed.
Definition quiet (m : mem) : Prop := s32 (load32 m debug) <= 1.
Lemma mwp_debug body Q m : quiet m -> Q tt m -> mwp (if_debug1 debug body) Q m.
Proof.
  intros Hq HQ. unfold if_debug1. apply mwp_bind, mwp_uld32. rewrite Z.gtb_ltb.
  unfold quiet in Hq. destruct (Z.ltb_spec 1 (s32 (load32 m debug))); [lia|exact HQ].
Qed.

(** Token [tk] with id [t] lies at [a] and ends at [q], where [l] follows. *)
Definition pending (m : mem) (tk : tok) (t a q : Z) (l : list Z) : Prop :=
  cstr_at (load8 m) q l /\ 0 < t < 256 /\
  match tk with
  | TSym c => t = c
  | TWord w => t = 119 /\ q = a + Z.of_nat (length w) /\ cstr_at (load8 m) a (w ++ l) /\ word_end l
  end.
Definition one_token (m m' : mem) (q : Z) (l : list Z) (t : Z) : Prop :=
  (forall b, off_vars b -> ~ (q <= b <= q + Z.of_nat (length l)) -> load8 m' b = load8 m b) /\
  quiet m' /\ load32 m' nc = load32 m nc /\ (word_end l -> load8 m' q = 0) /\
  ((lex [] l = [] /\ t = 0 /\ load32 m' np1 = 0 /\ load32 m' np2 = 0) \/
   (exists tk l' a q', lex [] l = tk :: lex [] l' /\ pending m' tk t a q' l' /\
      load32 m' np1 = a /\ load32 m' np2 = q' /\ q <= a <= q' /\ q < q' /\
      q' + Z.of_nat (length l') = q + Z.of_nat (length l))).
Definition in_line (q : Z) (l : list Z) : Prop :=
  0 < q /\ q + Z.of_nat (length l) < 2 ^ 32 /\ forall b, q <= b <= q + Z.of_nat (length l) -> off_vars b.

Lemma vars_ne a b m v :
  (a, b) ∈ [(debug, nc); (debug, np1); (debug, np2); (nc, np1); (nc, np2); (np1, np2)] ->
  load32 (store32 m a v) b = load32 m b /\ load32 (store32 m b v) a = load32 m a.
Proof. intros H. apply Hvars in H. rewrite !load32_store32_ne by lia. done. Qed.
(** A store to [np1] or [np2] keeps the other variables. *)
Lemma keep_np1 m v :
  load32 (store32 m np1 v) debug = load32 m debug /\ load32 (store32 m np1 v) nc = load32 m nc /\
  load32 (store32 m np1 v) np2 = load32 m np2.
Proof.
  split_and!; [apply (vars_ne debug np1)|apply (vars_ne nc np1)|apply (vars_ne np1 np2)]; set_solver.
Qed.
Lemma keep_np2 m v :
  load32 (store32 m np2 v) debug = load32 m debug /\ load32 (store32 m np2 v) nc = load32 m nc /\
  load32 (store32 m np2 v) np1 = load32 m np1.
Proof.
  split_and!; [apply (vars_ne debug np2)|apply (vars_ne nc np2)|apply (vars_ne np1 np2)]; set_solver.
Qed.

(** What [_gettoken] does once the blanks are skipped. *)
Definition token_at (fuel : nat) (s : Z) : uprog Z :=
  c ← uld8 s;
  if c =? 0 then if_debug1 debug (uprint "EOL" []);; mret 0
  else if is_in c SYMBOLS then
    ust32 np1 s;; ust8 s 0;; ust32 np2 (u32 (s + 1));; if_debug1 debug (uprint "TOK %c" [c]);; mret c
  else
    ust32 np1 s;;
    e ← skip_word fuel s;
    ust32 np2 e;;
    if_debug1 debug (t ← uld8 e; ust8 e 0;; uprint "WORD: %s" [s];; ust8 e t);;
    mret 119.
Lemma token_sym fuel m q c r :
  in_line q (c :: r) -> cstr_at (load8 m) q (c :: r) -> quiet m -> is_in c SYMBOLS = true ->
  mwp (token_at fuel q) (fun t m' => one_token m m' q (c :: r) t) m.
Proof.
  intros (Hq & Hmx & Hoff) Hc Hd Hs. pose proof Hc as (Hc0 & Hcb & Hcr). cbn [length] in Hmx, Hoff.
  unfold token_at. apply mwp_bind, mwp_uld8. rewrite Hc0. destruct (Z.eqb_spec c 0); [lia|]. rewrite Hs.
  apply mwp_bind, mwp_ust32. apply mwp_bind, mwp_ust8. apply mwp_bind, mwp_ust32. rewrite u32_small by lia.
  assert (Hoq : off_vars q) by (apply Hoff; lia).
  destruct (keep_np1 m q) as (K1 & K2 & K3). set (m1 := store32 m np1 q) in *.
  set (m2 := store8 m1 q 0). destruct (keep_np2 m2 (q + 1)) as (K4 & K5 & K6).
  assert (Hv : forall a, var a -> load32 m2 a = load32 m1 a) by (intros a Ha; by apply load32_off).
  rewrite Hv in K4, K5, K6 by (unfold var; auto).
  assert (Hb : forall b, off_vars b -> load8 (store32 m2 np2 (q + 1)) b = if decide (b = q) then 0 else load8 m b).
  { intros b Hb. rewrite load8_var by (unfold var; auto). unfold m2. rewrite load8_store8.
    repeat case_decide; try congruence; [done|]. apply load8_var; unfold var; auto. }
  assert (Hd' : quiet (store32 m2 np2 (q + 1))) by (unfold quiet; rewrite K4, K1; exact Hd).
  apply mwp_bind, mwp_debug; [exact Hd'|]. apply mwp_ret. split_and!.
  - intros b Hob Hn. rewrite Hb by done. rewrite decide_False; [done|]. intros ->. cbn [length] in Hn. lia.
  - exact Hd'.
  - by rewrite K5, K2.
  - intros _. rewrite Hb by done. by rewrite decide_True.
  - right. exists (TSym c), r, q, (q + 1). split_and!; try done; cbn [length]; try lia.
    + cbn [lex]. by rewrite sym_not_white, Hs.
    + split; [|done]. eapply cstr_at_ext; [|exact Hcr]. intros k Hk. rewrite Hb by (apply Hoff; lia). rewrite decide_False by lia. done.
    + rewrite K6. unfold m1. rewrite load32_store32_eq. apply u32_small. lia.
    + rewrite load32_store32_eq. apply u32_small. lia.
Qed.
Lemma token_word fuel m q c r :
  in_line q (c :: r) -> cstr_at (load8 m) q (c :: r) -> quiet m -> is_sep c = false ->
  (S (length r) < fuel)%nat -> mwp (token_at fuel q) (fun t m' => one_token m m' q (c :: r) t) m.
Proof.
  intros (Hq & Hmx & Hoff) Hc Hd Hs Hf. pose proof Hc as (Hc0 & Hcb & Hcr).
  destruct (split_at (fun d => negb (is_sep d)) r) as (y & r2 & -> & Hy & Hr2).
  assert (Hcy : Forall (fun d => is_sep d = false) (c :: y)).
  { constructor; [done|]. eapply Forall_impl; [exact Hy|]. intros d. cbn. by destruct (is_sep d). }
  assert (Hwe : word_end r2).
  { destruct r2 as [|d r2]; [done|]. cbn in Hr2 |- *. by destruct (is_sep d). }
  unfold token_at. apply mwp_bind, mwp_uld8. rewrite Hc0. destruct (Z.eqb_spec c 0); [lia|].
  pose proof Hs as Hs'. rewrite is_sep_eq in Hs'. apply orb_false_iff in Hs' as [_ ->].
  apply mwp_bind, mwp_ust32. destruct (keep_np1 m q) as (K1 & K2 & K3). set (m1 := store32 m np1 q) in *.
  assert (Hb1 : forall b, off_vars b -> load8 m1 b = load8 m b) by (intros b Hb; apply load8_var; unfold var; auto).
  rewrite app_comm_cons in Hc, Hoff, Hmx |- *. rewrite length_app in Hmx, Hoff.
  apply mwp_bind. eapply mwp_mono; [apply (skip_word_spec fuel m1 q (c :: y) r2)|].
  { eapply cstr_at_ext; [|exact Hc]. intros k Hk. rewrite length_app in Hk. rewrite Hb1; [done|]. apply Hoff. lia. }
  { done. } { done. } { rewrite length_app in Hf. cbn [length]. lia. }
  intros e m1' [-> ->]. set (wl := Z.of_nat (length (c :: y))). assert (Hn : 0 < wl) by (unfold wl; cbn [length]; lia).
  apply mwp_bind, mwp_ust32. destruct (keep_np2 m1 (q + wl)) as (K4 & K5 & K6).
  assert (Hb : forall b, off_vars b -> load8 (store32 m1 np2 (q + wl)) b = load8 m b).
  { intros b Hb. rewrite load8_var by (unfold var; auto). by apply Hb1. }
  assert (Hd' : quiet (store32 m1 np2 (q + wl))) by (unfold quiet; rewrite K4, K1; exact Hd).
  assert (Hc' : cstr_at (load8 (store32 m1 np2 (q + wl))) q ((c :: y) ++ r2)).
  { eapply cstr_at_ext; [|exact Hc]. intros k Hk. rewrite length_app in Hk. rewrite Hb; [done|]. apply Hoff. lia. }
  apply mwp_bind, mwp_debug; [exact Hd'|]. apply mwp_ret. split_and!.
  - intros b Hob _. by apply Hb.
  - exact Hd'.
  - by rewrite K5, K2.
  - cbn [app word_end]. congruence.
  - right. exists (TWord (c :: y)), r2, q, (q + wl). split_and!; try done; try lia.
    + by apply (lex_word [] (c :: y)).
    + pose proof (cstr_at_app _ _ _ _ Hc'). by split_and!.
    + rewrite K6. unfold m1. rewrite load32_store32_eq. apply u32_small. lia.
    + rewrite load32_store32_eq. apply u32_small. lia.
    + rewrite length_app. lia.
Qed.
Lemma token_at_spec fuel m q r :
  in_line q r -> cstr_at (load8 m) q r -> quiet m -> head_is (fun c => is_in c WHITESPACE = false) r ->
  load32 m np1 = 0 -> load32 m np2 = 0 -> (length r < fuel)%nat ->
  mwp (token_at fuel q) (fun t m' => one_token m m' q r t) m.
Proof.
  intros Hl Hc Hd Hw H1 H2 Hf. destruct r as [|c r].
  - unfold token_at. apply mwp_bind, mwp_uld8. cbn in Hc. rewrite Hc. cbn [Z.eqb].
    apply mwp_bind, mwp_debug; [done|]. apply mwp_ret. split_and!; try done. by left.
  - cbn in Hw. destruct (is_in c SYMBOLS) eqn:Hs; [by apply token_sym|].
    apply token_word; try done. by rewrite is_sep_eq, Hw, Hs.
Qed.
Lemma load32_same m m' a : (forall k, a <= k < a + 4 -> load8 m' k = load8 m k) -> load32 m' a = load32 m a.
Proof. intros H. unfold load32, load16. rewrite !H by lia. done. Qed.

Lemma _gettoken_spec fuel m q l :
  in_line q l -> cstr_at (load8 m) q l -> quiet m -> (length l < fuel)%nat ->
  mwp (_gettoken debug fuel q np1 np2) (fun t m' => one_token m m' q l t) m.
Proof.
  intros (Hq & Hmx & Hoff) Hc Hd Hf. unfold _gettoken. destruct (Z.eqb_spec q 0); [lia|].
  apply mwp_bind, mwp_debug; [done|]. apply mwp_bind, mwp_ust32. apply mwp_bind, mwp_ust32.
  destruct (keep_np1 m 0) as (K1 & K2 & K3). destruct (keep_np2 (store32 m np1 0) 0) as (K4 & K5 & K6).
  assert (Z1 : load32 (store32 m np1 0) np1 = 0) by apply load32_store32_eq.
  set (m1 := store32 (store32 m np1 0) np2 0) in *.
  assert (Z2 : load32 m1 np2 = 0) by apply load32_store32_eq.
  assert (Hb1 : forall b, off_vars b -> load8 m1 b = load8 m b).
  { intros b Hb. unfold m1. rewrite !load8_var by (unfold var; auto). done. }
  destruct (split_at (fun c => is_in c WHITESPACE) l) as (x & r & -> & Hx & Hr). rewrite length_app in Hmx, Hoff, Hf.
  assert (Hc1 : cstr_at (load8 m1) q (x ++ r)).
  { eapply cstr_at_ext; [|exact Hc]. intros k Hk. rewrite length_app in Hk. rewrite Hb1; [done|]. apply Hoff. lia. }
  apply mwp_bind. eapply mwp_mono; [apply (skip_white_spec fuel m1 q x r Hc1 Hx Hr); lia|].
  intros q1 m2 [-> Hm2]. set (nx := Z.of_nat (length x)) in *.
  assert (Hv : forall a, var a -> load32 m2 a = load32 m1 a).
  { intros a Ha. apply load32_same. intros k Hk. rewrite Hm2. case_decide; [|done].
    specialize (Hoff k ltac:(lia) a Ha). lia. }
  change (mwp (token_at fuel (q + nx)) (fun t m' => one_token m m' q (x ++ r) t) m2).
  eapply mwp_mono; [apply (token_at_spec fuel m2 (q + nx) r)|].
  - split_and!; [lia|lia|]. intros b Hb. apply Hoff. lia.
  - apply cstr_at_app in Hc. eapply cstr_at_ext; [|exact Hc]. intros k Hk. fold nx in Hk.
    rewrite Hm2, decide_False by lia. rewrite Hb1; [done|]. apply Hoff. lia.
  - unfold quiet. rewrite Hv, K4, K1 by (unfold var; auto). exact Hd.
  - done.
  - rewrite Hv, K6 by (unfold var; auto). exact Z1.
  - rewrite Hv by (unfold var; auto). exact Z2.
  - lia.
  - intros t m' (Hfr & Hd' & Hnc & Hwe & Hcase). unfold one_token. rewrite length_app. split_and!.
    + intros b Hob Hn. rewrite Hfr by (done || lia). rewrite Hm2, decide_False by lia. by apply Hb1.
    + exact Hd'.
    + rewrite Hnc, Hv, K5, K2 by (unfold var; auto). done.
    + intros Hw. destruct x as [|c x].
      * unfold nx in Hwe. cbn in Hwe, Hw. rewrite Z.add_0_r in Hwe. by apply Hwe.
      * assert (0 < nx) by (unfold nx; cbn [length]; lia).
        rewrite Hfr by (apply Hoff || idtac; lia). rewrite Hm2, decide_True by lia. done.
    + rewrite lex_white by done. destruct Hcase as [?|(tk & l' & a & q' & E & Hp & Ea & Eq & Hqa & Hlt & Hlen)]; [by left|].
      right. exists tk, l', a, q'. split_and!; try done; lia.
Qed.

(** *** The whole line *)

(** The calls of [gettoken] up to the one that returns 0. *)
Fixpoint all_tokens (fuel k : nat) : uprog (list (Z * Z)) :=
  match k with
  | O => UFuel
  | S k' =>
      ct ← gettoken debug nc np1 np2 fuel;
      if fst ct =? 0 then mret [] else r ← all_tokens fuel k'; mret (ct :: r)
  end.
(** What a caller of [gettoken] gets: the id, and for a word its string. *)
Definition tok_at (m : mem) (tk : tok) (ct : Z * Z) : Prop :=
  match tk with
  | TSym c => fst ct = c
  | TWord w => fst ct = 119 /\ cstr_at (load8 m) (snd ct) w
  end.
Lemma keep_nc m v :
  load32 (store32 m nc v) debug = load32 m debug /\ load32 (store32 m nc v) np1 = load32 m np1 /\
  load32 (store32 m nc v) np2 = load32 m np2.
Proof.
  split_and!; [apply (vars_ne debug nc)|apply (vars_ne nc np1)|apply (vars_ne nc np2)]; set_solver.
Qed.
Lemma gettoken_end fuel m :
  quiet m -> load32 m np2 = 0 ->
  mwp (gettoken debug nc np1 np2 fuel) (fun ct m' => ct = (load32 m nc, load32 m np1) /\ m' = store32 m nc 0) m.
Proof.
  intros Hd H2. unfold gettoken. do 3 apply mwp_bind, mwp_uld32. rewrite H2.
  apply mwp_bind. unfold _gettoken. cbn [Z.eqb]. apply mwp_bind, mwp_debug; [done|]. apply mwp_ret.
  by apply mwp_bind, mwp_ust32.
Qed.
Lemma gettoken_next fuel m q l :
  quiet m -> load32 m np2 = q -> in_line q l -> cstr_at (load8 m) q l -> (length l < fuel)%nat ->
  mwp (gettoken debug nc np1 np2 fuel) (fun ct m' => ct = (load32 m nc, load32 m np1) /\
    exists n m1, one_token m m1 q l n /\ m' = store32 m1 nc n) m.
Proof.
  intros Hd H2 Hl Hc Hf. unfold gettoken. do 3 apply mwp_bind, mwp_uld32. rewrite H2. apply mwp_bind.
  eapply mwp_mono; [by apply (_gettoken_spec fuel m q l)|]. intros n m1 H1.
  apply mwp_bind, mwp_ust32, mwp_ret. split; [done|]. by exists n, m1.
Qed.
Lemma pending_nc m v tk t a q l :
  (forall b, q <= b <= q + Z.of_nat (length l) -> off_vars b) ->
  (forall b, a <= b < q -> off_vars b) -> pending m tk t a q l -> pending (store32 m nc v) tk t a q l.
Proof.
  intros Hoff Hoa (Hc & Ht & Hp). split; [|split; [done|]].
  - eapply cstr_at_ext; [|exact Hc]. intros k Hk. symmetry. apply load8_var; [unfold var; auto|auto].
  - destruct tk as [c|w]; [done|]. destruct Hp as (? & -> & Hw & ?). split_and!; try done.
    eapply cstr_at_ext; [|exact Hw]. intros k Hk. rewrite length_app in Hk.
    symmetry. apply load8_var; [unfold var; auto|]. destruct (decide (k < a + Z.of_nat (length w))); [apply Hoa; lia|apply Hoff; lia].
Qed.
(** The word read last keeps its bytes and gets its NUL. *)
Lemma tok_at_keep m m' tk t a q l :
  pending m tk t a q l -> (forall b, a <= b < q -> load8 m' b = load8 m b) ->
  (word_end l -> load8 m' q = 0) -> tok_at m' tk (t, a).
Proof.
  intros (_ & _ & Hp) Hb H0. destruct tk as [c|w]; [done|]. destruct Hp as (-> & -> & Hw & Hwe).
  split; [done|]. cbn [snd]. eapply cstr_at_cut; [exact Hw|exact Hb|by apply H0].
Qed.
Lemma tokens_spec fuel k m tk t a q l :
  pending m tk t a q l -> in_line q l -> a <= q -> (forall b, a <= b < q -> off_vars b) ->
  load32 m nc = t -> load32 m np1 = a -> load32 m np2 = q -> quiet m ->
  (length l < fuel)%nat -> (S (length l) < k)%nat ->
  mwp (all_tokens fuel k) (fun res m' => Forall2 (tok_at m') (tk :: lex [] l) res /\
    forall b, off_vars b -> ~ (q <= b <= q + Z.of_nat (length l)) -> load8 m' b = load8 m b) m.
Proof.
  revert m tk t a q l. induction k as [|k IH]; intros m tk t a q l Hp Hl Haq Hoa Hnc H1 H2 Hd Hf Hk; [lia|].
  pose proof Hp as (Hc & Ht & _). pose proof Hl as (Hq & Hmx & Hoff). cbn [all_tokens]. apply mwp_bind.
  eapply mwp_mono; [by apply (gettoken_next fuel m q l)|]. rewrite Hnc, H1.
  intros ct m2 (-> & n & m1 & (Hfr & Hd1 & Hnc1 & Hwe & Hcase) & ->). cbn [fst].
  destruct (Z.eqb_spec t 0); [lia|]. apply mwp_bind. destruct (keep_nc m1 n) as (K1 & K2 & K3).
  assert (Hb2 : forall b, off_vars b -> load8 (store32 m1 nc n) b = load8 m1 b).
  { intros b Hb. apply load8_var; unfold var; auto. }
  assert (Hd2 : quiet (store32 m1 nc n)) by (unfold quiet; rewrite K1; exact Hd1).
  destruct Hcase as [(El & -> & E1 & E2)|(tk' & l' & a' & q' & El & Hp' & E1 & E2 & Hqa & Hlt & Hlen)].
  - destruct k as [|k]; [lia|]. cbn [all_tokens]. apply mwp_bind.
    eapply mwp_mono; [apply gettoken_end; [done|by rewrite K3]|]. intros ct m3 (-> & ->).
    rewrite load32_store32_eq. cbn [fst]. change (u32 0 =? 0) with true. apply mwp_ret. apply mwp_ret.
    rewrite El.
    assert (Hb3 : forall b, off_vars b -> load8 (store32 (store32 m1 nc 0) nc 0) b = load8 m1 b).
    { intros b Hb. rewrite load8_var by (unfold var; auto). by apply Hb2. }
    split; [constructor; [|constructor]|].
    + eapply tok_at_keep; [exact Hp| |].
      * intros b Hb. rewrite Hb3 by auto. apply Hfr; [auto|lia].
      * intros Hw. rewrite Hb3 by (apply Hoff; lia). auto.
    + intros b Hb Hn. rewrite Hb3 by done. by apply Hfr.
  - eapply mwp_mono.
    + apply (IH _ tk' n a' q' l'); try done; try lia.
      * apply pending_nc; [|intros b Hb; apply Hoff; lia|done]. intros b Hb. apply Hoff. lia.
      * split_and!; [lia|lia|]. intros b Hb. apply Hoff. lia.
      * intros b Hb. apply Hoff. lia.
      * rewrite load32_store32_eq. apply u32_small. destruct Hp' as (_ & ? & _). lia.
    + intros res m' (Hres & Hfr'). apply mwp_ret. rewrite El. split; [constructor; [|done]|].
      * eapply tok_at_keep; [exact Hp| |].
        -- intros b Hb. rewrite Hfr' by (auto || lia). rewrite Hb2 by auto. apply Hfr; [auto|lia].
        -- intros Hw. rewrite Hfr' by (lia || (apply Hoff; lia)). rewrite Hb2 by (apply Hoff; lia). auto.
      * intros b Hb Hn. rewrite Hfr' by (done || lia). rewrite Hb2 by done. by apply Hfr.
Qed.
End tokens.

(** C36. The shell's tokenizer computes [lex]: started on a line and called
    until it returns 0, [gettoken] returns the tokens of the line one by one,
    symbols as themselves and words as 'w' with a pointer; when it is done,
    every word it pointed at is a NUL-terminated string holding exactly that word,
    although the line was cut up in place one token ahead. *)
Theorem gettoken_lexes debug nc np1 np2 fuel k m s l :
  vars_apart debug nc np1 np2 -> in_line debug nc np1 np2 s l -> cstr_at (load8 m) s l ->
  quiet debug m -> (length l < fuel)%nat -> (S (length l) < k)%nat ->
  exists res m',
    uexec (gettoken_start debug nc np1 np2 fuel s;; all_tokens debug nc np1 np2 fuel k) m = Some (res, m') /\
    Forall2 (tok_at m') (lex [] l) res.
Proof.
  intros Hv Hl Hc Hd Hf Hk.
  assert (H : mwp (gettoken_start debug nc np1 np2 fuel s;; all_tokens debug nc np1 np2 fuel k)
    (fun res m' => Forall2 (tok_at m') (lex [] l) res) m).
  { apply mwp_bind. unfold gettoken_start. apply mwp_bind.
    eapply mwp_mono; [by apply (_gettoken_spec debug nc np1 np2 Hv fuel m s l)|].
    intros n m1 (_ & Hd1 & _ & _ & Hcase). apply mwp_bind, mwp_ust32, mwp_ret.
    destruct (keep_nc debug nc np1 np2 Hv m1 n) as (K1 & K2 & K3). pose proof Hl as (Hq & Hmx & Hoff).
    assert (Hd2 : quiet debug (store32 m1 nc n)) by (unfold quiet; rewrite K1; exact Hd1).
    destruct Hcase as [(-> & -> & _ & E2)|(tk & l' & a & q' & -> & Hp & E1 & E2 & Hqa & Hlt & Hlen)].
    - destruct k as [|k]; [lia|]. cbn [all_tokens]. apply mwp_bind.
      eapply mwp_mono; [apply gettoken_end; [done|by rewrite K3]|]. intros ct m3 (-> & ->).
      rewrite load32_store32_eq. by apply mwp_ret.
    - eapply mwp_mono; [apply (tokens_spec debug nc np1 np2 Hv fuel k _ tk n a q' l'); try lia|].
      + apply (pending_nc debug nc np1 np2); [..|done]; intros b Hb; apply Hoff; lia.
      + split_and!; [lia|lia|]. intros b Hb. apply Hoff. lia.
      + intros b Hb. apply Hoff. lia.
      + rewrite load32_store32_eq. apply u32_small. destruct Hp as (_ & ? & _). lia.
      + done.
      + intros res m' [Hres _]. exact Hres. }
  unfold mwp in H. destruct (uexec _ m) as [[res m']|]; [eauto|done].
Qed.
(** "ab |c" at 0x100, the variables at 0x10 to 0x1f. *)
Definition demo_line : mem :=
  store8 (store8 (store8 (store8 (store8 ∅ 0x100 97) 0x101 98) 0x102 32) 0x103 124) 0x104 99.
Lemma gettoken_lexes_witness :
  exists res m',
    uexec (gettoken_start 0x10 0x14 0x18 0x1c 9 0x100;; all_tokens 0x10 0x14 0x18 0x1c 9 9) demo_line = Some (res, m') /\
    Forall2 (tok_at m') [TWord [97; 98]; TSym 124; TWord [99]] res.
Proof.
  apply (gettoken_lexes 0x10 0x14 0x18 0x1c 9 9 demo_line 0x100 [97; 98; 32; 124; 99]).
  - intros a b Hab. rewrite !elem_of_cons, elem_of_nil in Hab. destruct_or?; simplify_eq; lia.
  - split_and!; [lia|cbn; lia|]. intros b Hb a Ha. cbn in Hb. unfold var in Ha. lia.
  - cbn [cstr_at]. split_and!; try lia; vm_compute; reflexivity.
  - unfold quiet. vm_compute. discriminate.
  - cbn. lia.
  - cbn. lia.
Defined.
