(* ===== verification/CowProps.v ===== *)
(** * Copy-on-write: user code and the kernel together

    [duppage] (fork.c) is a user program; its system calls run in the kernel
    model.  The theorem composes the two: what the library relies on
    [sys_page_map] for, and that afterwards neither the parent nor the child
    can write the page they share. *)
From S2P Require Import Prelude Layout Mem CString Printf Console Kern Pmap PmapFree Vm EnvMod EnvProps TrapMod User.

(** ** Programs in the kernel *)
Lemma urun_bind {A B} (p : uprog A) (f : A -> uprog B) k :
  urun (p ≫= f) k = (urun p ≫= fun a => urun (f a)) k.
Proof.
  change (p ≫= f) with (ubind f p). revert k.
  assert (Hb : forall {C} (m : K C) (g : C -> uprog A), (forall c k, urun (ubind f (g c)) k = (urun (g c) ≫= fun a => urun (f a)) k) ->
    forall k, (m ≫= fun c => urun (ubind f (g c))) k = ((m ≫= fun c => urun (g c)) ≫= fun a => urun (f a)) k).
  { intros C m g Hg k. unfold mbind, ST_bind, st_bind. destruct (m k); done. }
  induction p; intros k'; cbn [ubind urun]; try done; apply Hb; auto.
Qed.
Lemma wp_urun_bind {A B} (p : uprog A) (f : A -> uprog B) Q E k :
  wp (urun p) (fun a k' => wp (urun (f a)) Q E k') E k -> wp (urun (p ≫= f)) Q E k.
Proof. intros H. apply wp_bind in H. eapply wp_ext; [apply urun_bind|exact H]. Qed.
Lemma wp_urun_ret {A} (a : A) Q E k : Q a k -> wp (urun (mret a)) Q E k.
Proof. apply wp_ret. Qed.

(** [uvpt[pn]] is the entry of the page, when its table exists. *)
Lemma wp_uvpt pd va pn Q E k : cr3 k = pd -> va = pn * 4096 -> 0 <= va < UTOP ->
  Z.land (pde (pmem k) pd (PDX va)) PTE_P <> 0 ->
  Q (raw (pmem k) (SPte pd (PDX va) (PTX va))) k -> wp (urun (uvpt pn)) Q E k.
Proof.
  intros Hcr -> Hva Hpr HQ. rewrite UTOP_range in Hva. unfold uvpt. cbn [urun].
  apply wp_bind. unfold read_pte. apply wp_bind. unfold read_pde. apply wp_kget. rewrite Hcr.
  assert (Ed : pn / 1024 = PDX (pn * 4096)) by (rewrite PDX_eq by lia; zdiv).
  assert (Et : pn mod 1024 = PTX (pn * 4096)) by (rewrite PTX_eq by lia; zdiv).
  rewrite Ed, Et. fold (pde (pmem k) pd (PDX (pn * 4096))).
  rewrite (proj2 (Z.eqb_neq _ _) Hpr). apply wp_pload. apply wp_ret.
  cbn [raw] in HQ. rewrite (proj2 (Z.eqb_neq (pde _ _ _) 0)) in HQ; [exact HQ|].
  intros H0. apply Hpr. by rewrite H0.
Qed.

(** ** Counting references *)
Lemma count_le m m' dirs f (exc : list slot) :
  NoDup dirs -> (forall s, s ∈ slots dirs -> s ∉ exc -> raw m' s = raw m s) ->
  count m' dirs f <= count m dirs f + Z.of_nat (length exc).
Proof.
  intros Hnd Hraw. unfold count.
  assert (Hsub : filter (fun s => target m' s = Some f) (slots dirs) ⊆+
    filter (fun s => target m s = Some f) (slots dirs) ++ exc).
  { apply NoDup_submseteq; [by apply NoDup_filter, NoDup_slots|].
    intros s [Ht Hs]%list_elem_of_filter. apply elem_of_app.
    destruct (decide (s ∈ exc)) as [|Hn]; [by right|left]. apply list_elem_of_filter.
    split; [|done]. unfold target in *. by rewrite <- Hraw. }
  apply submseteq_length in Hsub. rewrite length_app in Hsub. lia.
Qed.

Section vm.
Context (dirs : list Z) (extra : Z -> Z).

(** After an insertion the counts have grown by at most two. *)
Lemma inserted_ref k l pd va pp perm k' f p p' :
  vm_ok dirs extra l k -> inserted dirs pd va k pp perm extra k' -> f <> 0 ->
  pages k !! f = Some p -> pages k' !! f = Some p' -> pp_ref p' <= pp_ref p + 2.
Proof.
  intros HV (_ & Ho & _ & (l' & HV') & _) Hf Hp Hp'.
  destruct (vm_ref _ _ _ _ HV f p Hf Hp) as [_ ->]. destruct (vm_ref _ _ _ _ HV' f p' Hf Hp') as [_ ->].
  pose proof (count_le (pmem k) (pmem k') dirs f [SPte pd (PDX va) (PTX va); STab pd (PDX va)]
    (vm_nodup _ _ _ _ HV)) as Hc.
  cbn [length] in Hc. enough (count (pmem k') dirs f <= count (pmem k) dirs f + 2) by lia. apply Hc.
  intros s Hs Hn. apply Ho; [done|intros ->; apply Hn; left|intros ->; exfalso; apply Hn; right; left].
Qed.

(** [sys_page_map] shares a page: the entry of the target gets it with the
    permissions asked for. *)
Lemma sys_page_map_ok l k srcid src srcva dstid dst dstva perm f p :
  vm_ok dirs extra l k ->
  envid2env srcid true k = Ret (Some (Some src)) k -> envid2env dstid true k = Ret (Some (Some dst)) k ->
  env_pgdir (envs_at k src) ∈ dirs -> env_pgdir (envs_at k dst) ∈ dirs ->
  0 <= srcva < UTOP -> srcva mod 4096 = 0 -> 0 <= dstva < UTOP -> dstva mod 4096 = 0 ->
  perm_ok perm = true -> 0 <= perm < 4096 -> Z.land perm PTE_W = 0 ->
  target (pmem k) (SPte (env_pgdir (envs_at k src)) (PDX srcva) (PTX srcva)) = Some f ->
  pages k !! f = Some p -> pp_ref p < 65535 ->
  let pd := env_pgdir (envs_at k dst) in
  wp (sys_page_map srcid srcva dstid dstva perm) (fun r k' =>
    (r = - E_NO_MEM /\ k' = k /\ l = [] /\ pde (pmem k) pd (PDX dstva) = 0) \/
    (r = 0 /\ inserted dirs pd dstva k f perm extra k')) (fun _ _ => False) k.
Proof.
  intros HV Hsrc Hdst Hps Hpd Hs Hsa Hd Hda Hok Hperm Hw Ht Hp Hr pd. subst pd.
  rewrite UTOP_range in Hs, Hd.
  assert (Hu : forall va, 0 <= va < 0xEEC00000 -> va mod 4096 = 0 -> user_page va = true).
  { intros va Hva Ha. unfold user_page. rewrite u32_small by lia. change PGSIZE with 4096. rewrite Ha.
    rewrite UTOP_range, Z.geb_leb. destruct (Z.leb_spec 0xEEC00000 va); [lia|done]. }
  unfold sys_page_map, with_env. apply wp_bind. eapply wp_run; [exact Hsrc|]. cbv beta iota.
  apply wp_bind. eapply wp_run; [exact Hdst|]. cbv beta iota. rewrite !Hu by done. cbn [andb negb].
  rewrite Hok. cbn [negb]. ksteps.
  destruct (pte_slot_present k (env_pgdir (envs_at k src)) srcva ltac:(rewrite UTOP_range; lia) f Ht)
    as (Hne & Hf0 & Hfb & Hpa).
  unfold page_lookup. kstep. apply pgdir_walk_old; [done|]. kstep. kstep. kstep. rewrite Hpa, Hw.
  cbv beta iota. cbn [Z.eqb negb andb]. kstep. kstep. kstep.
  destruct (va_slot dirs (env_pgdir (envs_at k src)) srcva Hps ltac:(rewrite UTOP_range; lia)) as [Hsl _].
  pose proof (vm_target_used dirs extra l k HV _ _ Hsl Ht) as Hfl.
  pose proof (pte_no_table dirs extra l k _ f HV Hsl eq_refl Ht) as Hnt.
  eapply wp_mono; [eapply (page_insert_ok dirs (env_pgdir (envs_at k dst)) dstva Hpd); try done; rewrite UTOP_range; lia| |done].
  cbv beta. intros r k' [(-> & -> & -> & Hz)|(-> & Hi & _)].
  - cbn. apply wp_ret. by left.
  - cbn. apply wp_ret. by right.
Qed.
End vm.

(** ** Copying a page of the address space *)
Lemma wp_usys_page_map s va d va' perm Q E k :
  wp (sys_page_map (s32 (u32 s)) (u32 va) (s32 (u32 d)) (u32 va') (s32 (u32 perm)))
    (fun r k' => r <= 0 /\ Q r k') E k ->
  wp (urun (usys_page_map s va d va' perm)) Q E k.
Proof.
  intros H. unfold usys_page_map, usyscall. cbn [urun].
  apply wp_bind. eapply wp_mono; [exact H| |done]. cbv beta. intros r k' [Hr HQ].
  cbn [andb]. rewrite Z.gtb_ltb. destruct (Z.ltb_spec 0 r); [lia|]. cbn [urun]. by apply wp_ret.
Qed.
Lemma envs_at_frame k k' i : vm_frame k k' -> envs_at k' i = envs_at k i.
Proof. intros H. unfold vm_frame in H. rewrite H. done. Qed.
Lemma envid2env_same k k' id chk r : curenv k' = curenv k -> envs k' = envs k ->
  envid2env id chk k = Ret r k -> envid2env id chk k' = Ret r k'.
Proof.
  intros Hc He. unfold envid2env. krun. destruct (id =? 0); [rewrite Hc; by intros [= ->]|].
  krun. unfold envs_at. rewrite Hc, He. generalize (envs k !! ENVX id). intros o.
  destruct (_ || _); [by intros [= ->]|]. destruct (_ && _); krun; [|by intros [= ->]].
  destruct (curenv k); [|done]. krun. unfold envs_at. rewrite He. destruct (negb _); by intros [= ->].
Qed.
Lemma envid2env_frame k k' id chk r : vm_frame k k' ->
  envid2env id chk k = Ret r k -> envid2env id chk k' = Ret r k'.
Proof. intros H. apply envid2env_same; unfold vm_frame in H; by rewrite H. Qed.

(** An entry without [PTE_W] cannot be written through. *)
Lemma utranslate_readonly k pd va off v : cr3 k = pd -> va mod 4096 = 0 -> 0 <= va < UTOP -> 0 <= off < 4096 ->
  raw (pmem k) (SPte pd (PDX va) (PTX va)) = v -> Z.land v PTE_W = 0 -> utranslate k true (va + off) = None.
Proof.
  intros Hcr Ha Hva Hoff Hv Hw. rewrite UTOP_range in Hva. unfold utranslate. rewrite Hcr.
  assert (Ed : PDX (va + off) = PDX va) by (rewrite !PDX_eq by lia; zdiv).
  assert (Et : PTX (va + off) = PTX va) by (rewrite !PTX_eq by lia; zdiv).
  rewrite Ed, Et. fold (pde (pmem k) pd (PDX va)). cbn [raw] in Hv. unfold table_of in Hv.
  destruct (Z.eqb_spec (pde (pmem k) pd (PDX va)) 0) as [E|_].
  - rewrite E. reflexivity.
  - rewrite Hv, Hw. cbn [Z.eqb negb orb]. by rewrite !andb_false_r.
Qed.
Lemma cow_entry_readonly f : 0 <= f < 2 ^ 20 -> Z.land (pte_value f cow) PTE_W = 0.
Proof.
  intros Hf. assert (Hc : 0 <= cow < 4096) by (split; [done|reflexivity]).
  destruct (pte_value_eq f cow Hf Hc) as (_ & _ & Hm).
  change PTE_W with (Z.land (Z.ones 12) PTE_W). rewrite Z.land_assoc, Z.land_ones by lia.
  change (2 ^ 12) with 4096. rewrite Hm. reflexivity.
Qed.

Section duppage.
Context (dirs : list Z) (extra : Z -> Z).

(** The last call of [duppage], on the page's own entry, cannot fail. *)
Lemma duppage_own l k c va f p :
  vm_ok dirs extra l k -> curenv k = Some c -> env_pgdir (envs_at k c) ∈ dirs ->
  0 <= va < UTOP -> va mod 4096 = 0 ->
  target (pmem k) (SPte (env_pgdir (envs_at k c)) (PDX va) (PTX va)) = Some f ->
  pages k !! f = Some p -> pp_ref p < 65535 ->
  wp (urun (usys_page_map 0 va 0 va cow))
    (fun r k' => r = 0 /\ inserted dirs (env_pgdir (envs_at k c)) va k f cow extra k') (fun _ _ => False) k.
Proof.
  intros HV Hc Hp Hva Ha Ht Hpp Hr. apply wp_usys_page_map. rewrite UTOP_range in Hva.
  rewrite (u32_small va) by lia. change (s32 (u32 0)) with 0. change (s32 (u32 cow)) with cow.
  assert (He : envid2env 0 true k = Ret (Some (Some c)) k) by (unfold envid2env; krun; by rewrite Hc).
  eapply wp_mono; [eapply (sys_page_map_ok dirs extra); try done; rewrite ?UTOP_range; done| |done].
  cbv beta. intros r k' [(_ & _ & _ & Hz)|(-> & Hi)]; [|by split].
  destruct (pte_slot_present k (env_pgdir (envs_at k c)) va ltac:(rewrite UTOP_range; lia) f Ht) as (Hne & _).
  done.
Qed.

Lemma duppage_ok l k c e child pn f p :
  let va := pn * 4096 in
  let pc := env_pgdir (envs_at k c) in let pe := env_pgdir (envs_at k e) in
  let parent := SPte pc (PDX va) (PTX va) in let copy := SPte pe (PDX va) (PTX va) in
  vm_ok dirs extra l k -> curenv k = Some c -> cr3 k = pc -> pc ∈ dirs -> pe ∈ dirs -> pc <> pe ->
  envid2env child true k = Ret (Some (Some e)) k -> 0 <= child < 2 ^ 31 ->
  0 <= va < UTOP -> Z.land (pde (pmem k) pc (PDX va)) PTE_P <> 0 ->
  Z.land (raw (pmem k) parent) PTE_SHARE = 0 ->
  Z.land (raw (pmem k) parent) PTE_W <> 0 \/ Z.land (raw (pmem k) parent) PTE_COW <> 0 ->
  target (pmem k) parent = Some f -> pages k !! f = Some p -> pp_ref p < 65533 ->
  l <> [] \/ pde (pmem k) pe (PDX va) <> 0 ->
  wp (urun (duppage child pn)) (fun r k' => r = 0 /\
    raw (pmem k') parent = pte_value f cow /\ raw (pmem k') copy = pte_value f cow /\
    (forall s, s ∈ slots dirs -> s <> parent -> s <> copy ->
       (s = STab pe (PDX va) -> pde (pmem k) pe (PDX va) <> 0) -> raw (pmem k') s = raw (pmem k) s) /\
    vm_frame k k' /\ exists l', vm_ok dirs extra l' k') (fun _ _ => False) k.
Proof.
  intros va pc pe parent copy HV Hc Hcr Hpc Hpe Hne He Hid Hva Hpr Hsh Hwc Ht Hp Hr Hroom.
  assert (Hu : u32 (pn * PGSIZE) = va) by (rewrite UTOP_range in Hva; apply u32_small; change PGSIZE with 4096; lia).
  assert (Hva0 : va mod 4096 = 0) by apply Z_mod_mult.
  assert (Hapart : parent <> copy) by (unfold parent, copy; congruence).
  assert (Hslots : parent ∈ slots dirs /\ copy ∈ slots dirs).
  { split; apply elem_of_slots; (split; [done|]); (split; [by apply va_d|apply PTX_bound]). }
  destruct (pte_slot_present k pc va Hva f Ht) as (Hne0 & Hf0 & Hfb & _).
  assert (E0 : envid2env 0 true k = Ret (Some (Some c)) k) by (unfold envid2env; krun; by rewrite Hc).
  unfold duppage. rewrite Hu. apply wp_urun_bind. apply (wp_uvpt pc va pn); try done. fold parent.
  rewrite Hsh. cbn [Z.eqb negb]. apply wp_urun_bind. apply (wp_uvpt pc va pn); try done. fold parent.
  assert (Hbranch : forall (Q : bool -> kern -> Prop), Q true k ->
    wp (urun (if negb (Z.land (raw (pmem k) parent) PTE_W =? 0) then mret true
              else c ← uvpt pn; mret (negb (Z.land c PTE_COW =? 0)))) Q (fun _ _ => False) k).
  { intros Q HQ. destruct (Z.eqb_spec (Z.land (raw (pmem k) parent) PTE_W) 0) as [Ew|Ew]; cbn [negb];
      [|by apply wp_urun_ret].
    apply wp_urun_bind. apply (wp_uvpt pc va pn); try done. fold parent. apply wp_urun_ret.
    destruct Hwc as [?|Hw]; [done|]. by rewrite (proj2 (Z.eqb_neq _ _) Hw). }
  apply wp_urun_bind, Hbranch. cbv iota. apply wp_urun_bind. apply wp_urun_bind. apply wp_usys_page_map.
  rewrite (u32_small va) by (rewrite UTOP_range in Hva; lia). change (s32 (u32 0)) with 0.
  rewrite (u32_small child), (s32_small child) by lia. change (s32 (u32 cow)) with cow.
  assert (Hcow : 0 <= cow < 4096) by (split; [done|reflexivity]).
  eapply wp_mono; [exact (sys_page_map_ok dirs extra l k 0 c va child e va cow f p HV E0 He Hpc Hpe
    Hva Hva0 Hva Hva0 eq_refl Hcow eq_refl Ht Hp ltac:(lia))| |done]. cbv beta.
  intros r k1 [(_ & _ & -> & Hz)|(-> & Hi)]; [by destruct Hroom|].
  split; [done|]. cbn [Z.ltb Z.compare]. apply wp_urun_ret.
  pose proof Hi as (Hr1 & Ho1 & Hfr1 & (l1 & HV1) & _). fold copy in Hr1, Ho1.
  assert (Hpar : raw (pmem k1) parent = raw (pmem k) parent) by (apply Ho1; [apply Hslots|exact Hapart|done]).
  assert (Ht1 : target (pmem k1) parent = Some f) by (unfold target in *; by rewrite Hpar).
  destruct (vm_target _ _ _ _ HV1 parent f ltac:(apply Hslots) Ht1) as [p1 Hp1].
  pose proof (inserted_ref dirs extra k l _ _ _ _ k1 f p p1 HV Hi Hf0 Hp Hp1) as Hrf.
  assert (Hpc1 : env_pgdir (envs_at k1 c) = pc) by (by rewrite (envs_at_frame k k1)).
  assert (Hc1 : curenv k1 = Some c) by (unfold vm_frame in Hfr1; by rewrite Hfr1).
  apply wp_urun_bind. apply wp_urun_bind.
  pose proof (duppage_own l1 k1 c va f p1 HV1 Hc1) as Hown. rewrite Hpc1 in Hown.
  eapply wp_mono; [apply Hown; try done; lia| |done]. cbv beta.
  intros r k2 [-> (Hr2 & Ho2 & Hfr2 & (l2 & HV2) & _)]. fold parent in Hr2, Ho2.
  cbn [Z.ltb Z.compare]. apply wp_urun_ret. apply wp_urun_ret. split_and!; try done.
  - rewrite Ho2; [exact Hr1|apply Hslots|by apply not_eq_sym|done].
  - intros s Hs Hsp Hsc Htab. rewrite Ho2; [by apply Ho1|done|done|]. intros ->.
    destruct (Z.eqb_spec (pde (pmem k1) pc (PDX va)) 0) as [Ez|]; [|done].
    destruct (pte_slot_present k1 pc va Hva f Ht1) as (? & _). done.
  - by eapply vm_frame_trans.
  - by exists l2.
Qed.
End duppage.

(** Fork shares pages copy-on-write.  [duppage] of a page of the current
    environment that is writable or already copy-on-write, and not marked as
    shared, maps the same physical page in the child at the same address;
    then both entries hold it as user, present and copy-on-write, so that
    neither environment can write the page; every other entry of every
    address space is as before and the reference counts are exact. *)
Theorem duppage_copy_on_write dirs extra l k c e child pn f p :
  let va := pn * 4096 in
  let pc := env_pgdir (envs_at k c) in let pe := env_pgdir (envs_at k e) in
  let parent := SPte pc (PDX va) (PTX va) in let copy := SPte pe (PDX va) (PTX va) in
  vm_ok dirs extra l k -> curenv k = Some c -> cr3 k = pc -> pc ∈ dirs -> pe ∈ dirs -> pc <> pe ->
  envid2env child true k = Ret (Some (Some e)) k -> 0 <= child < 2 ^ 31 ->
  0 <= va < UTOP -> Z.land (pde (pmem k) pc (PDX va)) PTE_P <> 0 ->
  Z.land (raw (pmem k) parent) PTE_SHARE = 0 ->
  Z.land (raw (pmem k) parent) PTE_W <> 0 \/ Z.land (raw (pmem k) parent) PTE_COW <> 0 ->
  target (pmem k) parent = Some f -> pages k !! f = Some p -> pp_ref p < 65533 ->
  l <> [] \/ pde (pmem k) pe (PDX va) <> 0 ->
  exists k' l', urun (duppage child pn) k = Ret 0 k' /\ vm_ok dirs extra l' k' /\ vm_frame k k' /\
    raw (pmem k') parent = Z.lor (4096 * f) cow /\ raw (pmem k') copy = Z.lor (4096 * f) cow /\
    (forall s, s ∈ slots dirs -> s <> parent -> s <> copy ->
       (s = STab pe (PDX va) -> pde (pmem k) pe (PDX va) <> 0) -> raw (pmem k') s = raw (pmem k) s) /\
    (forall off, 0 <= off < 4096 -> utranslate k' true (va + off) = None /\
       utranslate (k' {{ cr3 := pe }}) true (va + off) = None).
Proof.
  intros va pc pe parent copy HV Hc Hcr Hpc Hpe Hne He Hid Hva Hpr Hsh Hwc Ht Hp Hr Hroom.
  pose proof (duppage_ok dirs extra l k c e child pn f p HV Hc Hcr Hpc Hpe Hne He Hid Hva Hpr Hsh Hwc
    Ht Hp Hr Hroom) as H.
  apply wp_ret_inv in H as (r & k' & E & -> & Hr1 & Hr2 & Ho & Hfr & l' & HV').
  destruct (vm_pages _ _ _ _ HV f p Hp) as [Hf _].
  assert (Hval : pte_value f cow = Z.lor (4096 * f) cow).
  { unfold pte_value. rewrite page2pa_eq by done. rewrite <- Z.lor_assoc. reflexivity. }
  exists k', l'. rewrite <- Hval. split_and!; try done.
  intros off Hoff. assert (Ha : va mod 4096 = 0) by apply Z_mod_mult. split.
  - eapply (utranslate_readonly k' pc); try done; [|by apply cow_entry_readonly].
    unfold vm_frame in Hfr. by rewrite Hfr.
  - eapply (utranslate_readonly (k' {{ cr3 := pe }}) pe); try done. by apply cow_entry_readonly.
Qed.

(** ** An example: two address spaces *)

Lemma vm_ok_same dirs extra l k k' : pmem k' = pmem k -> pages k' = pages k ->
  page_free_list k' = page_free_list k -> vm_ok dirs extra l k -> vm_ok dirs extra l k'.
Proof.
  intros Hm Hp Hf []. split; rewrite ?Hm, ?Hp; try done. unfold free_list. by rewrite Hp, Hf.
Qed.
(** A cleared page held by somebody becomes a directory. *)
Lemma count_cons m pd dirs f : (forall d, 0 <= d < UD -> pde m pd d = 0) ->
  count m (pd :: dirs) f = count m dirs f + one (bool_decide (pd / 4096 = f)).
Proof.
  intros Hz. unfold count, slots. cbn [mbind list_bind]. rewrite filter_app, length_app.
  enough (Z.of_nat (length (filter (fun s => target m s = Some f) (dir_slots pd))) =
    one (bool_decide (pd / 4096 = f))) by (unfold slots in *; lia).
  unfold dir_slots. rewrite filter_cons.
  assert (Hnil : filter (fun s => target m s = Some f) (d ← seqZ 0 UD; tab_slots pd d) = []).
  { apply elem_of_nil_inv. intros s [Hts (d & Hs & Hd)%list_elem_of_bind]%list_elem_of_filter. revert Hts.
    apply elem_of_seqZ in Hd. apply elem_of_tab_slots in Hs.
    destruct Hs as [-> | (t & -> & _)]; unfold target; cbn [raw refers]; rewrite Hz by lia; done. }
  rewrite Hnil. unfold target. cbn [raw refers]. unfold one.
  case_decide as E; case_bool_decide; simplify_eq; done.
Qed.
Lemma vm_add_dir dirs extra l k pd p :
  vm_ok dirs extra l k -> pd mod 4096 = 0 -> 0 < pd < 2 ^ 32 ->
  pages k !! (pd / 4096) = Some p -> pp_ref p = 1 -> extra (pd / 4096) = 1 -> pd / 4096 ∉ l ->
  (forall d, 0 <= d < UD -> pde (pmem k) pd d = 0) ->
  vm_ok (pd :: dirs) (fun i => extra i - one (bool_decide (pd / 4096 = i))) l k.
Proof.
  intros HV Ha Hb Hp Hr Hx Hl Hz. pose proof HV as [Hf H0 Hnd Hpg Hd Ht Htab Href].
  assert (Hf0 : pd / 4096 <> 0) by zdiv.
  assert (Hc0 : count (pmem k) dirs (pd / 4096) = 0) by (destruct (Href _ _ Hf0 Hp); lia).
  assert (Hno : forall s, s ∈ slots dirs -> target (pmem k) s <> Some (pd / 4096)).
  { intros s Hs Hts. pose proof (count_pos _ _ _ _ Hs Hts). lia. }
  assert (Hslots : forall s, s ∈ slots (pd :: dirs) ->
    s = SDir pd \/ target (pmem k) s = None \/ s ∈ slots dirs).
  { intros s Hs. unfold slots in Hs. cbn [mbind list_bind] in Hs. apply elem_of_app in Hs as [Hs|Hs]; [|by right; right].
    apply elem_of_dir_slots in Hs as [->|(d & Hs & Hd')]; [by left|right; left].
    apply elem_of_tab_slots in Hs as [-> | (t & -> & _)]; unfold target; cbn [raw refers]; by rewrite Hz by lia. }
  split; try done.
  - constructor; [|done]. intros Hin. apply (Hno (SDir pd)); [by apply elem_of_slots|done].
  - intros q [->|Hq]%elem_of_cons; [split; [done|lia]|by apply Hd].
  - intros s f Hs Hts. destruct (Hslots s Hs) as [->|[E|Hs']]; [|congruence|by eapply Ht].
    injection Hts as <-. by eexists.
  - intros s s' f Hs1 Hs2 Hnp Ht1.
    destruct (Hslots _ Hs1) as [->|[E|Hs1']]; [|congruence|]; destruct (Hslots _ Hs2) as [->|[E|Hs2']].
    + injection Ht1 as <-. split; [done|]. by intros _.
    + injection Ht1 as <-. split; [done|]. congruence.
    + injection Ht1 as <-. split; [done|]. by intros ?%Hno.
    + split; [by apply (Htab s s f Hs1' Hs1' Hnp)|]. intros [= <-]. by apply Hno in Ht1.
    + split; [by apply (Htab s s f Hs1' Hs1' Hnp)|]. congruence.
    + by apply Htab.
  - intros i q Hi Hq. destruct (Href i q Hi Hq) as [? ->]. rewrite count_cons by done.
    unfold one. case_bool_decide; subst; lia.
Qed.

Lemma chain_empty pgs h : chain pgs h [] -> h = None.
Proof. by inversion 1. Qed.

(** Environment 0 runs at 0x150000; its child 2 has the directory 0x7000. *)
Definition cow_envs : kern :=
  vm_demo {{ envs := <[0 := (env_at 0 0 ENV_RUNNING) {{ env_pgdir := 0x150000 }}]>
                     {[ 2 := (env_at 2 4096 ENV_NOT_RUNNABLE) {{ env_pgdir := 0x7000 }} ]};
             curenv := Some 0; cr3 := 0x150000 }}.
(** Page 9 is mapped writable at 0x800000 in environment 0. *)
Definition cow_demo : kern :=
  match page_insert 0x150000 9 0x800000 7 cow_envs with Ret _ k => k | _ => cow_envs end.
Lemma cow_demo_ok : exists extra l, vm_ok [0x7000; 0x150000] extra l cow_demo /\ vm_frame cow_envs cow_demo /\
  raw (pmem cow_demo) (SPte 0x150000 2 0) = pte_value 9 7.
Proof.
  assert (Hd : 0x150000 ∈ [0x7000; 0x150000]) by set_solver.
  assert (Hl7 : 7 ∉ [3; 5]) by set_solver. assert (Hl9 : 9 ∉ [3; 5]) by set_solver.
  assert (HV0 : vm_ok [0x150000] vm_demo_extra [3; 5] cow_envs) by (eapply vm_ok_same; [..|exact vm_demo_ok]; done).
  assert (Hp7 : pages cow_envs !! 7 = Some (mkPageInfo None 1)).
  { change (pages cow_envs) with (pages vm_demo). by rewrite vm_demo_pages. }
  assert (Hp9 : pages cow_envs !! 9 = Some (mkPageInfo None 0)).
  { change (pages cow_envs) with (pages vm_demo). rewrite vm_demo_pages. vm_compute. reflexivity. }
  assert (HV : vm_ok [0x7000; 0x150000] (fun i => vm_demo_extra i - one (bool_decide (7 = i))) [3; 5] cow_envs).
  { apply (vm_add_dir [0x150000] vm_demo_extra [3; 5] cow_envs 0x7000 (mkPageInfo None 1) HV0).
    - reflexivity.
    - by split.
    - exact Hp7.
    - reflexivity.
    - reflexivity.
    - exact Hl7.
    - intros d _. unfold pde. change (pmem cow_envs) with (∅ : mem). apply load32_empty. }
  assert (Hn9 : no_table [0x7000; 0x150000] cow_envs 9).
  { intros s Hs _. change (pmem cow_envs) with (∅ : mem). rewrite target_empty. destruct s; [|discriminate..].
    apply elem_of_slots in Hs. apply elem_of_cons in Hs as [->|Hs]; [discriminate|].
    apply list_elem_of_singleton in Hs as ->. discriminate. }
  assert (Hva : 0 <= 0x800000 < UTOP) by (rewrite UTOP_range; lia).
  pose proof (page_insert_ok [0x7000; 0x150000] 0x150000 0x800000 Hd Hva _ _ cow_envs 9 _ 7 HV Hp9 Hl9
    ltac:(reflexivity) ltac:(by split) Hn9) as H.
  apply wp_ret_inv in H as (r & k' & E & [(_ & _ & Hl & _)|(_ & (Hr & _ & Hfr & (l' & HV') & _) & _)]); [discriminate Hl|].
  unfold cow_demo. rewrite E. exists (fun i => vm_demo_extra i - one (bool_decide (7 = i))), l'.
  exact (conj HV' (conj Hfr Hr)).
Qed.
Lemma duppage_copy_on_write_witness :
  exists k', urun (duppage 4098 0x800) cow_demo = Ret 0 k' /\
    raw (pmem k') (SPte 0x150000 2 0) = 0x9805 /\ raw (pmem k') (SPte 0x7000 2 0) = 0x9805 /\
    utranslate k' true 0x800123 = None.
Proof.
  assert (Hd1 : 0x150000 ∈ [0x7000; 0x150000]) by set_solver.
  assert (Hd2 : 0x7000 ∈ [0x7000; 0x150000]) by set_solver.
  assert (He2 : envid2env 4098 true cow_envs = Ret (Some (Some 2)) cow_envs) by (vm_compute; reflexivity).
  destruct cow_demo_ok as (extra & l & HV & Hfr & Hraw).
  assert (He : forall i, envs_at cow_demo i = envs_at cow_envs i) by (intros i; by apply envs_at_frame).
  assert (Ht : target (pmem cow_demo) (SPte 0x150000 2 0) = Some 9) by (unfold target; rewrite Hraw; reflexivity).
  assert (Hin : SPte 0x150000 2 0 ∈ slots [0x7000; 0x150000]).
  { apply elem_of_slots. split; [exact Hd1|]. split; [by split|by split]. }
  destruct (vm_target _ _ _ _ HV _ _ Hin Ht) as [p Hp].
  assert (Hpr : match pages cow_demo !! 9 with Some p => pp_ref p | None => 0 end = 1) by (vm_compute; reflexivity).
  assert (Hl : page_free_list cow_demo = Some 5) by (vm_compute; reflexivity).
  assert (Hpd : Z.land (pde (pmem cow_demo) 0x150000 2) PTE_P = 1) by (vm_compute; reflexivity).
  pose proof (duppage_copy_on_write [0x7000; 0x150000] extra l cow_demo 0 2 4098 0x800 9 p) as H.
  cbv zeta in H. rewrite (He 0), (He 2) in H. change (env_pgdir (envs_at cow_envs 0)) with 0x150000 in H.
  change (env_pgdir (envs_at cow_envs 2)) with 0x7000 in H.
  change (PDX (0x800 * 4096)) with 2 in H. change (PTX (0x800 * 4096)) with 0 in H.
  rewrite Hraw, Hpd in H. rewrite Hp in Hpr.
  assert (Hl0 : l <> []).
  { intros ->. destruct (vm_free _ _ _ _ HV) as (Hc & _). apply chain_empty in Hc. rewrite Hl in Hc. discriminate Hc. }
  assert (Hcu : curenv cow_demo = Some 0 /\ cr3 cow_demo = 0x150000) by (vm_compute; by split).
  destruct H as (k' & l' & E & _ & _ & H1 & H2 & _ & H3).
  - exact HV.
  - apply Hcu.
  - apply Hcu.
  - exact Hd1.
  - exact Hd2.
  - discriminate.
  - exact (envid2env_frame _ _ _ _ _ Hfr He2).
  - by split.
  - by split.
  - discriminate.
  - reflexivity.
  - left. discriminate.
  - exact Ht.
  - exact Hp.
  - rewrite Hpr. reflexivity.
  - left. exact Hl0.
  - exists k'. exact (conj E (conj H1 (conj H2 (proj1 (H3 0x123 ltac:(by split)))))).
Defined.
