(* ===== verification/SysVm.v ===== *)
(** * What the memory system calls do to address spaces

    [sys_page_alloc], [sys_page_map] and [sys_page_unmap] seen from user mode:
    what every environment reads and can write at every address, before and
    after.  The proofs separate the frames of memory: directories, tables, free
    pages and the pages of the environments ([vm_ok]). *)
From S2P Require Import Prelude Layout Mem CString Printf Console Kern Pmap PmapFree Vm EnvMod EnvProps TrapMod User CowProps.

(** ** What a user program sees *)

(** At [va] in the address space of directory [pd]: the byte, and whether it
    can be written; [None] when an access faults. *)
Definition user_view (k : kern) (pd va : Z) : option (Z * bool) :=
  let k := k {{ cr3 := pd }} in
  match utranslate k false va with
  | Some pa => Some (load8 (pmem k) pa, bool_decide (utranslate k true va <> None))
  | None => None
  end.
(** No program could tell the two states apart at [va] in [pd]. *)
Definition same_view (pd va : Z) (k k' : kern) : Prop := user_view k' pd va = user_view k pd va.
#[export] Instance same_view_equiv pd va : Equivalence (same_view pd va).
Proof. split; unfold same_view; [by intros k|by intros k k' ->|by intros k1 k2 k3 -> ->]. Qed.

Definition PTE_OK (e : Z) : bool := negb (Z.land e PTE_P =? 0) && negb (Z.land e PTE_U =? 0).
Lemma user_view_eq k pd va :
  user_view k pd va =
  let pde := load32 (pmem k) (pd + 4 * PDX va) in
  let pte := load32 (pmem k) (PTE_ADDR pde + 4 * PTX va) in
  if PTE_OK pde && PTE_OK pte then
    Some (load8 (pmem k) (PTE_ADDR pte + PGOFF va),
      negb (Z.land pde PTE_W =? 0) && negb (Z.land pte PTE_W =? 0))
  else None.
Proof.
  unfold user_view, utranslate, PTE_OK. change (cr3 (k {{ cr3 := pd }})) with pd.
  change (pmem (k {{ cr3 := pd }})) with (pmem k). cbv zeta.
  set (d := load32 _ (pd + _)). set (e := load32 _ (PTE_ADDR d + _)).
  destruct (Z.land d PTE_P =? 0), (Z.land d PTE_U =? 0), (Z.land e PTE_P =? 0), (Z.land e PTE_U =? 0),
    (Z.land d PTE_W =? 0), (Z.land e PTE_W =? 0); cbn [negb andb orb]; reflexivity.
Qed.
(** The view in terms of the slots. *)
Lemma user_view_raw k pd va :
  user_view k pd va =
  let pde := pde (pmem k) pd (PDX va) in
  let pte := raw (pmem k) (SPte pd (PDX va) (PTX va)) in
  if PTE_OK pde && PTE_OK pte then
    Some (load8 (pmem k) (PTE_ADDR pte + PGOFF va),
      negb (Z.land pde PTE_W =? 0) && negb (Z.land pte PTE_W =? 0))
  else None.
Proof.
  rewrite user_view_eq. cbn [raw]. unfold table_of. fold (pde (pmem k) pd (PDX va)).
  destruct (Z.eqb_spec (pde (pmem k) pd (PDX va)) 0) as [E|]; [|done]. by rewrite E.
Qed.

(** A page an entry maps is no table. *)
Lemma mapped_no_table dirs extra l k pd va f perm : vm_ok dirs extra l k -> pd ∈ dirs -> 0 <= va < UTOP ->
  0 <= f < 2 ^ 20 -> 0 <= perm < 4096 ->
  raw (pmem k) (SPte pd (PDX va) (PTX va)) = pte_value f perm -> no_table dirs k f.
Proof.
  intros HV Hp Hva Hf Hperm Hraw. destruct (decide (f = 0)) as [->|Hf0]; [by apply (zero_no_table dirs extra l)|].
  apply (pte_no_table dirs extra l k (SPte pd (PDX va) (PTX va))); [done|by apply va_slot|done|].
  unfold target. rewrite Hraw. cbn [refers]. destruct (pte_value_eq f perm Hf Hperm) as (-> & _).
  rewrite (proj2 (Z.eqb_neq (4096 * f) 0)) by lia. f_equal. zdiv.
Qed.

(** ** Frames that are not touched *)
Section frames.
Context (dirs : list Z) (extra : Z -> Z).

(** Bytes of free pages do not matter to the slots. *)
Lemma raw_free_bytes l k m' : vm_ok dirs extra l k ->
  (forall x, x / 4096 ∉ l -> load8 m' x = load8 (pmem k) x) ->
  forall s, s ∈ slots dirs -> raw m' s = raw (pmem k) s.
Proof.
  intros HV Hm. pose proof UD_bound as HU.
  assert (Hpde : forall pd d, pd ∈ dirs -> 0 <= d < UD -> pde m' pd d = pde (pmem k) pd d).
  { intros pd d Hp Hd. apply load32_bytes_ext. intros b Hb. apply Hm.
    destruct (vm_dir _ _ _ _ HV pd Hp). replace (b / 4096) with (pd / 4096) by zdiv.
    eapply (vm_target_used dirs extra l k HV (SDir pd)); [by apply elem_of_slots|done]. }
  intros s Hs. pose proof Hs as Hs'. apply elem_of_slots in Hs. destruct s as [pd|pd d|pd d t]; cbn [raw]; [done|apply Hpde; tauto|].
  destruct Hs as (Hp & Hd & Ht). unfold table_of. rewrite Hpde by done.
  destruct (Z.eqb_spec (pde (pmem k) pd d) 0) as [|Hne]; [done|]. fold (table_of (pmem k) pd d).
  apply load32_bytes_ext. intros b Hb. apply Hm. destruct (table_of_aligned (pmem k) pd d).
  replace (b / 4096) with (table_of (pmem k) pd d / 4096) by zdiv.
  eapply (vm_target_used dirs extra l k HV (STab pd d)); [by apply elem_of_slots|].
  unfold target. cbn [raw refers]. by rewrite (proj2 (Z.eqb_neq _ _) Hne).
Qed.

(** A call that works on the page of [va] in [pd]. *)
Record confined (pd va : Z) (l : list Z) (k k' : kern) : Prop := {
  cf_frame : vm_frame k k';
  cf_raw : forall s, s ∈ slots dirs -> s <> SPte pd (PDX va) (PTX va) ->
    (s = STab pd (PDX va) -> pde (pmem k) pd (PDX va) <> 0) -> raw (pmem k') s = raw (pmem k) s;
  cf_bytes : bytes_kept pd va l k k';
  cf_ok : exists l', vm_ok dirs extra l' k' }.

(** The frame behind an entry is not one the call touches. *)
Lemma frame_apart l l' k k' pd va pd' d t : vm_ok dirs extra l k -> vm_ok dirs extra l' k' ->
  pd ∈ dirs -> 0 <= va < UTOP -> pde (pmem k') pd (PDX va) <> 0 -> SPte pd' d t ∈ slots dirs ->
  raw (pmem k') (SPte pd' d t) = raw (pmem k) (SPte pd' d t) ->
  let f := PTE_ADDR (raw (pmem k) (SPte pd' d t)) / 4096 in
  f <> pd / 4096 /\ f <> table_of (pmem k') pd (PDX va) / 4096 /\ f ∉ l.
Proof.
  intros HV HV' Hp Hva Hne Hs Hraw f.
  assert (Hd : SDir pd ∈ slots dirs) by by apply elem_of_slots.
  assert (Ht : STab pd (PDX va) ∈ slots dirs) by (apply elem_of_slots; split; [done|by apply va_d]).
  assert (Htt : target (pmem k') (STab pd (PDX va)) = Some (table_of (pmem k') pd (PDX va) / 4096)).
  { unfold target. cbn [raw refers]. by rewrite (proj2 (Z.eqb_neq _ _) Hne). }
  assert (Hf : target (pmem k) (SPte pd' d t) = Some f \/ f = 0).
  { unfold target. cbn [refers]. destruct (Z.eqb_spec (PTE_ADDR (raw (pmem k) (SPte pd' d t))) 0) as [E|]; [right|by left].
    unfold f. by rewrite E. }
  destruct Hf as [Hf| ->].
  - assert (Hf' : target (pmem k') (SPte pd' d t) = Some f) by (unfold target in *; by rewrite Hraw).
    split_and!.
    + intros E. eapply (pte_no_table dirs extra l k _ f HV Hs eq_refl Hf (SDir pd) Hd eq_refl). by rewrite E.
    + intros E. eapply (pte_no_table dirs extra l' k' _ f HV' Hs eq_refl Hf' _ Ht eq_refl). by rewrite E.
    + exact (vm_target_used dirs extra l k HV _ f Hs Hf).
  - split_and!; [| |by apply HV].
    + intros E. eapply (zero_no_table dirs extra l k HV (SDir pd) Hd eq_refl). by rewrite E.
    + intros E. eapply (zero_no_table dirs extra l' k' HV' _ Ht eq_refl). by rewrite E.
Qed.

(** Everything outside that page looks the same from user mode. *)
Lemma confined_view l k k' pd va pd' va' : vm_ok dirs extra l k -> pd ∈ dirs -> pd' ∈ dirs ->
  0 <= va < UTOP -> 0 <= va' < UTOP -> pde (pmem k') pd (PDX va) <> 0 -> confined pd va l k k' ->
  (pd', va' / 4096) <> (pd, va / 4096) -> same_view pd' va' k k'.
Proof.
  intros HV Hp Hp' Hva Hva' Hne [_ Hraw Hby [l' HV']] Hx.
  assert (Hs : SPte pd' (PDX va') (PTX va') ∈ slots dirs) by (by apply va_slot).
  assert (Hns : SPte pd' (PDX va') (PTX va') <> SPte pd (PDX va) (PTX va)).
  { intros [= -> E1 E2]. apply Hx. f_equal. rewrite UTOP_range in Hva, Hva'.
    rewrite !PDX_eq in E1 by lia. rewrite !PTX_eq in E2 by lia. zdiv. }
  assert (Hr : raw (pmem k') (SPte pd' (PDX va') (PTX va')) = raw (pmem k) (SPte pd' (PDX va') (PTX va')))
    by (by apply Hraw).
  destruct (frame_apart l l' k k' pd va pd' _ _ HV HV' Hp Hva Hne Hs Hr) as (F1 & F2 & F3).
  unfold same_view. rewrite !user_view_raw. cbv zeta. rewrite Hr.
  set (e := raw (pmem k) _) in *.
  assert (Hb : load8 (pmem k') (PTE_ADDR e + PGOFF va') = load8 (pmem k) (PTE_ADDR e + PGOFF va')).
  { assert (He : 0 <= e < 2 ^ 32) by exact (raw_range (pmem k) (SPte pd' (PDX va') (PTX va'))).
    assert (Hq : (PTE_ADDR e + PGOFF va') / 4096 = PTE_ADDR e / 4096).
    { pose proof (PTE_ADDR_mod e He). rewrite UTOP_range in Hva'. rewrite PGOFF_eq by lia. zdiv. }
    apply Hby; by rewrite Hq. }
  rewrite Hb. destruct (decide (STab pd' (PDX va') = STab pd (PDX va) /\ pde (pmem k) pd (PDX va) = 0)) as [[[= -> Ed] Hz]|Hn].
  - assert (Ez : e = 0) by (unfold e; cbn [raw]; by rewrite Ed, Hz). rewrite Ez, !andb_false_r. done.
  - assert (pde (pmem k') pd' (PDX va') = pde (pmem k) pd' (PDX va')) as ->; [|done].
    apply (Hraw (STab pd' (PDX va'))); [by apply va_slot|done|]. intros E Hz. by apply Hn.
Qed.

(** Bytes of free pages cannot be seen from user mode. *)
Lemma free_bytes_view l k k' pd va : vm_ok dirs extra l k -> pd ∈ dirs -> 0 <= va < UTOP ->
  (forall x, x / 4096 ∉ l -> load8 (pmem k') x = load8 (pmem k) x) -> same_view pd va k k'.
Proof.
  intros HV Hp Hva Hm. pose proof (raw_free_bytes l k (pmem k') HV Hm) as Hraw.
  destruct (va_slot dirs pd va Hp Hva) as [Hs Ht].
  unfold same_view. rewrite !user_view_raw. cbv zeta. rewrite (Hraw _ Hs).
  assert (pde (pmem k') pd (PDX va) = pde (pmem k) pd (PDX va)) as -> by (by apply (Hraw (STab pd (PDX va)))).
  pose proof (raw_range (pmem k) (SPte pd (PDX va) (PTX va))) as He. cbv beta iota in He.
  set (e := raw (pmem k) _) in *.
  rewrite (Hm (PTE_ADDR e + PGOFF va)); [done|].
  pose proof (PTE_ADDR_mod e He). rewrite UTOP_range in Hva.
  replace ((PTE_ADDR e + PGOFF va) / 4096) with (PTE_ADDR e / 4096) by (rewrite PGOFF_eq by lia; zdiv).
  destruct (Z.eqb_spec (PTE_ADDR e) 0) as [->|Hne]; [by apply HV|].
  apply (vm_target_used dirs extra l k HV _ _ Hs). unfold target. fold e. cbn [refers].
  by rewrite (proj2 (Z.eqb_neq _ _) Hne).
Qed.

(** What a call on the page of [va] in [pd] may do: only that page of that
    address space can look different. *)
Record isolated (pd va : Z) (k k' : kern) : Prop := {
  is_frame : vm_frame k k';
  is_ok : exists l', vm_ok dirs extra l' k';
  is_view : forall pd' va', pd' ∈ dirs -> 0 <= va' < UTOP -> (pd', va' / 4096) <> (pd, va / 4096) ->
    same_view pd' va' k k';
  is_raw : forall s, s ∈ slots dirs -> s <> SPte pd (PDX va) (PTX va) ->
    (s = STab pd (PDX va) -> pde (pmem k) pd (PDX va) <> 0) -> raw (pmem k') s = raw (pmem k) s;
  is_new : pde (pmem k) pd (PDX va) = 0 ->
    pde (pmem k') pd (PDX va) = 0 \/ pde (pmem k') pd (PDX va) mod 4096 = 7 }.
Lemma isolated_refl pd va l k : vm_ok dirs extra l k -> isolated pd va k k.
Proof. intros HV. split; [apply vm_frame_refl|by exists l|reflexivity|done|by left]. Qed.
Lemma isolated_trans pd va k1 k2 k3 : pd ∈ dirs -> 0 <= va < UTOP ->
  isolated pd va k1 k2 -> isolated pd va k2 k3 -> isolated pd va k1 k3.
Proof.
  intros Hp Hva [F1 _ V1 R1 N1] [F2 O2 V2 R2 N2].
  destruct (va_slot dirs pd va Hp Hva) as [_ Ht].
  assert (Hk : pde (pmem k1) pd (PDX va) <> 0 -> pde (pmem k2) pd (PDX va) = pde (pmem k1) pd (PDX va)).
  { intros H. by apply (R1 (STab pd (PDX va))). }
  assert (Hk' : pde (pmem k2) pd (PDX va) <> 0 -> pde (pmem k3) pd (PDX va) = pde (pmem k2) pd (PDX va)).
  { intros H. by apply (R2 (STab pd (PDX va))). }
  split; [by eapply vm_frame_trans|done| | |].
  - intros pd' va' Hp' Hv Hx. etrans; [by apply V1|by apply V2].
  - intros s Hs Hne Htab. rewrite R2, R1; try done. intros E. rewrite Hk; by apply Htab.
  - intros Hz. destruct (N1 Hz) as [Hz2|H7]; [by apply N2|right]. rewrite Hk'; [done|]. intros E. by rewrite E in H7.
Qed.

(** [page_insert], and [page_remove] in all cases: when the table exists and
    the entry is empty it is page 0 that loses a reference. *)
Lemma inserted_isolated l k pd va pp perm k' : vm_ok dirs extra l k -> pd ∈ dirs -> 0 <= va < UTOP ->
  inserted dirs pd va k pp perm extra k' -> bytes_kept pd va l k k' -> isolated pd va k k'.
Proof.
  intros HV Hp Hva (_ & Ho & Hfr & Hok & Hne & Hnew & _) Hb. split; [done|done| |done|].
  - intros pd' va' Hp' Hva' Hx. by apply (confined_view l k k' pd va).
  - intros Hz. right. by apply Hnew.
Qed.
Definition page_zero_held (k : kern) : Prop := exists p, pages k !! 0 = Some p /\ pp_ref p <> 1.

(** The entry of [va] is empty in a table that exists: [page_lookup] takes it
    for a mapping of page 0. *)
Definition empty_entry (k : kern) (pd va : Z) : Prop :=
  pde (pmem k) pd (PDX va) <> 0 /\ PTE_ADDR (raw (pmem k) (SPte pd (PDX va) (PTX va))) = 0.
#[export] Instance empty_entry_dec k pd va : Decision (empty_entry k pd va).
Proof. unfold empty_entry. solve_decision. Defined.
(** What [page_remove] of such an address does: page 0, of which [p] is the
    information, loses a reference, and is freed when that was the last. *)
Record emptied (pd va : Z) (p : PageInfo) (k k' : kern) : Prop := {
  em_frame : vm_frame k k';
  em_entry : raw (pmem k') (SPte pd (PDX va) (PTX va)) = 0;
  em_raw : forall s, s ∈ slots dirs -> s <> SPte pd (PDX va) (PTX va) -> raw (pmem k') s = raw (pmem k) s;
  em_bytes : forall x, x / 4096 <> table_of (pmem k) pd (PDX va) / 4096 -> load8 (pmem k') x = load8 (pmem k) x;
  em_zero : exists q, pages k' !! 0 = Some q /\ pp_ref q = u16 (pp_ref p - 1);
  em_freed : pp_ref p = 1 -> page_free_list k' = Some 0 }.

Lemma page_remove_empty l k pd va p : vm_ok dirs extra l k -> pd ∈ dirs -> 0 <= va < UTOP ->
  empty_entry k pd va -> pages k !! 0 = Some p ->
  wp (page_remove pd va) (fun _ k' => emptied pd va p k k' /\ (pp_ref p <> 1 -> vm_ok dirs extra l k'))
    (fun _ _ => False) k.
Proof.
  intros HV Hp Hva [Hne Hz] Hp0. destruct (va_slot dirs pd va Hp Hva) as [Hs Ht].
  pose proof (vm_free _ _ _ _ HV) as (Hc & Hnd & Hu). pose proof (vm_zero _ _ _ _ HV) as H0.
  assert (Hlk : pp_link p = None) by (by eapply Hu).
  destruct (vm_pages _ _ _ _ HV 0 p Hp0) as [_ Hrb].
  assert (Hraw : raw (pmem k) (SPte pd (PDX va) (PTX va)) =
    load32 (pmem k) (table_of (pmem k) pd (PDX va) + 4 * PTX va)).
  { cbn [raw]. by rewrite (proj2 (Z.eqb_neq _ _) Hne). }
  unfold page_remove, page_lookup. kstep. kstep. apply pgdir_walk_old; [done|]. kstep. kstep. kstep. kstep.
  rewrite <- Hraw, Hz. change (pa2page 0) with 0. eapply page_decref_run; [done|done|]. kstep. kstep.
  apply tlb_invalidate_wp. intros lg.
  destruct (raw_store_pte _ _ _ _ HV pd (PDX va) (PTX va) 0) as [Hr0 Hro];
    [done|by apply va_d|apply PTX_bound|done|lia|].
  assert (Hmd : pmem (decref k 0 p) = pmem k) by (unfold decref; by case_match).
  set (k' := with_tlb _ lg).
  assert (Hm : pmem k' = store32 (pmem k) (table_of (pmem k) pd (PDX va) + 4 * PTX va) 0).
  { unfold k', with_tlb. ksimp. by rewrite <- Hmd. }
  assert (Hpg : exists lk, pages k' = <[0 := mkPageInfo lk (u16 (pp_ref p - 1))]> (pages k)).
  { unfold k', decref. case_match eqn:E; [|by exists None].
    exists (page_free_list k). unfold freed_page. ksimp. zbool. by rewrite E. }
  assert (Hpn : pp_ref p <> 1 -> pages k' = <[0 := mkPageInfo None (u16 (pp_ref p - 1))]> (pages k) /\
                                page_free_list k' = page_free_list k).
  { intros Hr. assert (Hu16 : (u16 (pp_ref p - 1) =? 0) = false).
    { apply Z.eqb_neq. unfold u16. change (2 ^ 16) with 65536. zdiv. }
    unfold k', decref. by rewrite Hu16. }
  assert (Hfl : pp_ref p = 1 -> page_free_list k' = Some 0) by (intros Hr; unfold k', decref; by rewrite Hr).
  assert (Hfr : vm_frame k k') by (unfold vm_frame, k', decref, freed_page; case_match; by destruct k).
  clearbody k'. rewrite <- Hm in Hr0, Hro. destruct Hpg as [lk Hpg]. split.
  - split; [done|done|done| | |done].
    + intros x Hx. rewrite Hm, store32_load8. pose proof (PTX_bound va).
      destruct (table_of_aligned (pmem k) pd (PDX va)). by rewrite decide_False by zdiv.
    + rewrite Hpg, lookup_insert_eq. by eexists.
  - intros Hr. destruct (Hpn Hr) as [Hpg' Hfl']. clear Hpg Hpn Hfl lk.
    assert (Ht0 : target (pmem k') (SPte pd (PDX va) (PTX va)) = None) by (unfold target; by rewrite Hr0).
    assert (Ht1 : target (pmem k) (SPte pd (PDX va) (PTX va)) = None) by (unfold target; cbn [refers]; by rewrite Hz).
    eapply (vm_change dirs extra extra l l k k' (SPte pd (PDX va) (PTX va))); try done.
    + split_and!; rewrite ?Hpg', ?Hfl'; [by apply chain_update|done|].
      intros j q. destruct (decide (j = 0)) as [->|]; [rewrite lookup_insert_eq; by intros [= <-]|].
      rewrite lookup_insert_ne by done. apply Hu.
    + rewrite Hpg'. by apply (dom_insert _ 0 p).
    + intros i q q' Hq. rewrite Hpg', Ht0, Ht1. destruct (decide (i = 0)) as [->|].
      * rewrite lookup_insert_eq. intros [= <-]. cbn [pp_ref]. split; [|done].
        unfold u16. change (2 ^ 16) with 65536. zdiv.
      * rewrite lookup_insert_ne by done. rewrite Hq. intros [= <-].
        split; [by apply (vm_pages _ _ _ _ HV i)|]. intros Hi0.
        split; [by apply (vm_ref _ _ _ _ HV i q)|]. lia.
    + intros f. by rewrite Ht0.
    + intros s' f _ _ _. by rewrite Ht0.
Qed.
(** No other page of any address space looks different. *)
Lemma emptied_view l k k' pd va p pd' va' : vm_ok dirs extra l k -> pd ∈ dirs -> pd' ∈ dirs ->
  0 <= va < UTOP -> 0 <= va' < UTOP -> pde (pmem k) pd (PDX va) <> 0 -> emptied pd va p k k' ->
  (pd', va' / 4096) <> (pd, va / 4096) -> same_view pd' va' k k'.
Proof.
  intros HV Hp Hp' Hva Hva' Hne [_ _ Hraw Hby _ _] Hx.
  destruct (va_slot dirs pd' va' Hp' Hva') as [Hs Ht].
  assert (Hns : SPte pd' (PDX va') (PTX va') <> SPte pd (PDX va) (PTX va)).
  { intros [= -> E1 E2]. apply Hx. f_equal. rewrite UTOP_range in Hva, Hva'.
    rewrite !PDX_eq in E1 by lia. rewrite !PTX_eq in E2 by lia. zdiv. }
  destruct (frame_apart l l k k pd va pd' _ _ HV HV Hp Hva Hne Hs eq_refl) as (_ & F2 & _).
  unfold same_view. rewrite !user_view_raw. cbv zeta. rewrite (Hraw _ Hs Hns).
  assert (pde (pmem k') pd' (PDX va') = pde (pmem k) pd' (PDX va')) as -> by (by apply (Hraw (STab pd' (PDX va')))).
  pose proof (raw_range (pmem k) (SPte pd' (PDX va') (PTX va'))) as He. cbv beta iota in He.
  set (e := raw (pmem k) _) in *. rewrite (Hby (PTE_ADDR e + PGOFF va')); [done|].
  replace ((PTE_ADDR e + PGOFF va') / 4096) with (PTE_ADDR e / 4096); [done|].
  pose proof (PTE_ADDR_mod e He). rewrite UTOP_range in Hva'. rewrite PGOFF_eq by lia. zdiv.
Qed.

(** [page_remove] of any other address. *)
Lemma page_remove_mapped l k pd va : vm_ok dirs extra l k -> pd ∈ dirs -> 0 <= va < UTOP ->
  ~ empty_entry k pd va ->
  wp (page_remove pd va) (fun _ k' => isolated pd va k k' /\ raw (pmem k') (SPte pd (PDX va) (PTX va)) = 0)
    (fun _ _ => False) k.
Proof.
  intros HV Hp Hva H0. destruct (va_slot dirs pd va Hp Hva) as [Hs Ht].
  destruct (decide (pde (pmem k) pd (PDX va) = 0)) as [Hz|Hne].
  { unfold page_remove, page_lookup. kstep. kstep. apply pgdir_walk_none; [done|]. kstep. kstep.
    split; [by eapply isolated_refl|]. cbn [raw]. by rewrite Hz. }
  assert (En : PTE_ADDR (raw (pmem k) (SPte pd (PDX va) (PTX va))) <> 0) by (intros E; by apply H0).
  assert (Htg : target (pmem k) (SPte pd (PDX va) (PTX va)) =
    Some (PTE_ADDR (raw (pmem k) (SPte pd (PDX va) (PTX va))) / 4096)).
  { unfold target. cbn [refers]. by rewrite (proj2 (Z.eqb_neq _ _) En). }
  eapply wp_mono; [by apply (page_remove_ok dirs extra l k HV pd va Hp Hva)| |done]. cbv beta.
  intros _ k' (Hfr & Hr & Ho & Hb & q & Hq & HV' & _). split; [|done].
  assert (Hpde : pde (pmem k') pd (PDX va) = pde (pmem k) pd (PDX va)) by (by apply (Ho (STab pd (PDX va)))).
  split; [done|by eexists| |by intros s Hs' Hsne _; apply Ho|done]. intros pd' va' Hp' Hva' Hx.
  apply (confined_view l k k' pd va); try done; [by rewrite Hpde|].
  split; [done|by intros s Hs' Hsne _; apply Ho| |by eexists].
  intros x _ Hxt _. apply Hb. unfold table_of in Hxt. by rewrite Hpde in Hxt.
Qed.

(** ** [page_alloc] and giving the page back *)
Section alloc.
Context (l : list Z) (k : kern) (n : Z) (HV : vm_ok dirs extra (n :: l) k).

Lemma alloc_range : 0 < n < 2 ^ 20.
Proof.
  destruct (free_list_allocated k 1 n l (vm_free _ _ _ _ HV)) as (p & Hp & _).
  destruct (vm_pages _ _ _ _ HV n p Hp). assert (n <> 0); [|lia].
  intros ->. apply (vm_zero _ _ _ _ HV). left.
Qed.
Lemma load8_alloc x : load8 (zeroed k ALLOC_ZERO n) x = if decide (x / 4096 = n) then 0 else load8 (pmem k) x.
Proof.
  pose proof alloc_range. rewrite load8_zeroed, page2pa_eq by lia.
  destruct (decide (x / 4096 = n)); [rewrite decide_True|rewrite decide_False]; [done| |done|].
  - split; [done|]. zdiv.
  - intros [_ ?]. zdiv.
Qed.
(** The pages keep their owners; the bytes of [n] are free to change. *)
Lemma vm_ok_free_bytes l' k' : free_list k' l' -> 0 ∉ l' ->
  (forall i, is_Some (pages k' !! i) <-> is_Some (pages k !! i)) ->
  (forall i p p', pages k !! i = Some p -> pages k' !! i = Some p' -> pp_ref p' = pp_ref p) ->
  (forall x, x / 4096 ∉ n :: l -> load8 (pmem k') x = load8 (pmem k) x) -> vm_ok dirs extra l' k'.
Proof.
  intros Hf H0 Hdom Href Hb. eapply (vm_extra dirs extra extra (n :: l)); try done.
  - by apply raw_free_bytes with (l := n :: l).
  - intros i p p' Hp Hp'. rewrite (Href i p p' Hp Hp'). split; [by apply (vm_pages _ _ _ _ HV i)|].
    intros Hi. split; [by apply (vm_ref _ _ _ _ HV i p)|lia].
Qed.
Lemma allocated_ok p : pages k !! n = Some p -> free_list (allocated k ALLOC_ZERO n p) l ->
  vm_ok dirs extra l (allocated k ALLOC_ZERO n p).
Proof.
  intros Hp Hf. apply vm_ok_free_bytes; [done| | | |].
  - intros Hin. apply (vm_zero _ _ _ _ HV). by right.
  - by apply (dom_insert _ n p).
  - intros i q q' Hq. unfold allocated. ksimp. destruct (decide (i = n)) as [->|].
    + rewrite lookup_insert_eq. intros [= <-]. cbn [pp_ref]. congruence.
    + rewrite lookup_insert_ne by done. congruence.
  - intros x [Hx _]%not_elem_of_cons. unfold allocated. ksimp. rewrite load8_alloc. by rewrite decide_False.
Qed.

(** The state [k1] with page [n] taken: nothing else changed, and no program
    sees a difference. *)
Record taken (k1 : kern) : Prop := {
  tk_ok : vm_ok dirs extra l k1;
  tk_frame : vm_frame k k1;
  tk_byte : forall x, load8 (pmem k1) x = if decide (x / 4096 = n) then 0 else load8 (pmem k) x;
  tk_page : pages k1 !! n = Some (mkPageInfo None 0);
  tk_dom : forall i, is_Some (pages k1 !! i) <-> is_Some (pages k !! i);
  tk_ref : forall i q q', pages k !! i = Some q -> pages k1 !! i = Some q' -> pp_ref q' = pp_ref q;
  tk_raw : forall s, s ∈ slots dirs -> raw (pmem k1) s = raw (pmem k) s;
  tk_view : forall pd' va', pd' ∈ dirs -> 0 <= va' < UTOP -> same_view pd' va' k k1;
  tk_free : n ∉ l;
  tk_table : no_table dirs k1 n }.
Lemma allocated_taken p : pages k !! n = Some p -> pp_ref p = 0 -> free_list (allocated k ALLOC_ZERO n p) l ->
  taken (allocated k ALLOC_ZERO n p).
Proof.
  intros Hp Hr Hf. set (k1 := allocated k ALLOC_ZERO n p).
  assert (Hb : forall x, x / 4096 ∉ n :: l -> load8 (pmem k1) x = load8 (pmem k) x).
  { intros x [Hx _]%not_elem_of_cons. unfold k1, allocated. ksimp. rewrite load8_alloc. by rewrite decide_False. }
  pose proof (raw_free_bytes (n :: l) k (pmem k1) HV Hb) as Hraw.
  split; [by apply allocated_ok|unfold vm_frame, k1, allocated; by destruct k|exact load8_alloc| | | |done| | |].
  - unfold k1, allocated. ksimp. rewrite lookup_insert_eq. by rewrite Hr.
  - by apply (dom_insert _ n p).
  - intros i q q' Hq. unfold k1, allocated. ksimp. destruct (decide (i = n)) as [->|].
    + rewrite lookup_insert_eq. intros [= <-]. cbn [pp_ref]. congruence.
    + rewrite lookup_insert_ne by done. congruence.
  - intros pd' va' Hp' Hva'. by apply (free_bytes_view (n :: l)).
  - apply (NoDup_cons_1_1 n l), (vm_free _ _ _ _ HV).
  - intros s Hs _ Ht. apply (vm_target_used dirs extra (n :: l) k HV s n Hs); [|left].
    unfold target in *. by rewrite <- Hraw.
Qed.
(** The page is given back. *)
Lemma taken_back k1 : l = [] -> taken k1 -> let k2 := freed_page k1 n (mkPageInfo None 0) in
  vm_frame k k2 /\ vm_ok dirs extra [n] k2.
Proof.
  intros El [HV1 Hfr1 Hb1 Hp1 Hdom1 Href1 _ _ _ _] k2. split.
  { eapply vm_frame_trans; [exact Hfr1|]. unfold vm_frame, k2, freed_page. by destruct k1. }
  apply vm_ok_free_bytes.
  - rewrite <- El. apply (free_list_freed k1 n _ l); [by apply HV1|by rewrite El; apply not_elem_of_nil|done|done].
  - intros E%list_elem_of_singleton. pose proof alloc_range. lia.
  - intros i. rewrite <- Hdom1. by apply (dom_insert _ n (mkPageInfo None 0)).
  - intros i q q' Hq. unfold k2, freed_page. ksimp. destruct (decide (i = n)) as [->|].
    + rewrite lookup_insert_eq. intros [= <-]. cbn [pp_ref]. by rewrite <- (Href1 n q _ Hq Hp1).
    + rewrite lookup_insert_ne by done. by apply Href1.
  - intros x [Hx _]%not_elem_of_cons. change (pmem k2) with (pmem k1). rewrite Hb1. by rewrite decide_False.
Qed.
(** The page is mapped: it is fresh, zero, and nobody else's. *)
Lemma taken_inserted k1 k2 pd va perm : taken k1 -> pd ∈ dirs -> 0 <= va < UTOP -> 0 <= perm < 4096 ->
  inserted dirs pd va k1 n perm extra k2 -> bytes_kept pd va l k1 k2 ->
  (forall x, x / 4096 = n -> load8 (pmem k2) x = 0) /\
  (forall s, s ∈ slots dirs -> s <> SPte pd (PDX va) (PTX va) -> target (pmem k2) s <> Some n) /\
  isolated pd va k k2.
Proof.
  intros [HV1 Hfr1 Hb1 _ _ _ Hraw1 Hv1 Hn1 Hnt1] Hp Hut Hpr Hi Hb. pose proof alloc_range as Hnr.
  pose proof Hi as (Hr2 & Ho2 & _ & (l2 & HV2) & Hne2 & _).
  destruct (va_slot dirs pd va Hp Hut) as [Hs Hst].
  pose proof (mapped_no_table dirs extra l2 k2 pd va n perm HV2 Hp Hut ltac:(lia) Hpr Hr2) as Hnt2.
  split_and!.
  - intros x Hx. rewrite Hb; [rewrite Hb1; by rewrite decide_True| | |].
    + rewrite Hx. intros E. eapply (Hnt1 (SDir pd)); [by apply elem_of_slots|done|].
      unfold target. cbn [raw refers]. by rewrite E.
    + rewrite Hx. intros E. apply (Hnt2 _ Hst eq_refl).
      unfold target. cbn [raw refers]. rewrite (proj2 (Z.eqb_neq _ _) Hne2). by rewrite E.
    + by rewrite Hx.
  - intros s Hs' Hne. destruct (is_pte s) eqn:Hpte; [|by apply Hnt2].
    unfold target. rewrite Ho2, Hraw1 by (done || by intros ->).
    intros Ht'. apply (vm_target_used dirs extra (n :: l) k HV s n Hs' Ht'). left.
  - apply isolated_trans with k1; [done|done| |by apply (inserted_isolated l k1 pd va n perm)].
    split; [done|by exists l|intros; by apply Hv1|intros; by apply Hraw1|].
    intros Hz. left. by rewrite <- Hz; apply (Hraw1 _ Hst).
Qed.
End alloc.
End frames.

(** ** The system calls *)

Lemma perm_ok_range perm : perm_ok perm = true -> 0 <= perm < 4096.
Proof.
  unfold perm_ok. intros [_ Hz]%andb_true_iff. apply Z.eqb_eq in Hz.
  set (m := Z.lor (Z.lor (Z.lor PTE_P PTE_U) PTE_W) PTE_AVAIL) in *.
  assert (E : perm = Z.land perm m).
  { rewrite <- (Z.lor_ldiff_and perm m) at 1. rewrite Z.ldiff_land, Hz. apply Z.lor_0_l. }
  assert (E' : perm = perm mod 4096).
  { rewrite E at 1. change m with (Z.land m (Z.ones 12)). rewrite Z.land_assoc, <- E.
    by rewrite Z.land_ones by lia. }
  rewrite E'. apply Z.mod_pos_bound. lia.
Qed.
Lemma user_page_range va : 0 <= va < 2 ^ 32 -> user_page va = true -> 0 <= va < UTOP /\ va mod 4096 = 0.
Proof.
  intros Hva. unfold user_page. rewrite u32_small by done. rewrite Z.geb_leb.
  change PGSIZE with 4096. destruct (Z.leb_spec UTOP va), (Z.eqb_spec (va mod 4096) 0); cbn; lia.
Qed.

Lemma user_page_true va : 0 <= va < UTOP -> va mod 4096 = 0 -> user_page va = true.
Proof.
  rewrite UTOP_range. intros Hva Ha. unfold user_page. rewrite u32_small by lia. change PGSIZE with 4096.
  rewrite Ha, UTOP_range, Z.geb_leb. destruct (Z.leb_spec 0xEEC00000 va); [lia|done].
Qed.
Lemma envid2env_ret k c envid chk : curenv k = Some c ->
  exists o, envid2env envid chk k = Ret o k /\ o <> Some None.
Proof.
  intros Hc. unfold envid2env. krun. rewrite Hc. destruct (envid =? 0); [by eexists|]. krun.
  destruct (_ || _); [by eexists|]. destruct (_ && _); [|by eexists]. krun.
  destruct (negb _); by eexists.
Qed.
Lemma wp_with_env {A} k c envid chk (err : A) body Q E : curenv k = Some c ->
  (envid2env envid chk k = Ret None k -> Q err k) ->
  (forall e, envid2env envid chk k = Ret (Some (Some e)) k -> wp (body e) Q E k) ->
  wp (with_env envid chk err body) Q E k.
Proof.
  intros Hc Herr Hbody. unfold with_env. apply wp_bind.
  destruct (envid2env_ret k c envid chk Hc) as (o & He & Hn). eapply wp_run; [exact He|]. destruct o as [[e|]|]; [by apply Hbody|done|].
  by apply wp_ret, Herr.
Qed.

Section calls.
Context (dirs : list Z) (extra : Z -> Z) (l : list Z) (k : kern) (c : Z).
Context (HV : vm_ok dirs extra l k) (Hc : curenv k = Some c).
(** The environments a caller may name have their address spaces in [dirs]. *)
Context (Hdirs : forall id e, envid2env id true k = Ret (Some (Some e)) k -> env_pgdir (envs_at k e) ∈ dirs).

(** No user program can see that the call happened. *)
Definition invisible (k' : kern) : Prop :=
  vm_frame k k' /\ (exists l', vm_ok dirs extra l' k') /\
  forall pd' va', pd' ∈ dirs -> 0 <= va' < UTOP -> same_view pd' va' k k'.
Lemma invisible_refl : invisible k.
Proof. split_and!; [apply vm_frame_refl|by exists l|reflexivity]. Qed.

(** Why [sys_page_alloc] fails: the environment, the arguments, or no page is
    left for the page table. *)
Definition alloc_refused (envid va perm r : Z) : Prop :=
  (r = - E_BAD_ENV /\ envid2env envid true k = Ret None k) \/
  (r = - E_INVAL /\ (user_page va = false \/ perm_ok perm = false)) \/
  (r = - E_NO_MEM /\ length l = 1%nat /\ exists e, envid2env envid true k = Ret (Some (Some e)) k /\
     pde (pmem k) (env_pgdir (envs_at k e)) (PDX va) = 0).
Lemma sys_page_alloc_ok envid va perm : l <> [] -> 0 <= va < 2 ^ 32 ->
  wp (sys_page_alloc envid va perm) (fun r k' =>
    (r < 0 /\ invisible k' /\ alloc_refused envid va perm r) \/
    (r = 0 /\ exists e n, envid2env envid true k = Ret (Some (Some e)) k /\ n ∈ l /\
       user_page va = true /\ perm_ok perm = true /\
       raw (pmem k') (SPte (env_pgdir (envs_at k e)) (PDX va) (PTX va)) = pte_value n perm /\
       (forall x, x / 4096 = n -> load8 (pmem k') x = 0) /\
       (forall s, s ∈ slots dirs -> s <> SPte (env_pgdir (envs_at k e)) (PDX va) (PTX va) ->
          target (pmem k') s <> Some n) /\
       isolated dirs extra (env_pgdir (envs_at k e)) va k k')) (fun _ _ => False) k.
Proof.
  intros Hl Hva. pose proof invisible_refl as Hno.
  apply (wp_with_env k c); [done|intros He; left; split_and!; [done|done|by left]|].
  intros e He. pose proof (Hdirs _ _ He) as Hp.
  destruct (user_page va) eqn:Hup; cbn [negb];
    [|apply wp_ret; left; split_and!; [done|done|right; left; split; [done|by left]]].
  destruct (perm_ok perm) eqn:Hperm; cbn [negb];
    [|apply wp_ret; left; split_and!; [done|done|right; left; split; [done|by right]]].
  destruct (user_page_range va Hva Hup) as [Hut _]. pose proof (perm_ok_range perm Hperm) as Hpr.
  destruct l as [|n l1] eqn:El; [done|].
  destruct (free_list_allocated k ALLOC_ZERO n l1 (vm_free _ _ _ _ HV)) as (p & Hpn & Hr & Hh & Hf).
  kstep. eapply page_alloc_some; [done|done|]. kstep.
  pose proof (allocated_taken dirs extra l1 k n HV p Hpn Hr Hf) as HT. set (k1 := allocated k ALLOC_ZERO n p) in *.
  clearbody k1. pose proof HT as [HV1 Hfr1 _ Hp1 _ _ Hraw1 Hv1 Hn1 Hnt1]. kstep. rewrite (envs_at_frame k k1) by done. kstep.
  eapply wp_mono; [eapply (page_insert_ok dirs _ va Hp Hut extra l1 k1 n _ perm HV1 Hp1 Hn1); [cbn [pp_ref]; lia|done|done]| |done].
  cbv beta. intros r k2 [(-> & -> & El1 & Hz)|(-> & Hi & Hb)].
  - change (- E_NO_MEM <? 0) with true. cbv iota. kstep. eapply page_free_ok; [done|done|done|]. kstep.
    left. split; [done|]. destruct (taken_back dirs extra l1 k n HV k1 El1 HT) as [Hfr2 HV2]. split.
    + split_and!; [done|by exists [n]|exact Hv1].
    + right. right. split_and!; [done|by rewrite El, El1|]. exists e. split; [done|]. rewrite <- Hz. symmetry.
      exact (Hraw1 _ (proj2 (va_slot dirs _ va Hp Hut))).
  - change (0 <? 0) with false. cbv iota. kstep. right. split; [done|]. exists e, n.
    split_and!; [done|left|done|done|by destruct Hi|..]; by apply (taken_inserted dirs extra l1 k n HV k1 k2 (env_pgdir (envs_at k e)) va perm).
Qed.

(** The page behind an entry: a page that is in use, or page 0 when the entry
    is empty. *)
Definition has_page (pd va : Z) : Prop :=
  is_Some (pages k !! 0) \/ PTE_ADDR (raw (pmem k) (SPte pd (PDX va) (PTX va))) <> 0.
Lemma entry_page pd va : pd ∈ dirs -> 0 <= va < UTOP -> has_page pd va ->
  let f := (PTE_ADDR (raw (pmem k) (SPte pd (PDX va) (PTX va))) / 4096) in
  is_Some (pages k !! f) /\ (f ∉ l) /\ no_table dirs k f /\
  (pde (pmem k) pd (PDX va) <> 0 ->
   pa2page (PTE_ADDR (load32 (pmem k) (table_of (pmem k) pd (PDX va) + 4 * PTX va))) = f).
Proof.
  intros Hp Hva H0 f. destruct (va_slot dirs pd va Hp Hva) as [Hs _].
  pose proof (raw_range (pmem k) (SPte pd (PDX va) (PTX va))) as He. cbv beta iota in He.
  assert (Hpa : pde (pmem k) pd (PDX va) <> 0 ->
    pa2page (PTE_ADDR (load32 (pmem k) (table_of (pmem k) pd (PDX va) + 4 * PTX va))) = f).
  { intros Hne. unfold f. revert He. cbn [raw]. rewrite (proj2 (Z.eqb_neq _ _) Hne). intros He.
    pose proof (PTE_ADDR_bound _ He). unfold pa2page. by rewrite PGNUM_eq by lia. }
  set (e := raw (pmem k) _) in *. destruct (Z.eqb_spec (PTE_ADDR e) 0) as [E|Hne].
  - assert (Hf0 : f = 0) by (unfold f; by rewrite E). clearbody f. subst f.
    split_and!; [by destruct H0|by apply HV|by apply (zero_no_table dirs extra l)|done].
  - assert (Ht : target (pmem k) (SPte pd (PDX va) (PTX va)) = Some f).
    { unfold target. fold e. cbn [refers]. by rewrite (proj2 (Z.eqb_neq _ _) Hne). }
    split_and!; [by apply (vm_target _ _ _ _ HV _ f Hs)|by apply (vm_target_used dirs extra l k HV _ f Hs)| |done].
    by apply (pte_no_table dirs extra l k _ f HV Hs eq_refl).
Qed.

(** The source can be shared once more. *)
Definition shareable (srcid srcva : Z) : Prop :=
  forall s, envid2env srcid true k = Ret (Some (Some s)) k -> has_page (env_pgdir (envs_at k s)) srcva /\
    forall p, pages k !! (PTE_ADDR (raw (pmem k) (SPte (env_pgdir (envs_at k s)) (PDX srcva) (PTX srcva))) / 4096) = Some p ->
      PTE_ADDR (raw (pmem k) (SPte (env_pgdir (envs_at k s)) (PDX srcva) (PTX srcva))) <> 0 -> pp_ref p < 65535.
(** The test of [PTE_W] on the pointer never fires: entries are aligned. *)
Lemma pte_pointer_bit pd d t : Z.land (table_of (pmem k) pd d + 4 * t) PTE_W = 0.
Proof.
  destruct (table_of_aligned (pmem k) pd d) as [Ha _]. change PTE_W with (Z.land (Z.ones 2) 2).
  rewrite Z.land_assoc, Z.land_ones by lia. change (2 ^ 2) with 4.
  replace ((table_of (pmem k) pd d + 4 * t) mod 4) with 0 by zdiv. reflexivity.
Qed.
(** Why [sys_page_map] fails: an environment, the arguments, no page table at
    the source, or no page is left for the table of the target. *)
Definition map_refused (srcid srcva dstid dstva perm r : Z) : Prop :=
  (r = - E_BAD_ENV /\ (envid2env srcid true k = Ret None k \/ envid2env dstid true k = Ret None k)) \/
  (r = - E_INVAL /\ (user_page srcva && user_page dstva && perm_ok perm = false \/
     exists s, envid2env srcid true k = Ret (Some (Some s)) k /\
       pde (pmem k) (env_pgdir (envs_at k s)) (PDX srcva) = 0)) \/
  (r = - E_NO_MEM /\ l = [] /\ exists d, envid2env dstid true k = Ret (Some (Some d)) k /\
     pde (pmem k) (env_pgdir (envs_at k d)) (PDX dstva) = 0).
Lemma sys_page_map_any srcid srcva dstid dstva perm :
  0 <= srcva < 2 ^ 32 -> 0 <= dstva < 2 ^ 32 -> shareable srcid srcva ->
  wp (sys_page_map srcid srcva dstid dstva perm) (fun r k' =>
    (r < 0 /\ invisible k' /\ map_refused srcid srcva dstid dstva perm r) \/
    (r = 0 /\ exists s d, envid2env srcid true k = Ret (Some (Some s)) k /\
       envid2env dstid true k = Ret (Some (Some d)) k /\
       user_page srcva = true /\ user_page dstva = true /\ perm_ok perm = true /\
       pde (pmem k) (env_pgdir (envs_at k s)) (PDX srcva) <> 0 /\
       raw (pmem k') (SPte (env_pgdir (envs_at k d)) (PDX dstva) (PTX dstva)) =
         pte_value (PTE_ADDR (raw (pmem k) (SPte (env_pgdir (envs_at k s)) (PDX srcva) (PTX srcva))) / 4096) perm /\
       bytes_kept (env_pgdir (envs_at k d)) dstva l k k' /\
       pde (pmem k') (env_pgdir (envs_at k d)) (PDX dstva) <> 0 /\
       (forall l', free_list k' l' ->
          (length l <= length l' + if (pde (pmem k) (env_pgdir (envs_at k d)) (PDX dstva) =? 0)%Z then 1 else 0)%nat) /\
       isolated dirs extra (env_pgdir (envs_at k d)) dstva k k')) (fun _ _ => False) k.
Proof.
  intros Hs Hd Hshare. pose proof invisible_refl as Hno.
  apply (wp_with_env k c); [done|intros He; left; split_and!; [done|done|left; split; [done|by left]]|].
  intros e He. pose proof (Hdirs _ _ He) as Hp. destruct (Hshare e He) as [H0 Hroom].
  apply (wp_with_env k c); [done|intros He'; left; split_and!; [done|done|left; split; [done|by right]]|].
  intros e' He'. pose proof (Hdirs _ _ He') as Hp'.
  assert (Hbad : user_page srcva && user_page dstva && perm_ok perm = false ->
    map_refused srcid srcva dstid dstva perm (- E_INVAL)) by (intros ?; right; left; split; [done|by left]).
  destruct (user_page srcva && user_page dstva) eqn:Huu; cbn [andb negb] in *;
    [|apply wp_ret; left; split_and!; [done|done|by apply Hbad]].
  apply andb_true_iff in Huu as [Hu Hu'].
  destruct (perm_ok perm) eqn:Hperm; cbn [negb]; [|apply wp_ret; left; split_and!; [done|done|by apply Hbad]].
  destruct (user_page_range _ Hs Hu) as [Hut _]. destruct (user_page_range _ Hd Hu') as [Hut' _].
  destruct (entry_page _ srcva Hp Hut H0) as ([q Hq] & Hfl & Hnt & Hpa).
  kstep. kstep. unfold page_lookup at 1. kstep. kstep.
  destruct (decide (pde (pmem k) (env_pgdir (envs_at k e)) (PDX srcva) = 0)) as [Hz|Hne].
  { apply pgdir_walk_none; [done|]. kstep. kstep. left. split_and!; [done|done|].
    right. left. split; [done|]. right. by exists e. }
  apply pgdir_walk_old; [done|]. kstep. kstep. kstep. rewrite (Hpa Hne), pte_pointer_bit.
  set (f := (PTE_ADDR _ / 4096)) in *. rewrite andb_false_r.
  kstep. kstep. kstep.
  eapply wp_mono; [eapply (page_insert_ok dirs _ dstva Hp' Hut' extra l k f q perm HV Hq Hfl);
    [|by apply perm_ok_range|done]| |done].
  { intros Hf0. apply (Hroom q Hq). intros E. apply Hf0. unfold f. by rewrite E. }
  cbv beta. intros r k2 [(-> & -> & El & Hz)|(-> & Hi & Hb)].
  - change (- E_NO_MEM <? 0) with true. cbv iota. apply wp_ret. left. split_and!; [done|done|].
    right. right. split_and!; [done|done|]. by exists e'.
  - change (0 <? 0) with false. cbv iota. apply wp_ret. right. split; [done|]. exists e, e'.
    pose proof (inserted_isolated dirs extra l k _ dstva f perm k2 HV Hp' Hut' Hi Hb) as His.
    destruct Hi as (Hraw & _ & _ & _ & Hne' & _ & Hlen).
    split_and!; try done. intros l' Hl'. apply Hlen; [apply HV|done].
Qed.

Lemma sys_page_unmap_any envid va : 0 <= va < 2 ^ 32 ->
  (forall e, envid2env envid true k = Ret (Some (Some e)) k ->
     is_Some (pages k !! 0) \/ ~ empty_entry k (env_pgdir (envs_at k e)) va) ->
  wp (sys_page_unmap envid va) (fun r k' =>
    (r < 0 /\ invisible k' /\ (envid2env envid true k = Ret None k \/ user_page va = false)) \/
    (r = 0 /\ exists e, envid2env envid true k = Ret (Some (Some e)) k /\ user_page va = true /\
       let pd := env_pgdir (envs_at k e) in
       raw (pmem k') (SPte pd (PDX va) (PTX va)) = 0 /\
       if decide (empty_entry k pd va)
       then exists p, pages k !! 0 = Some p /\ emptied dirs pd va p k k' /\ (pp_ref p <> 1 -> vm_ok dirs extra l k')
       else isolated dirs extra pd va k k')) (fun _ _ => False) k.
Proof.
  intros Hva H0. pose proof invisible_refl as Hno.
  apply (wp_with_env k c); [done|intros He; left; split_and!; [done|done|by left]|].
  intros e He. pose proof (Hdirs _ _ He) as Hp. specialize (H0 e He).
  destruct (user_page va) eqn:Hu; cbn [negb]; [|apply wp_ret; left; split_and!; [done|done|by right]].
  destruct (user_page_range _ Hva Hu) as [Hut _]. kstep. kstep. kstep.
  destruct (decide (empty_entry k (env_pgdir (envs_at k e)) va)) as [Hem|Hem].
  - destruct H0 as [[p Hp0]|]; [|done].
    eapply wp_mono; [by apply (page_remove_empty dirs extra l k _ va p)| |done]. cbv beta. intros _ k' [Hi Hv].
    kstep. right. split; [done|]. exists e. split_and!; [done|done|by destruct Hi|]. rewrite decide_True by done. by exists p.
  - eapply wp_mono; [by apply (page_remove_mapped dirs extra l)| |done]. cbv beta. intros _ k' [Hi Hr].
    kstep. right. split; [done|]. exists e. split_and!; [done..|]. by rewrite decide_False.
Qed.
End calls.

(** [sys_page_alloc] when no page is free: it looks at its arguments first. *)
Definition alloc_accepted (k : kern) (envid va perm : Z) : Prop :=
  (exists e, envid2env envid true k = Ret (Some (Some e)) k) /\ user_page va = true /\ perm_ok perm = true.
Lemma sys_page_alloc_full k c envid va perm : curenv k = Some c -> page_free_list k = None ->
  match sys_page_alloc envid va perm k with
  | Ret r k' => r < 0 /\ k' = k /\ alloc_refused [] k envid va perm r
  | Crash _ => alloc_accepted k envid va perm
  | _ => False
  end.
Proof.
  intros Hc Hf.
  assert (He : exists o, envid2env envid true k = Ret o k /\ o <> Some None).
  { by eapply envid2env_ret. }
  destruct He as (o & He & Hn). unfold sys_page_alloc, with_env. krun. rewrite He.
  destruct o as [[e|]|]; [|done|]; [|split_and!; [done|done|by left]].
  destruct (user_page va) eqn:Hu; cbn [negb];
    [|split_and!; [done|done|right; left; split; [done|by left]]].
  destruct (perm_ok perm) eqn:Hpm; cbn [negb];
    [|split_and!; [done|done|right; left; split; [done|by right]]].
  unfold page_alloc. krun. rewrite Hf. cbv iota. unfold st_crash. split; [by exists e|done].
Qed.

(** ** The theorems *)

(** The current environment, and the environments it may name, which have
    their address spaces in [dirs]. *)
Record caller (dirs : list Z) (k : kern) (c : Z) : Prop := {
  ca_cur : curenv k = Some c;
  ca_dirs : forall id e, envid2env id true k = Ret (Some (Some e)) k -> env_pgdir (envs_at k e) ∈ dirs }.
(** The caller; moreover no page is shared 65535 times, a page is free, page 0
    is not on the verge of being freed ([page_remove] of an address that is not
    mapped drops one of its references). *)
Record calls_ready (dirs : list Z) (l : list Z) (k : kern) (c : Z) : Prop := {
  cr_cur : curenv k = Some c;
  cr_dirs : forall id e, envid2env id true k = Ret (Some (Some e)) k -> env_pgdir (envs_at k e) ∈ dirs;
  cr_room : forall i p, pages k !! i = Some p -> pp_ref p < 65535;
  cr_free : l <> [];
  cr_zero : page_zero_held k }.

Lemma calls_caller dirs l k c : calls_ready dirs l k c -> caller dirs k c.
Proof. by intros [Hc Hd _ _ _]. Qed.

(** The environment and the address a call works on. *)
Definition call_env (no a1 a3 : Z) : Z := s32 (if no =? SYS_page_map then a3 else a1).
Definition call_va (no a2 a4 : Z) : Z := if no =? SYS_page_map then a4 else a2.
Definition memory_call (no : Z) : Prop := no ∈ [SYS_page_alloc; SYS_page_map; SYS_page_unmap].
(** A [sys_page_unmap] that succeeds on an address that is not mapped. *)
Definition unmaps_nothing (k : kern) (no a1 a2 : Z) : Prop :=
  no = SYS_page_unmap /\ user_page a2 = true /\
  exists e, envid2env (s32 a1) true k = Ret (Some (Some e)) k /\ empty_entry k (env_pgdir (envs_at k e)) a2.

(** What a memory call leaves of the kernel's memory, page 0 apart. *)
Definition memory_kept (dirs : list Z) (extra : Z -> Z) (k : kern) (nothing : Prop) (k' : kern) : Prop :=
  (~ nothing -> exists l', vm_ok dirs extra l' k') /\
  (nothing -> exists p q, pages k !! 0 = Some p /\ pages k' !! 0 = Some q /\ pp_ref q = u16 (pp_ref p - 1) /\
     (pp_ref p <> 1 -> exists l', vm_ok dirs extra l' k') /\
     (pp_ref p = 1 -> page_free_list k' = Some 0)).

(** The result of a memory call, as the proofs give it. *)
Definition call_result dirs extra k no a1 a2 a3 a4 (r : Z) (k' : kern) : Prop :=
  (r < 0 /\ invisible dirs extra k k' /\ ~ unmaps_nothing k no a1 a2) \/
  (r = 0 /\ exists e, envid2env (call_env no a1 a3) true k = Ret (Some (Some e)) k /\
     let pd := env_pgdir (envs_at k e) in let va := call_va no a2 a4 in
     0 <= va < UTOP /\
     (no = SYS_page_unmap -> raw (pmem k') (SPte pd (PDX va) (PTX va)) = 0) /\ vm_frame k k' /\
     memory_kept dirs extra k (unmaps_nothing k no a1 a2) k' /\
     forall pd' va', pd' ∈ dirs -> 0 <= va' < UTOP -> (pd', va' / 4096) <> (pd, va / 4096) -> same_view pd' va' k k').
Lemma isolated_result dirs extra k no a1 a2 a3 a4 e k' :
  envid2env (call_env no a1 a3) true k = Ret (Some (Some e)) k -> 0 <= call_va no a2 a4 < UTOP ->
  (no = SYS_page_unmap -> raw (pmem k') (SPte (env_pgdir (envs_at k e)) (PDX a2) (PTX a2)) = 0 /\
     ~ unmaps_nothing k no a1 a2) ->
  isolated dirs extra (env_pgdir (envs_at k e)) (call_va no a2 a4) k k' ->
  call_result dirs extra k no a1 a2 a3 a4 0 k'.
Proof.
  intros He Hva Hun [Hfr Hok Hv _ _]. right. split; [done|]. exists e. cbv zeta.
  split; [done|]. split; [done|]. split; [intros ->; by apply Hun|]. split; [done|]. split; [|done].
  split; [done|]. intros Hn. pose proof Hn as [-> _]. by destruct (Hun eq_refl).
Qed.
Lemma memory_call_ok dirs extra l k c no a1 a2 a3 a4 a5 :
  vm_ok dirs extra l k -> caller dirs k c -> (forall i p, i <> 0 -> pages k !! i = Some p -> pp_ref p < 65535) ->
  is_Some (pages k !! 0) -> memory_call no -> (no = SYS_page_alloc -> l <> []) ->
  0 <= a2 < 2 ^ 32 -> 0 <= a4 < 2 ^ 32 ->
  wp (syscall no a1 a2 a3 a4 a5) (call_result dirs extra k no a1 a2 a3 a4) (fun _ _ => False) k.
Proof.
  intros HV [Hc Hd] Hr H0 Hno Hl H2 H4. unfold memory_call in Hno.
  assert (Hcases : no = SYS_page_alloc \/ no = SYS_page_map \/ no = SYS_page_unmap) by (clear -Hno; set_solver).
  clear Hno. destruct Hcases as [-> | [-> | ->]]; unfold syscall; cbn [Z.eqb Pos.eqb]; cbv iota.
  - eapply wp_mono; [apply (sys_page_alloc_ok dirs extra l k c); by try apply Hl| |done]. cbv beta.
    intros r k' [(? & ? & _)|(-> & e & n & He & _ & Hu & _ & _ & _ & _ & Hi)]; [left; by split_and!; try intros [? _]|].
    apply (isolated_result _ _ _ _ _ _ _ _ e); try done. by apply (user_page_range a2 H2).
  - eapply wp_mono; [apply (sys_page_map_any dirs extra l k c); try done| |done].
    { intros s _. split; [by left|]. intros p Hp Hne. refine (Hr _ p _ Hp).
      pose proof (raw_range (pmem k) (SPte (env_pgdir (envs_at k s)) (PDX a2) (PTX a2))) as He. cbv beta iota in He.
      pose proof (PTE_ADDR_mod _ He). clear -Hne H. zdiv. }
    cbv beta. intros r k' [(? & ? & _)|(-> & s & d & _ & He & _ & Hu & _ & _ & _ & _ & _ & _ & Hi)];
      [left; by split_and!; try intros [? _]|].
    apply (isolated_result _ _ _ _ _ _ _ _ d); try done. by apply (user_page_range a4 H4).
  - eapply wp_mono; [apply (sys_page_unmap_any dirs extra l k c); try done; intros e _; by left| |done]. cbv beta.
    intros r k' [(? & ? & Hx)|(-> & e & He & Hu & Hr0 & Hi)].
    { left. split_and!; [done|done|]. intros (_ & Hu & e & He & _). destruct Hx as [Hx|]; congruence. }
    destruct (user_page_range a2 H2 Hu) as [Hut _]. case_decide as Hem.
    + destruct Hi as (p & Hp & Hi & Hv). pose proof Hi as [Hfr _ _ _ (q & Hq & Hqr) Hfl].
      right. split; [done|]. exists e. cbv zeta.
      split; [done|]. split; [done|]. split; [done|]. split; [done|]. split.
      * split; [intros Hn; exfalso; apply Hn; split; [done|]; split; [done|]; by exists e|]. intros _. exists p, q.
        split_and!; try done. intros Hp1. exists l. by apply Hv.
      * intros pd' va' Hp' Hva' Hx. apply (emptied_view dirs extra l k k' (env_pgdir (envs_at k e)) a2 p); try done;
          [by apply Hd in He|by destruct Hem].
    + apply (isolated_result _ _ _ _ _ _ _ _ e); try done. intros _. split; [done|].
      intros (_ & _ & e' & He' & Hem'). rewrite He in He'. injection He' as ->. done.
Qed.

(** What an entry that maps page [f] with permissions [perm] shows. *)
Lemma pte_value_land f perm b : 0 <= f < 2 ^ 20 -> 0 <= perm < 4096 -> Z.land (Z.ones 12) b = b ->
  Z.land (pte_value f perm) b = Z.land (Z.lor perm PTE_P) b.
Proof.
  intros Hf Hp Hb. destruct (pte_value_eq f perm Hf Hp) as (_ & _ & Hm).
  rewrite <- Hb at 1. rewrite Z.land_assoc, Z.land_ones by lia. change (2 ^ 12) with 4096. by rewrite Hm.
Qed.
Lemma page_view k pd va f perm off : 0 <= f < 2 ^ 20 -> perm_ok perm = true -> 0 <= va < UTOP -> va mod 4096 = 0 ->
  raw (pmem k) (SPte pd (PDX va) (PTX va)) = pte_value f perm -> 0 <= off < 4096 ->
  PTE_OK (pde (pmem k) pd (PDX va)) = true ->
  user_view k pd (va + off) = Some (load8 (pmem k) (4096 * f + off),
    negb (Z.land (pde (pmem k) pd (PDX va)) PTE_W =? 0) && negb (Z.land perm PTE_W =? 0)).
Proof.
  intros Hf Hok Hva Ha Hr Hoff Hpde. pose proof (perm_ok_range perm Hok) as Hp. rewrite UTOP_range in Hva.
  rewrite user_view_raw. cbv zeta.
  assert (PDX (va + off) = PDX va) as -> by (rewrite !PDX_eq by lia; zdiv).
  assert (PTX (va + off) = PTX va) as -> by (rewrite !PTX_eq by lia; zdiv).
  assert (PGOFF (va + off) = off) as -> by (rewrite PGOFF_eq by lia; zdiv).
  rewrite Hr, Hpde. destruct (pte_value_eq f perm Hf Hp) as (-> & _).
  assert (Hpte : PTE_OK (pte_value f perm) = true).
  { unfold PTE_OK. rewrite !pte_value_land by done. unfold perm_ok in Hok. rewrite !Z.land_lor_distr_l.
    apply andb_true_iff in Hok as [Hok _]. apply andb_true_iff in Hok as [Hu Hpp].
    apply andb_true_iff. rewrite !negb_true_iff, !Z.eqb_neq in *. rewrite !Z.lor_eq_0_iff. tauto. }
  rewrite Hpte. cbn [andb]. rewrite pte_value_land by done.
  rewrite Z.land_lor_distr_l. change (Z.land PTE_P PTE_W) with 0. by rewrite Z.lor_0_r.
Qed.

(** What a mapped page shows. *)
Lemma source_view k ps va off b w : 0 <= va < UTOP -> va mod 4096 = 0 -> 0 <= off < 4096 ->
  user_view k ps (va + off) = Some (b, w) ->
  b = load8 (pmem k) (4096 * (PTE_ADDR (raw (pmem k) (SPte ps (PDX va) (PTX va))) / 4096) + off).
Proof.
  intros Hva Ha Hoff. rewrite user_view_raw. cbv zeta. rewrite UTOP_range in Hva.
  assert (PDX (va + off) = PDX va) as -> by (rewrite !PDX_eq by lia; zdiv).
  assert (PTX (va + off) = PTX va) as -> by (rewrite !PTX_eq by lia; zdiv).
  assert (PGOFF (va + off) = off) as -> by (rewrite PGOFF_eq by lia; zdiv).
  pose proof (raw_range (pmem k) (SPte ps (PDX va) (PTX va))) as He. cbv beta iota in He.
  set (e := raw (pmem k) _) in *. pose proof (PTE_ADDR_mod e He).
  destruct (_ && _); [|done]. intros [= <- _]. f_equal. clear -H. zdiv.
Qed.
Lemma unmapped_view k' pd va a2 : 0 <= a2 < UTOP -> 0 <= va < UTOP -> va / 4096 = a2 / 4096 ->
  raw (pmem k') (SPte pd (PDX a2) (PTX a2)) = 0 -> user_view k' pd va = None.
Proof.
  rewrite UTOP_range. intros H2 Hva Ea Hr. rewrite user_view_raw. cbv zeta.
  assert (PDX va = PDX a2) as -> by (rewrite !PDX_eq by lia; zdiv).
  assert (PTX va = PTX a2) as -> by (rewrite !PTX_eq by lia; zdiv).
  rewrite Hr. by rewrite andb_false_r.
Qed.
Lemma shared_view dirs extra l l' k k' pd va f perm off :
  vm_ok dirs extra l' k' -> pd ∈ dirs -> 0 <= va < UTOP -> va mod 4096 = 0 -> 0 <= off < 4096 ->
  0 <= f < 2 ^ 20 -> perm_ok perm = true -> f ∉ l -> no_table dirs k f -> bytes_kept pd va l k k' ->
  raw (pmem k') (SPte pd (PDX va) (PTX va)) = pte_value f perm -> PTE_OK (pde (pmem k') pd (PDX va)) = true ->
  user_view k' pd (va + off) = Some (load8 (pmem k) (4096 * f + off),
    negb (Z.land (pde (pmem k') pd (PDX va)) PTE_W =? 0) && negb (Z.land perm PTE_W =? 0)).
Proof.
  intros HV' Hp Hut Ha Hoff Hf Hok Hfl Hnt Hb Hraw Hpde.
  assert (Hnt' : no_table dirs k' f).
  { apply (mapped_no_table dirs extra l' k' pd va f perm HV' Hp Hut Hf); [by apply perm_ok_range|exact Hraw]. }
  rewrite (page_view k' pd va f perm off Hf Hok Hut Ha Hraw Hoff Hpde).
  rewrite Hb; [done| | |]; replace ((4096 * f + off) / 4096) with f by zdiv; [| |done].
  - intros E0. apply (Hnt (SDir pd)); [by apply elem_of_slots|done|].
    unfold target. cbn [raw refers]. by rewrite E0.
  - intros E0. apply (Hnt' (STab pd (PDX va))); [apply (va_slot dirs pd va Hp Hut)|done|].
    unfold target. cbn [raw refers]. rewrite (proj2 (Z.eqb_neq _ 0)); [by rewrite E0|].
    intros E1. by rewrite E1 in Hpde.
Qed.

(** C3. Isolation of address spaces.  A memory system call returns to the
    caller, with one exception: [sys_page_alloc] with acceptable arguments
    when no page is free, which frees a null page.  When it returns it has
    touched nothing of the kernel but memory, the page array and the TLB log;
    and what any environment reads, or can write, at any user address has
    changed only if the call succeeded, in the address space of the environment
    the call named and was allowed to name, on the page it named.  After a
    successful [sys_page_unmap] that page cannot be accessed.  The free list is
    in order and the reference count of every page but page 0 is the number of
    its references, again with one exception: [sys_page_unmap] of an address
    that is not mapped although its table exists takes a reference from page 0
    ([page_lookup] returns it), and if that was the only one page 0 is put on
    the free list. *)
Theorem memory_calls_isolate dirs extra l k c no a1 a2 a3 a4 a5 :
  vm_ok dirs extra l k -> caller dirs k c -> (forall i p, i <> 0 -> pages k !! i = Some p -> pp_ref p < 65535) ->
  is_Some (pages k !! 0) -> memory_call no -> 0 <= a2 < 2 ^ 32 -> 0 <= a4 < 2 ^ 32 ->
  match syscall no a1 a2 a3 a4 a5 k with
  | Ret r k' =>
      r <= 0 /\ vm_frame k k' /\ memory_kept dirs extra k (unmaps_nothing k no a1 a2) k' /\
      forall pd va, pd ∈ dirs -> 0 <= va < UTOP ->
        user_view k' pd va = user_view k pd va \/
        (r = 0 /\ exists e, envid2env (call_env no a1 a3) true k = Ret (Some (Some e)) k /\
           pd = env_pgdir (envs_at k e) /\ va / 4096 = call_va no a2 a4 / 4096 /\
           (no = SYS_page_unmap -> user_view k' pd va = None))
  | Crash _ => no = SYS_page_alloc /\ l = [] /\ alloc_accepted k (s32 a1) a2 (s32 a3)
  | _ => False
  end.
Proof.
  intros HV Hca Hr H0 Hno H2 H4. destruct (decide (no = SYS_page_alloc /\ l = [])) as [[-> ->]|Hl].
  - pose proof (sys_page_alloc_full k c (s32 a1) a2 (s32 a3) (ca_cur _ _ _ Hca)
      (chain_empty _ _ (proj1 (vm_free _ _ _ _ HV)))) as H.
    change (syscall SYS_page_alloc a1 a2 a3 a4 a5 k) with (sys_page_alloc (s32 a1) a2 (s32 a3) k).
    destruct (sys_page_alloc _ _ _ _) as [r k'| | | |]; try done. destruct H as (Hneg & -> & _).
    split_and!; [lia|apply vm_frame_refl| |by left]. split; [intros _; by exists []|by intros [? _]].
  - destruct (wp_ret_inv _ _ _ (memory_call_ok dirs extra l k c no a1 a2 a3 a4 a5 HV Hca Hr H0 Hno
      ltac:(intros -> ->; by apply Hl) H2 H4)) as (r & k' & -> & H).
    destruct H as [(Hneg & (Hfr & Hok & Hv) & Hun)|(-> & e & He & Hcv & Hun & Hfr & Hm & Hv)].
    + split_and!; [lia|done|by split|]. intros pd va Hp Hva. left. by apply Hv.
    + split_and!; [lia|done|done|]. intros pd va Hp Hva.
      destruct (decide ((pd, va / 4096) = (env_pgdir (envs_at k e), call_va no a2 a4 / 4096))) as [[= -> Ea]|Hx];
        [right|left; by apply Hv].
      split; [done|]. exists e. split_and!; try done. intros Hu. apply (unmapped_view _ _ _ _ Hcv Hva Ea (Hun Hu)).
Qed.

(** C9. [sys_page_alloc] gives the environment it names a fresh page.  When
    it returns an error nobody can tell that it was called, and the reason is
    an environment that cannot be named, bad arguments, or that the last free
    page would be needed for a page table.  When it returns 0 the address was a
    user page, the permissions were acceptable and the environment nameable;
    the page mapped there was free, nothing else in any address space refers
    to it, and the environment reads zero at every address of the page and can
    write it exactly when it asked for that (and the directory entry allows
    it).  When no page is free at all the call does not return [- E_NO_MEM] as
    its comment says: with acceptable arguments, and only then, it dereferences
    a null page. *)
Theorem sys_page_alloc_fresh dirs extra l k c envid va perm :
  vm_ok dirs extra l k -> caller dirs k c -> 0 <= va < 2 ^ 32 ->
  match sys_page_alloc envid va perm k with
  | Ret r k' =>
      r <= 0 /\
      (r < 0 -> invisible dirs extra k k' /\ alloc_refused l k envid va perm r) /\
      (r = 0 -> exists e n, envid2env envid true k = Ret (Some (Some e)) k /\
         va < UTOP /\ va mod 4096 = 0 /\ perm_ok perm = true /\ n ∈ l /\
         let pd := env_pgdir (envs_at k e) in let s := SPte pd (PDX va) (PTX va) in
         raw (pmem k') s = pte_value n perm /\
         (forall s', s' ∈ slots dirs -> s' <> s -> target (pmem k') s' <> Some n) /\
         (PTE_OK (pde (pmem k') pd (PDX va)) = true -> forall off, 0 <= off < 4096 ->
            user_view k' pd (va + off) =
              Some (0, negb (Z.land (pde (pmem k') pd (PDX va)) PTE_W =? 0) && negb (Z.land perm PTE_W =? 0))))
  | Crash _ => l = [] /\ alloc_accepted k envid va perm
  | _ => False
  end.
Proof.
  intros HV [Hc Hd] Hva. destruct (decide (l = [])) as [->|Hl].
  { pose proof (sys_page_alloc_full k c envid va perm Hc
      (chain_empty _ _ (proj1 (vm_free _ _ _ _ HV)))) as H.
    destruct (sys_page_alloc _ _ _ _) as [r k'| | | |]; try done. destruct H as (Hneg & -> & Hr).
    split_and!; [lia|intros _; split; [by eapply invisible_refl|done]|lia]. }
  destruct (wp_ret_inv _ _ _ (sys_page_alloc_ok dirs extra l k c HV Hc Hd envid va perm Hl Hva))
    as (r & k' & -> & H).
  destruct H as [(? & ? & ?)|(-> & e & n & He & Hn & Hu & Hok & Hraw & Hb & Ho & _)]; [split_and!; [lia|done|lia]|].
  split_and!; [done|lia|]. intros _. destruct (user_page_range va Hva Hu) as [Hut Ha]. exists e, n.
  cbv zeta. split_and!; try done; [lia|]. intros Hpde off Hoff.
  assert (Hnr : 0 <= n < 2 ^ 20).
  { destruct (vm_free _ _ _ _ HV) as (Hch & _). destruct (chain_elem _ _ _ _ Hch Hn) as (p & Hp & _).
    by apply (vm_pages _ _ _ _ HV n p). }
  rewrite (page_view k' _ va n perm off Hnr Hok Hut Ha Hraw Hoff Hpde). rewrite Hb; [done|zdiv].
Qed.


(** ** An example: the two environments of [cow_demo] *)
Lemma cow_demo_envs e : env_status (envs_at cow_envs e) <> ENV_FREE -> e = 0 \/ e = 2.
Proof.
  unfold envs_at. change (envs cow_envs) with
    (<[0 := (env_at 0 0 ENV_RUNNING) {{ env_pgdir := 0x150000 }}]>
      ({[ 2 := (env_at 2 4096 ENV_NOT_RUNNABLE) {{ env_pgdir := 0x7000 }} ]} : gmap Z Env)).
  destruct (decide (e = 0)) as [->|]; [by left|]. destruct (decide (e = 2)) as [->|]; [by right|].
  rewrite lookup_insert_ne, lookup_singleton_ne by done. intros H. by destruct H.
Qed.
Lemma envid2env_names k c id e : curenv k = Some c -> envid2env id true k = Ret (Some (Some e)) k ->
  e = c \/ env_status (envs_at k e) <> ENV_FREE.
Proof.
  intros Hc. unfold envid2env. krun. rewrite Hc. destruct (id =? 0); [intros [= <-]; by left|]. krun.
  destruct (Z.eqb_spec (env_status (envs_at k (ENVX id))) ENV_FREE) as [|Hs]; [done|]. cbn [orb].
  destruct (negb _); [done|].
  destruct (_ && _); krun; [destruct (negb _); [done|]|]; intros [= <-]; by right.
Qed.
Lemma cow_demo_ready : exists extra l, vm_ok [0x7000; 0x150000] extra l cow_demo /\
  calls_ready [0x7000; 0x150000] l cow_demo 0.
Proof.
  destruct cow_demo_ok as (extra & l & HV & Hfr & _). exists extra, l. split; [exact HV|].
  assert (He : forall i, envs_at cow_demo i = envs_at cow_envs i) by (intros i; by apply envs_at_frame).
  assert (Hc : curenv cow_demo = Some 0) by (unfold vm_frame in Hfr; by rewrite Hfr).
  split; [exact Hc| | | |].
  - intros id e Hid. rewrite He.
    assert (Ha : e = 0 \/ e = 2).
    { destruct (envid2env_names cow_demo 0 id e Hc Hid) as [E|Hs]; [left; exact E|].
      rewrite He in Hs. exact (cow_demo_envs _ Hs). }
    clear Hid. destruct Ha as [-> | ->].
    + change (env_pgdir (envs_at cow_envs 0)) with 0x150000. right. left.
    + change (env_pgdir (envs_at cow_envs 2)) with 0x7000. left.
  - intros i p Hp. assert (Hall : map_Forall (fun _ p => pp_ref p < 65535) (pages cow_demo)).
    { apply (bool_decide_eq_true_1 _). vm_compute. reflexivity. }
    exact (Hall i p Hp).
  - intros ->. destruct (vm_free _ _ _ _ HV) as (Hch & _). apply chain_empty in Hch.
    assert (Hl : page_free_list cow_demo = Some 5) by (vm_compute; reflexivity). congruence.
  - exists (mkPageInfo None 0). split; [vm_compute; reflexivity|done].
Qed.
Lemma ret_named (k : kern) a b : (Ret (Some (Some a)) k : res leave kern (option (option Z))) = Ret (Some (Some b)) k -> a = b.
Proof. by intros [= ->]. Qed.
Lemma cow_demo_names a : envid2env 0 true cow_demo = Ret (Some (Some a)) cow_demo -> a = 0.
Proof.
  destruct cow_demo_ready as (extra & l & _ & [Hc _ _ _ _]). generalize dependent cow_demo. intros k Hc.
  unfold envid2env. krun. rewrite Hc. change (0 =? 0) with true. cbv iota. by intros [= ->].
Qed.
Lemma cow_demo_child a : envid2env 4098 true cow_demo = Ret (Some (Some a)) cow_demo -> a = 2.
Proof.
  destruct cow_demo_ok as (extra & l & _ & Hfr & _).
  assert (H : envid2env 4098 true cow_envs = Ret (Some (Some 2)) cow_envs) by (vm_compute; reflexivity).
  apply (envid2env_frame _ _ _ _ _ Hfr) in H. rewrite H. intros E. symmetry. exact (ret_named _ _ _ E).
Qed.

(** In [cow_demo], allocating a page at 0x900000 changes nothing at 0x800123 in
    either address space; unmapping 0x801000, where nothing is mapped, takes a
    reference from page 0, which had none. *)
Lemma memory_calls_isolate_witness :
  (exists r k', syscall SYS_page_alloc 0 0x900000 7 0 0 cow_demo = Ret r k' /\
    user_view k' 0x150000 0x800123 = user_view cow_demo 0x150000 0x800123 /\
    user_view k' 0x7000 0x800123 = user_view cow_demo 0x7000 0x800123) /\
  (exists k' q, syscall SYS_page_unmap 0 0x801000 0 0 0 cow_demo = Ret 0 k' /\
    pages k' !! 0 = Some q /\ pp_ref q = 65535).
Proof.
  destruct cow_demo_ready as (extra & l & HV & Hrd). pose proof (calls_caller _ _ _ _ Hrd) as Hca.
  destruct cow_demo_ok as (_ & _ & _ & Hfr & _).
  assert (Hroom : forall i p, i <> 0 -> pages cow_demo !! i = Some p -> pp_ref p < 65535)
    by (intros i p _; exact (cr_room _ _ _ _ Hrd i p)).
  assert (H0 : pages cow_demo !! 0 = Some (mkPageInfo None 0)) by (vm_compute; reflexivity).
  pose proof (mk_is_Some _ _ H0) as Hdom.
  split.
  - assert (Hno : memory_call SYS_page_alloc) by left.
    assert (Hc : match syscall SYS_page_alloc 0 0x900000 7 0 0 cow_demo with Ret _ _ => true | _ => false end = true)
      by (vm_compute; reflexivity).
    pose proof (memory_calls_isolate _ extra l cow_demo 0 SYS_page_alloc 0 0x900000 7 0 0 HV Hca Hroom Hdom Hno
      ltac:(by split) ltac:(by split)) as H.
    destruct (syscall SYS_page_alloc 0 0x900000 7 0 0 cow_demo) as [r k'| | | |]; [|discriminate Hc..].
    destruct H as (_ & _ & _ & H). exists r, k'. split; [reflexivity|].
    assert (Hva : 0 <= 0x800123 < UTOP) by by split.
    split.
    + destruct (H 0x150000 0x800123 ltac:(right; left) Hva) as [Hv|(_ & e & _ & _ & Hx & _)]; [exact Hv|discriminate Hx].
    + destruct (H 0x7000 0x800123 ltac:(left) Hva) as [Hv|(_ & e & _ & _ & Hx & _)]; [exact Hv|discriminate Hx].
  - assert (Hno : memory_call SYS_page_unmap) by (right; right; left).
    assert (Hc : match syscall SYS_page_unmap 0 0x801000 0 0 0 cow_demo with Ret r _ => r =? 0 | _ => false end = true)
      by (vm_compute; reflexivity).
    assert (Hn : unmaps_nothing cow_demo SYS_page_unmap 0 0x801000).
    { split; [reflexivity|]. split; [vm_compute; reflexivity|]. exists 0.
      split; [exact (envid2env_frame _ _ 0 true (Some (Some 0)) Hfr eq_refl)|]. rewrite (envs_at_frame _ _ 0 Hfr).
      change (env_pgdir (envs_at cow_envs 0)) with 0x150000. split; [|vm_compute; reflexivity].
      assert (Hz : (pde (pmem cow_demo) 0x150000 (PDX 0x801000) =? 0) = false) by (vm_compute; reflexivity).
      by apply Z.eqb_neq in Hz. }
    pose proof (memory_calls_isolate _ extra l cow_demo 0 SYS_page_unmap 0 0x801000 0 0 0 HV Hca Hroom Hdom Hno
      ltac:(by split) ltac:(by split)) as H.
    destruct (syscall SYS_page_unmap 0 0x801000 0 0 0 cow_demo) as [r k'| | | |]; [|discriminate Hc..].
    apply Z.eqb_eq in Hc. subst r. destruct H as (_ & _ & [_ Hz] & _).
    destruct (Hz Hn) as (p & q & Hp & Hq & Hr & _). exists k', q. split; [reflexivity|]. split; [exact Hq|].
    rewrite H0 in Hp. injection Hp as <-. rewrite Hr. reflexivity.
Defined.
Lemma sys_page_alloc_fresh_witness : exists k' n, sys_page_alloc 0 0x900000 7 cow_demo = Ret 0 k' /\
  raw (pmem k') (SPte 0x150000 2 256) = pte_value n 7 /\ user_view k' 0x150000 0x900123 = Some (0, true).
Proof.
  destruct cow_demo_ready as (extra & l & HV & Hrd). destruct cow_demo_ok as (_ & _ & _ & Hfr & _).
  assert (Hc : match sys_page_alloc 0 0x900000 7 cow_demo with
    | Ret r k' => (r =? 0) && (pde (pmem k') 0x150000 2 mod 4096 =? 7) && PTE_OK (pde (pmem k') 0x150000 2)
    | _ => false end = true) by (vm_compute; reflexivity).
  pose proof (sys_page_alloc_fresh _ extra l cow_demo 0 0 0x900000 7 HV (calls_caller _ _ _ _ Hrd) ltac:(by split)) as H.
  destruct (sys_page_alloc 0 0x900000 7 cow_demo) as [r k'| | | |]; [|discriminate Hc..].
  apply andb_true_iff in Hc as [Hc Hok]. apply andb_true_iff in Hc as [Hr H7].
  apply Z.eqb_eq in Hr, H7. subst r.
  destruct H as (_ & _ & H). destruct (H eq_refl) as (e & n & He & _ & _ & _ & _ & Hraw & _ & Hv).
  apply cow_demo_names in He. subst e.
  rewrite (envs_at_frame _ _ 0 Hfr) in Hraw, Hv. change (env_pgdir (envs_at cow_envs 0)) with 0x150000 in Hraw, Hv.
  exists k', n. split; [reflexivity|]. split; [exact Hraw|].
  change 0x900123 with (0x900000 + 0x123). rewrite (Hv Hok 0x123 ltac:(by split)).
  assert (Hw : Z.land (pde (pmem k') 0x150000 (PDX 0x900000)) PTE_W = 2).
  { change PTE_W with (Z.land (Z.ones 12) 2). rewrite Z.land_assoc, Z.land_ones by lia.
    change (PDX 0x900000) with 2. change (2 ^ 12) with 4096. rewrite H7. reflexivity. }
  rewrite Hw. reflexivity.
Defined.
