(* ===== verification/IpcProps.v ===== *)
(** * Messages that carry a page

    [sys_ipc_try_send] with a source address below UTOP: what the receiver and
    every other environment see afterwards, and every way it is refused.  Uses
    the views of address spaces of SysVm. *)
From S2P Require Import Prelude Layout Mem Kern Pmap PmapFree Vm EnvMod EnvProps TrapMod KernInv TrapProps CowProps SysVm.

(** The receiver no longer marked as waiting, which is all a refused page send
    leaves behind. *)
Definition deafened (ev : Env) : Env := ev {{ env_ipc_recving := false }}.

Section send.
Context (dirs : list Z) (extra : Z -> Z) (l : list Z) (k : kern) (c e srcva perm : Z).
Abbreviation ps := (env_pgdir (envs_at k c)).
Abbreviation pd := (env_pgdir (envs_at k e)).
Abbreviation dstva := (env_ipc_dstva (envs_at k e)).
(** The entry of the page that is sent. *)
Abbreviation entry := (raw (pmem k) (SPte ps (PDX srcva) (PTX srcva))).

(** The sender may not send the page: no page table, or it asks for write
    access to a page it may only read. *)
Definition send_refused : bool :=
  (pde (pmem k) ps (PDX srcva) =? 0) ||
  (negb (Z.land perm PTE_W =? 0) && (Z.land entry PTE_W =? 0)).

(** What a page send may come to: the state of the receiver, and memory. *)
Definition page_sent (value r : Z) (k' : kern) : Prop :=
  if send_refused then
    r = - E_INVAL /\ envs_at k' e = deafened (envs_at k e) /\ pmem k' = pmem k /\ pages k' = pages k
  else if dstva <? UTOP then
    (r = - E_NO_MEM /\ l = [] /\ pde (pmem k) pd (PDX dstva) = 0 /\
       envs_at k' e = (deafened (envs_at k e)) {{ env_ipc_perm := 0 }} /\ pmem k' = pmem k /\ pages k' = pages k) \/
    (r = 0 /\ envs_at k' e = (delivered (envs_at k e) (env_id (envs_at k c)) value) {{ env_ipc_perm := perm }} /\
       (forall pd' va', pd' ∈ dirs -> 0 <= va' < UTOP -> (pd', va' / 4096) <> (pd, dstva / 4096) ->
          same_view pd' va' k k') /\
       (PTE_OK (pde (pmem k') pd (PDX dstva)) = true -> forall off, 0 <= off < 4096 ->
          let w := negb (Z.land (pde (pmem k') pd (PDX dstva)) PTE_W =? 0) && negb (Z.land perm PTE_W =? 0) in
          (forall b w', user_view k ps (srcva + off) = Some (b, w') -> user_view k' pd (dstva + off) = Some (b, w)) /\
          (entry = 0 -> user_view k' pd (dstva + off) = Some (load8 (pmem k) off, w))))
  else r = 0 /\ envs_at k' e = delivered (envs_at k e) (env_id (envs_at k c)) value /\
    pmem k' = pmem k /\ pages k' = pages k.

Hypothesis HV : vm_ok dirs extra l k.
Hypothesis Hc : curenv k = Some c.
Hypothesis Hce : c <> e.
Hypothesis Hps : ps ∈ dirs.
Hypothesis Hpd : pd ∈ dirs.
Hypothesis Hroom : forall i p, i <> 0 -> pages k !! i = Some p -> pp_ref p < 65535.
Hypothesis H0 : is_Some (pages k !! 0).

(** The page part of the send, from the state [k1] in which the receiver has
    been marked as no longer waiting. *)
Abbreviation k1 := (put_env k e (deafened (envs_at k e))).
Definition inserted_page (k2 : kern) : Prop :=
  let f := PTE_ADDR entry / 4096 in
  inserted dirs pd dstva k1 f perm extra k2 /\ bytes_kept pd dstva l k1 k2.
Definition send_page_result (r : option Z) (k' : kern) : Prop :=
  if send_refused then r = Some (- E_INVAL) /\ k' = k1
  else if dstva <? UTOP then
    (r = Some (- E_NO_MEM) /\ l = [] /\ pde (pmem k) pd (PDX dstva) = 0 /\
       k' = put_env k e ((deafened (envs_at k e)) {{ env_ipc_perm := 0 }})) \/
    (r = None /\ exists k2, inserted_page k2 /\
       k' = put_env k2 e ((deafened (envs_at k e)) {{ env_ipc_perm := perm }}))
  else r = None /\ k' = k1.

Lemma ipc_send_page_ok : 0 <= srcva < UTOP -> srcva mod 4096 = 0 -> perm_ok perm = true ->
  0 <= dstva < 2 ^ 32 ->
  wp (ipc_send_page e srcva perm) send_page_result (fun _ _ => False) k1.
Proof.
  intros Hs Ha Hperm Hd. unfold send_page_result, send_refused.
  assert (HV1 : vm_ok dirs extra l k1) by (by apply (vm_ok_ext dirs extra l k)).
  assert (Hc1 : envs_at k1 c = envs_at k c) by (by rewrite envs_at_put_env, decide_False).
  assert (He1 : envs_at k1 e = deafened (envs_at k e)) by (by rewrite envs_at_put_env, decide_True).
  destruct (entry_page dirs extra l k HV ps srcva Hps Hs (or_introl H0)) as ([q Hq] & Hfl & Hnt & Hpa).
  unfold ipc_send_page. change PGSIZE with 4096.
  rewrite ROUNDDOWN_eq, Ha, Z.sub_0_r, Z.eqb_refl, Hperm by (rewrite UTOP_range in Hs; lia). cbn [negb].
  apply wp_bind. eapply wp_run; [by apply the_curenv_eq|]. kstep.
  unfold page_lookup. kstep. kstep. rewrite Hc1. kstep.
  destruct (Z.eqb_spec (pde (pmem k) ps (PDX srcva)) 0) as [Hz|Hne]; cbn [orb].
  { apply pgdir_walk_none; [done|]. kstep. by kstep. }
  apply pgdir_walk_old; [done|]. kstep. kstep. kstep.
  change (pmem k1) with (pmem k). rewrite (Hpa Hne).
  assert (Hentry : load32 (pmem k) (table_of (pmem k) ps (PDX srcva) + 4 * PTX srcva) = entry)
    by (cbn [raw]; by rewrite (proj2 (Z.eqb_neq _ _) Hne)).
  kstep. kstep. change (pmem k1) with (pmem k). rewrite Hentry. destruct (negb (Z.land perm PTE_W =? 0) && (Z.land entry PTE_W =? 0)); [by kstep|].
  kstep. kstep. rewrite He1. change (env_ipc_dstva (deafened (envs_at k e))) with dstva. rewrite u32_small by done.
  change (env_pgdir (deafened (envs_at k e))) with pd.
  destruct (Z.ltb_spec dstva UTOP) as [Hu|Hu]; [|by kstep]. kstep.
  eapply wp_mono; [eapply (page_insert_ok dirs pd dstva Hpd (conj (proj1 Hd) Hu) extra l k1 _ q perm HV1 Hq Hfl);
    [by intros Hf; apply (Hroom _ q Hf)|by apply perm_ok_range|done]| |done].
  cbv beta. intros r k2 [(-> & -> & El & Hz)|(-> & Hi & Hb)].
  - change (- E_NO_MEM <? 0) with true. cbv iota. kstep. kstep. left. split_and!; try done.
    rewrite He1. unfold put_env. ksimp. by rewrite insert_insert_eq.
  - change (0 <? 0) with false. cbv iota. kstep. kstep. right. split; [done|].
    exists k2. split; [by split|]. destruct Hi as (_ & _ & Hfr & _).
    rewrite (envs_at_frame _ k2 e Hfr), He1. reflexivity.
Qed.

(** The rest of the send. *)
Definition after_page (value : Z) (k' : kern) (r : option Z) : kern :=
  match r with
  | Some _ => k'
  | None => put_env k' e ((envs_at k' e) {{ env_ipc_from := env_id (envs_at k c); env_ipc_value := value;
      env_status := ENV_RUNNABLE; env_tf -> tf_regs -> reg_eax := 0 }})
  end.
Lemma send_page_others r k' j : send_page_result r k' -> j <> e -> envs_at k' j = envs_at k j.
Proof.
  intros H Hj. assert (Hk1 : envs_at k1 j = envs_at k j) by (by rewrite envs_at_put_env, decide_False).
  unfold send_page_result in H. destruct send_refused; [destruct H as [_ ->]; exact Hk1|].
  destruct (_ <? _); [|destruct H as [_ ->]; exact Hk1].
  destruct H as [(_ & _ & _ & ->)|(_ & k2 & [(_ & _ & Hfr & _) _] & ->)].
  - by rewrite envs_at_put_env, decide_False.
  - rewrite envs_at_put_env, decide_False by done. by rewrite (envs_at_frame _ k2 j Hfr).
Qed.
Lemma send_page_curenv r k' : send_page_result r k' -> curenv k' = Some c.
Proof.
  intros H. unfold send_page_result in H. destruct send_refused; [by destruct H as [_ ->]|].
  destruct (_ <? _); [|by destruct H as [_ ->]].
  destruct H as [(_ & _ & _ & ->)|(_ & k2 & [(_ & _ & Hfr & _) _] & ->)]; [done|].
  change (curenv k2 = Some c). unfold vm_frame in Hfr. by rewrite Hfr.
Qed.
Lemma send_page_vm value r k' : send_page_result r k' ->
  exists l', vm_ok dirs extra l' (after_page value k' r).
Proof.
  intros H. assert (Hk : exists l', vm_ok dirs extra l' k').
  { assert (HV1 : vm_ok dirs extra l k1) by (by apply (vm_ok_ext dirs extra l k)).
    unfold send_page_result in H. destruct send_refused; [destruct H as [_ ->]; by exists l|].
    destruct (_ <? _); [|destruct H as [_ ->]; by exists l].
    destruct H as [(_ & _ & _ & ->)|(_ & k2 & [(_ & _ & _ & (l' & HV2) & _) _] & ->)].
    - exists l. by apply (vm_ok_ext dirs extra l k).
    - exists l'. by apply (vm_ok_ext dirs extra l' k2). }
  destruct Hk as [l' Hl']. exists l'. destruct r; [done|]. by apply (vm_ok_ext dirs extra l' k').
Qed.
(** What the receiver finds. *)
Lemma send_page_sent value r k' : 0 <= srcva < UTOP -> srcva mod 4096 = 0 -> perm_ok perm = true ->
  0 <= dstva < 2 ^ 32 -> (dstva < UTOP -> dstva mod 4096 = 0) ->
  send_page_result r k' -> page_sent value (default 0 r) (after_page value k' r).
Proof.
  intros Hs Ha Hperm Hd Hda H. unfold send_page_result in H. unfold page_sent.
  destruct send_refused; [destruct H as [-> ->]; cbn [after_page]; split_and!; try done; by rewrite envs_at_put_env, decide_True|].
  destruct (Z.ltb_spec dstva UTOP) as [Hu|Hu].
  2:{ destruct H as [-> ->]. split_and!; try done. unfold after_page.
      by rewrite put_env_twice, !envs_at_put_env, !decide_True. }
  destruct H as [(-> & Hl & Hz & ->)|(-> & k2 & [Hi Hb] & ->)]; [left|right].
  { cbn [after_page]. split_and!; try done. by rewrite envs_at_put_env, decide_True. }
  assert (HV1 : vm_ok dirs extra l k1) by (by apply (vm_ok_ext dirs extra l k)).
  pose proof (inserted_isolated dirs extra l k1 pd dstva _ perm k2 HV1 Hpd (conj (proj1 Hd) Hu) Hi Hb) as Hiso.
  destruct (entry_page dirs extra l k HV ps srcva Hps Hs (or_introl H0)) as ([q Hq] & Hfl & Hnt & _).
  destruct (vm_pages _ _ _ _ HV _ q Hq) as [Hf _].
  split_and!; [done| | |].
  - unfold after_page. by rewrite put_env_twice, !envs_at_put_env, !decide_True.
  - intros pd' va' Hp' Hva' Hx. exact (is_view _ _ _ _ _ _ Hiso pd' va' Hp' Hva' Hx).
  - intros Hok off Hoff. cbv zeta. destruct (is_ok _ _ _ _ _ _ Hiso) as [l' HV2]. destruct Hi as [Hraw _].
    pose proof (shared_view dirs extra l l' k1 k2 pd dstva _ perm off HV2 Hpd (conj (proj1 Hd) Hu) (Hda Hu) Hoff Hf
      Hperm Hfl Hnt Hb Hraw Hok) as Hsh. split.
    + intros b w' Hv. rewrite (source_view k ps srcva off b w' Hs Ha Hoff Hv). exact Hsh.
    + intros E. rewrite E in Hsh. exact Hsh.
Qed.
End send.

(** C39. A message that carries a page.  Take a receiver that waits, a sender
    that names a page below UTOP with acceptable permissions, and let [send_refused]
    say that the sender has no page table there or asks for write access it does
    not have.  The send returns; no other environment's entry of the table has
    changed and the reference counts are exact.  If the sender may not send the
    page the error is E_INVAL; if the receiver wants a page and there is none
    left for its page table, E_NO_MEM: then memory is as it was, but the
    receiver is no longer marked as waiting.  Otherwise the receiver gets value
    and sender and is runnable; and if it wants a page it finds [perm] with the
    message and, at the address it asked for, the bytes the sender reads in its
    own page, writable exactly when [perm] says so (and its directory entry
    allows it), while every other page of every address space looks as it did.
    An address that is not mapped although its page table exists is no error,
    as the comment has it: without write access the receiver is given physical
    page 0. *)
Theorem ipc_page_shares dirs extra l k c e envid value srcva perm :
  vm_ok dirs extra l k -> curenv k = Some c -> c <> e ->
  envid2env envid false k = Ret (Some (Some e)) k -> env_ipc_recving (envs_at k e) = true ->
  env_pgdir (envs_at k c) ∈ dirs -> env_pgdir (envs_at k e) ∈ dirs ->
  (forall i p, i <> 0 -> pages k !! i = Some p -> pp_ref p < 65535) -> is_Some (pages k !! 0) ->
  0 <= srcva < UTOP -> srcva mod 4096 = 0 -> perm_ok perm = true ->
  0 <= env_ipc_dstva (envs_at k e) < 2 ^ 32 ->
  (env_ipc_dstva (envs_at k e) < UTOP -> env_ipc_dstva (envs_at k e) mod 4096 = 0) ->
  exists r k', sys_ipc_try_send envid value srcva perm k = Ret r k' /\
    (forall j, j <> e -> envs_at k' j = envs_at k j) /\ (exists l', vm_ok dirs extra l' k') /\
    page_sent dirs l k c e srcva perm value r k'.
Proof.
  intros HV Hc Hce He Hr Hps Hpd Hroom H0 Hs Ha Hperm Hd Hda.
  destruct (wp_ret_inv _ _ _ (ipc_send_page_ok dirs extra l k c e srcva perm HV Hc Hce Hps Hpd Hroom H0 Hs Ha Hperm Hd))
    as (r & k' & E & H).
  exists (default 0 r), (after_page k c e value k' r). split_and!.
  - unfold sys_ipc_try_send. rewrite (with_env_eq _ _ _ _ _ _ He). krun. rewrite Hr. cbn [negb]. cbv iota.
    rewrite (proj2 (Z.ltb_lt _ _) (proj2 Hs)).
    change (k {{ envs := _ }}) with (put_env k e (deafened (envs_at k e))). rewrite E.
    destruct r as [r|]; [done|].
    rewrite (the_curenv_eq k' c (send_page_curenv _ _ _ _ _ _ _ _ Hc _ _ H)).
    by rewrite (send_page_others _ _ _ _ _ _ _ _ _ _ _ H Hce).
  - intros j Hj. rewrite <- (send_page_others _ _ _ _ _ _ _ _ _ _ _ H Hj).
    destruct r; [done|]. cbn [after_page]. by rewrite envs_at_put_env, decide_False.
  - by apply (send_page_vm dirs extra l k c e srcva perm HV value r k').
  - by apply (send_page_sent dirs extra l k c e srcva perm HV Hps Hpd H0).
Qed.

(** ** An example: the child in [cow_demo] waits for a page at 0x900000 *)
Definition ipc_demo : kern :=
  put_env cow_demo 2 ((envs_at cow_demo 2) {{ env_ipc_recving := true; env_ipc_dstva := 0x900000 }}).
Lemma envid2env_unchecked k id e : id <> 0 -> ENVX id = e -> env_id (envs_at k e) = id ->
  env_status (envs_at k e) <> ENV_FREE -> envid2env id false k = Ret (Some (Some e)) k.
Proof.
  intros Hz <- Hid Hst. unfold envid2env. krun. rewrite (proj2 (Z.eqb_neq _ _) Hz). krun.
  by rewrite (proj2 (Z.eqb_neq _ _) Hst), Hid, Z.eqb_refl.
Qed.
(** The child finds in its page at 0x900000, which it may not write, what the
    parent has in its own at 0x800000, which it may. *)
Lemma ipc_page_shares_witness : exists k' b,
  sys_ipc_try_send 4098 42 0x800000 5 ipc_demo = Ret 0 k' /\
  env_ipc_value (envs_at k' 2) = 42 /\ env_ipc_perm (envs_at k' 2) = 5 /\
  user_view ipc_demo 0x150000 0x800123 = Some (b, true) /\ user_view k' 0x7000 0x900123 = Some (b, false).
Proof.
  destruct cow_demo_ready as (extra & l & HV & [Hcur _ Hr _ (p0 & Hp0 & _)]).
  destruct cow_demo_ok as (_ & _ & _ & Hfr & _).
  assert (Hc : match sys_ipc_try_send 4098 42 0x800000 5 ipc_demo with
    | Ret r k' => (r =? 0) && PTE_OK (pde (pmem k') 0x7000 2) | _ => false end = true) by (vm_compute; reflexivity).
  assert (Hv : user_view ipc_demo 0x150000 0x800123 = Some (0, true)) by (vm_compute; reflexivity).
  assert (Hnr : send_refused ipc_demo 0 0x800000 5 = false) by (vm_compute; reflexivity).
  assert (Hid : env_id (envs_at ipc_demo 2) = 4098) by (vm_compute; reflexivity).
  assert (Hst : (env_status (envs_at ipc_demo 2) =? ENV_FREE) = false) by (vm_compute; reflexivity).
  assert (Hrc : env_ipc_recving (envs_at ipc_demo 2) = true) by (vm_compute; reflexivity).
  assert (Hds : env_ipc_dstva (envs_at ipc_demo 2) = 0x900000) by (vm_compute; reflexivity).
  assert (Hp2 : env_pgdir (envs_at ipc_demo 2) = 0x7000) by (vm_compute; reflexivity).
  assert (Hq0 : env_pgdir (envs_at ipc_demo 0) = 0x150000) by (vm_compute; reflexivity).
  apply Z.eqb_neq in Hst.
  pose proof (vm_ok_ext _ extra l cow_demo ipc_demo eq_refl eq_refl eq_refl HV) as HV'.
  assert (Hcur' : curenv ipc_demo = Some 0) by exact Hcur.
  assert (Hr' : forall i p, i <> 0 -> pages ipc_demo !! i = Some p -> pp_ref p < 65535)
    by (intros i p _; exact (Hr i p)).
  assert (Hz' : is_Some (pages ipc_demo !! 0)) by exact (mk_is_Some _ _ Hp0).
  clear HV Hcur Hr Hp0 Hfr. generalize dependent ipc_demo. intros k Hc Hv Hnr Hid Hst Hrc Hds Hp2 Hq0 HV Hcur Hr Hz.
  pose proof (ipc_page_shares _ extra l k 0 2 4098 42 0x800000 5 HV Hcur ltac:(done)
    (envid2env_unchecked k 4098 2 ltac:(done) eq_refl Hid Hst) Hrc) as H.
  rewrite Hq0, Hp2, Hds in H.
  destruct (H ltac:(right; left) ltac:(left) Hr Hz ltac:(by split) eq_refl eq_refl ltac:(by split) (fun _ => eq_refl))
    as (r & k' & E & _ & _ & Hs). clear H. rewrite E in Hc. apply andb_true_iff in Hc as [H0 Hok].
  apply Z.eqb_eq in H0. subst r. unfold page_sent in Hs. rewrite Hnr, Hp2, Hq0, Hds in Hs.
  change (0x900000 <? UTOP) with true in Hs. cbv iota in Hs.
  destruct Hs as [(? & _)|(_ & He & _ & Hpg)]; [done|]. exists k', 0.
  split_and!; [exact E|by rewrite He|by rewrite He|exact Hv|].
  change 0x900123 with (0x900000 + 0x123).
  destruct (Hpg Hok 0x123 ltac:(by split)) as [Hb _].
  rewrite (Hb 0 true Hv). by rewrite andb_false_r.
Defined.
