(* ===== verification/CowFault.v ===== *)
(** * The copy-on-write fault handler

    [pgfault] (fork.c) runs in user mode on the frame the kernel pushed; its
    system calls run in the kernel model.  The theorem composes the two: after
    a write fault the page is private to the environment and writable, with
    the bytes it had, and no other page of any address space looks different. *)
From S2P Require Import Prelude Layout Mem CString Printf Console Kern Pmap PmapFree Vm EnvMod EnvProps TrapMod User CowProps SysVm.

(** ** System calls of a program *)
Lemma wp_usyscall no a1 a2 a3 a4 a5 Q E k :
  wp (syscall no (u32 a1) (u32 a2) (u32 a3) (u32 a4) (u32 a5)) (fun r k' => r <= 0 /\ Q r k') E k ->
  wp (urun (usyscall no true a1 a2 a3 a4 a5)) Q E k.
Proof.
  intros H. unfold usyscall. cbn [urun]. apply wp_bind. eapply wp_mono; [exact H| |done]. cbv beta.
  intros r k' [Hr HQ]. cbn [andb]. rewrite Z.gtb_ltb. destruct (Z.ltb_spec 0 r); [lia|]. by apply wp_ret.
Qed.
Lemma vm_frame_sym k k' : vm_frame k k' -> vm_frame k' k.
Proof. unfold vm_frame. intros ->. by destruct k. Qed.
Lemma calls_dirs_frame dirs l k c k' : vm_frame k k' -> calls_ready dirs l k c ->
  curenv k' = Some c /\
  forall id e, envid2env id true k' = Ret (Some (Some e)) k' -> env_pgdir (envs_at k' e) ∈ dirs.
Proof.
  intros Hf [Hc Hd _ _ _]. split; [unfold vm_frame in Hf; by rewrite Hf|].
  intros id e He. rewrite (envs_at_frame k k' e Hf). apply (Hd id).
  exact (envid2env_frame k' k id true _ (vm_frame_sym _ _ Hf) He).
Qed.

(** ** Accesses to a page *)
Section page.
Context (dirs : list Z) (extra : Z -> Z) (l : list Z) (pd va f : Z).

(** The page of [va] in [pd], the current address space, is frame [f], and
    the program may write it. *)
Record page_at (k : kern) : Prop := {
  pa_ok : vm_ok dirs extra l k;
  pa_cr3 : cr3 k = pd;
  pa_dir : pd ∈ dirs;
  pa_va : 0 <= va < UTOP /\ va mod 4096 = 0;
  pa_frame : 0 < f < 2 ^ 20;
  pa_pte : raw (pmem k) (SPte pd (PDX va) (PTX va)) = pte_value f rwu;
  pa_pde : Z.land (pde (pmem k) pd (PDX va)) 7 = 7 }.

(** The bytes of a page that is no table do not matter to the slots. *)
Lemma page_bytes_raw k m' : vm_ok dirs extra l k -> no_table dirs k f ->
  (forall x, x / 4096 <> f -> load8 m' x = load8 (pmem k) x) ->
  forall s, s ∈ slots dirs -> raw m' s = raw (pmem k) s.
Proof.
  intros HV Hnt Hm. pose proof UD_bound as HU.
  assert (Hpde : forall pd d, pd ∈ dirs -> 0 <= d < UD -> pde m' pd d = pde (pmem k) pd d).
  { intros pd' d Hp Hd. apply load32_bytes_ext. intros b Hb. apply Hm.
    destruct (vm_dir _ _ _ _ HV pd' Hp). replace (b / 4096) with (pd' / 4096) by zdiv.
    intros E. apply (Hnt (SDir pd')); [by apply elem_of_slots|done|]. unfold target. cbn [raw refers]. by rewrite E. }
  intros s Hs. pose proof Hs as Hs'. apply elem_of_slots in Hs.
  destruct s as [pd'|pd' d|pd' d t]; cbn [raw]; [done|apply Hpde; tauto|].
  destruct Hs as (Hp & Hd & Ht). unfold table_of. rewrite Hpde by done.
  destruct (Z.eqb_spec (pde (pmem k) pd' d) 0) as [|Hne]; [done|]. fold (table_of (pmem k) pd' d).
  apply load32_bytes_ext. intros b Hb. apply Hm. destruct (table_of_aligned (pmem k) pd' d).
  replace (b / 4096) with (table_of (pmem k) pd' d / 4096) by zdiv.
  intros E. apply (Hnt (STab pd' d)); [by apply elem_of_slots|done|].
  unfold target. cbn [raw refers]. rewrite (proj2 (Z.eqb_neq _ _) Hne).
  fold (table_of (pmem k) pd' d). by rewrite E.
Qed.
Lemma page_bytes_ok k m' : vm_ok dirs extra l k -> no_table dirs k f ->
  (forall x, x / 4096 <> f -> load8 m' x = load8 (pmem k) x) -> vm_ok dirs extra l (k {{ pmem := m' }}).
Proof.
  intros HV Hnt Hm. eapply (vm_extra dirs extra extra l); [done|by apply page_bytes_raw|apply HV|apply HV|done|].
  intros i p p' Hp Hp'. change (pages (k {{ pmem := m' }})) with (pages k) in Hp'. rewrite Hp in Hp'. injection Hp' as <-.
  split; [by apply (vm_pages _ _ _ _ HV i)|]. intros Hi. split; [by apply (vm_ref _ _ _ _ HV i p)|lia].
Qed.
Lemma page_no_table k : page_at k -> no_table dirs k f.
Proof.
  intros [HV _ Hp [Hva _] Hf Hpte _].
  apply (mapped_no_table dirs extra l k pd va f rwu HV Hp Hva); [lia|done|exact Hpte].
Qed.
Lemma page_at_bytes k m' : page_at k -> (forall x, x / 4096 <> f -> load8 m' x = load8 (pmem k) x) ->
  page_at (k {{ pmem := m' }}).
Proof.
  intros HP Hm. pose proof (page_no_table k HP) as Hnt. destruct HP as [HV Hc Hp [Hva Ha] Hf Hpte Hpde].
  destruct (va_slot dirs pd va Hp Hva) as [Hs Ht]. pose proof (page_bytes_raw k m' HV Hnt Hm) as Hraw.
  split; [by apply page_bytes_ok|done|done|done|done| |].
  - change (pmem (k {{ pmem := m' }})) with m'. by rewrite Hraw.
  - change (pmem (k {{ pmem := m' }})) with m'.
    assert (pde m' pd (PDX va) = pde (pmem k) pd (PDX va)) as -> by (by apply (Hraw (STab pd (PDX va)))). done.
Qed.

(** A store into the page. *)
Lemma page_at_utranslate k i : page_at k -> 0 <= i < 4096 -> utranslate k true (va + i) = Some (4096 * f + i).
Proof.
  intros [_ Hc _ [Hva Ha] Hf Hpte Hpde] Hi. rewrite UTOP_range in Hva. unfold utranslate. rewrite Hc.
  assert (PDX (va + i) = PDX va) as -> by (rewrite !PDX_eq by lia; zdiv).
  assert (PTX (va + i) = PTX va) as -> by (rewrite !PTX_eq by lia; zdiv).
  assert (PGOFF (va + i) = i) as -> by (rewrite PGOFF_eq by lia; zdiv).
  fold (pde (pmem k) pd (PDX va)).
  assert (Hne : pde (pmem k) pd (PDX va) <> 0) by (intros E; by rewrite E in Hpde).
  cbn [raw] in Hpte. rewrite (proj2 (Z.eqb_neq _ _) Hne) in Hpte. unfold table_of in Hpte. rewrite Hpte.
  destruct (pte_value_eq f rwu) as (-> & _); [lia|done|].
  assert (Hb : forall b, Z.land 7 b = b -> Z.land (pde (pmem k) pd (PDX va)) b = b).
  { intros b Hb. rewrite <- Hb at 1. by rewrite Z.land_assoc, Hpde. }
  rewrite !Hb by done. rewrite !pte_value_land by (done || lia). reflexivity.
Qed.
Lemma wp_store_byte k i v Q E : page_at k -> 0 <= i < 4096 ->
  Q tt (k {{ pmem := store8 (pmem k) (4096 * f + i) v }}) -> wp (uwrite8 (va + i) v) Q E k.
Proof.
  intros HP Hi HQ. pose proof (pa_va _ HP) as [Hva _]. rewrite UTOP_range in Hva. unfold uwrite8.
  apply wp_bind, wp_get. rewrite u32_small by (pose proof (pa_va _ HP) as [_ ?]; zdiv).
  rewrite page_at_utranslate by done. by apply wp_kset.
Qed.
Lemma store_bytes k bs i Q E : page_at k -> 0 <= i -> i + Z.of_nat (length bs) <= 4096 ->
  (forall k' m', k' = k {{ pmem := m' }} ->
     (forall x, load8 m' x = if decide (4096 * f + i <= x < 4096 * f + i + Z.of_nat (length bs))
       then u8 (default 0 (bs !! Z.to_nat (x - (4096 * f + i)))) else load8 (pmem k) x) -> Q tt k') ->
  wp (urun (ustore_bytes bs (va + i))) Q E k.
Proof.
  revert k i. induction bs as [|b bs IH]; intros k i HP Hi Hn HQ; cbn [ustore_bytes length] in *.
  { apply wp_urun_ret. apply (HQ k (pmem k)); [by destruct k|]. intros x. by rewrite decide_False by lia. }
  apply wp_urun_bind. unfold ust8. cbn [urun]. apply wp_bind, (wp_store_byte k i); [done|lia|]. apply wp_ret.
  replace (va + i + 1) with (va + (i + 1)) by lia. set (k1 := k {{ pmem := _ }}).
  apply (IH k1 (i + 1)); [|lia|lia|].
  - apply page_at_bytes; [done|]. intros x Hx. apply load8_store8_ne. zdiv.
  - intros k' m' -> Hm. apply (HQ _ m'); [by destruct k|]. intros x. rewrite Hm.
    change (pmem k1) with (store8 (pmem k) (4096 * f + i) b).
    destruct (decide (x = 4096 * f + i)) as [->|Hx].
    + rewrite decide_False, decide_True by lia. rewrite load8_store8_eq.
      by replace (Z.to_nat _) with 0%nat by lia.
    + rewrite load8_store8_ne by done. cases_lia.
      replace (Z.to_nat (x - (4096 * f + i))) with (S (Z.to_nat (x - (4096 * f + (i + 1))))) by lia. done.
Qed.
End page.

(** Loads through the view. *)
Lemma wp_load_byte k a b w Q E : user_view k (cr3 k) (u32 a) = Some (b, w) -> Q b k -> wp (uread8 a) Q E k.
Proof.
  intros Hv HQ. unfold uread8. apply wp_bind, wp_get. unfold user_view in Hv.
  assert (Hk : k {{ cr3 := cr3 k }} = k) by (by destruct k). rewrite Hk in Hv.
  destruct (utranslate k false (u32 a)); [|done]. injection Hv as <- _. by apply wp_ret.
Qed.
Lemma load_bytes k n a (b : Z -> Z) Q E : 0 <= a -> a + Z.of_nat n <= 2 ^ 32 ->
  (forall i, 0 <= i < Z.of_nat n -> exists w, user_view k (cr3 k) (a + i) = Some (b i, w)) ->
  Q (b <$> seqZ 0 (Z.of_nat n)) k -> wp (urun (uload_bytes n a)) Q E k.
Proof.
  revert a b Q. induction n as [|n IH]; intros a b Q Ha Hn Hv HQ; cbn [uload_bytes].
  { by apply wp_urun_ret. }
  destruct (Hv 0 ltac:(lia)) as [w Hw]. rewrite Z.add_0_r in Hw.
  apply wp_urun_bind. unfold uld8. cbn [urun]. apply wp_bind, (wp_load_byte k a (b 0) w); [by rewrite u32_small by lia|].
  apply wp_ret. apply wp_urun_bind. apply (IH (a + 1) (fun i => b (i + 1))); [lia|lia| |].
  - intros i Hi. replace (a + 1 + i) with (a + (i + 1)) by lia. apply Hv. lia.
  - apply wp_urun_ret. rewrite (seqZ_cons 0 (Z.of_nat (S n))) in HQ by lia. cbn [fmap list_fmap] in HQ.
    replace (Z.pred (Z.of_nat (S n))) with (Z.of_nat n) in HQ by lia.
    rewrite <- (fmap_add_seqZ 1 0), <- list_fmap_compose in HQ.
    erewrite list_fmap_ext; [exact HQ|]. intros j x _. cbn. f_equal. lia.
Qed.

(** ** Privacy and permissions of tables *)
(** Nothing but the slot [s] refers to the page [n]. *)
Definition private (dirs : list Z) (k : kern) (s : slot) (n : Z) : Prop :=
  forall s', s' ∈ slots dirs -> s' <> s -> target (pmem k) s' <> Some n.
(** The tables of the address space have full permissions. *)
Definition tables_rwu (pd : Z) (k : kern) : Prop :=
  forall d, 0 <= d < UD -> pde (pmem k) pd d <> 0 -> Z.land (pde (pmem k) pd d) 7 = 7.
Lemma tables_isolated dirs extra pd' pd va k k' : pd' ∈ dirs -> tables_rwu pd' k ->
  isolated dirs extra pd va k k' -> tables_rwu pd' k'.
Proof.
  intros Hp Htab [_ _ _ Hro Hnew] d Hd Hne.
  destruct (decide (STab pd' d = STab pd (PDX va) /\ pde (pmem k) pd (PDX va) = 0)) as [[[= -> ->] Hz]|Hx].
  - destruct (Hnew Hz) as [|H7]; [done|]. change 7 with (Z.land (Z.ones 12) 7) at 1.
    rewrite Z.land_assoc, Z.land_ones by lia. change (2 ^ 12) with 4096. by rewrite H7.
  - assert (E : pde (pmem k') pd' d = pde (pmem k) pd' d).
    { apply (Hro (STab pd' d)); [by apply elem_of_slots|done|]. intros E Hz. by apply Hx. }
    rewrite E in *. by apply Htab.
Qed.

(** ** The handler *)
Section handler.
Context (dirs : list Z) (extra : Z -> Z) (c pd : Z) (Hpd : pd ∈ dirs).
Abbreviation private := (private dirs).
Abbreviation tables_rwu := (tables_rwu pd).
Definition pf_slot : slot := SPte pd (PDX PFTEMP) (PTX PFTEMP).

Lemma PFTEMP_range : 0 <= PFTEMP < UTOP /\ PFTEMP mod 4096 = 0.
Proof. by split. Qed.
Lemma pf_slot_in : pf_slot ∈ slots dirs.
Proof. apply (va_slot dirs pd PFTEMP Hpd), PFTEMP_range. Qed.
(** The page is mapped nowhere else, so writing it shows nowhere else. *)
Lemma private_view l k m' va n pd' va' : vm_ok dirs extra l k -> 0 <= va < UTOP -> va mod 4096 = 0 ->
  private k (SPte pd (PDX va) (PTX va)) n -> no_table dirs k n -> n <> 0 ->
  (forall x, x / 4096 <> n -> load8 m' x = load8 (pmem k) x) ->
  pd' ∈ dirs -> 0 <= va' < UTOP -> (pd', va' / 4096) <> (pd, va / 4096) ->
  same_view pd' va' k (k {{ pmem := m' }}).
Proof.
  intros HV Hva Ha Hpr Hnt Hn0 Hm Hp' Hva' Hx. pose proof (page_bytes_raw dirs extra l n k m' HV Hnt Hm) as Hraw.
  destruct (va_slot dirs pd' va' Hp' Hva') as [Hs Ht]. unfold same_view. rewrite !user_view_raw.
  change (pmem (k {{ pmem := m' }})) with m'. cbv zeta. rewrite (Hraw _ Hs).
  assert (pde m' pd' (PDX va') = pde (pmem k) pd' (PDX va')) as -> by (by apply (Hraw (STab pd' (PDX va')))).
  pose proof (raw_range (pmem k) (SPte pd' (PDX va') (PTX va'))) as He. cbv beta iota in He.
  assert (Hne : SPte pd' (PDX va') (PTX va') <> SPte pd (PDX va) (PTX va)).
  { intros [= -> E1 E2]. apply Hx. f_equal. rewrite UTOP_range in Hva, Hva'.
    rewrite !PDX_eq in E1 by lia. rewrite !PTX_eq in E2 by lia. zdiv. }
  pose proof (Hpr _ Hs Hne) as Hno. unfold target in Hno. cbn [refers] in Hno.
  set (e := raw (pmem k) _) in *. rewrite (Hm (PTE_ADDR e + PGOFF va')); [done|].
  pose proof (PTE_ADDR_mod e He) as Hmod. rewrite UTOP_range in Hva'.
  replace ((PTE_ADDR e + PGOFF va') / 4096) with (PTE_ADDR e / 4096) by (rewrite PGOFF_eq by lia; zdiv).
  destruct (Z.eqb_spec (PTE_ADDR e) 0) as [->|]; [by apply not_eq_sym|congruence].
Qed.

(** The fresh page at [PFTEMP]. *)
Lemma fault_alloc l k : vm_ok dirs extra l k -> calls_ready dirs l k c -> cr3 k = pd ->
  env_pgdir (envs_at k c) = pd -> tables_rwu k -> (2 <= length l)%nat ->
  wp (urun (usys_page_alloc 0 PFTEMP rwu)) (fun r k1 => r = 0 /\ exists n l1,
    n ∈ l /\ page_at dirs extra l1 pd PFTEMP n k1 /\ private k1 pf_slot n /\ tables_rwu k1 /\
    isolated dirs extra pd PFTEMP k k1) (fun _ _ => False) k.
Proof.
  intros HV Hrd Hcr Hpg Htab Hlen. destruct (calls_dirs_frame _ _ _ _ k (vm_frame_refl k) Hrd) as [Hc Hd].
  apply wp_usyscall. unfold syscall. cbn [Z.eqb Pos.eqb]. cbv iota.
  assert (He0 : envid2env 0 true k = Ret (Some (Some c)) k) by (unfold envid2env; krun; by rewrite Hc).
  eapply wp_mono; [apply (sys_page_alloc_ok dirs extra l k c HV Hc Hd); [apply Hrd|by split]| |done]. cbv beta.
  change (s32 (u32 0)) with 0. change (u32 PFTEMP) with PFTEMP. change (s32 (u32 rwu)) with rwu.
  intros r k1 [(_ & _ & [[_ Hb]|[[_ [Hb|Hb]]|(_ & Hb & _)]])|(-> & e & n & He & Hn & _ & _ & Hraw & _ & Hpr & Hi)].
  - rewrite He0 in Hb. by injection Hb.
  - done.
  - done.
  - lia.
  - split; [lia|]. split; [done|]. rewrite He0 in He. injection He as <-. rewrite Hpg in *.
    pose proof Hi as [Hfr [l1 HV1] _ _ _]. exists n, l1.
    pose proof (tables_isolated dirs extra pd pd PFTEMP k k1 Hpd Htab Hi) as Htab1.
    assert (Hnr : 0 < n < 2 ^ 20).
    { destruct (vm_free _ _ _ _ HV) as (Hch & _). destruct (chain_elem _ _ _ _ Hch Hn) as (p & Hp & _).
      destruct (vm_pages _ _ _ _ HV n p Hp). assert (n <> 0); [|lia]. intros ->. by apply (vm_zero _ _ _ _ HV). }
    split_and!; try done. split; try done; [unfold vm_frame in Hfr; by rewrite Hfr|].
    apply Htab1; [by apply va_d|]. intros E. cbn [raw] in Hraw. rewrite E in Hraw. cbn [Z.eqb] in Hraw.
    destruct (pte_value_eq n rwu) as (Ha & _); [lia|done|]. rewrite <- Hraw in Ha.
    change (PTE_ADDR 0) with 0 in Ha. lia.
Qed.

(** The copy. *)
Lemma fault_copy l1 k1 n addr (b : Z -> Z) : page_at dirs extra l1 pd PFTEMP n k1 -> private k1 pf_slot n ->
  0 <= addr < UTOP -> (forall i, 0 <= i < 4096 -> exists w, user_view k1 pd (addr + i) = Some (b i, w)) ->
  (forall i, 0 <= i < 4096 -> 0 <= b i < 256) ->
  wp (urun (umemmove PFTEMP addr PGSIZE)) (fun _ k2 => exists m', k2 = k1 {{ pmem := m' }} /\
    (forall x, x / 4096 <> n -> load8 m' x = load8 (pmem k1) x) /\
    forall i, 0 <= i < 4096 -> load8 m' (4096 * n + i) = b i) (fun _ _ => False) k1.
Proof.
  intros HP Hpr Haddr Hv Hb. rewrite UTOP_range in Haddr. change PGSIZE with 4096. unfold umemmove.
  apply wp_urun_bind. apply (load_bytes k1 (Z.to_nat 4096) addr b); rewrite ?Z2Nat.id by lia; [lia|lia| |].
  { intros i Hi. rewrite (pa_cr3 _ _ _ _ _ _ _ HP). by apply Hv. }
  assert (Hlen : Z.of_nat (length (b <$> seqZ 0 4096)) = 4096).
  { rewrite length_fmap, length_seqZ. lia. }
  replace PFTEMP with (PFTEMP + 0) by lia.
  apply (store_bytes dirs extra l1 pd PFTEMP n k1 _ 0); [exact HP|lia|lia|].
  intros k' m' -> Hm. exists m'. split; [done|]. split.
  - intros x Hx. rewrite Hm. rewrite decide_False by zdiv. done.
  - intros i Hi. rewrite Hm, decide_True by lia. rewrite list_lookup_fmap.
    rewrite lookup_seqZ_lt by lia. cbn. replace (0 + Z.of_nat _) with i by lia. by apply u8_small, Hb.
Qed.
Lemma page_at_copied l1 k1 n m' : page_at dirs extra l1 pd PFTEMP n k1 -> private k1 pf_slot n -> tables_rwu k1 ->
  (forall x, x / 4096 <> n -> load8 m' x = load8 (pmem k1) x) ->
  let k2 := k1 {{ pmem := m' }} in
  page_at dirs extra l1 pd PFTEMP n k2 /\ private k2 pf_slot n /\ tables_rwu k2 /\
  (forall s, s ∈ slots dirs -> raw (pmem k2) s = raw (pmem k1) s) /\
  forall pd' va', pd' ∈ dirs -> 0 <= va' < UTOP -> (pd', va' / 4096) <> (pd, PFTEMP / 4096) -> same_view pd' va' k1 k2.
Proof.
  intros HP Hpr Htab Hm k2. pose proof (page_no_table dirs extra l1 pd PFTEMP n k1 HP) as Hnt.
  pose proof (page_bytes_raw dirs extra l1 n k1 m' (pa_ok _ _ _ _ _ _ _ HP) Hnt Hm) as Hraw.
  change m' with (pmem k2) in Hraw. split; [by apply page_at_bytes|]. split; [|split; [|split; [done|]]].
  - intros s Hs Hne. unfold target. rewrite Hraw by done. by apply Hpr.
  - intros d Hd Hne. assert (E : pde (pmem k2) pd d = pde (pmem k1) pd d).
    { apply (Hraw (STab pd d)). by apply elem_of_slots. }
    rewrite E in *. by apply Htab.
  - intros pd' va' Hp' Hva' Hx. destruct HP as [HV _ _ _ Hn _ _].
    by apply (private_view l1 k1 m' PFTEMP n pd' va' HV); try done; lia.
Qed.

(** A page with one reference. *)
Lemma private_ref l k s n p : vm_ok dirs extra l k -> private k s n -> n <> 0 -> extra n = 0 ->
  pages k !! n = Some p -> pp_ref p <= 1.
Proof.
  intros HV Hpr Hn He Hp. destruct (vm_ref _ _ _ _ HV n p Hn Hp) as [_ ->]. rewrite He. unfold count.
  assert (Hsub : filter (fun s => target (pmem k) s = Some n) (slots dirs) ⊆+ [s]).
  { apply NoDup_submseteq; [apply NoDup_filter, NoDup_slots, HV|].
    intros s' [Ht Hs]%list_elem_of_filter. apply list_elem_of_singleton.
    destruct (decide (s' = s)) as [|Hne]; [done|]. by destruct (Hpr s' Hs Hne). }
  apply submseteq_length in Hsub. cbn [length] in Hsub. lia.
Qed.

(** The copy takes the place of the page. *)
Lemma fault_map l k2 n addr (b : Z -> Z) : page_at dirs extra l pd PFTEMP n k2 -> private k2 pf_slot n ->
  tables_rwu k2 -> extra n = 0 -> curenv k2 = Some c -> env_pgdir (envs_at k2 c) = pd ->
  (forall id e, envid2env id true k2 = Ret (Some (Some e)) k2 -> env_pgdir (envs_at k2 e) ∈ dirs) ->
  0 <= addr < UTOP -> addr mod 4096 = 0 -> pde (pmem k2) pd (PDX addr) <> 0 ->
  (forall i, 0 <= i < 4096 -> load8 (pmem k2) (4096 * n + i) = b i) ->
  wp (urun (usys_page_map 0 PFTEMP 0 addr rwu)) (fun r k3 => r = 0 /\
    raw (pmem k3) (SPte pd (PDX addr) (PTX addr)) = pte_value n rwu /\
    isolated dirs extra pd addr k2 k3 /\
    forall i, 0 <= i < 4096 -> user_view k3 pd (addr + i) = Some (b i, true)) (fun _ _ => False) k2.
Proof.
  intros HP Hpr Htab He Hc Hpg Hd Haddr Ha Hne Hb. pose proof (page_no_table _ _ _ _ _ _ _ HP) as Hnt.
  destruct HP as [HV Hcr _ _ Hn Hpte Hpde]. pose proof Haddr as Har. rewrite UTOP_range in Har.
  assert (He0 : envid2env 0 true k2 = Ret (Some (Some c)) k2) by (unfold envid2env; krun; by rewrite Hc).
  destruct (pte_value_eq n rwu) as (Hpa & _); [lia|done|].
  apply wp_usys_page_map. change (s32 (u32 0)) with 0. change (u32 PFTEMP) with PFTEMP. change (s32 (u32 rwu)) with rwu.
  rewrite (u32_small addr) by lia.
  eapply wp_mono; [apply (sys_page_map_any dirs extra l k2 c HV Hc Hd)| |done].
  - by split.
  - lia.
  - intros s Hs. rewrite He0 in Hs. injection Hs as <-. rewrite Hpg, Hpte, Hpa. split; [right; rewrite Hpte, Hpa; lia|].
    intros p. replace (4096 * n / 4096) with n by zdiv. intros Hp.
    pose proof (private_ref l k2 pf_slot n p HV Hpr ltac:(lia) He Hp). lia.
  - cbv beta. intros r k3 [(_ & _ & [[_ [Hx|Hx]]|[[_ [Hx|(s & Hs & Hx)]]|(_ & _ & d & Hs & Hx)]])|(-> & s & d & Hs & Hs' & _ & _ & _ & _ & Hraw & Hbk & _ & _ & Hi)].
    + rewrite He0 in Hx. by injection Hx.
    + rewrite He0 in Hx. by injection Hx.
    + rewrite (user_page_true addr Haddr Ha) in Hx. discriminate Hx.
    + rewrite He0 in Hs. injection Hs as <-. rewrite Hpg in Hx. by rewrite Hx in Hpde.
    + rewrite He0 in Hs. injection Hs as <-. rewrite Hpg in Hx. by rewrite Hx in Hne.
    + rewrite He0 in Hs, Hs'. injection Hs as <-. injection Hs' as <-. rewrite Hpg in Hraw, Hbk, Hi.
      rewrite Hpte, Hpa in Hraw. replace (4096 * n / 4096) with n in Hraw by zdiv.
      split; [lia|]. split; [done|]. split; [done|]. split; [done|]. intros i Hi'.
      destruct Hi as [_ [l' HV'] _ Hro _].
      assert (Hpd3 : pde (pmem k3) pd (PDX addr) = pde (pmem k2) pd (PDX addr)).
      { apply (Hro (STab pd (PDX addr))); [by apply va_slot|done|done]. }
      assert (H7 : Z.land (pde (pmem k2) pd (PDX addr)) 7 = 7) by (apply Htab; [by apply va_d|done]).
      assert (Hbit : forall x, Z.land 7 x = x -> Z.land (pde (pmem k3) pd (PDX addr)) x = x).
      { intros x Hx. rewrite Hpd3, <- Hx at 1. by rewrite Z.land_assoc, H7. }
      rewrite (shared_view dirs extra l l' k2 k3 pd addr n rwu i); try done.
      * rewrite Hbit, Hb by done. reflexivity.
      * lia.
      * apply (vm_target_used dirs extra l k2 HV pf_slot n pf_slot_in). unfold target, pf_slot. rewrite Hpte. cbn [refers].
        rewrite Hpa, (proj2 (Z.eqb_neq (4096 * n) 0)) by lia. f_equal. zdiv.
      * unfold PTE_OK. by rewrite !Hbit.
Qed.

(** The temporary mapping goes. *)
Lemma fault_unmap l k3 n addr : vm_ok dirs extra l k3 -> curenv k3 = Some c -> env_pgdir (envs_at k3 c) = pd ->
  (forall id e, envid2env id true k3 = Ret (Some (Some e)) k3 -> env_pgdir (envs_at k3 e) ∈ dirs) ->
  0 < n < 2 ^ 20 -> raw (pmem k3) pf_slot = pte_value n rwu -> 0 <= addr < UTOP ->
  raw (pmem k3) (SPte pd (PDX addr) (PTX addr)) = pte_value n rwu -> SPte pd (PDX addr) (PTX addr) <> pf_slot ->
  (forall s, s ∈ slots dirs -> s <> SPte pd (PDX addr) (PTX addr) -> s <> pf_slot -> is_pte s = true ->
     target (pmem k3) s <> Some n) ->
  wp (urun (usys_page_unmap 0 PFTEMP)) (fun r k4 => r = 0 /\ isolated dirs extra pd PFTEMP k3 k4 /\
    raw (pmem k4) pf_slot = 0 /\ raw (pmem k4) (SPte pd (PDX addr) (PTX addr)) = pte_value n rwu /\
    private k4 (SPte pd (PDX addr) (PTX addr)) n) (fun _ _ => False) k3.
Proof.
  intros HV Hc Hpg Hd Hn Hpf Haddr Hraw Hne Hpr.
  assert (He0 : envid2env 0 true k3 = Ret (Some (Some c)) k3) by (unfold envid2env; krun; by rewrite Hc).
  destruct (pte_value_eq n rwu) as (Hpa & _); [lia|done|].
  assert (Hem : ~ empty_entry k3 (env_pgdir (envs_at k3 c)) PFTEMP).
  { intros [_ Hz]. rewrite Hpg in Hz. fold pf_slot in Hz. rewrite Hpf, Hpa in Hz. lia. }
  apply wp_usyscall. unfold syscall. cbn [Z.eqb Pos.eqb]. cbv iota.
  change (s32 (u32 0)) with 0. change (u32 PFTEMP) with PFTEMP.
  eapply wp_mono; [apply (sys_page_unmap_any dirs extra l k3 c HV Hc Hd); [by split|]| |done].
  { intros e He. rewrite He0 in He. injection He as <-. by right. }
  cbv beta. intros r k4 [(_ & _ & [Hx|Hx])|(-> & e & He & _ & Hr0 & Hi)]; [rewrite He0 in Hx; by injection Hx|done|].
  rewrite He0 in He. injection He as <-. rewrite decide_False in Hi by done. rewrite Hpg in *. fold pf_slot in Hr0. split; [lia|]. split; [done|].
  split; [done|]. split; [done|]. destruct Hi as [_ [l' HV'] _ Hro _]. fold pf_slot in Hro.
  assert (Hraw4 : raw (pmem k4) (SPte pd (PDX addr) (PTX addr)) = pte_value n rwu).
  { rewrite Hro; [done|by apply va_slot|done|done]. }
  split; [done|]. intros s Hs Hsne.
  pose proof (mapped_no_table dirs extra l' k4 pd addr n rwu HV' Hpd Haddr ltac:(lia) ltac:(done) Hraw4) as Hnt.
  destruct (is_pte s) eqn:Hpte; [|by apply Hnt].
  destruct (decide (s = pf_slot)) as [->|Hsp].
  - unfold target, pf_slot. fold pf_slot. rewrite Hr0. done.
  - unfold target. rewrite Hro by (done || by intros ->). by apply Hpr.
Qed.
End handler.

(** What [pgfault] leaves: the page at [addr] private and writable with the
    bytes it had, everything else as it was. *)
Definition privatised (dirs : list Z) (extra : Z -> Z) (pd addr : Z) (k k' : kern) (l' : list Z) (n : Z) : Prop :=
  let s := SPte pd (PDX addr) (PTX addr) in
  vm_ok dirs extra l' k' /\ vm_frame k k' /\
  (forall i b w, 0 <= i < 4096 -> user_view k pd (addr + i) = Some (b, w) ->
     user_view k' pd (addr + i) = Some (b, true)) /\
  raw (pmem k') s = pte_value n rwu /\ private dirs k' s n /\ raw (pmem k') (pf_slot pd) = 0 /\
  forall pd' va, pd' ∈ dirs -> 0 <= va < UTOP -> (pd', va / 4096) <> (pd, addr / 4096) ->
    (pd', va / 4096) <> (pd, PFTEMP / 4096) -> same_view pd' va k k'.

Section pgfault.
Context (dirs : list Z) (extra : Z -> Z) (l : list Z) (k : kern) (c addr : Z).
Abbreviation pd := (env_pgdir (envs_at k c)).
Abbreviation s := (SPte pd (PDX addr) (PTX addr)).
Context (HV : vm_ok dirs extra l k) (Hrd : calls_ready dirs l k c) (Hcr : cr3 k = pd) (Htab : tables_rwu pd k).
Context (Hlen : (2 <= length l)%nat) (Haddr : 0 <= addr < UTOP) (Ha : addr mod 4096 = 0) (Hne : addr <> PFTEMP).
Context (Hv : forall i, 0 <= i < 4096 -> is_Some (user_view k pd (addr + i))).

Lemma current_dir : pd ∈ dirs.
Proof.
  destruct Hrd as [Hc Hd _ _ _]. apply (Hd 0). unfold envid2env. krun. by rewrite Hc.
Qed.
Lemma addr_apart : (pd, addr / 4096) <> (pd, PFTEMP / 4096) /\ s <> pf_slot pd.
Proof.
  assert (E : addr / 4096 <> PFTEMP / 4096).
  { intros E. apply Hne. assert (HP : PFTEMP = 4096 * (PFTEMP / 4096)) by reflexivity. rewrite HP, <- E. zdiv. }
  split; [congruence|]. unfold pf_slot. intros [= E1 E2]. apply E. rewrite UTOP_range in Haddr.
  rewrite !PDX_eq in E1 by (done || lia). rewrite !PTX_eq in E2 by (done || lia). zdiv.
Qed.
Definition byte_at (i : Z) : Z := match user_view k pd (addr + i) with Some (v, _) => v | None => 0 end.
Lemma byte_at_view i : 0 <= i < 4096 -> exists w, user_view k pd (addr + i) = Some (byte_at i, w) /\ 0 <= byte_at i < 256.
Proof.
  intros Hi. unfold byte_at. destruct (Hv i Hi) as [[b w] Hb]. rewrite Hb. exists w. split; [done|].
  rewrite (source_view k pd addr i b w Haddr Ha Hi Hb). apply load8_bound.
Qed.

(** The state when the copy is made. *)
Definition filled (k2 : kern) (n : Z) (l1 : list Z) : Prop :=
  n ∈ l /\ page_at dirs extra l1 pd PFTEMP n k2 /\ private dirs k2 (pf_slot pd) n /\ tables_rwu pd k2 /\
  vm_frame k k2 /\ pde (pmem k2) pd (PDX addr) <> 0 /\
  (forall i, 0 <= i < 4096 -> load8 (pmem k2) (4096 * n + i) = byte_at i) /\
  forall pd' va, pd' ∈ dirs -> 0 <= va < UTOP -> (pd', va / 4096) <> (pd, PFTEMP / 4096) -> same_view pd' va k k2.
Lemma addr_page i : 0 <= i < 4096 -> 0 <= addr + i < UTOP /\ (pd, (addr + i) / 4096) <> (pd, PFTEMP / 4096).
Proof.
  intros Hi. destruct addr_apart as [Hap _]. split; [rewrite UTOP_range in *; zdiv|].
  intros [= E]. apply Hap. f_equal. rewrite <- E. zdiv.
Qed.
Lemma fault_filled k1 n l1 : n ∈ l -> page_at dirs extra l1 pd PFTEMP n k1 -> private dirs k1 (pf_slot pd) n ->
  tables_rwu pd k1 -> isolated dirs extra pd PFTEMP k k1 ->
  wp (urun (umemmove PFTEMP addr PGSIZE)) (fun _ k2 => filled k2 n l1) (fun _ _ => False) k1.
Proof.
  intros Hn HP1 Hpr1 Htab1 [Hfr1 _ Hv1 Hro1 _]. pose proof current_dir as Hpd.
  eapply wp_mono; [apply (fault_copy dirs extra pd l1 k1 n addr byte_at HP1 Hpr1 Haddr)| |done].
  { intros i Hi. destruct (byte_at_view i Hi) as (w & Hw & _). exists w. rewrite <- Hw.
    destruct (addr_page i Hi). by apply Hv1. }
  { intros i Hi. by destruct (byte_at_view i Hi) as (w & _ & ?). }
  cbv beta. intros [] k2 (m' & -> & Hm & Hbytes).
  destruct (page_at_copied dirs extra pd Hpd l1 k1 n m' HP1 Hpr1 Htab1 Hm) as (HP2 & Hpr2 & Htab2 & Hro2 & Hv2).
  destruct (va_slot dirs pd addr Hpd Haddr) as [_ Hst].
  split_and!; try done.
  - eapply vm_frame_trans; [exact Hfr1|]. unfold vm_frame. by destruct k1.
  - assert (Hpde0 : pde (pmem k) pd (PDX addr) <> 0).
    { destruct (Hv 0 ltac:(lia)) as [x Hx]. rewrite Z.add_0_r, user_view_raw in Hx. cbv zeta in Hx.
      intros E. by rewrite E in Hx. }
    pose proof (Hro2 _ Hst) as E2. cbn [raw] in E2. rewrite E2.
    assert (E1 : pde (pmem k1) pd (PDX addr) = pde (pmem k) pd (PDX addr)); [|by rewrite E1].
    apply (Hro1 (STab pd (PDX addr))); [done|done|]. intros [= E1]. by rewrite <- E1.
  - intros pd' va Hp' Hva Hx. etrans; [by apply Hv1|by apply Hv2].
Qed.

(** The four steps, after the frame has been read. *)
Lemma pgfault_steps (Q : unit -> kern -> Prop) :
  (forall k' l' n, privatised dirs extra pd addr k k' l' n -> Q tt k') ->
  wp (urun (r ← usys_page_alloc 0 PFTEMP rwu;
    if r <? 0 then UPanics "pgfault : sys_page_alloc : %e"
    else
      umemmove PFTEMP addr PGSIZE;;
      r ← usys_page_map 0 PFTEMP 0 addr rwu;
      if r <? 0 then UPanics "pgfault : sys_page_map : %e"
      else
        r ← usys_page_unmap 0 PFTEMP;
        if r <? 0 then UPanics "pgfault : sys_page_unmap : %e" else mret tt)) Q (fun _ _ => False) k.
Proof.
  intros HQ. pose proof current_dir as Hpd. destruct addr_apart as [_ Hsp].
  apply wp_urun_bind. eapply wp_mono; [by apply (fault_alloc dirs extra c pd Hpd l k)| |done]. cbv beta.
  intros r k1 (-> & n & l1 & Hn & HP1 & Hpr1 & Htab1 & Hi1). cbn [Z.ltb Z.compare].
  apply wp_urun_bind. eapply wp_mono; [by apply (fault_filled k1 n l1)| |done]. cbv beta. clear HP1 Hpr1 Htab1 Hi1.
  intros [] k2 (_ & HP2 & Hpr2 & Htab2 & Hfr2 & Hpde2 & Hbytes & Hv2).
  destruct (calls_dirs_frame dirs l k c k2 Hfr2 Hrd) as [Hc2 Hd2].
  destruct (vm_free_count dirs extra l k HV n Hn) as [_ Hex].
  destruct (va_slot dirs pd addr Hpd Haddr) as [Hs Hst].
  apply wp_urun_bind. eapply wp_mono;
    [apply (fault_map dirs extra c pd Hpd l1 k2 n addr byte_at); try done; by rewrite (envs_at_frame k k2)| |done].
  cbv beta. intros r k3 (-> & Hraw3 & Hi3 & Hv3). cbn [Z.ltb Z.compare]. pose proof Hi3 as [Hfr3 [l3 HV3] Hw3 Hro3 _].
  assert (Hfr03 : vm_frame k k3) by (by eapply vm_frame_trans).
  destruct (calls_dirs_frame dirs l k c k3 Hfr03 Hrd) as [Hc3 Hd3]. pose proof HP2 as [_ _ _ _ Hnr Hpte2 _].
  apply wp_urun_bind. eapply wp_mono;
    [apply (fault_unmap dirs extra c pd Hpd l3 k3 n addr); try done; [by rewrite (envs_at_frame k k3)|..]| |done].
  { rewrite Hro3; [exact Hpte2|by apply pf_slot_in|by apply not_eq_sym|done]. }
  { intros s' Hs' Hne1 Hne2 Hp'. unfold target. rewrite Hro3 by (done || by intros ->). by apply Hpr2. }
  cbv beta. intros r k4 (-> & Hi4 & Hr4 & Hraw4 & Hpr4). cbn [Z.ltb Z.compare]. apply wp_urun_ret.
  destruct Hi4 as [Hfr4 [l4 HV4] Hw4 _ _]. apply (HQ k4 l4 n).
  split; [done|]. split; [by eapply vm_frame_trans|]. split; [|split; [done|split; [done|split; [done|]]]].
  - intros i b w Hi Hb. destruct (byte_at_view i Hi) as (w' & Hw' & _). rewrite Hb in Hw'. injection Hw' as -> _.
    rewrite <- (Hv3 i Hi). destruct (addr_page i Hi). by apply Hw4.
  - intros pd' va Hp' Hva Hx1 Hx2. etrans; [by apply Hv2|]. etrans; [by apply Hw3|by apply Hw4].
Qed.
End pgfault.

(** C12. After a write fault [pgfault] has given the environment a private copy.
    Run as the current environment on the frame at [utf] of a write to a
    mapped page, with two free pages at least, it returns; the page then holds
    the bytes it held and can be written; the frame behind it is referred to
    by nothing else in any address space; the page used for the copy is not
    mapped any more; every other page of every address space looks as before,
    so that whoever shared the old page still sees it; and the reference
    counts and the free list are exact. *)
Theorem pgfault_private_copy dirs extra l k c utf fault_va err :
  let pd := env_pgdir (envs_at k c) in
  let addr := fault_va - fault_va mod 4096 in
  let s := SPte pd (PDX addr) (PTX addr) in
  vm_ok dirs extra l k -> calls_ready dirs l k c -> cr3 k = pd -> tables_rwu pd k ->
  (2 <= length l)%nat -> 0 <= fault_va < UTOP -> addr <> PFTEMP ->
  urun (uld32 utf) k = Ret fault_va k -> urun (uld32 (utf + 4)) k = Ret err k -> Z.land err FEC_WR <> 0 ->
  (forall i, 0 <= i < 4096 -> is_Some (user_view k pd (addr + i))) ->
  exists k' l' n, urun (pgfault utf) k = Ret tt k' /\ vm_ok dirs extra l' k' /\ vm_frame k k' /\
    (forall i b w, 0 <= i < 4096 -> user_view k pd (addr + i) = Some (b, w) ->
       user_view k' pd (addr + i) = Some (b, true)) /\
    raw (pmem k') s = pte_value n rwu /\
    (forall s', s' ∈ slots dirs -> s' <> s -> target (pmem k') s' <> Some n) /\
    raw (pmem k') (SPte pd (PDX PFTEMP) (PTX PFTEMP)) = 0 /\
    (forall pd' va, pd' ∈ dirs -> 0 <= va < UTOP -> (pd', va / 4096) <> (pd, addr / 4096) ->
       (pd', va / 4096) <> (pd, PFTEMP / 4096) -> user_view k' pd' va = user_view k pd' va).
Proof.
  intros pd addr s HV Hrd Hcr Htab Hlen Hva Hne Hu1 Hu2 Herr Hv. rewrite UTOP_range in Hva.
  assert (Haddr : 0 <= addr < UTOP) by (rewrite UTOP_range; unfold addr; zdiv).
  assert (Ha : addr mod 4096 = 0) by (unfold addr; zdiv).
  assert (Hw : wp (urun (pgfault utf)) (fun _ k' => exists l' n, privatised dirs extra pd addr k k' l' n)
    (fun _ _ => False) k).
  { unfold pgfault. apply wp_urun_bind. eapply wp_run; [exact Hu1|]. change PGSIZE with 4096 at 1 2.
    rewrite ROUNDDOWN_eq by lia. fold addr. apply wp_urun_bind. eapply wp_run; [exact Hu2|].
    apply wp_urun_bind. rewrite (proj2 (Z.eqb_neq _ _) Herr). cbn [negb]. apply wp_urun_ret. cbv iota.
    apply (pgfault_steps dirs extra l k c addr); try done. intros k' l' n H. by exists l', n. }
  apply wp_ret_inv in Hw as ([] & k' & E & l' & n & H1 & H2 & H3 & H4 & H5 & H6 & H7). by exists k', l', n.
Qed.

(** ** An example: a fault of environment 0 of [cow_demo] at 0x800123 *)

(** The frame is at 0x800100; page 11 is free too. *)
Definition fault_mem : mem := store32 (store32 (pmem cow_demo) 0x9100 0x800123) 0x9104 7.
Definition fault_demo : kern := freed_page (cow_demo {{ pmem := fault_mem }}) 11 (mkPageInfo None 0).

Lemma uld32_ret k a b0 b1 b2 b3 w :
  user_view k (cr3 k) (u32 a) = Some (b0, w) -> user_view k (cr3 k) (u32 (a + 1)) = Some (b1, w) ->
  user_view k (cr3 k) (u32 (a + 2)) = Some (b2, w) -> user_view k (cr3 k) (u32 (a + 3)) = Some (b3, w) ->
  urun (uld32 a) k = Ret (b0 + 256 * b1 + 65536 * b2 + 16777216 * b3) k.
Proof.
  intros H0 H1 H2 H3.
  assert (H : wp (urun (uld32 a)) (fun r k' => r = b0 + 256 * b1 + 65536 * b2 + 16777216 * b3 /\ k' = k) (fun _ _ => False) k).
  { unfold uld32. cbn [urun]. apply wp_bind. unfold uread32.
    apply wp_bind, (wp_load_byte k a b0 w _ _ H0), wp_bind, (wp_load_byte k (a + 1) b1 w _ _ H1).
    apply wp_bind, (wp_load_byte k (a + 2) b2 w _ _ H2), wp_bind, (wp_load_byte k (a + 3) b3 w _ _ H3).
    apply wp_ret. by apply wp_ret. }
  apply wp_ret_inv in H as (r & k' & E & -> & ->). exact E.
Qed.
(** One more free page. *)
Lemma freed_ready dirs extra l k c i : vm_ok dirs extra l k -> calls_ready dirs l k c ->
  pages k !! i = Some (mkPageInfo None 0) -> i ∉ l -> i <> 0 ->
  vm_ok dirs extra (i :: l) (freed_page k i (mkPageInfo None 0)) /\
  calls_ready dirs (i :: l) (freed_page k i (mkPageInfo None 0)) c.
Proof.
  intros HV Hrd Hi Hl H0. set (k' := freed_page k i (mkPageInfo None 0)).
  assert (Hfr : vm_frame k k') by (unfold vm_frame, k', freed_page; by destruct k).
  assert (Hpg : forall j q, pages k' !! j = Some q -> exists q', pages k !! j = Some q' /\ pp_ref q' = pp_ref q).
  { intros j q. unfold k', freed_page. ksimp. destruct (decide (j = i)) as [->|].
    - rewrite lookup_insert_eq. intros [= <-]. by exists (mkPageInfo None 0).
    - rewrite lookup_insert_ne by done. intros H. by exists q. }
  split.
  - apply (vm_extra _ extra extra l (i :: l) k); [exact HV|by intros| | | |].
    + by apply (free_list_freed k i _ l (vm_free _ _ _ _ HV)).
    + apply not_elem_of_cons. split; [by apply not_eq_sym|by apply HV].
    + by apply (dom_insert _ i (mkPageInfo None 0)).
    + intros j p p' Hp Hp'. destruct (Hpg j p' Hp') as (q & Hq & <-). rewrite Hp in Hq. injection Hq as <-.
      split; [by apply (vm_pages _ _ _ _ HV j)|]. intros Hj. split; [by apply (vm_ref _ _ _ _ HV j p)|lia].
  - destruct (calls_dirs_frame _ _ _ _ _ Hfr Hrd) as [Hc Hdd]. destruct Hrd as [_ _ Hroom _ (q & Hq & Hr)].
    split; [exact Hc|exact Hdd| |done|].
    + intros j p Hp. destruct (Hpg j p Hp) as (q' & Hq' & <-). by apply (Hroom j).
    + exists q. split; [|done]. unfold k', freed_page. ksimp. by rewrite lookup_insert_ne.
Qed.
(** Other bytes in a page that is no table. *)
Lemma bytes_ready dirs extra l k c f m' : vm_ok dirs extra l k -> calls_ready dirs l k c -> no_table dirs k f ->
  (forall x, x / 4096 <> f -> load8 m' x = load8 (pmem k) x) ->
  vm_ok dirs extra l (k {{ pmem := m' }}) /\ calls_ready dirs l (k {{ pmem := m' }}) c.
Proof.
  intros HV Hrd Hnt Hm. split; [by apply (page_bytes_ok dirs extra l f)|].
  assert (Hfr : vm_frame k (k {{ pmem := m' }})) by (unfold vm_frame; by destruct k).
  destruct (calls_dirs_frame _ _ _ _ _ Hfr Hrd) as [Hc Hdd]. destruct Hrd as [_ _ Hroom Hfree Hz].
  by split.
Qed.
Lemma cow_demo_free l : free_list cow_demo l -> l = [5].
Proof.
  intros (Hch & _).
  assert (Hh : page_free_list cow_demo = Some 5) by (vm_compute; reflexivity).
  assert (H5 : pages cow_demo !! 5 = Some (mkPageInfo None 0)) by (vm_compute; reflexivity).
  revert Hh H5 Hch. generalize (page_free_list cow_demo) (pages cow_demo). intros h pgs -> H5 Hch.
  inversion Hch as [|? p l' Hp Hr Hch' E1 E2]. subst.
  rewrite H5 in Hp. injection Hp as <-. cbn [pp_link] in Hch'. by inversion Hch'.
Qed.
Lemma fault_demo_ready : exists extra, vm_ok [0x7000; 0x150000] extra [11; 5] fault_demo /\
  calls_ready [0x7000; 0x150000] [11; 5] fault_demo 0.
Proof.
  destruct cow_demo_ready as (extra & l & HV & Hrd). pose proof (cow_demo_free l (vm_free _ _ _ _ HV)) as ->.
  assert (H11 : pages cow_demo !! 11 = Some (mkPageInfo None 0)) by (vm_compute; reflexivity).
  assert (Hraw : raw (pmem cow_demo) (SPte 0x150000 (PDX 0x800000) (PTX 0x800000)) = pte_value 9 7) by (vm_compute; reflexivity).
  assert (Hd : 0x150000 ∈ [0x7000; 0x150000]) by (right; left).
  assert (Hnt : no_table [0x7000; 0x150000] cow_demo 9).
  { apply (mapped_no_table _ extra [5] cow_demo 0x150000 0x800000 9 7 HV Hd); [by split|by split|by split|exact Hraw]. }
  assert (Hm : forall x, x / 4096 <> 9 -> load8 fault_mem x = load8 (pmem cow_demo) x).
  { intros x Hx. unfold fault_mem. generalize (pmem cow_demo). intros m. rewrite !store32_load8.
    rewrite !decide_False by zdiv. reflexivity. }
  assert (Hn11 : 11 ∉ [5]) by (intros E%list_elem_of_singleton; discriminate E).
  exists extra. unfold fault_demo. revert HV Hrd H11 Hnt Hm. generalize fault_mem cow_demo. intros m k HV Hrd H11 Hnt Hm.
  destruct (bytes_ready _ extra [5] k 0 9 m HV Hrd Hnt Hm) as [HV1 Hrd1].
  by apply (freed_ready _ extra [5] (k {{ pmem := m }}) 0 11).
Qed.
Lemma fault_demo_tables : tables_rwu 0x150000 fault_demo.
Proof.
  intros d Hd Hne.
  assert (H : forallb (fun d => let e := pde (pmem fault_demo) 0x150000 d in (e =? 0) || (Z.land e 7 =? 7)) (seqZ 0 UD) = true)
    by (vm_compute; reflexivity).
  rewrite forallb_forall in H. specialize (H d ltac:(apply list_elem_of_In, elem_of_seqZ; lia)). cbv zeta in H.
  apply orb_true_iff in H as [H|H]; apply Z.eqb_eq in H; [by destruct Hne|exact H].
Qed.
Lemma pgfault_private_copy_witness : exists k' n, urun (pgfault 0x800100) fault_demo = Ret tt k' /\
  user_view k' 0x150000 0x800101 = Some (1, true) /\ raw (pmem k') (SPte 0x150000 2 0) = pte_value n rwu.
Proof.
  destruct fault_demo_ready as (extra & HV & Hrd).
  assert (Hpg : env_pgdir (envs_at fault_demo 0) = 0x150000) by (vm_compute; reflexivity).
  assert (Hcr : cr3 fault_demo = 0x150000) by (vm_compute; reflexivity).
  assert (Hraw : raw (pmem fault_demo) (SPte 0x150000 (PDX 0x800000) (PTX 0x800000)) = pte_value 9 7) by (vm_compute; reflexivity).
  assert (Hpde : PTE_OK (pde (pmem fault_demo) 0x150000 (PDX 0x800000)) = true) by (vm_compute; reflexivity).
  assert (Hv : forall i, 0 <= i < 4096 -> is_Some (user_view fault_demo 0x150000 (0x800000 + i))).
  { intros i Hi. rewrite (page_view fault_demo 0x150000 0x800000 9 7 i ltac:(by split) eq_refl ltac:(by split) eq_refl Hraw Hi Hpde).
    eexists. reflexivity. }
  assert (Hu : forall a b, user_view fault_demo 0x150000 a = Some (b, true) -> user_view fault_demo (cr3 fault_demo) a = Some (b, true)).
  { intros a b H. rewrite Hcr. exact H. }
  assert (Hu1 : urun (uld32 0x800100) fault_demo = Ret 0x800123 fault_demo).
  { apply (uld32_ret fault_demo 0x800100 0x23 0x01 0x80 0 true); apply Hu; vm_compute; reflexivity. }
  assert (Hu2 : urun (uld32 (0x800100 + 4)) fault_demo = Ret 7 fault_demo).
  { apply (uld32_ret fault_demo (0x800100 + 4) 7 0 0 0 true); apply Hu; vm_compute; reflexivity. }
  assert (H1 : user_view fault_demo 0x150000 (0x800000 + 0x101) = Some (1, true)) by (vm_compute; reflexivity).
  pose proof fault_demo_tables as Ht.
  pose proof (pgfault_private_copy [0x7000; 0x150000] extra [11; 5] fault_demo 0 0x800100 0x800123 7) as H.
  cbv zeta in H. rewrite Hpg in H. change (0x800123 - 0x800123 mod 4096) with 0x800000 in H.
  destruct (H HV Hrd Hcr Ht ltac:(cbn [length]; lia) ltac:(by split) ltac:(discriminate) Hu1 Hu2 ltac:(discriminate) Hv)
    as (k' & l' & n & E & _ & _ & Hb & Hr & _).
  exists k', n. split; [exact E|]. split; [exact (Hb 0x101 1 true ltac:(by split) H1)|exact Hr].
Defined.
