(* ===== verification/ForkProps.v ===== *)
(** * Fork copies the address space

    The loop of [fork] (fork.c) over the pages of the parent, run in user mode
    with its system calls in the kernel model: every page the parent can read
    is shared with the child, copy-on-write unless it is marked as shared, and
    no other address space changes. *)
From S2P Require Import Prelude Layout Mem CString Printf Console Kern Pmap PmapFree Vm EnvMod EnvProps TrapMod User CowProps SysVm CowFault.

(** ** Loops of programs *)
Lemma wp_ufor {R} (I : Z -> kern -> Prop) (body : Z -> uprog (option R)) E n : forall i k,
  (forall j k, i <= j < i + Z.of_nat n -> I j k -> wp (urun (body j)) (fun r k' => r = None /\ I (j + 1) k') E k) ->
  I i k -> wp (urun (ufor n i body)) (fun r k' => r = None /\ I (i + Z.of_nat n) k') E k.
Proof.
  induction n as [|n IH]; intros i k Hb HI; cbn [ufor].
  { apply wp_urun_ret. split; [done|]. by rewrite Z.add_0_r. }
  apply wp_urun_bind. eapply wp_mono; [by apply Hb; [lia|]| |done]. cbv beta. intros r k' [-> HI'].
  replace (i + Z.of_nat (S n)) with (i + 1 + Z.of_nat n) by lia. apply IH; [|done].
  intros j k2 Hj. apply Hb. lia.
Qed.

(** Whether a page is there, seen through [uvpd] and [uvpt]. *)
Lemma wp_page_has pd k j Q E : cr3 k = pd -> tables_rwu pd k -> 0 <= 4096 * j < UTOP ->
  Q (PTE_OK (raw (pmem k) (SPte pd (PDX (4096 * j)) (PTX (4096 * j))))) k ->
  wp (urun (page_has (PGSIZE * j) [PTE_P; PTE_U])) Q E k.
Proof.
  intros Hcr Htab Hj HQ. change PGSIZE with 4096. unfold page_has, uvpd. apply wp_urun_bind. cbn [urun].
  apply wp_bind. unfold read_pde. apply wp_kget. rewrite Hcr. apply wp_ret.
  fold (pde (pmem k) pd (PDX (4096 * j))). set (s := SPte pd _ _) in *.
  pose proof Hj as Hr. rewrite UTOP_range in Hr.
  assert (Hpn : PGNUM (4096 * j) = j) by (rewrite PGNUM_eq by lia; zdiv).
  destruct (Z.eqb_spec (Z.land (pde (pmem k) pd (PDX (4096 * j))) PTE_P) 0) as [Ez|En].
  - apply wp_urun_ret. destruct (Z.eqb_spec (pde (pmem k) pd (PDX (4096 * j))) 0) as [E0|E0].
    + unfold s in HQ. cbn [raw] in HQ. rewrite E0 in HQ. exact HQ.
    + apply Htab in E0; [|by apply va_d]. change PTE_P with (Z.land 7 PTE_P) in Ez.
      rewrite Z.land_assoc, E0 in Ez. discriminate Ez.
  - cbn [pte_has]. rewrite !Hpn. apply wp_urun_bind. apply (wp_uvpt pd (4096 * j) j); [done|lia|done|done|]. fold s.
    unfold PTE_OK in HQ. destruct (Z.land (raw (pmem k) s) PTE_P =? 0); [by apply wp_urun_ret|].
    apply wp_urun_bind. apply (wp_uvpt pd (4096 * j) j); [done|lia|done|done|]. fold s.
    destruct (Z.land (raw (pmem k) s) PTE_U =? 0); by apply wp_urun_ret.
Qed.

(** ** What a fork does to the view *)

(** What the parent ([pc]) and the child ([pe]) see at [va] afterwards, in
    terms of what the parent saw before. *)
Definition forked (pc pe : Z) (k k' : kern) (va : Z) : Prop :=
  match user_view k pc va with
  | Some (b, w) =>
      let shared := negb (Z.land (raw (pmem k) (SPte pc (PDX va) (PTX va))) PTE_SHARE =? 0) in
      user_view k' pc va = Some (b, shared && w) /\ user_view k' pe va = Some (b, shared)
  | None => user_view k' pc va = None /\ user_view k' pe va = None
  end.

(** The directory entries that have a table. *)
Definition page_tables (pd : Z) (k : kern) : list Z := filter (fun d => pde (pmem k) pd d <> 0) (seqZ 0 UD).

(** ** One mapping *)
Section fork.
Context (dirs : list Z) (extra : Z -> Z) (k0 : kern) (c e child : Z).
Abbreviation pc := (env_pgdir (envs_at k0 c)).
Abbreviation pe := (env_pgdir (envs_at k0 e)).
Context (Hc : curenv k0 = Some c) (Hcr : cr3 k0 = pc).
Context (Hdirs : forall id x, envid2env id true k0 = Ret (Some (Some x)) k0 -> env_pgdir (envs_at k0 x) ∈ dirs).
Context (He : envid2env child true k0 = Ret (Some (Some e)) k0) (Hid : 0 <= child < 2 ^ 31) (Hne : pc <> pe).

Lemma parent_named : envid2env 0 true k0 = Ret (Some (Some c)) k0.
Proof. unfold envid2env. krun. by rewrite Hc. Qed.
Lemma pc_dir : pc ∈ dirs.
Proof. apply (Hdirs 0), parent_named. Qed.
Lemma pe_dir : pe ∈ dirs.
Proof. by apply (Hdirs child). Qed.

(** The names mean the same in every state the loop reaches. *)
Lemma named k id x : vm_frame k0 k -> envid2env id true k0 = Ret (Some (Some x)) k0 ->
  envid2env id true k = Ret (Some (Some x)) k /\ env_pgdir (envs_at k x) = env_pgdir (envs_at k0 x).
Proof. intros Hf H. split; [by apply (envid2env_frame k0)|by rewrite (envs_at_frame k0 k)]. Qed.

(** The directory a mapping goes to: the child's or the parent's. *)
Definition to_dir (id x : Z) : Prop := (id = 0 /\ x = c) \/ (id = child /\ x = e).

Record mapped_to (l : list Z) (k : kern) (pd va f perm : Z) (k' : kern) : Prop := {
  mt_raw : raw (pmem k') (SPte pd (PDX va) (PTX va)) = pte_value f perm;
  mt_bytes : bytes_kept pd va l k k';
  mt_pde : pde (pmem k') pd (PDX va) <> 0;
  mt_room : forall l', free_list k' l' ->
    (length l <= length l' + if (pde (pmem k) pd (PDX va) =? 0)%Z then 1 else 0)%nat;
  mt_isolated : isolated dirs extra pd va k k' }.

Lemma share_page l k id x va perm ev f : to_dir id x -> vm_ok dirs extra l k -> vm_frame k0 k ->
  0 <= va < UTOP -> va mod 4096 = 0 -> raw (pmem k) (SPte pc (PDX va) (PTX va)) = ev -> PTE_ADDR ev <> 0 ->
  f = PTE_ADDR ev / 4096 -> (forall p, pages k !! f = Some p -> pp_ref p < 65535) ->
  l <> [] \/ pde (pmem k) (env_pgdir (envs_at k0 x)) (PDX va) <> 0 -> perm_ok perm = true ->
  wp (urun (usys_page_map 0 va id va perm)) (fun r k' => r = 0 /\
    mapped_to l k (env_pgdir (envs_at k0 x)) va f perm k') (fun _ _ => False) k.
Proof.
  intros Hx HV Hf Hva Ha Hev Hez Hff Hr Hroom Hok. pose proof Hva as Hvr. rewrite UTOP_range in Hvr.
  pose proof (perm_ok_range perm Hok) as Hpr.
  assert (Hx0 : envid2env id true k0 = Ret (Some (Some x)) k0).
  { destruct Hx as [[-> ->]|[-> ->]]; [apply parent_named|exact He]. }
  destruct (named k id x Hf Hx0) as [Hidk Hpx]. destruct (named k 0 c Hf parent_named) as [H0k Hpc].
  assert (Hpde : pde (pmem k) pc (PDX va) <> 0).
  { intros E. cbn [raw] in Hev. rewrite E in Hev. cbn [Z.eqb] in Hev. subst ev. by apply Hez. }
  apply wp_usys_page_map. change (s32 (u32 0)) with 0. rewrite (u32_small va) by lia.
  assert (s32 (u32 id) = id) as -> by (rewrite u32_small, s32_small by (destruct Hx as [[-> _]|[-> _]]; lia); done).
  rewrite (u32_small perm), (s32_small perm) by lia.
  eapply wp_mono; [apply (sys_page_map_any dirs extra l k c HV)| |done].
  - unfold vm_frame in Hf. by rewrite Hf.
  - intros id' x' Hx'. rewrite (envs_at_frame k0 k) by done. apply (Hdirs id').
    exact (envid2env_frame k k0 id' true _ (vm_frame_sym _ _ Hf) Hx').
  - lia.
  - lia.
  - intros s Hs. rewrite H0k in Hs. injection Hs as <-. rewrite Hpc. split; [right; by rewrite Hev|].
    rewrite Hev, <- Hff. intros p Hpp _. by apply Hr.
  - cbv beta. intros r k' [(_ & _ & [[_ [Hb|Hb]]|[[_ [Hb|(s & Hs & Hb)]]|(_ & -> & d & Hd & Hb)]])|(-> & s & d & Hs & Hd & _ & _ & _ & _ & Hraw & Hbk & Hpde' & Hlen & Hi)].
    + rewrite H0k in Hb. by injection Hb.
    + rewrite Hidk in Hb. by injection Hb.
    + rewrite (user_page_true va Hva Ha), Hok in Hb. discriminate Hb.
    + rewrite H0k in Hs. injection Hs as <-. by rewrite Hpc in Hb.
    + rewrite Hidk in Hd. injection Hd as <-. rewrite Hpx in Hb. by destruct Hroom.
    + rewrite H0k in Hs. injection Hs as <-. rewrite Hidk in Hd. injection Hd as <-.
      rewrite Hpc in Hraw. rewrite Hpx in Hraw, Hbk, Hpde', Hlen, Hi. rewrite Hev, <- Hff in Hraw.
      split; [lia|]. split; [done|]. by split.
Qed.

(** ** The state between two rounds *)

(** Tables the child still lacks. *)
Definition missing (k : kern) : nat :=
  length (filter (fun d => pde (pmem k) pc d <> 0 /\ pde (pmem k) pe d = 0) (seqZ 0 UD)).
Record fork_ready (l : list Z) (k : kern) : Prop := {
  fr_ok : vm_ok dirs extra l k;
  fr_frame : vm_frame k0 k;
  fr_parent : tables_rwu pc k;
  fr_child : tables_rwu pe k;
  fr_room : (missing k <= length l)%nat }.

Lemma missing_room l k va : fork_ready l k -> 0 <= va < UTOP -> pde (pmem k) pc (PDX va) <> 0 ->
  l <> [] \/ pde (pmem k) pe (PDX va) <> 0.
Proof.
  intros [_ _ _ _ Hroom] Hva Hp. destruct (decide (pde (pmem k) pe (PDX va) = 0)) as [Hz|]; [left|by right].
  intros ->. cbn [length] in Hroom. unfold missing in Hroom.
  assert (Hin : PDX va ∈ filter (fun d => pde (pmem k) pc d <> 0 /\ pde (pmem k) pe d = 0) (seqZ 0 UD)).
  { apply list_elem_of_filter. split; [done|]. apply elem_of_seqZ. pose proof (va_d va Hva). lia. }
  destruct (filter _ _); [by apply elem_of_nil in Hin|]. cbn [length] in Hroom. lia.
Qed.
Lemma missing_mapped l k va x f perm k' : x = c \/ x = e -> fork_ready l k -> 0 <= va < UTOP ->
  pde (pmem k) pc (PDX va) <> 0 -> mapped_to l k (env_pgdir (envs_at k0 x)) va f perm k' ->
  exists l', fork_ready l' k'.
Proof.
  intros Hx [HV Hf Htp Htc Hroom] Hva Hpp [_ _ Hnz Hlen Hi]. pose proof pc_dir as Hpc. pose proof pe_dir as Hpe.
  pose proof Hi as [Hfr [l' HV'] _ Hro _]. exists l'. specialize (Hlen l' (vm_free _ _ _ _ HV')).
  pose proof (va_d va Hva) as Hd.
  assert (Hpcs : forall d, 0 <= d < UD -> pde (pmem k') pc d = pde (pmem k) pc d).
  { intros d Hdr. apply (Hro (STab pc d)); [by apply elem_of_slots|done|]. by intros [= <- ->]. }
  assert (Hpes : forall d, 0 <= d < UD -> d <> PDX va \/ pde (pmem k) pe d <> 0 \/ x = c -> pde (pmem k') pe d = pde (pmem k) pe d).
  { intros d Hdr Hcase. apply (Hro (STab pe d)); [by apply elem_of_slots|done|]. intros [= E ->].
    destruct Hcase as [? | [? | Ex]]; [done|by rewrite <- E|subst x; by symmetry in E]. }
  split; [done|by eapply vm_frame_trans|by eapply (tables_isolated dirs extra pc)|by eapply (tables_isolated dirs extra pe)|].
  assert (Hsub : (if decide (x = e /\ pde (pmem k) pe (PDX va) = 0) then [PDX va] else []) ++
      filter (fun d => pde (pmem k') pc d <> 0 /\ pde (pmem k') pe d = 0) (seqZ 0 UD) ⊆+
      filter (fun d => pde (pmem k) pc d <> 0 /\ pde (pmem k) pe d = 0) (seqZ 0 UD)).
  { apply NoDup_submseteq.
    - apply NoDup_app. split_and!; [case_decide; [apply NoDup_singleton|apply NoDup_nil_2]| |apply NoDup_filter, NoDup_seqZ].
      intros d Hin (Hz & _)%list_elem_of_filter. case_decide as Hdec; [|by apply elem_of_nil in Hin].
      apply list_elem_of_singleton in Hin as ->. destruct Hdec as [-> _]. by destruct Hz.
    - intros d [Hin|Hin]%elem_of_app.
      + case_decide as Hdec; [|by apply elem_of_nil in Hin]. apply list_elem_of_singleton in Hin as ->.
        apply list_elem_of_filter. split; [by destruct Hdec|]. apply elem_of_seqZ. lia.
      + apply list_elem_of_filter in Hin as [[Hz1 Hz2] Hin]. apply list_elem_of_filter. split; [|done].
        apply elem_of_seqZ in Hin. rewrite Hpcs in Hz1 by lia. split; [done|].
        destruct (decide (pde (pmem k) pe d = 0)) as [|Hn]; [done|]. rewrite Hpes in Hz2 by (lia || by right; left). done. }
  apply submseteq_length in Hsub. rewrite length_app in Hsub. unfold missing in *.
  destruct (Z.eqb_spec (pde (pmem k) (env_pgdir (envs_at k0 x)) (PDX va)) 0) as [Ez|En].
  - destruct Hx as [-> | ->]; [done|]. rewrite decide_True in Hsub by done. cbn [length] in Hsub. lia.
  - lia.
Qed.

(** ** One page *)

Abbreviation forked := (forked pc pe).
Record page_forked (va : Z) (k k' : kern) : Prop := {
  pf_view : forall i, 0 <= i < 4096 -> forked k k' (va + i);
  pf_same : forall pd' va', pd' ∈ dirs -> 0 <= va' < UTOP -> (pd', va' / 4096) <> (pc, va / 4096) ->
    (pd', va' / 4096) <> (pe, va / 4096) -> same_view pd' va' k k';
  pf_raw : forall s, s ∈ slots dirs -> is_pte s = true -> s <> SPte pc (PDX va) (PTX va) ->
    s <> SPte pe (PDX va) (PTX va) -> raw (pmem k') s = raw (pmem k) s;
  pf_parent : target (pmem k') (SPte pc (PDX va) (PTX va)) = target (pmem k) (SPte pc (PDX va) (PTX va));
  pf_copy : target (pmem k') (SPte pe (PDX va) (PTX va)) = None \/
    target (pmem k') (SPte pe (PDX va) (PTX va)) = target (pmem k) (SPte pc (PDX va) (PTX va)) }.

Lemma offset_in_page va i : 0 <= va < UTOP -> va mod 4096 = 0 -> 0 <= i < 4096 ->
  0 <= va + i < UTOP /\ (va + i) / 4096 = va / 4096 /\ PDX (va + i) = PDX va /\ PTX (va + i) = PTX va /\ PGOFF (va + i) = i.
Proof.
  rewrite UTOP_range. intros Hva Ha Hi. rewrite !PDX_eq, !PTX_eq, PGOFF_eq by lia. split_and!; zdiv.
Qed.
(** A readable page, as the parent sees it. *)
Lemma parent_view k va i ev : tables_rwu pc k -> 0 <= va < UTOP -> va mod 4096 = 0 -> 0 <= i < 4096 ->
  raw (pmem k) (SPte pc (PDX va) (PTX va)) = ev -> PTE_OK ev = true ->
  user_view k pc (va + i) = Some (load8 (pmem k) (4096 * (PTE_ADDR ev / 4096) + i), negb (Z.land ev PTE_W =? 0)).
Proof.
  intros Htab Hva Ha Hi Hev Hok. destruct (offset_in_page va i Hva Ha Hi) as (_ & _ & Ed & Et & Eo).
  rewrite user_view_raw. cbv zeta. rewrite Ed, Et, Eo, Hev, Hok.
  assert (Hpde : pde (pmem k) pc (PDX va) <> 0).
  { intros E. cbn [raw] in Hev. rewrite E in Hev. cbn [Z.eqb] in Hev. by subst ev. }
  pose proof (Htab (PDX va) (va_d va Hva) Hpde) as H7.
  assert (Hb : forall b, Z.land 7 b = b -> Z.land (pde (pmem k) pc (PDX va)) b = b).
  { intros b Hb. rewrite <- Hb at 1. by rewrite Z.land_assoc, H7. }
  unfold PTE_OK. rewrite !Hb by done. cbn [negb andb Z.eqb].
  pose proof (raw_range (pmem k) (SPte pc (PDX va) (PTX va))) as He'. cbv beta iota in He'. rewrite Hev in He'.
  pose proof (PTE_ADDR_mod ev He'). do 3 f_equal. zdiv.
Qed.
(** A fresh mapping of a page that some entry refers to. *)
Lemma mapped_view l k k' x va f perm s0 i : x = c \/ x = e -> vm_ok dirs extra l k -> s0 ∈ slots dirs -> is_pte s0 = true ->
  target (pmem k) s0 = Some f -> tables_rwu (env_pgdir (envs_at k0 x)) k' -> perm_ok perm = true ->
  0 <= va < UTOP -> va mod 4096 = 0 -> 0 <= i < 4096 -> mapped_to l k (env_pgdir (envs_at k0 x)) va f perm k' ->
  user_view k' (env_pgdir (envs_at k0 x)) (va + i) = Some (load8 (pmem k) (4096 * f + i), negb (Z.land perm PTE_W =? 0)).
Proof.
  intros Hx HV Hs Hpte Ht Htab Hok Hva Ha Hi [Hraw Hb Hnz _ [_ [l' HV'] _ _ _]].
  set (pd := env_pgdir (envs_at k0 x)) in *.
  assert (Hpd : pd ∈ dirs) by (unfold pd; destruct Hx as [-> | ->]; [apply pc_dir|apply pe_dir]).
  destruct (vm_target _ _ _ _ HV s0 f Hs Ht) as [q Hq]. destruct (vm_pages _ _ _ _ HV f q Hq) as [Hf _].
  pose proof (Htab (PDX va) (va_d va Hva) Hnz) as H7.
  assert (Hbit : forall b, Z.land 7 b = b -> Z.land (pde (pmem k') pd (PDX va)) b = b).
  { intros b Hb'. rewrite <- Hb' at 1. by rewrite Z.land_assoc, H7. }
  rewrite (shared_view dirs extra l l' k k' pd va f perm i); try done.
  - by rewrite Hbit.
  - by apply (vm_target_used dirs extra l k HV s0 f Hs).
  - by apply (pte_no_table dirs extra l k s0 f HV Hs Hpte).
  - unfold PTE_OK. by rewrite !Hbit.
Qed.
(** References grow by two at most. *)
Lemma isolated_ref l k k' pd va f p p' : vm_ok dirs extra l k -> isolated dirs extra pd va k k' -> f <> 0 ->
  pages k !! f = Some p -> pages k' !! f = Some p' -> pp_ref p' <= pp_ref p + 2.
Proof.
  intros HV [_ [l' HV'] _ Ho _] Hf Hp Hp'.
  destruct (vm_ref _ _ _ _ HV f p Hf Hp) as [_ ->]. destruct (vm_ref _ _ _ _ HV' f p' Hf Hp') as [_ ->].
  pose proof (count_le (pmem k) (pmem k') dirs f [SPte pd (PDX va) (PTX va); STab pd (PDX va)]
    (vm_nodup _ _ _ _ HV)) as Hc'.
  cbn [length] in Hc'. enough (count (pmem k') dirs f <= count (pmem k) dirs f + 2) by lia. apply Hc'.
  intros s Hs Hn. apply Ho; [done|intros ->; apply Hn; left|intros ->; exfalso; apply Hn; right; left].
Qed.

Section page.
Context (l : list Z) (k : kern) (va ev f : Z).
Abbreviation parent := (SPte pc (PDX va) (PTX va)).
Abbreviation copy := (SPte pe (PDX va) (PTX va)).
Context (HR : fork_ready l k) (Hva : 0 <= va < UTOP) (Ha : va mod 4096 = 0).
Context (Hev : raw (pmem k) parent = ev) (Hok : PTE_OK ev = true) (Hez : PTE_ADDR ev <> 0) (Hf : f = PTE_ADDR ev / 4096).

Lemma parent_target : target (pmem k) parent = Some f /\ parent ∈ slots dirs /\ f <> 0 /\ 0 <= f < 2 ^ 20.
Proof.
  pose proof (va_slot dirs pc va pc_dir Hva) as [Hs _].
  assert (Ht : target (pmem k) parent = Some f).
  { unfold target. rewrite Hev. cbn [refers]. rewrite (proj2 (Z.eqb_neq _ _) Hez). by rewrite Hf. }
  split; [done|]. split; [done|]. destruct HR as [HV _ _ _ _].
  destruct (vm_target _ _ _ _ HV _ f Hs Ht) as [q Hq]. split; [|by apply (vm_pages _ _ _ _ HV f q)].
  by destruct (pte_slot_present k pc va Hva f Ht) as (_ & ? & _).
Qed.
Lemma parent_table : pde (pmem k) pc (PDX va) <> 0.
Proof. destruct parent_target as (Ht & _). by destruct (pte_slot_present k pc va Hva f Ht). Qed.

(** Only the child gets a mapping. *)
Lemma child_mapped perm k1 : perm_ok perm = true -> mapped_to l k pe va f perm k1 -> tables_rwu pe k1 ->
  negb (Z.land perm PTE_W =? 0) = negb (Z.land ev PTE_SHARE =? 0) ->
  Z.land ev PTE_SHARE <> 0 \/ Z.land ev PTE_W = 0 -> page_forked va k k1.
Proof.
  intros Hpo Hm Ht1 Hw Hsh. destruct parent_target as (Ht & Hs & Hf0 & Hfr). destruct HR as [HV _ Htp _ _].
  pose proof Hm as [Hraw _ _ _ [_ _ Hview Hro _]].
  split.
  - intros i Hi. destruct (offset_in_page va i Hva Ha Hi) as (Hr & Eq & Ed & Et & _).
    pose proof (parent_view k va i ev Htp Hva Ha Hi Hev Hok) as Hpv. rewrite <- Hf in Hpv.
    unfold forked. rewrite Hpv, Ed, Et, Hev. split.
    + assert (E1 : user_view k1 pc (va + i) = user_view k pc (va + i)) by (apply Hview; [apply pc_dir|done|congruence]).
      rewrite E1, Hpv. do 2 f_equal.
      destruct Hsh as [Hx|Hx]; [by rewrite (proj2 (Z.eqb_neq _ _) Hx)|by rewrite Hx, andb_false_r].
    + rewrite <- Hw. apply (mapped_view l k k1 e va f perm parent i); try done. by right.
  - intros pd' va' Hp' Hva' _ Hx. by apply Hview.
  - intros s Hs' Hpte _ Hx. apply Hro; [done|done|by intros ->].
  - unfold target. rewrite Hro; [done|done|congruence|done].
  - right. rewrite Ht. unfold target. rewrite Hraw. cbn [refers].
    destruct (pte_value_eq f perm Hfr (perm_ok_range _ Hpo)) as (-> & _).
    rewrite (proj2 (Z.eqb_neq (4096 * f) 0)) by lia. f_equal. zdiv.
Qed.

(** Both get a copy-on-write mapping. *)
Lemma both_mapped l1 k1 k2 : mapped_to l k pe va f cow k1 -> fork_ready l1 k1 -> mapped_to l1 k1 pc va f cow k2 ->
  tables_rwu pc k2 -> Z.land ev PTE_SHARE = 0 -> page_forked va k k2.
Proof.
  intros Hm1 HR1 Hm2 Ht2 Hsh. destruct parent_target as (Ht & Hs & Hf0 & Hfr). destruct HR as [HV _ Htp _ _].
  pose proof HR1 as [HV1 _ _ Htc1 _]. pose proof pc_dir as Hpc. pose proof pe_dir as Hpe.
  pose proof Hm1 as [Hraw1 _ _ _ [_ _ Hview1 Hro1 _]]. pose proof Hm2 as [Hraw2 _ _ _ [_ _ Hview2 Hro2 _]].
  assert (Hp1 : raw (pmem k1) parent = ev) by (rewrite Hro1; [done|done|congruence|done]).
  assert (Htg : forall m s, raw m s = pte_value f cow -> is_pte s = true -> target m s = Some f).
  { intros m s Hr Hpte. destruct s as [| |pd d t]; [done|done|]. unfold target. rewrite Hr. cbn [refers].
    destruct (pte_value_eq f cow Hfr) as (-> & _); [by split|]. rewrite (proj2 (Z.eqb_neq (4096 * f) 0)) by lia. f_equal. zdiv. }
  assert (Ht1 : target (pmem k1) parent = Some f) by (unfold target in *; by rewrite Hp1, <- Hev).
  split.
  - intros i Hi. destruct (offset_in_page va i Hva Ha Hi) as (Hr & Eq & Ed & Et & _).
    pose proof (parent_view k va i ev Htp Hva Ha Hi Hev Hok) as Hpv. rewrite <- Hf in Hpv.
    assert (Hpv1 : user_view k1 pc (va + i) = user_view k pc (va + i)) by (apply Hview1; [done|done|congruence]).
    rewrite Hpv in Hpv1. apply (source_view k1 pc va i _ _ Hva Ha Hi) in Hpv1. rewrite Hp1, <- Hf in Hpv1.
    unfold forked. rewrite Hpv, Ed, Et, Hev, Hsh. cbn [Z.eqb negb andb]. split.
    + rewrite Hpv1. apply (mapped_view l1 k1 k2 c va f cow parent i); try done. by left.
    + rewrite (Hview2 pe (va + i)) by (done || congruence).
      apply (mapped_view l k k1 e va f cow parent i); try done. by right.
  - intros pd' va' Hp' Hva' Hx1 Hx2. etrans; [by apply Hview1|by apply Hview2].
  - intros s Hs' Hpte Hx1 Hx2. rewrite Hro2, Hro1 by (done || by intros ->). done.
  - rewrite Ht. by apply Htg.
  - right. rewrite Ht. apply Htg; [|done]. rewrite Hro2; [done|by apply va_slot|congruence|done].
Qed.
End page.

Lemma ready_cr3 l k : fork_ready l k -> cr3 k = pc.
Proof. intros [_ Hf _ _ _]. unfold vm_frame in Hf. by rewrite Hf. Qed.

Section dup.
Context (l : list Z) (k : kern) (j ev : Z).
Abbreviation va := (j * 4096).
Abbreviation f := (PTE_ADDR ev / 4096).
Abbreviation parent := (SPte pc (PDX va) (PTX va)).
Context (HR : fork_ready l k) (Hva : 0 <= va < UTOP) (Hev : raw (pmem k) parent = ev) (Hok : PTE_OK ev = true).
Context (Hez : PTE_ADDR ev <> 0) (Href : forall p, pages k !! f = Some p -> pp_ref p < 65533).

Lemma va_aligned : va mod 4096 = 0.
Proof. apply Z_mod_mult. Qed.
(** What [uvpt] shows. *)
Lemma read_entry A (g : Z -> uprog A) Q : wp (urun (g ev)) Q (fun _ _ => False) k ->
  wp (urun (pte ← uvpt j; g pte)) Q (fun _ _ => False) k.
Proof.
  intros HQ. apply wp_urun_bind. apply (wp_uvpt pc va j); [by apply (ready_cr3 l)|done|done| |by rewrite Hev].
  pose proof (parent_table l k va ev f HR Hva Hev Hez eq_refl) as Hpt.
  pose proof (fr_parent _ _ HR (PDX va) (va_d va Hva) Hpt) as H7. change PTE_P with (Z.land 7 PTE_P).
  rewrite Z.land_assoc, H7. discriminate.
Qed.
(** The mapping in the child. *)
Lemma map_child perm Q : perm_ok perm = true ->
  (forall l1 k1, fork_ready l1 k1 -> mapped_to l k pe va f perm k1 -> Q tt k1) ->
  wp (urun (r ← usys_page_map 0 va child va perm;
    if r <? 0 then UPanics "duppage : sys_page_map : %e" else mret tt)) Q (fun _ _ => False) k.
Proof.
  intros Hpo HQ. pose proof (parent_table l k va ev f HR Hva Hev Hez eq_refl) as Hpt. apply wp_urun_bind.
  eapply wp_mono; [apply (share_page l k child e va perm ev f); try done| |done].
  - by right.
  - apply HR.
  - apply HR.
  - apply va_aligned.
  - intros p Hp. specialize (Href p Hp). lia.
  - by apply (missing_room l k va HR).
  - cbv beta. intros r k1 [-> Hm]. cbn [Z.ltb Z.compare]. apply wp_urun_ret.
    destruct (missing_mapped l k va e f perm k1 ltac:(by right) HR Hva Hpt Hm) as [l1 HR1]. by apply (HQ l1).
Qed.
(** The copy-on-write mapping in the parent, after the child's. *)
Lemma map_parent l1 k1 Q : fork_ready l1 k1 -> mapped_to l k pe va f cow k1 ->
  (forall l2 k2, fork_ready l2 k2 -> mapped_to l1 k1 pc va f cow k2 -> Q tt k2) ->
  wp (urun (r ← usys_page_map 0 va 0 va cow;
    if r <? 0 then UPanics "duppage : sys_page_map : %e" else mret tt)) Q (fun _ _ => False) k1.
Proof.
  intros HR1 Hm1 HQ. destruct (parent_target l k va ev f HR Hva Hev Hez eq_refl) as (Ht & Hs & Hf0 & Hfr).
  destruct (vm_target _ _ _ _ (fr_ok _ _ HR) _ f Hs Ht) as [p Hp].
  pose proof Hm1 as [_ _ _ _ Hi1]. pose proof Hi1 as [_ _ _ Hro1 _].
  assert (Hp1 : raw (pmem k1) parent = ev) by (rewrite Hro1; [done|done|congruence|done]).
  pose proof (parent_table l1 k1 va ev f HR1 Hva Hp1 Hez eq_refl) as Hpt1.
  apply wp_urun_bind. eapply wp_mono; [apply (share_page l1 k1 0 c va cow ev f); try done| |done].
  - by left.
  - apply HR1.
  - apply HR1.
  - apply va_aligned.
  - intros p1 Hp1'. pose proof (isolated_ref l k k1 pe va f p p1 (fr_ok _ _ HR) Hi1 Hf0 Hp Hp1').
    specialize (Href p Hp). lia.
  - by right.
  - cbv beta. intros r k2 [-> Hm2]. cbn [Z.ltb Z.compare]. apply wp_urun_ret.
    destruct (missing_mapped l1 k1 va c f cow k2 ltac:(by left) HR1 Hva Hpt1 Hm2) as [l2 HR2]. by apply (HQ l2).
Qed.

(** [duppage] of a page the parent can read. *)
Lemma duppage_page : wp (urun (duppage child j)) (fun r k' =>
    r = 0 /\ (exists l', fork_ready l' k') /\ page_forked va k k') (fun _ _ => False) k.
Proof.
  pose proof va_aligned as Ha. pose proof Hva as Hvr. rewrite UTOP_range in Hvr.
  assert (Hu : u32 (j * PGSIZE) = va) by (apply u32_small; change PGSIZE with 4096; lia).
  unfold duppage. rewrite Hu. apply read_entry. destruct (Z.eqb_spec (Z.land ev PTE_SHARE) 0) as [Esh|Esh]; cbn [negb].
  2:{ apply wp_urun_bind, map_child; [done|]. intros l1 k1 HR1 Hm. apply wp_urun_ret. split; [done|]. split; [by exists l1|].
    eapply (child_mapped l k va ev f); try done; [reflexivity|exact (fr_child _ _ HR1)| |by left]. by rewrite (proj2 (Z.eqb_neq _ _) Esh). }
  apply read_entry. apply wp_urun_bind.
  eapply (wp_mono _ (fun b k' => k' = k /\ b = negb (Z.land ev PTE_W =? 0) || negb (Z.land ev PTE_COW =? 0)) _ (fun _ _ => False));
    [| |done].
  { destruct (Z.land ev PTE_W =? 0); cbn [negb orb]; [|by apply wp_urun_ret]. apply read_entry. by apply wp_urun_ret. }
  cbv beta. intros b k' [-> ->]. destruct (_ || _) eqn:Hb.
  - apply wp_urun_bind, map_child; [done|]. intros l1 k1 HR1 Hm1.
    apply wp_urun_bind, (map_parent l1 k1); [done|done|]. intros l2 k2 HR2 Hm2. apply wp_urun_ret. split; [done|].
    split; [by exists l2|]. by apply (both_mapped l k va ev f HR Hva Ha Hev Hok Hez eq_refl l1 k1 k2);
      [done|done|done|exact (fr_parent _ _ HR2)|done].
  - apply orb_false_iff in Hb as [Hw Hcow]. apply negb_false_iff, Z.eqb_eq in Hw.
    apply wp_urun_bind, map_child; [done|]. intros l1 k1 HR1 Hm. apply wp_urun_ret. split; [done|]. split; [by exists l1|].
    eapply (child_mapped l k va ev f); try done; [reflexivity|exact (fr_child _ _ HR1)| |by right]. by rewrite Esh.
Qed.
End dup.

(** ** The loop *)
Section loop.
Context (l0 : list Z) (HR0 : fork_ready l0 k0).
Context (Hempty : forall d, 0 <= d < UD -> pde (pmem k0) pe d = 0).
Context (Hnz : forall d t, SPte pc d t ∈ slots dirs -> PTE_OK (raw (pmem k0) (SPte pc d t)) = true ->
  PTE_ADDR (raw (pmem k0) (SPte pc d t)) <> 0).
Context (Hrefs : forall i p, pages k0 !! i = Some p -> pp_ref p < 32767).

(** The pages below [j] are done, nothing else is touched. *)
Record progress (j : Z) (k : kern) : Prop := {
  pr_ready : exists l, fork_ready l k;
  pr_done : forall va, 0 <= va < 4096 * j -> va < UTOP -> forked k0 k va;
  pr_rest : forall pd' va', pd' ∈ dirs -> 0 <= va' < UTOP -> (pd' <> pc /\ pd' <> pe) \/ 4096 * j <= va' ->
    same_view pd' va' k0 k;
  pr_raw : forall pd' d t, SPte pd' d t ∈ slots dirs -> (pd' <> pc /\ pd' <> pe) \/ j <= 1024 * d + t ->
    raw (pmem k) (SPte pd' d t) = raw (pmem k0) (SPte pd' d t);
  pr_parent : forall d t, SPte pc d t ∈ slots dirs -> target (pmem k) (SPte pc d t) = target (pmem k0) (SPte pc d t);
  pr_copy : forall d t, SPte pe d t ∈ slots dirs -> target (pmem k) (SPte pe d t) = None \/
    target (pmem k) (SPte pe d t) = target (pmem k0) (SPte pc d t) }.

Lemma progress_start : progress 0 k0.
Proof.
  split; [by exists l0|intros; lia|reflexivity|done|done|].
  intros d t Hs. left. apply elem_of_slots in Hs as (_ & Hd & _). unfold target. cbn [raw refers].
  by rewrite Hempty.
Qed.
Lemma page_index j : 0 <= 4096 * j < UTOP -> PDX (4096 * j) = j / 1024 /\ PTX (4096 * j) = j mod 1024.
Proof. rewrite UTOP_range. intros Hj. rewrite PDX_eq, PTX_eq by lia. split; zdiv. Qed.

Lemma pte_target_pos m pd d t f : target m (SPte pd d t) = Some f -> f <> 0.
Proof.
  unfold target. cbn [refers]. pose proof (raw_range m (SPte pd d t)) as Hr. cbv beta iota in Hr.
  set (v := raw m _) in *. pose proof (PTE_ADDR_mod v Hr).
  destruct (Z.eqb_spec (PTE_ADDR v) 0); [done|]. intros [= <-]. zdiv.
Qed.
(** Everything that refers to a page of the parent referred to it before, or
    is the child's copy of an entry that did. *)
Definition copy_of (s : slot) : slot := match s with SPte _ d t => SPte pe d t | s => s end.
Lemma progress_count j k d t f : progress j k -> SPte pc d t ∈ slots dirs ->
  target (pmem k0) (SPte pc d t) = Some f -> count (pmem k) dirs f <= 2 * count (pmem k0) dirs f.
Proof.
  intros [[l HR] _ _ Hraw Hpar Hcopy] Hs Ht. pose proof (fr_ok _ _ HR) as HV.
  assert (Htk : target (pmem k) (SPte pc d t) = Some f) by by rewrite Hpar.
  pose proof (pte_no_table dirs extra l k _ f HV Hs eq_refl Htk) as Hnt. unfold count.
  set (F0 := filter (fun s => target (pmem k0) s = Some f) (slots dirs)).
  assert (HF0 : forall s, s ∈ slots dirs -> target (pmem k0) s = Some f -> s ∈ F0) by (intros; by apply list_elem_of_filter).
  assert (Hsub : filter (fun s => target (pmem k) s = Some f) (slots dirs) ⊆+ F0 ++ (copy_of <$> F0)).
  { apply NoDup_submseteq; [apply NoDup_filter, NoDup_slots, HV|].
    intros s [Hts Hin]%list_elem_of_filter. apply elem_of_app.
    destruct s as [pd'|pd' d'|pd' d' t']; [by destruct (Hnt _ Hin eq_refl)|by destruct (Hnt _ Hin eq_refl)|].
    destruct (decide (pd' = pc)) as [->|Hn1]; [left; apply HF0; [done|by rewrite <- Hpar]|].
    destruct (decide (pd' = pe)) as [->|Hn2]; [right|left; apply HF0; [done|]].
    - destruct (Hcopy d' t' Hin) as [E|E]; [congruence|]. apply list_elem_of_fmap. exists (SPte pc d' t').
      split; [done|]. apply HF0; [|congruence]. apply elem_of_slots in Hin as (_ & ? & ?). apply elem_of_slots.
      split; [apply pc_dir|done].
    - unfold target in *. rewrite <- Hraw by (auto). done. }
  apply submseteq_length in Hsub. rewrite length_app, length_fmap in Hsub. lia.
Qed.
Lemma progress_ref j k d t f p : progress j k -> SPte pc d t ∈ slots dirs ->
  target (pmem k0) (SPte pc d t) = Some f -> pages k !! f = Some p -> pp_ref p < 65533.
Proof.
  intros HP Hs Ht Hp. pose proof (progress_count j k d t f HP Hs Ht) as Hcnt.
  destruct HP as [[l HR] _ _ _ _ _]. pose proof (fr_ok _ _ HR) as HV. pose proof (fr_ok _ _ HR0) as HV0.
  pose proof (pte_target_pos _ _ _ _ _ Ht) as Hf0. destruct (vm_target _ _ _ _ HV0 _ f Hs Ht) as [p0 Hp0].
  destruct (vm_ref _ _ _ _ HV f p Hf0 Hp) as [_ ->]. destruct (vm_ref _ _ _ _ HV0 f p0 Hf0 Hp0) as [? Hr0].
  specialize (Hrefs f p0 Hp0). lia.
Qed.

(** One page done. *)
Lemma progress_page j k l' k' : 0 <= j -> 4096 * j < UTOP -> progress j k -> fork_ready l' k' ->
  page_forked (4096 * j) k k' -> progress (j + 1) k'.
Proof.
  intros Hj0 Hj HP HR' [Hview Hsame Hraw' Hpar' Hcopy'].
  destruct HP as [_ Hdone Hrest Hraw Hpar Hcopy]. pose proof pc_dir as Hpc. pose proof pe_dir as Hpe.
  pose proof Hj as Hjr. rewrite UTOP_range in Hjr.
  destruct (page_index j ltac:(lia)) as [Ed Et]. rewrite Ed, Et in *.
  assert (Hq : 4096 * j / 4096 = j) by zdiv. rewrite Hq in Hsame.
  assert (Hps : SPte pc (j / 1024) (j mod 1024) ∈ slots dirs).
  { rewrite <- Ed, <- Et. apply va_slot; [done|lia]. }
  assert (Hraw1 : forall pd' d t, SPte pd' d t ∈ slots dirs -> (pd' <> pc /\ pd' <> pe) \/ 1024 * d + t <> j ->
    raw (pmem k') (SPte pd' d t) = raw (pmem k) (SPte pd' d t)).
  { intros pd' d t Hs Hx. apply Hraw'; [done|done| |]; intros [= E1 E2 E3]; destruct Hx as [[]|Hx]; try done; zdiv. }
  split; [by exists l'| | | | |].
  - intros va Hva Hut. destruct (Z.ltb_spec va (4096 * j)) as [Hlt|Hge].
    + pose proof (Hdone va ltac:(lia) Hut) as Hd. unfold forked in *.
      assert (Hx : forall pd', pd' ∈ dirs -> user_view k' pd' va = user_view k pd' va).
      { intros pd' Hp'. apply Hsame; [done|lia| |]; intros [= _ E]; zdiv. }
      by rewrite !Hx.
    + pose proof (Hview (va - 4096 * j) ltac:(lia)) as Hd. replace (4096 * j + (va - 4096 * j)) with va in Hd by lia.
      unfold forked in *. assert (Hv0 : user_view k pc va = user_view k0 pc va) by (apply Hrest; [done|lia|by right]).
      rewrite Hv0 in Hd. rewrite Hraw in Hd; [exact Hd|apply va_slot; [done|lia]|right].
      rewrite UTOP_range in Hut. rewrite PDX_eq, PTX_eq by lia. zdiv.
  - intros pd' va' Hp' Hva' Hx. rewrite UTOP_range in Hva'. etrans; [apply Hrest; [done|by rewrite UTOP_range|]|].
    + destruct Hx; [by left|right; lia].
    + apply Hsame; [done|by rewrite UTOP_range| |]; intros [= E1 E2]; destruct Hx as [[]|]; try done; zdiv.
  - intros pd' d t Hs Hx. rewrite Hraw1; [apply Hraw; [done|]|done|]; destruct Hx; auto; right; lia.
  - intros d t Hs. destruct (decide (1024 * d + t = j)) as [Ej|Hn].
    + pose proof Hs as (_ & Hd & Ht)%elem_of_slots. replace d with (j / 1024) in * by zdiv.
      replace t with (j mod 1024) in * by zdiv. rewrite Hpar'. by apply Hpar.
    + unfold target. rewrite Hraw1 by auto. by apply Hpar.
  - intros d t Hs. destruct (decide (1024 * d + t = j)) as [Ej|Hn].
    + pose proof Hs as (_ & Hd & Ht)%elem_of_slots. replace d with (j / 1024) in * by zdiv.
      replace t with (j mod 1024) in * by zdiv. destruct Hcopy' as [?|E]; [by left|right]. rewrite E. by apply Hpar.
    + unfold target. rewrite Hraw1 by auto. by apply Hcopy.
Qed.

Lemma fork_page_ok j k : 0 <= j -> 4096 * j < UTOP -> progress j k ->
  wp (urun (fork_page child j)) (fun r k' => r = None /\ progress (j + 1) k') (fun _ _ => False) k.
Proof.
  intros Hj0 Hj HP. pose proof HP as [[l HR] _ _ Hraw Hpar _]. pose proof Hj as Hjr. rewrite UTOP_range in Hjr.
  destruct (page_index j ltac:(lia)) as [Ed Et]. assert (Hva : 0 <= 4096 * j < UTOP) by lia.
  destruct (va_slot dirs pc (4096 * j) pc_dir Hva) as [Hs _]. destruct (va_slot dirs pe (4096 * j) pe_dir Hva) as [Hs' _].
  assert (Hidx : j <= 1024 * PDX (4096 * j) + PTX (4096 * j)) by (rewrite Ed, Et; zdiv).
  pose proof (Hraw pc _ _ Hs ltac:(by right)) as Hev. set (ev := raw (pmem k0) (SPte pc _ _)) in *.
  assert (Hpn : PGNUM (4096 * j) = j) by (rewrite PGNUM_eq by lia; zdiv).
  unfold fork_page. apply wp_urun_bind. apply (wp_page_has pc); [by apply (ready_cr3 l)|apply HR|done|]. rewrite Hev.
  change (PGNUM (PGSIZE * j)) with (PGNUM (4096 * j)). rewrite Hpn. destruct (PTE_OK ev) eqn:Hok.
  - assert (Hez : PTE_ADDR ev <> 0) by (by apply Hnz).
    assert (Ht : target (pmem k0) (SPte pc (PDX (4096 * j)) (PTX (4096 * j))) = Some (PTE_ADDR ev / 4096)).
    { unfold target. fold ev. cbn [refers]. by rewrite (proj2 (Z.eqb_neq _ _) Hez). }
    pose proof (duppage_page l k j ev) as Hdp. cbv zeta in Hdp. rewrite (Z.mul_comm j 4096) in Hdp.
    apply wp_urun_bind. eapply wp_mono; [apply Hdp; try done| |done].
    + intros p Hp. by apply (progress_ref j k _ _ _ p HP Hs Ht).
    + cbv beta. intros r k' (-> & [l' HR'] & Hpf). apply wp_urun_ret. split; [done|].
      by apply (progress_page j k l').
  - apply wp_urun_ret. split; [done|]. apply (progress_page j k l); try done.
    assert (Hc0 : raw (pmem k) (SPte pe (PDX (4096 * j)) (PTX (4096 * j))) = 0).
    { rewrite Hraw by (done || by right). cbn [raw]. rewrite Hempty; [done|]. by apply va_d. }
    split; [|reflexivity|done|done|].
    + intros i Hi. assert (Ha : (4096 * j) mod 4096 = 0) by zdiv.
      destruct (offset_in_page (4096 * j) i Hva Ha Hi) as (_ & _ & E1 & E2 & _).
      unfold ForkProps.forked. rewrite !user_view_raw. cbv zeta. rewrite E1, E2, Hev, Hc0, Hok, !andb_false_r. done.
    + left. unfold target. rewrite Hc0. done.
Qed.
Lemma fork_pages_ok : wp (urun (fork_pages child)) (fun r k' => r = None /\ progress (USTACKTOP / 4096) k')
  (fun _ _ => False) k0.
Proof.
  assert (H : forall N, 0 <= N -> 4096 * N <= UTOP ->
    wp (urun (ufor (Z.to_nat N) 0 (fork_page child))) (fun r k' => r = None /\ progress N k') (fun _ _ => False) k0).
  { intros N HN HU. pose proof (wp_ufor progress (fork_page child) (fun _ _ => False) (Z.to_nat N) 0 k0) as H.
    rewrite Z2Nat.id, Z.add_0_l in H by lia. apply H; [|apply progress_start].
    intros j k Hj HP. apply fork_page_ok; [lia|lia|done]. }
  unfold fork_pages. change PGSIZE with 4096. apply H; done.
Qed.
End loop.
End fork.

(** C11. [fork] gives the child the memory of its parent.  The loop of [fork],
    run as the current environment for a child whose address space is still
    empty, with a free page for every page table of the parent, returns; then
    the child reads at every address below [USTACKTOP] what the parent read
    there, and faults where the parent faulted; the parent reads what it read;
    a page that is not marked as shared can be written by neither, so that the
    first write of either is caught; a shared page is the same page in both
    (the child may write it even when the parent may not).  Everything above,
    and every other address space, is untouched, and the reference counts and
    the free list are exact. *)
Theorem fork_copies_memory dirs extra l k c e child :
  let pc := env_pgdir (envs_at k c) in let pe := env_pgdir (envs_at k e) in
  vm_ok dirs extra l k -> curenv k = Some c -> cr3 k = pc ->
  (forall id x, envid2env id true k = Ret (Some (Some x)) k -> env_pgdir (envs_at k x) ∈ dirs) ->
  envid2env child true k = Ret (Some (Some e)) k -> 0 <= child < 2 ^ 31 -> pc <> pe -> tables_rwu pc k ->
  (forall d, 0 <= d < UD -> pde (pmem k) pe d = 0) ->
  (forall d t, SPte pc d t ∈ slots dirs -> PTE_OK (raw (pmem k) (SPte pc d t)) = true ->
     PTE_ADDR (raw (pmem k) (SPte pc d t)) <> 0) ->
  (forall i p, pages k !! i = Some p -> pp_ref p < 32767) ->
  (length (page_tables pc k) <= length l)%nat ->
  exists k', urun (fork_pages child) k = Ret None k' /\ (exists l', vm_ok dirs extra l' k') /\ vm_frame k k' /\
    (forall va, 0 <= va < USTACKTOP -> forked pc pe k k' va) /\
    forall pd va, pd ∈ dirs -> 0 <= va < UTOP -> (pd <> pc /\ pd <> pe) \/ USTACKTOP <= va ->
      user_view k' pd va = user_view k pd va.
Proof.
  intros pc pe HV Hc Hcr Hd He Hid Hne Htab Hempty Hnz Hrefs Hroom.
  assert (HR : fork_ready dirs extra k c e l k).
  { split; [done|apply vm_frame_refl|done| |].
    - intros d Hdr Hx. by destruct Hx; apply Hempty.
    - etrans; [|exact Hroom]. apply submseteq_length, NoDup_submseteq; [apply NoDup_filter, NoDup_seqZ|].
      intros d [[Hx _] Hin]%list_elem_of_filter. by apply list_elem_of_filter. }
  destruct (wp_ret_inv _ _ _ (fork_pages_ok dirs extra k c e child Hc Hcr Hd He Hid Hne l HR Hempty Hnz Hrefs))
    as (r & k' & E & -> & [[l' HR'] Hdone Hrest _ _ _]).
  exists k'. split; [done|]. split; [exists l'; apply HR'|]. split; [apply HR'|].
  assert (HU : 4096 * (USTACKTOP / 4096) = USTACKTOP /\ USTACKTOP < UTOP) by (by split). destruct HU as [HU HU'].
  rewrite HU in Hdone, Hrest. split; [|done]. intros va Hva. apply Hdone; lia.
Qed.

(** ** An example: environment 0 of [cow_demo] forks environment 2 *)
Lemma cow_demo_child_empty d : 0 <= d < UD -> pde (pmem cow_demo) 0x7000 d = 0.
Proof.
  intros Hd. assert (H : forallb (fun d => pde (pmem cow_demo) 0x7000 d =? 0) (seqZ 0 UD) = true) by (vm_compute; reflexivity).
  rewrite forallb_forall in H. apply Z.eqb_eq, H, list_elem_of_In, elem_of_seqZ. lia.
Qed.
(** Its one table has one entry. *)
Lemma cow_demo_tables : forall d, 0 <= d < UD -> d = 2 \/ pde (pmem cow_demo) 0x150000 d = 0.
Proof.
  intros d Hd.
  assert (H : forallb (fun d => (d =? 2) || (pde (pmem cow_demo) 0x150000 d =? 0)) (seqZ 0 UD) = true) by (vm_compute; reflexivity).
  rewrite forallb_forall in H. specialize (H d ltac:(apply list_elem_of_In, elem_of_seqZ; lia)).
  apply orb_true_iff in H as [H|H]; apply Z.eqb_eq in H; [by left|by right].
Qed.
Lemma cow_demo_entries t : 0 <= t < 1024 -> t = 0 \/ raw (pmem cow_demo) (SPte 0x150000 2 t) = 0.
Proof.
  intros Ht.
  assert (H : forallb (fun t => (t =? 0) || (raw (pmem cow_demo) (SPte 0x150000 2 t) =? 0)) (seqZ 0 1024) = true) by (vm_compute; reflexivity).
  rewrite forallb_forall in H. specialize (H t ltac:(apply list_elem_of_In, elem_of_seqZ; lia)).
  apply orb_true_iff in H as [H|H]; apply Z.eqb_eq in H; [by left|by right].
Qed.
Lemma cow_demo_present d t : SPte 0x150000 d t ∈ slots [0x7000; 0x150000] ->
  PTE_OK (raw (pmem cow_demo) (SPte 0x150000 d t)) = true -> PTE_ADDR (raw (pmem cow_demo) (SPte 0x150000 d t)) <> 0.
Proof.
  intros (_ & Hd & Ht)%elem_of_slots. destruct (cow_demo_tables d Hd) as [->|E].
  - destruct (cow_demo_entries t Ht) as [->|E]; [|rewrite E; discriminate].
    assert (E : raw (pmem cow_demo) (SPte 0x150000 2 0) = 0x9007) by (vm_compute; reflexivity). rewrite E. discriminate.
  - cbn [raw]. rewrite E. discriminate.
Qed.
Lemma cow_demo_rwu : tables_rwu 0x150000 cow_demo.
Proof.
  intros d Hd Hne. destruct (cow_demo_tables d Hd) as [->|E]; [|exact (False_ind _ (Hne E))].
  vm_compute. reflexivity.
Qed.
Lemma cow_demo_refs i p : pages cow_demo !! i = Some p -> pp_ref p < 32767.
Proof.
  intros Hp. assert (Hall : map_Forall (fun _ p => pp_ref p < 32767) (pages cow_demo)).
  { apply (bool_decide_eq_true_1 _). vm_compute. reflexivity. }
  exact (Hall i p Hp).
Qed.
Lemma fork_copies_memory_witness : exists k', urun (fork_pages 4098) cow_demo = Ret None k' /\
  user_view k' 0x7000 0x800123 = Some (0, false) /\ user_view k' 0x150000 0x800123 = Some (0, false) /\
  user_view k' 0x7000 0x801000 = None.
Proof.
  destruct cow_demo_ready as (extra & l & HV & [Hc Hd _ _ _]). destruct cow_demo_ok as (_ & _ & _ & Hfr & _).
  assert (Hl : length l = 1%nat) by (rewrite (cow_demo_free l (vm_free _ _ _ _ HV)); reflexivity).
  assert (He : envid2env 4098 true cow_demo = Ret (Some (Some 2)) cow_demo).
  { apply (envid2env_frame cow_envs cow_demo _ _ _ Hfr). vm_compute. reflexivity. }
  assert (Hcr : cr3 cow_demo = 0x150000) by (vm_compute; reflexivity).
  assert (Hn : (length (page_tables 0x150000 cow_demo) <= 1)%nat).
  { assert (E : length (page_tables 0x150000 cow_demo) = 1%nat) by (vm_compute; reflexivity). rewrite E. lia. }
  assert (Hv1 : user_view cow_demo 0x150000 0x800123 = Some (0, true)) by (vm_compute; reflexivity).
  assert (Hv2 : user_view cow_demo 0x150000 0x801000 = None) by (vm_compute; reflexivity).
  assert (Hr : raw (pmem cow_demo) (SPte 0x150000 (PDX 0x800123) (PTX 0x800123)) = 0x9007) by (vm_compute; reflexivity).
  pose proof (fork_copies_memory [0x7000; 0x150000] extra l cow_demo 0 2 4098) as H. cbv zeta in H.
  rewrite (envs_at_frame _ _ 0 Hfr), (envs_at_frame _ _ 2 Hfr) in H.
  change (env_pgdir (envs_at cow_envs 0)) with 0x150000 in H. change (env_pgdir (envs_at cow_envs 2)) with 0x7000 in H.
  rewrite Hl in H.
  destruct (H HV Hc Hcr Hd He ltac:(by split) ltac:(discriminate) cow_demo_rwu cow_demo_child_empty
    cow_demo_present cow_demo_refs Hn) as (k' & E & _ & _ & Hf & _).
  exists k'. split; [exact E|].
  pose proof (Hf 0x800123 ltac:(by split)) as H1. unfold forked in H1. rewrite Hv1, Hr in H1. destruct H1 as [H1 H2].
  pose proof (Hf 0x801000 ltac:(by split)) as H3. unfold forked in H3. rewrite Hv2 in H3. destruct H3 as [_ H3].
  split; [exact H2|]. split; [exact H1|exact H3].
Defined.
