(* ===== verification/IdeDisk.v ===== *)
(** * The disk behind the IDE ports: src/src/ide.c, main.c

    A drive as its documentation describes it - task-file registers, a command
    register, a busy flag that may stay up any bounded time, sectors that
    cannot be read - answers the port programs of Devices.v.  The drivers move
    exactly the sectors they are asked for, and the boot loader's driver
    implements the copy of Boot.v. *)
From S2P Require Import Prelude Layout Mem CString Printf Console Kern TrapMod User Shell Boot Devices.

(** ** The drive *)
Record drive : Type := mkDrive {
  dr_disk : Z -> mem;                     (* the bytes of units 0 and 1 *)
  dr_count : Z; dr_lba0 : Z; dr_lba1 : Z; dr_lba2 : Z; dr_devhead : Z;
  dr_left : Z; dr_next : Z; dr_write : bool; dr_err : bool;   (* the transfer in progress *)
  dr_bad : Z -> Z -> bool;                (* sectors that fail *)
  dr_busy : nat; dr_delay : nat -> nat; dr_clock : nat }.
(** After each step of a command the drive is busy for a while. *)
Definition go_busy (d : drive) : drive :=
  d {{ dr_busy := dr_delay d (dr_clock d) }} {{ dr_clock := S (dr_clock d) }}.
Definition dr_unit (d : drive) : Z := dr_devhead d / 16 mod 2.
Definition dr_lba (d : drive) : Z :=
  dr_lba0 d + 256 * dr_lba1 d + 65536 * dr_lba2 d + 16777216 * (dr_devhead d mod 16).
Definition bad_here (d : drive) : bool := dr_bad d (dr_unit d) (dr_next d).
Definition failing (d : drive) : bool :=
  dr_err d || (0 <? dr_left d) && negb (dr_write d) && bad_here d.
(** The status register: BSY, or DRDY, with ERR when the next sector cannot be
    read or the last one could not be written, which ends the command. *)
Definition status (d : drive) : Z * drive :=
  match dr_busy d with
  | S b => (0x80, d {{ dr_busy := b }})
  | O => if failing d then (0x41, d {{ dr_left := 0 }} {{ dr_err := false }}) else (0x40, d)
  end.
Definition set_reg (port v : Z) (d : drive) : option drive :=
  if negb (dr_busy d =? 0)%nat then None
  else if port =? 0x1F2 then Some (d {{ dr_count := v }})
  else if port =? 0x1F3 then Some (d {{ dr_lba0 := v }})
  else if port =? 0x1F4 then Some (d {{ dr_lba1 := v }})
  else if port =? 0x1F5 then Some (d {{ dr_lba2 := v }})
  else if port =? 0x1F6 then Some (d {{ dr_devhead := v }})
  else if (port =? 0x1F7) && ((v =? 0x20) || (v =? 0x30)) then
    Some (go_busy (d {{ dr_left := (if dr_count d =? 0 then 256 else dr_count d) }} {{ dr_next := dr_lba d }}
                     {{ dr_write := v =? 0x30 }} {{ dr_err := false }}))
  else None.
(** A sector can be moved when the drive is ready for it. *)
Definition ready (d : drive) (write : bool) : bool :=
  match dr_busy d with O => (0 <? dr_left d) && negb (failing d) && eqb (dr_write d) write | S _ => false end.
Definition next_sector (d : drive) : drive :=
  go_busy (d {{ dr_left ::= fun n => n - 1 }} {{ dr_next ::= fun s => s + 1 }}).
(** A sector that cannot be written is lost, and the drive notes the error. *)
Definition put_sector (d : drive) (m : mem) (addr : Z) : drive :=
  if bad_here d then d {{ dr_err := true }}
  else d {{ dr_disk ::= fun disk u =>
         if u =? dr_unit d then copy_bytes 512 (disk u) (512 * dr_next d) m addr else disk u }}.
(** Programs against the drive: [None] is an access the drive does not
    define. *)
Fixpoint prun {A} (p : pio A) (d : drive) (m : mem) : option (A * drive * mem) :=
  match p with
  | PDone a => Some (a, d, m)
  | PIn port k => if port =? 0x1F7 then let (v, d') := status d in prun (k v) d' m else None
  | POut port v k => match set_reg port v d with Some d' => prun k d' m | None => None end
  | PIns port a n k =>
      if (port =? 0x1F0) && (n =? 128) && ready d false
      then prun k (next_sector d) (copy_bytes 512 m a (dr_disk d (dr_unit d)) (512 * dr_next d)) else None
  | POuts port a n k =>
      if (port =? 0x1F0) && (n =? 128) && ready d true
      then prun k (next_sector (put_sector d m a)) m else None
  | PPrint _ k => prun k d m
  | _ => None
  end.

(** ** Running the drivers *)
Lemma prun_bind {A B} (p : pio A) (f : A -> pio B) d m :
  prun (p ≫= f) d m = match prun p d m with Some (a, d', m') => prun (f a) d' m' | None => None end.
Proof.
  revert d m. induction p; intros dr mm; cbn; try done.
  - destruct (port =? 0x1F7); [|done]. destruct (status dr). apply H.
  - destruct (set_reg port v dr); [apply IHp|done].
  - destruct (_ && _ && _); [apply IHp|done].
  - destruct (_ && _ && _); [apply IHp|done].
Qed.
Definition settled (d : drive) : drive := d {{ dr_busy := O }}.
Definition aborted (d : drive) : drive := (settled d) {{ dr_left := 0 }} {{ dr_err := false }}.
Lemma ide_wait_ready_eq fuel check d m :
  (dr_busy d < fuel)%nat ->
  prun (ide_wait_ready fuel check) d m =
    if failing d then Some (if check then -1 else 0, aborted d, m) else Some (0, settled d, m).
Proof.
  revert d. induction fuel as [|fuel IH]; intros d Hb; [lia|]. cbn [ide_wait_ready]. rewrite prun_bind.
  cbn [inb prun]. change (0x1F7 =? 0x1F7) with true. cbv iota. unfold status.
  destruct (dr_busy d) as [|b] eqn:E.
  - unfold aborted, settled. destruct (failing d); destruct d; cbn in *; subst; by destruct check.
  - cbn. rewrite IH by (change (b < fuel)%nat; lia). by destruct d.
Qed.
Lemma waitdisk_eq fuel d m :
  (dr_busy d < fuel)%nat ->
  prun (waitdisk fuel) d m = Some (tt, if failing d then aborted d else settled d, m).
Proof.
  revert d. induction fuel as [|fuel IH]; intros d Hb; [lia|]. cbn [waitdisk]. rewrite prun_bind.
  cbn [inb prun]. change (0x1F7 =? 0x1F7) with true. cbv iota. unfold status.
  destruct (dr_busy d) as [|b] eqn:E.
  - unfold aborted, settled. destruct (failing d); destruct d; cbn in *; by subst.
  - cbn. rewrite IH by (change (b < fuel)%nat; lia). by destruct d.
Qed.
Lemma copy_bytes_add a b m dst disk src :
  copy_bytes (a + b) m dst disk src =
  copy_bytes b (copy_bytes a m dst disk src) (dst + Z.of_nat a) disk (src + Z.of_nat a).
Proof.
  revert m dst src. induction a as [|a IH]; intros m dst src; cbn [copy_bytes Nat.add].
  - by rewrite !Z.add_0_r.
  - rewrite IH. f_equal; lia.
Qed.

(** The sectors that can be moved before one that fails. *)
Fixpoint good_run (bad : Z -> bool) (s : Z) (n : nat) : nat :=
  match n with O => O | S n' => if bad s then O else S (good_run bad (s + 1) n') end.
Definition outcome (k n : nat) : Z := if (k =? n)%nat then 0 else -1.

Section drivers.
Context (fuel : nat).
(** The drive is never busy for longer than the driver polls; it is what it
    was but for the disk, the registers and the command. *)
Definition patient (d : drive) : Prop := (dr_busy d < fuel)%nat /\ forall t, (dr_delay d t < fuel)%nat.
Definition same_drive (d d' : drive) : Prop :=
  dr_delay d' = dr_delay d /\ dr_bad d' = dr_bad d /\ patient d'.
Lemma same_drive_trans d1 d2 d3 : same_drive d1 d2 -> same_drive d2 d3 -> same_drive d1 d3.
Proof. unfold same_drive. intros (? & ? & ?) (? & ? & ?). split_and!; congruence. Qed.
Lemma settled_same d : patient d -> same_drive d (settled d).
Proof. intros [? Hd]. split_and!; try done. split; [change (0 < fuel)%nat; lia|exact Hd]. Qed.
Lemma aborted_same d : patient d -> same_drive d (aborted d).
Proof. intros [? Hd]. split_and!; try done. split; [change (0 < fuel)%nat; lia|exact Hd]. Qed.
Lemma next_same d : patient d -> same_drive d (next_sector d).
Proof. intros [? Hd]. split_and!; try done. split; [apply Hd|exact Hd]. Qed.

Lemma failing_eq d n :
  dr_left d = Z.of_nat (S n) -> dr_err d = false -> failing d = negb (dr_write d) && bad_here d.
Proof.
  intros Hl He. unfold failing. rewrite He, Hl.
  by replace (0 <? Z.of_nat (S n)) with true by (symmetry; apply Z.ltb_lt; lia).
Qed.
Lemma settled_ready d n w :
  dr_left d = Z.of_nat (S n) -> failing d = false -> dr_write d = w -> ready (settled d) w = true.
Proof.
  intros Hl Hf Hw. unfold ready. change (dr_busy (settled d)) with O.
  change (dr_left (settled d)) with (dr_left d). change (failing (settled d)) with (failing d).
  change (dr_write (settled d)) with (dr_write d). rewrite Hf, Hw, Hl.
  replace (0 <? Z.of_nat (S n)) with true by (symmetry; apply Z.ltb_lt; lia). by destruct w.
Qed.
Lemma read_transfer n d m dst :
  patient d -> dr_left d = Z.of_nat n -> dr_write d = false -> dr_err d = false ->
  let k := good_run (dr_bad d (dr_unit d)) (dr_next d) n in
  exists d', prun (ide_transfer fuel n (fun a => PIns 0x1F0 a (512 / 4) (PDone tt)) dst) d m =
      Some (outcome k n, d', copy_bytes (512 * k) m dst (dr_disk d (dr_unit d)) (512 * dr_next d)) /\
    same_drive d d' /\ dr_disk d' = dr_disk d /\ dr_left d' = 0.
Proof.
  revert d m dst. induction n as [|n IH]; intros d m dst Hp Hl Hw He; cbn [good_run ide_transfer].
  { exists d. done. }
  rewrite prun_bind, ide_wait_ready_eq by apply Hp.
  assert (Hf := failing_eq d n Hl He). rewrite Hw in Hf. cbn [negb andb] in Hf. rewrite Hf. unfold bad_here in *.
  destruct (dr_bad d (dr_unit d) (dr_next d)) eqn:Hb.
  { exists (aborted d). split_and!; try done. by apply aborted_same. }
  cbn [Z.ltb Z.compare]. rewrite prun_bind. cbn [prun]. change (512 / 4 =? 128) with true.
  rewrite (settled_ready d n false) by done. change ((0x1F0 =? 0x1F0) && true && true) with true. cbv iota.
  assert (Hs := settled_same d Hp). assert (Hn := next_same _ (proj2 (proj2 Hs))).
  destruct (IH (next_sector (settled d)) (copy_bytes 512 m dst (dr_disk d (dr_unit d)) (512 * dr_next d)) (dst + 512))
    as (d' & Hrun & Hsame & Hdisk & Hleft).
  - apply Hn.
  - change (dr_left d - 1 = Z.of_nat n). lia.
  - exact Hw.
  - exact He.
  - change (dr_bad (next_sector (settled d))) with (dr_bad d) in *.
    change (dr_unit (next_sector (settled d))) with (dr_unit d) in *.
    change (dr_next (next_sector (settled d))) with (dr_next d + 1) in *.
    change (dr_disk (next_sector (settled d))) with (dr_disk d) in *.
    change (dr_disk (settled d) (dr_unit (settled d))) with (dr_disk d (dr_unit d)).
    change (dr_next (settled d)) with (dr_next d).
    exists d'. set (k := good_run (dr_bad d (dr_unit d)) (dr_next d + 1) n) in *.
    replace (512 * S k)%nat with (512 + 512 * k)%nat by lia. rewrite copy_bytes_add.
    replace (512 * dr_next d + Z.of_nat 512) with (512 * (dr_next d + 1)) by lia.
    split; [exact Hrun|]. split; [|done].
    apply (same_drive_trans d (settled d)); [done|]. by apply (same_drive_trans _ (next_sector (settled d))).
Qed.

(** The disk after [k] sectors were written from [src] on. *)
Definition wrote_sectors (d : drive) (k : nat) (m : mem) (src : Z) (u : Z) : mem :=
  if u =? dr_unit d then copy_bytes (512 * k) (dr_disk d u) (512 * dr_next d) m src else dr_disk d u.
(** What [ide_write] answers: nothing asks for the status after the last
    sector. *)
Definition write_outcome (k n : nat) : Z := if (S k <? n)%nat then -1 else 0.
Lemma write_transfer n d m src :
  patient d -> dr_left d = Z.of_nat n -> dr_write d = true -> dr_err d = false ->
  let k := good_run (dr_bad d (dr_unit d)) (dr_next d) n in
  exists d', prun (ide_transfer fuel n (fun a => POuts 0x1F0 a (512 / 4) (PDone tt)) src) d m =
      Some (write_outcome k n, d', m) /\
    same_drive d d' /\ (forall u, dr_disk d' u = wrote_sectors d k m src u) /\ dr_left d' = 0.
Proof.
  revert d src. induction n as [|n IH]; intros d src Hp Hl Hw He; cbn [good_run ide_transfer].
  { exists d. unfold wrote_sectors. cbn. split_and!; try done. intros u. by destruct (u =? dr_unit d). }
  rewrite prun_bind, ide_wait_ready_eq by apply Hp.
  assert (Hf := failing_eq d n Hl He). rewrite Hw in Hf. cbn [negb andb] in Hf. rewrite Hf.
  cbn [Z.ltb Z.compare]. rewrite prun_bind. cbn [prun]. change (512 / 4 =? 128) with true.
  rewrite (settled_ready d n true) by done. change ((0x1F0 =? 0x1F0) && true && true) with true. cbv iota.
  assert (Hs := settled_same d Hp). unfold put_sector. change (bad_here (settled d)) with (bad_here d).
  unfold bad_here. destruct (dr_bad d (dr_unit d) (dr_next d)) eqn:Hb.
  - set (D := (settled d) {{ dr_err := true }}).
    assert (HD : same_drive d D) by (split_and!; [done..|]; apply Hs).
    assert (Hn := next_same _ (proj2 (proj2 HD))).
    assert (Hdn : same_drive d (next_sector D)) by (by apply (same_drive_trans _ D)).
    assert (Hk : forall u, dr_disk d u = wrote_sectors d 0 m src u)
      by (intros u; unfold wrote_sectors; by destruct (u =? dr_unit d)).
    destruct n as [|n]; cbn [ide_transfer].
    + exists (next_sector D). split; [done|]. split; [done|]. split; [exact Hk|].
      change (dr_left d - 1 = 0). lia.
    + rewrite prun_bind, ide_wait_ready_eq by apply Hn. change (failing (next_sector D)) with true.
      exists (aborted (next_sector D)). split; [done|]. split; [|split; [exact Hk|done]].
      apply (same_drive_trans _ (next_sector D)); [done|]. by apply aborted_same, Hn.
  - set (D := (settled d) {{ dr_disk ::= _ }}).
    assert (HD : same_drive d D) by (split_and!; [done..|]; apply Hs).
    assert (Hn := next_same _ (proj2 (proj2 HD))).
    destruct (IH (next_sector D) (src + 512)) as (d' & Hrun & Hsame & Hdisk & Hleft);
      [apply Hn|change (dr_left d - 1 = Z.of_nat n); lia|exact Hw|exact He|].
    exists d'. change (dr_bad (next_sector D)) with (dr_bad d) in *.
    change (dr_unit (next_sector D)) with (dr_unit d) in *.
    change (dr_next (next_sector D)) with (dr_next d + 1) in *.
    set (k := good_run (dr_bad d (dr_unit d)) (dr_next d + 1) n) in *.
    split; [exact Hrun|]. split; [|split; [|done]].
    { apply (same_drive_trans d D); [done|]. by apply (same_drive_trans _ (next_sector D)). }
    intros u. rewrite Hdisk. unfold wrote_sectors.
    change (dr_unit (next_sector D)) with (dr_unit d). change (dr_next (next_sector D)) with (dr_next d + 1).
    change (dr_disk (next_sector D) u) with
      (if u =? dr_unit d then copy_bytes 512 (dr_disk d u) (512 * dr_next d) m src else dr_disk d u).
    destruct (u =? dr_unit d); [|done].
    replace (512 * S k)%nat with (512 + 512 * k)%nat by lia. rewrite copy_bytes_add.
    f_equal. lia.
Qed.

(** *** A command *)
Lemma devhead_value unit h :
  unit = 0 \/ unit = 1 -> 0 <= h < 16 ->
  u8 (Z.lor (Z.lor 0xE0 (Z.shiftl (Z.land unit 1) 4)) h) = 224 + 16 * unit + h.
Proof.
  intros Hu Hh.
  assert (h = 0 \/ h = 1 \/ h = 2 \/ h = 3 \/ h = 4 \/ h = 5 \/ h = 6 \/ h = 7 \/ h = 8 \/ h = 9 \/ h = 10 \/
    h = 11 \/ h = 12 \/ h = 13 \/ h = 14 \/ h = 15) as Hc by lia.
  destruct Hu as [-> | ->]; by repeat (destruct Hc as [->|Hc]; [done|]); subst.
Qed.
Definition sector_bytes (sec : Z) : Prop := 0 <= sec < 2 ^ 28.
Lemma land_byte v : Z.land v 0xFF = v mod 256.
Proof. change 0xFF with (Z.ones 8). by rewrite Z.land_ones by lia. Qed.
Lemma ide_request_eq d m unit sec n cmd :
  dr_busy d = O -> unit = 0 \/ unit = 1 -> 0 <= sec < 2 ^ 28 -> 0 < n <= 256 -> cmd = 0x20 \/ cmd = 0x30 ->
  exists d', prun (ide_request unit sec n cmd) d m = Some (tt, d', m) /\
    dr_left d' = n /\ dr_next d' = sec /\ dr_unit d' = unit /\ dr_write d' = (cmd =? 0x30) /\ dr_err d' = false /\
    dr_disk d' = dr_disk d /\ dr_bad d' = dr_bad d /\ dr_delay d' = dr_delay d /\ dr_busy d' = dr_delay d (dr_clock d).
Proof.
  intros Hb Hu Hs Hn Hc. destruct d as [disk cnt l0 l1 l2 dh left next wr err bad busy delay clock].
  change (busy = O) in Hb. subst busy.
  assert (Hh : 0 <= Z.land (Z.shiftr sec 24) 0x0F < 16 /\ Z.land (Z.shiftr sec 24) 0x0F = sec / 2 ^ 24).
  { change 0x0F with (Z.ones 4). rewrite Z.land_ones, Z.shiftr_div_pow2 by lia. split; zdiv. }
  pose proof (devhead_value unit _ Hu (proj1 Hh)) as Hdh. rewrite (proj2 Hh) in Hdh.
  assert (Hleft : (if u8 n =? 0 then 256 else u8 n) = n).
  { destruct (decide (n = 256)) as [->|]; [done|]. rewrite u8_small by lia.
    by rewrite (proj2 (Z.eqb_neq n 0)) by lia. }
  assert (Hlba : u8 (Z.land sec 0xFF) + 256 * u8 (Z.land (Z.shiftr sec 8) 0xFF) +
    65536 * u8 (Z.land (Z.shiftr sec 16) 0xFF) + 16777216 * ((224 + 16 * unit + sec / 2 ^ 24) mod 16) = sec).
  { rewrite !land_byte, !Z.shiftr_div_pow2, !u8_small by (lia || (apply Z.mod_pos_bound; lia)).
    replace ((224 + 16 * unit + sec / 2 ^ 24) mod 16) with (sec / 2 ^ 24) by zdiv. zdiv. }
  assert (Hun : (224 + 16 * unit + sec / 2 ^ 24) / 16 mod 2 = unit) by zdiv.
  exists (go_busy (mkDrive disk (u8 n) (u8 (Z.land sec 0xFF)) (u8 (Z.land (Z.shiftr sec 8) 0xFF))
    (u8 (Z.land (Z.shiftr sec 16) 0xFF)) (224 + 16 * unit + sec / 2 ^ 24) n sec (cmd =? 0x30) false bad O delay clock)).
  split; [|done].
  set (A := u8 (Z.land sec 0xFF)) in *. set (B := u8 (Z.land (Z.shiftr sec 8) 0xFF)) in *.
  set (C := u8 (Z.land (Z.shiftr sec 16) 0xFF)) in *.
  transitivity (Some (tt, go_busy (mkDrive disk (u8 n) A B C
    (u8 (Z.lor (Z.lor 0xE0 (Z.shiftl (Z.land unit 1) 4)) (Z.land (Z.shiftr sec 24) 0x0F)))
    (if u8 n =? 0 then 256 else u8 n)
    (A + 256 * B + 65536 * C +
      16777216 * (u8 (Z.lor (Z.lor 0xE0 (Z.shiftl (Z.land unit 1) 4)) (Z.land (Z.shiftr sec 24) 0x0F)) mod 16))
    (cmd =? 0x30) false bad O delay clock), m)).
  - destruct Hc as [-> | ->]; reflexivity.
  - by rewrite (proj2 Hh), Hdh, Hleft, Hlba.
Qed.

(** The driver waits for the drive, whatever the last command left. *)
Definition idle (d : drive) : Prop := patient d /\ dr_left d = 0.
Lemma first_wait d m :
  idle d -> exists d', prun (ide_wait_ready fuel false) d m = Some (0, d', m) /\ same_drive d d' /\
    dr_busy d' = O /\ dr_disk d' = dr_disk d.
Proof.
  intros [Hp Hl]. rewrite ide_wait_ready_eq by apply Hp. destruct (failing d).
  - exists (aborted d). split_and!; try done. by apply aborted_same.
  - exists (settled d). split_and!; try done. by apply settled_same.
Qed.
Lemma command_eq d m u sec n cmd (k : unit -> pio Z) :
  idle d -> u = 0 \/ u = 1 -> 0 <= sec < 2 ^ 28 -> 0 < n <= 256 -> cmd = 0x20 \/ cmd = 0x30 ->
  exists d', prun (ide_wait_ready fuel false;; ide_request u sec n cmd;; k tt) d m = prun (k tt) d' m /\
    same_drive d d' /\ dr_left d' = n /\ dr_next d' = sec /\ dr_unit d' = u /\ dr_write d' = (cmd =? 0x30) /\
    dr_err d' = false /\ dr_disk d' = dr_disk d.
Proof.
  intros Hd Hu Hs Hn Hc. destruct (first_wait d m Hd) as (d1 & Hr1 & Hs1 & Hb1 & Hk1).
  destruct (ide_request_eq d1 m u sec n cmd Hb1 Hu Hs Hn Hc) as
    (d2 & Hr2 & Hl & Hx & Hun & Hw & He & Hk2 & Hbad & Hdel & Hbusy).
  exists d2. rewrite prun_bind, Hr1, prun_bind, Hr2. split; [done|].
  destruct Hs1 as (Hdel1 & Hbad1 & Hp1). split_and!; try done; try congruence.
  split_and!; try congruence. split; [rewrite Hbusy; apply Hp1|rewrite Hdel; apply Hp1].
Qed.

Lemma ide_read_eq d m u sec dst n :
  idle d -> u = 0 \/ u = 1 -> 0 <= sec < 2 ^ 28 -> 0 < n <= 256 ->
  let k := good_run (dr_bad d u) sec (Z.to_nat n) in
  exists d', prun (ide_read fuel u sec dst n) d m =
      Some (outcome k (Z.to_nat n), d', copy_bytes (512 * k) m dst (dr_disk d u) (512 * sec)) /\
    same_drive d d' /\ dr_disk d' = dr_disk d /\ dr_left d' = 0.
Proof.
  intros Hd Hu Hs Hn k.
  destruct (command_eq d m u sec n 0x20
    (fun _ => ide_transfer fuel (Z.to_nat n) (fun a => PIns 0x1F0 a (512 / 4) (PDone tt)) dst) Hd Hu Hs Hn
    (or_introl eq_refl)) as (d1 & Hr & Hs1 & Hl & Hx & Hun & Hw & He & Hk).
  destruct (read_transfer (Z.to_nat n) d1 m dst) as (d2 & Hr2 & Hs2 & Hk2 & Hl2);
    [apply Hs1|lia|done|done|].
  exists d2. rewrite Hun, Hx, Hk, (proj1 (proj2 Hs1)) in Hr2. fold k in Hr2.
  split; [by etransitivity|]. split; [by eapply same_drive_trans|]. split; [congruence|done].
Qed.
Lemma ide_write_eq d m u sec src n :
  idle d -> u = 0 \/ u = 1 -> 0 <= sec < 2 ^ 28 -> 0 < n <= 256 ->
  let k := good_run (dr_bad d u) sec (Z.to_nat n) in
  exists d', prun (ide_write fuel u sec src n) d m = Some (write_outcome k (Z.to_nat n), d', m) /\
    same_drive d d' /\ dr_left d' = 0 /\
    forall v, dr_disk d' v = if v =? u then copy_bytes (512 * k) (dr_disk d v) (512 * sec) m src else dr_disk d v.
Proof.
  intros Hd Hu Hs Hn k.
  destruct (command_eq d m u sec n 0x30
    (fun _ => ide_transfer fuel (Z.to_nat n) (fun a => POuts 0x1F0 a (512 / 4) (PDone tt)) src) Hd Hu Hs Hn
    (or_intror eq_refl)) as (d1 & Hr & Hs1 & Hl & Hx & Hun & Hw & He & Hk).
  destruct (write_transfer (Z.to_nat n) d1 m src) as (d2 & Hr2 & Hs2 & Hk2 & Hl2);
    [apply Hs1|lia|done|done|].
  exists d2. rewrite Hun, Hx, (proj1 (proj2 Hs1)) in Hr2, Hk2. fold k in Hr2, Hk2.
  split; [by etransitivity|]. split; [by eapply same_drive_trans|]. split; [done|].
  intros v. rewrite Hk2. unfold wrote_sectors. by rewrite Hun, Hx, Hk.
Qed.

Lemma copy_bytes_load8 k m dst disk src a :
  load8 (copy_bytes k m dst disk src) a =
  if decide (dst <= a < dst + Z.of_nat k) then load8 disk (src + (a - dst)) else load8 m a.
Proof.
  revert m dst src. induction k as [|k IH]; intros m dst src; cbn [copy_bytes].
  - by rewrite decide_False by lia.
  - rewrite IH, load8_store8. repeat case_decide; try lia; try done.
    + f_equal. lia.
    + subst. rewrite u8_small by apply load8_bound. f_equal. lia.
Qed.
Lemma good_run_all bad s n : (forall x, s <= x < s + Z.of_nat n -> bad x = false) -> good_run bad s n = n.
Proof.
  revert s. induction n as [|n IH]; intros s H; [done|]. cbn. rewrite H by lia.
  f_equal. apply IH. intros x Hx. apply H. lia.
Qed.

(** C33. What is written to the disk is read back: on an idle drive of any
    bounded slowness, [ide_write] of up to 256 sectors that can be written and
    then [ide_read] of the same sectors both answer 0; the destination holds the bytes of
    the source, the sectors of the unit hold them too, and no other byte of
    memory, no other sector and not the other unit has changed. *)
Theorem ide_write_then_read d m u sec src dst n :
  idle d -> u = 0 \/ u = 1 -> 0 <= sec -> sec + n <= 2 ^ 28 -> 0 < n <= 256 ->
  (forall s, sec <= s < sec + n -> dr_bad d u s = false) ->
  exists d' m',
    prun (w ← ide_write fuel u sec src n; r ← ide_read fuel u sec dst n; mret (w, r)) d m =
      Some ((0, 0), d', m') /\ idle d' /\
    (forall a, load8 m' a =
       if decide (dst <= a < dst + 512 * n) then load8 m (src + (a - dst)) else load8 m a) /\
    (forall a, load8 (dr_disk d' u) a =
       if decide (512 * sec <= a < 512 * (sec + n)) then load8 m (src + (a - 512 * sec))
       else load8 (dr_disk d u) a) /\
    (forall v, v <> u -> dr_disk d' v = dr_disk d v).
Proof.
  intros Hd Hu Hs Hsn Hn Hgood.
  destruct (ide_write_eq d m u sec src n Hd Hu ltac:(lia) Hn) as (d1 & Hr1 & Hs1 & Hl1 & Hk1).
  assert (Hd1 : idle d1) by (split; [apply Hs1|done]).
  destruct (ide_read_eq d1 m u sec dst n Hd1 Hu ltac:(lia) Hn) as (d2 & Hr2 & Hs2 & Hk2 & Hl2).
  rewrite (proj1 (proj2 Hs1)) in Hr2.
  assert (Hg : good_run (dr_bad d u) sec (Z.to_nat n) = Z.to_nat n)
    by (apply good_run_all; intros; apply Hgood; lia).
  rewrite Hg in Hr1, Hr2, Hk1. exists d2. eexists. split_and!.
  - rewrite prun_bind, Hr1, prun_bind, Hr2. cbn [prun]. unfold write_outcome, outcome.
    rewrite Nat.eqb_refl. rewrite (proj2 (Nat.ltb_ge _ _)) by lia. reflexivity.
  - split; [apply Hs2|done].
  - intros a. rewrite copy_bytes_load8, Hk1, Z.eqb_refl.
    replace (Z.of_nat (512 * Z.to_nat n)) with (512 * n) by lia.
    case_decide; [|done]. rewrite copy_bytes_load8, decide_True by lia. f_equal. lia.
  - intros a. rewrite Hk2, Hk1, Z.eqb_refl, copy_bytes_load8.
    repeat case_decide; try lia; done.
  - intros v Hv. rewrite Hk2, Hk1. by rewrite (proj2 (Z.eqb_neq v u)).
Qed.

Lemma good_run_last bad s n :
  (forall x, s <= x < s + Z.of_nat n -> bad x = false) -> bad (s + Z.of_nat n) = true ->
  good_run bad s (S n) = n.
Proof.
  revert s. induction n as [|n IH]; intros s H Hb.
  - cbn. rewrite Z.add_0_r in Hb. by rewrite Hb.
  - change (good_run bad s (S (S n))) with (if bad s then O else S (good_run bad (s + 1) (S n))).
    rewrite H by lia. f_equal. apply IH; [intros x Hx; apply H; lia|].
    by replace (s + 1 + Z.of_nat n) with (s + Z.of_nat (S n)) by lia.
Qed.
(** A defect: [ide_write] does not wait for the status of the last sector,
    so that it answers 0, success, although that sector could not be written
    and keeps its old bytes; [ide_read] of the same range reports the error. *)
Theorem ide_write_loses_last d m u sec src dst n :
  idle d -> u = 0 \/ u = 1 -> 0 <= sec -> sec + n <= 2 ^ 28 -> 0 < n <= 256 ->
  (forall s, sec <= s < sec + n - 1 -> dr_bad d u s = false) -> dr_bad d u (sec + n - 1) = true ->
  exists d', prun (ide_write fuel u sec src n) d m = Some (0, d', m) /\
    (forall a, 512 * (sec + n - 1) <= a -> load8 (dr_disk d' u) a = load8 (dr_disk d u) a) /\
    exists d'' m'', prun (ide_read fuel u sec dst n) d' m = Some (-1, d'', m'').
Proof.
  intros Hd Hu Hs Hsn Hn Hgood Hbad.
  assert (Hg : good_run (dr_bad d u) sec (Z.to_nat n) = Z.to_nat (n - 1)).
  { replace (Z.to_nat n) with (S (Z.to_nat (n - 1))) by lia. apply good_run_last.
    - intros x Hx. apply Hgood. lia.
    - by replace (sec + Z.of_nat (Z.to_nat (n - 1))) with (sec + n - 1) by lia. }
  destruct (ide_write_eq d m u sec src n Hd Hu ltac:(lia) Hn) as (d1 & Hr1 & Hs1 & Hl1 & Hk1).
  assert (Hd1 : idle d1) by (split; [apply Hs1|done]).
  destruct (ide_read_eq d1 m u sec dst n Hd1 Hu ltac:(lia) Hn) as (d2 & Hr2 & Hs2 & Hk2 & Hl2).
  rewrite (proj1 (proj2 Hs1)) in Hr2. rewrite Hg in *.
  exists d1. split; [|split].
  - rewrite Hr1. unfold write_outcome. by rewrite (proj2 (Nat.ltb_ge _ _)) by lia.
  - intros a Ha. rewrite Hk1, Z.eqb_refl, copy_bytes_load8, decide_False by lia. done.
  - eexists _, _. rewrite Hr2. unfold outcome. by rewrite (proj2 (Nat.eqb_neq _ _)) by lia.
Qed.

(** *** The boot loader *)
Lemma u8_land v : u8 v = u8 (Z.land v 0xFF).
Proof. rewrite land_byte. unfold u8. change (2 ^ 8) with 256. by rewrite Z.mod_mod. Qed.
Lemma high_byte offset :
  0 <= offset < 2 ^ 28 ->
  u8 (Z.lor (Z.shiftr offset 24) 0xE0) =
  u8 (Z.lor (Z.lor 0xE0 (Z.shiftl (Z.land 0 1) 4)) (Z.land (Z.shiftr offset 24) 0x0F)).
Proof.
  intros Ho. change (Z.lor 0xE0 (Z.shiftl (Z.land 0 1) 4)) with 0xE0. rewrite Z.lor_comm. do 2 f_equal.
  change 0x0F with (Z.ones 4). rewrite Z.land_ones, Z.shiftr_div_pow2 by lia. symmetry. apply Z.mod_small. zdiv.
Qed.
Lemma readsect_io_eq dst offset :
  0 <= offset < 2 ^ 28 ->
  readsect_io fuel dst offset =
    (waitdisk fuel;; ide_request 0 offset 1 0x20;; waitdisk fuel;; PIns 0x1F0 dst (512 / 4) (PDone tt)).
Proof.
  intros Ho. unfold readsect_io, ide_request, outb.
  rewrite (u8_land offset), (u8_land (Z.shiftr offset 8)), (u8_land (Z.shiftr offset 16)), high_byte by done.
  reflexivity.
Qed.
(** C34. The boot loader's driver implements the abstract [readsect] of the
    boot model: run against an idle drive on which the sector can be read, it
    returns, has moved exactly that sector of unit 0 to [dst], and has changed
    neither the disk nor any other byte of memory. *)
Theorem readsect_refines d m dst offset :
  idle d -> 0 <= offset < 2 ^ 28 -> dr_bad d 0 offset = false ->
  exists d', prun (readsect_io fuel dst offset) d m = Some (tt, d', readsect (dr_disk d 0) m dst offset) /\
    idle d' /\ dr_disk d' = dr_disk d.
Proof.
  intros Hd Ho Hb. rewrite readsect_io_eq by done.
  assert (exists d1, prun (waitdisk fuel) d m = Some (tt, d1, m) /\ same_drive d d1 /\ dr_busy d1 = O /\
    dr_disk d1 = dr_disk d) as (d1 & Hr1 & Hs1 & Hb1 & Hk1).
  { destruct Hd as [Hp Hl]. rewrite waitdisk_eq by apply Hp. destruct (failing d).
    - exists (aborted d). split_and!; try done. by apply aborted_same.
    - exists (settled d). split_and!; try done. by apply settled_same. }
  destruct (ide_request_eq d1 m 0 offset 1 0x20 Hb1 (or_introl eq_refl) Ho ltac:(lia) (or_introl eq_refl))
    as (d2 & Hr2 & Hl & Hx & Hun & Hw & He & Hk2 & Hbad & Hdel & Hbusy).
  destruct Hs1 as (Hdel1 & Hbad1 & Hp1).
  assert (Hp2 : patient d2) by (split; [rewrite Hbusy; apply Hp1|rewrite Hdel; apply Hp1]).
  assert (Hf : failing d2 = false).
  { rewrite (failing_eq d2 0) by done. unfold bad_here. rewrite Hw, Hun, Hx. cbn. congruence. }
  rewrite prun_bind, Hr1, prun_bind, Hr2, prun_bind, waitdisk_eq, Hf by apply Hp2. cbn [prun].
  change (512 / 4 =? 128) with true.
  rewrite (settled_ready d2 0 false) by done. change ((0x1F0 =? 0x1F0) && true && true) with true. cbv iota.
  eexists. split; [|split].
  - change (dr_disk (settled d2) (dr_unit (settled d2))) with (dr_disk d2 (dr_unit d2)).
    change (dr_next (settled d2)) with (dr_next d2). rewrite Hun, Hx, Hk2, Hk1.
    unfold readsect. rewrite u32_small, Z.mod_small, (Z.mul_comm offset) by lia. reflexivity.
  - split; [apply next_same, settled_same, Hp2|]. change (dr_left d2 - 1 = 0). lia.
  - change (dr_disk d2 = dr_disk d). congruence.
Qed.
End drivers.

(** ** A drive *)
Definition drive0 : drive :=
  mkDrive (fun u => store32 ∅ (512 * 9) 0x11223344) 0 0 0 0 0 0 0 false true (fun u s => (u =? 1) && (s =? 7))
    3 (fun t => if Nat.even t then 2 else 0)%nat 0.
Lemma drive0_idle : idle 5 drive0.
Proof. split; [|done]. split; [cbn; lia|]. intros t. cbn. destruct (Nat.even t); lia. Qed.
Definition ram0 : mem := store32 ∅ 0x8000 0xCAFEBABE.
Lemma ide_write_then_read_witness :
  exists d' m', prun (w ← ide_write 5 1 4 0x8000 2; r ← ide_read 5 1 4 0x9000 2; mret (w, r)) drive0 ram0 =
    Some ((0, 0), d', m') /\ load8 m' 0x9003 = load8 ram0 (0x8000 + (0x9003 - 0x9000)).
Proof.
  destruct (ide_write_then_read 5 drive0 ram0 1 4 0x8000 0x9000 2 drive0_idle (or_intror eq_refl)
    ltac:(lia) ltac:(lia) ltac:(lia)) as (d' & m' & Hr & _ & Hm & _).
  - intros s Hs. unfold drive0. cbn. apply Z.eqb_neq. lia.
  - exists d', m'. split; [exact Hr|]. rewrite Hm. reflexivity.
Defined.
Lemma ide_write_loses_last_witness :
  exists d', prun (ide_write 5 1 6 0x8000 2) drive0 ram0 = Some (0, d', ram0) /\
    exists d'' m'', prun (ide_read 5 1 6 0x9000 2) d' ram0 = Some (-1, d'', m'').
Proof.
  destruct (ide_write_loses_last 5 drive0 ram0 1 6 0x8000 0x9000 2 drive0_idle (or_intror eq_refl)
    ltac:(lia) ltac:(lia) ltac:(lia)) as (d' & Hr & _ & Hrd).
  - intros s Hs. unfold drive0. cbn. apply Z.eqb_neq. lia.
  - reflexivity.
  - exists d'. split; [exact Hr|exact Hrd].
Defined.
Lemma readsect_refines_witness :
  exists d', prun (readsect_io 5 0x10000 9) drive0 ram0 = Some (tt, d', readsect (dr_disk drive0 0) ram0 0x10000 9).
Proof.
  destruct (readsect_refines 5 drive0 ram0 0x10000 9 drive0_idle ltac:(lia) eq_refl) as (d' & Hr & _).
  exists d'. exact Hr.
Defined.
