(* ===== verification/ConsPorts.v ===== *)
(** * The console driver at its ports: src/src/console.c

    The routines of console.c as programs over the variables of the file, the
    ports and the video memory; the devices behind them - a serial line that
    takes its time, a keyboard controller, a text-mode video controller - and
    the refinement: run against the devices, the driver does what Console.v
    says. *)
From S2P Require Import Prelude Layout Mem CString Printf Console Kern TrapMod User Shell Devices.

(** ** console.h, util.h and the registers of console.c *)
Definition MONO_BASE : Z := 0x3B4.
Definition MONO_BUF : Z := 0xB0000.
Definition CGA_BASE : Z := 0x3D4.
Definition CGA_BUF : Z := 0xB8000.
Definition KBSTATP : Z := 0x64.
Definition KBS_DIB : Z := 0x01.
Definition KBDATAP : Z := 0x60.
Definition COM1 : Z := 0x3F8.
Definition COM_RX : Z := 0.
Definition COM_TX : Z := 0.
Definition COM_DLL : Z := 0.
Definition COM_DLM : Z := 1.
Definition COM_IER : Z := 1.
Definition COM_IER_RDI : Z := 0x01.
Definition COM_IIR : Z := 2.
Definition COM_FCR : Z := 2.
Definition COM_LCR : Z := 3.
Definition COM_LCR_DLAB : Z := 0x80.
Definition COM_LCR_WLEN8 : Z := 0x03.
Definition COM_MCR : Z := 4.
Definition COM_LSR : Z := 5.
Definition COM_LSR_DATA : Z := 0x01.
Definition COM_LSR_TXRDY : Z := 0x20.

(** ** Programs over the file's variables *)
Record cvars : Type := mkVars {
  v_ring : gmap Z Z; v_rpos : Z; v_wpos : Z; v_shift : Z;
  v_serial_exists : bool; addr_6845 : Z; v_crt_buf : Z (* an address *); v_crt_pos : Z }.
Definition CP (A : Type) : Type := cvars -> pio (A * cvars).
#[export] Instance CP_ret : MRet CP := fun _ a v => PDone (a, v).
#[export] Instance CP_bind : MBind CP := fun _ _ f m v => pbind (fun r => f (fst r) (snd r)) (m v).
Definition io {A} (p : pio A) : CP A := fun v => pbind (fun a => PDone (a, v)) p.
Definition vget {A} (f : cvars -> A) : CP A := fun v => PDone (f v, v).
Definition vset (f : cvars -> cvars) : CP unit := fun v => PDone (tt, f v).
Definition cell_ld (a : Z) : CP Z := io (PLd a PDone).
Definition cell_st (a w : Z) : CP unit := io (PSt a (u16 w) (PDone tt)).

Definition delay : CP unit := io (inb 0x84;; inb 0x84;; inb 0x84;; inb 0x84;; mret tt).

(** *** Serial line *)
(** [for (i = 0; !(inb(COM1 + COM_LSR) & COM_LSR_TXRDY) && i < 12800; i++)]
    with [n] rounds left. *)
Fixpoint serial_wait (n : nat) : CP unit :=
  s ← io (inb (COM1 + COM_LSR));
  if negb (Z.land s COM_LSR_TXRDY =? 0) then mret tt
  else match n with O => mret tt | S n' => delay;; serial_wait n' end.
Definition serial_putc_io (c : Z) : CP unit :=
  serial_wait (Z.to_nat 12800);;
  if c =? 8 then
    io (outb (COM1 + COM_TX) c);;
    serial_wait (Z.to_nat 12800);;
    io (outb (COM1 + COM_TX) 32);;
    serial_wait (Z.to_nat 12800);;
    io (outb (COM1 + COM_TX) c)
  else io (outb (COM1 + COM_TX) c).
Definition serial_proc_data_io : CP Z :=
  s ← io (inb (COM1 + COM_LSR));
  if Z.land s COM_LSR_DATA =? 0 then mret (-1) else io (inb (COM1 + COM_RX)).
Definition serial_init : CP unit :=
  io (outb (COM1 + COM_FCR) 0);;
  io (outb (COM1 + COM_LCR) COM_LCR_DLAB);;
  io (outb (COM1 + COM_DLL) (115200 / 9600));;
  io (outb (COM1 + COM_DLM) 0);;
  io (outb (COM1 + COM_LCR) (Z.land COM_LCR_WLEN8 (Z.lnot COM_LCR_DLAB)));;
  io (outb (COM1 + COM_MCR) 0);;
  io (outb (COM1 + COM_IER) COM_IER_RDI);;
  s ← io (inb (COM1 + COM_LSR));
  vset (fun v => v {{ v_serial_exists := negb (s =? 0xFF) }});;
  io (inb (COM1 + COM_IIR));;
  io (inb (COM1 + COM_RX));;
  mret tt.

(** *** Screen *)
Definition cga_init : CP unit :=
  let cp := KERNBASE + CGA_BUF in
  was ← cell_ld cp;
  cell_st cp 0xA55A;;
  now ← cell_ld cp;
  cp ← (if negb (now =? 0xA55A) then
          vset (fun v => v {{ addr_6845 := MONO_BASE }});; mret (KERNBASE + MONO_BUF)
        else
          cell_st cp was;; vset (fun v => v {{ addr_6845 := CGA_BASE }});; mret cp);
  addr ← vget addr_6845;
  io (outb addr 14);; hi ← io (inb (addr + 1));
  io (outb addr 15);; lo ← io (inb (addr + 1));
  vset (fun v => v {{ v_crt_buf := cp }} {{ v_crt_pos := u16 (Z.lor (Z.shiftl hi 8) lo) }}).
(** [crt_buf[i]] *)
Definition cell (i : Z) : CP Z := b ← vget v_crt_buf; mret (b + 2 * i).
Fixpoint move_cells (n : nat) (i : Z) : CP unit :=
  match n with
  | O => mret tt
  | S n' => s ← cell (i + CRT_COLS); w ← cell_ld s; d ← cell i; io (PSt d w (PDone tt));; move_cells n' (i + 1)
  end.
Fixpoint blank_cells (n : nat) (i : Z) : CP unit :=
  match n with
  | O => mret tt
  | S n' => d ← cell i; cell_st d (Z.lor 0x0700 32);; blank_cells n' (i + 1)
  end.
Definition cga_scroll_io : CP unit :=
  pos ← vget v_crt_pos;
  (if pos >=? CRT_SIZE then
     move_cells (Z.to_nat (CRT_SIZE - CRT_COLS)) 0;;
     blank_cells (Z.to_nat CRT_COLS) (CRT_SIZE - CRT_COLS);;
     vset (fun v => v {{ v_crt_pos ::= fun p => u16 (p - CRT_COLS) }})
   else mret tt);;
  addr ← vget addr_6845; pos ← vget v_crt_pos;
  io (outb addr 14);; io (outb (addr + 1) (Z.shiftr pos 8));;
  io (outb addr 15);; io (outb (addr + 1) pos).
Definition cga_putc1_io (ch : Z) : CP unit :=
  let ch := cga_attr ch in
  let k := Z.land ch 0xff in
  pos ← vget v_crt_pos;
  (if k =? 8 then
     if pos >? 0 then
       vset (fun v => v {{ v_crt_pos := pos - 1 }});;
       d ← cell (pos - 1); cell_st d (Z.lor (Z.land ch (Z.lnot 0xff)) 32)
     else mret tt
   else if k =? 10 then
     let p := u16 (pos + CRT_COLS) in vset (fun v => v {{ v_crt_pos := u16 (p - p mod CRT_COLS) }})
   else if k =? 13 then vset (fun v => v {{ v_crt_pos := u16 (pos - pos mod CRT_COLS) }})
   else
     d ← cell pos; vset (fun v => v {{ v_crt_pos := u16 (pos + 1) }});; cell_st d ch);;
  cga_scroll_io.
Definition cons_putc1_io (ch : Z) : CP unit := serial_putc_io ch;; cga_putc1_io ch.
Definition cga_putc_io (ch : Z) : CP unit :=
  if Z.land ch 0xff =? 9
  then cons_putc1_io 32;; cons_putc1_io 32;; cons_putc1_io 32;; cons_putc1_io 32;; cga_scroll_io
  else cga_putc1_io ch.
Definition cons_putc_io (ch : Z) : CP unit := serial_putc_io ch;; cga_putc_io ch.
Definition cons_init : CP unit := cga_init;; serial_init.
Fixpoint printstr_io (n : nat) (s : list Z) : CP unit :=
  match n, s with
  | S n', ch :: s' => cons_putc_io (s8 ch);; printstr_io n' s'
  | _, _ => mret tt
  end.

(** *** Keyboard *)
Definition kbd_proc_data_io : CP Z :=
  s ← io (inb KBSTATP);
  if Z.land s KBS_DIB =? 0 then mret (-1)
  else
    data ← io (inb KBDATAP);
    sh ← vget v_shift;
    if data =? 0xE0 then vset (fun v => v {{ v_shift := Z.lor sh E0ESC }});; mret 0
    else if negb (Z.land data 0x80 =? 0) then
      let data := if negb (Z.land sh E0ESC =? 0) then data else Z.land data 0x7F in
      vset (fun v => v {{ v_shift := Z.land sh (Z.lnot (Z.lor (shiftcode data) E0ESC)) }});; mret 0
    else
      let '(data, sh) := if negb (Z.land sh E0ESC =? 0)
        then (Z.lor data 0x80, Z.land sh (Z.lnot E0ESC)) else (data, sh) in
      let sh := Z.lor sh (shiftcode data) in
      let sh := Z.lxor sh (togglecode data) in
      let ch := charcode (Z.land sh (Z.lor CTL SHIFT)) data in
      let ch :=
        if negb (Z.land sh CAPSLOCK =? 0) then
          if (97 <=? ch) && (ch <=? 122) then ch + (65 - 97)
          else if (65 <=? ch) && (ch <=? 90) then ch + (97 - 65) else ch
        else ch in
      vset (fun v => v {{ v_shift := sh }});;
      if (Z.land (Z.lnot sh) (Z.lor CTL ALT) =? 0) && (ch =? KEY_DEL)
      then printstr_io 100 (str_codes "Rebooting!" ++ [10]);; io (outb 0x92 0x3);; mret ch
      else mret ch.

(** *** The input buffer *)
Fixpoint cons_intr_io (fuel : nat) (proc : CP Z) : CP unit :=
  match fuel with
  | O => fun _ => PFuel
  | S f =>
      c ← proc;
      if c =? -1 then mret tt
      else if c =? 0 then cons_intr_io f proc
      else
        vset (fun v =>
          let w := u32 (v_wpos v + 1) in
          v {{ v_ring := <[v_wpos v := u8 c]> (v_ring v) }} {{ v_wpos := if w =? CONSBUFSIZE then 0 else w }});;
        cons_intr_io f proc
  end.
Definition serial_intr_io (fuel : nat) : CP unit :=
  e ← vget v_serial_exists;
  if (e : bool) then cons_intr_io fuel serial_proc_data_io else mret tt.
Definition kbd_intr_io (fuel : nat) : CP unit := cons_intr_io fuel kbd_proc_data_io.
Definition cons_getc_io (fuel : nat) : CP Z :=
  serial_intr_io fuel;; kbd_intr_io fuel;;
  r ← vget v_rpos; w ← vget v_wpos;
  if negb (r =? w) then
    b ← vget v_ring;
    let r' := u32 (r + 1) in
    vset (fun v => v {{ v_rpos := if r' =? CONSBUFSIZE then 0 else r' }});; mret (default 0 (b !! r))
  else mret 0.
(** [while ((c = cons_getc()) == 0)] *)
Fixpoint getchar (rounds fuel : nat) : CP Z :=
  match rounds with
  | O => fun _ => PFuel
  | S n => c ← cons_getc_io fuel; if c =? 0 then getchar n fuel else mret c
  end.
Definition iscons (fdnum : Z) : Z := 1.

(** ** The devices *)
Record cdev : Type := mkCdev {
  d_rx : list Z; d_tx : list Z; d_lost : list Z;       (* serial line: received, sent, overrun *)
  d_busy : nat; d_delay : nat -> nat; d_clock : nat; d_dlab : bool;
  d_keys : list Z;                                      (* keyboard controller *)
  d_index : Z; d_hi : Z; d_lo : Z;                      (* cursor registers of the video controller *)
  d_cells : gmap Z Z;                                   (* video memory *)
  d_reset : bool }.
(** A machine has one video card, colour or monochrome, and perhaps a serial
    line. *)
Section devices.
Context (colour has_serial : bool).
Definition vport : Z := if colour then CGA_BASE else MONO_BASE.
Definition vbase : Z := KERNBASE + (if colour then CGA_BUF else MONO_BUF).
Definition vcells : Z := 0x4000.
Definition in_video (a : Z) : bool := (vbase <=? a) && (a <? vbase + 2 * vcells) && ((a - vbase) mod 2 =? 0).
Definition lsr (d : cdev) : Z :=
  match d_rx d with [] => 0 | _ => COM_LSR_DATA end + (if (d_busy d =? 0)%nat then COM_LSR_TXRDY else 0).
Definition in_port (port : Z) (d : cdev) : Z * cdev :=
  if port =? COM1 + COM_LSR then
    if has_serial then (lsr d, d {{ d_busy ::= Nat.pred }}) else (0xFF, d)
  else if port =? COM1 + COM_RX then
    match d_rx d with [] => (0, d) | b :: l => (u8 b, d {{ d_rx := l }}) end
  else if port =? KBSTATP then (match d_keys d with [] => 0 | _ => KBS_DIB end, d)
  else if port =? KBDATAP then
    match d_keys d with [] => (0, d) | b :: l => (u8 b, d {{ d_keys := l }}) end
  else if port =? vport + 1 then (if d_index d =? 14 then d_hi d else if d_index d =? 15 then d_lo d else 0, d)
  else (0, d).
Definition transmit (v : Z) (d : cdev) : cdev :=
  if d_dlab d then d
  else if (d_busy d =? 0)%nat then
    d {{ d_tx ::= fun l => l ++ [v] }} {{ d_busy := d_delay d (d_clock d) }} {{ d_clock ::= S }}
  else d {{ d_lost ::= fun l => l ++ [v] }}.
Definition out_port (port v : Z) (d : cdev) : cdev :=
  if port =? COM1 + COM_TX then transmit v d
  else if port =? COM1 + COM_LCR then d {{ d_dlab := negb (Z.land v COM_LCR_DLAB =? 0) }}
  else if port =? vport then d {{ d_index := v }}
  else if port =? vport + 1 then
    if d_index d =? 14 then d {{ d_hi := v }} else if d_index d =? 15 then d {{ d_lo := v }} else d
  else if port =? 0x92 then d {{ d_reset := true }}
  else d.
Definition load_cell (a : Z) (d : cdev) : Z :=
  if in_video a then default 0 (d_cells d !! ((a - vbase) / 2)) else 0xFFFF.
Definition store_cell (a v : Z) (d : cdev) : cdev :=
  if in_video a then d {{ d_cells ::= <[(a - vbase) / 2 := v]> }} else d.
Fixpoint crun {A} (p : pio A) (d : cdev) : option (A * cdev) :=
  match p with
  | PDone a => Some (a, d)
  | PIn port k => let (v, d') := in_port port d in crun (k v) d'
  | POut port v k => crun k (out_port port v d)
  | PLd a k => crun (k (load_cell a d)) d
  | PSt a v k => crun k (store_cell a v d)
  | PPrint _ k => crun k d
  | _ => None
  end.

(** ** Running *)
Definition run {A} (m : CP A) (v : cvars) (d : cdev) : option (A * cvars * cdev) := crun (m v) d.
Lemma crun_bind {A B} (f : A -> pio B) (p : pio A) d :
  crun (pbind f p) d = match crun p d with Some (a, d') => crun (f a) d' | None => None end.
Proof.
  revert d. induction p; intros dd; cbn; try done.
  destruct (in_port port dd). apply H.
Qed.
Lemma run_bind_eq {A B} (m : CP A) (k : A -> CP B) v d a v1 d1 :
  run m v d = Some (a, v1, d1) -> run (m ≫= k) v d = run (k a) v1 d1.
Proof. unfold run, mbind, CP_bind. rewrite crun_bind. by intros ->. Qed.
Lemma run_inb port v d : run (io (inb port)) v d = Some (fst (in_port port d), v, snd (in_port port d)).
Proof. unfold run, io. cbn. by destruct (in_port port d). Qed.
Lemma run_outb port w v d : run (io (outb port w)) v d = Some (tt, v, out_port port (u8 w) d).
Proof. done. Qed.
Lemma run_delay v d : run delay v d = Some (tt, v, d).
Proof.
  assert (H : in_port 0x84 d = (0, d)) by (unfold in_port, vport; by destruct colour).
  unfold run, delay, io. cbn. by rewrite H, H, H, H.
Qed.

Lemma in_video_cell i : 0 <= i < vcells -> in_video (vbase + 2 * i) = true /\ (vbase + 2 * i - vbase) / 2 = i.
Proof.
  intros Hi. replace (vbase + 2 * i - vbase) with (i * 2) by lia. rewrite Z.div_mul by lia. split; [|done].
  unfold in_video. replace (vbase + 2 * i - vbase) with (i * 2) by lia. rewrite Z.mod_mul by lia. lia.
Qed.
Definition set_cells (b : gmap Z Z) (d : cdev) : cdev := d {{ d_cells := b }}.
Lemma store_cell_eq i w d : 0 <= i < vcells -> store_cell (vbase + 2 * i) w d = set_cells (<[i := w]> (d_cells d)) d.
Proof. intros Hi. destruct (in_video_cell i Hi) as [H1 H2]. unfold store_cell. by rewrite H1, H2. Qed.
Lemma load_cell_eq i d : 0 <= i < vcells -> load_cell (vbase + 2 * i) d = default 0 (d_cells d !! i).
Proof. intros Hi. destruct (in_video_cell i Hi) as [H1 H2]. unfold load_cell. by rewrite H1, H2. Qed.

(** *** The link between variables and devices *)
Definition abs (v : cvars) (d : cdev) : console :=
  mkConsole (v_ring v) (v_rpos v) (v_wpos v) (d_keys d) (v_shift v) (v_serial_exists v) (d_rx d) (d_tx d)
    (d_cells d) (v_crt_pos v) (d_reset d).
(** The driver knows its video card; the line is set up, and each character
    leaves within the 12800 polls the driver waits for. *)
Record linked0 (v : cvars) (d : cdev) : Prop := {
  lk_serial : has_serial = true;
  lk_addr : addr_6845 v = vport; lk_buf : v_crt_buf v = vbase; lk_dlab : d_dlab d = false;
  lk_busy : (d_busy d <= Z.to_nat 12800)%nat; lk_delay : forall t, (d_delay d t <= Z.to_nat 12800)%nat }.
(** The cursor on the screen is where the driver thinks it is. *)
Definition cursor_at (v : cvars) (d : cdev) : Prop := 256 * d_hi d + d_lo d = v_crt_pos v.
Definition linked (v : cvars) (d : cdev) : Prop := linked0 v d /\ cursor_at v d.

Lemma serial_wait_eq n v d :
  has_serial = true -> (d_busy d <= n)%nat -> run (serial_wait n) v d = Some (tt, v, d {{ d_busy := O }}).
Proof.
  intros Hs. revert d. induction n as [|n IH]; intros d Hb; cbn [serial_wait].
  - erewrite run_bind_eq by apply run_inb. assert (H0 : d_busy d = O) by lia.
    unfold in_port. change (COM1 + COM_LSR =? COM1 + COM_LSR) with true. rewrite Hs. cbn [fst snd].
    unfold lsr. rewrite H0. destruct d as [[|] ? ? ? ? ? ? ? ? ? ? ? ?]; cbn in *; by subst.
  - erewrite run_bind_eq by apply run_inb.
    unfold in_port. change (COM1 + COM_LSR =? COM1 + COM_LSR) with true. rewrite Hs. cbn [fst snd].
    destruct (d_busy d) as [|b] eqn:E.
    + unfold lsr. rewrite E. destruct d as [[|] ? ? ? ? ? ? ? ? ? ? ? ?]; cbn in *; by subst.
    + replace (negb (Z.land (lsr d) COM_LSR_TXRDY =? 0)) with false
        by (unfold lsr; rewrite E; by destruct (d_rx d)).
      erewrite run_bind_eq by apply run_delay.
      rewrite IH; [by destruct d|]. destruct d; cbn in *; subst. cbn. lia.
Qed.

(** *** Programs that implement a function of the abstract console *)
Definition implements {A} (m : CP A) (f : console -> A * console) : Prop :=
  forall v d, linked v d -> screen_ok (abs v d) ->
  exists a v' d', run m v d = Some (a, v', d') /\ f (abs v d) = (a, abs v' d') /\
    linked v' d' /\ screen_ok (abs v' d').
Definition out (f : console -> console) (c : console) : unit * console := (tt, f c).
Lemma implements_bind {A B} (m : CP A) (k : A -> CP B) f g :
  implements m f -> (forall a, implements (k a) (g a)) ->
  implements (m ≫= k) (fun c => let '(a, c') := f c in g a c').
Proof.
  intros Hm Hk v d Hl Hs. destruct (Hm v d Hl Hs) as (a & v1 & d1 & Hr & Hf & Hl1 & Hs1).
  destruct (Hk a v1 d1 Hl1 Hs1) as (b & v2 & d2 & Hr2 & Hg & Hl2 & Hs2).
  exists b, v2, d2. rewrite Hf. split; [|done]. by erewrite run_bind_eq by exact Hr.
Qed.
Lemma implements_ext {A} (m : CP A) f g : implements m f -> (forall c, screen_ok c -> f c = g c) -> implements m g.
Proof.
  intros Hm He v d Hl Hs. destruct (Hm v d Hl Hs) as (a & v1 & d1 & Hr & Hf & Hl1).
  exists a, v1, d1. by rewrite <- He.
Qed.
Lemma implements_seq (m1 m2 : CP unit) f g :
  implements m1 (out f) -> implements m2 (out g) -> implements (m1;; m2) (out (fun c => g (f c))).
Proof. intros H1 H2. by apply (implements_bind m1 (fun _ => m2) (out f) (fun _ => out g)). Qed.
Lemma implements_ret {A} (a : A) : implements (mret a) (fun c => (a, c)).
Proof. intros v d Hl Hs. by exists a, v, d. Qed.

Lemma send_eq ch v d :
  linked v d -> d_busy d = O ->
  run (io (outb (COM1 + COM_TX) ch)) v d = Some (tt, v, transmit (u8 ch) d) /\
  abs v (transmit (u8 ch) d) = set_out [u8 ch] (abs v d) /\ linked v (transmit (u8 ch) d).
Proof.
  intros [[] Hc] Hb. unfold transmit. rewrite lk_dlab0, Hb. cbn [Nat.eqb].
  split; [|split; [done|]].
  - rewrite run_outb. unfold out_port. change (COM1 + COM_TX =? COM1 + COM_TX) with true. cbv iota.
    unfold transmit. by rewrite lk_dlab0, Hb.
  - split; [|exact Hc]. split; try done. apply lk_delay0.
Qed.
Lemma linked_waited v d : linked v d -> linked v (d {{ d_busy := O }}).
Proof. intros [[] Hc]. split; [|exact Hc]. split; try done. change (0 <= Z.to_nat 12800)%nat. lia. Qed.
(** Wait, then send. *)
Lemma wait_send ch :
  implements (serial_wait (Z.to_nat 12800);; io (outb (COM1 + COM_TX) ch)) (out (set_out [u8 ch])).
Proof.
  intros v d Hl Hs. assert (Hw := linked_waited _ _ Hl).
  destruct (send_eq ch v _ Hw eq_refl) as (Hr & Ha & Hl').
  eexists tt, v, _. split; [|split; [|split]].
  - erewrite run_bind_eq by (apply serial_wait_eq; apply Hl). exact Hr.
  - unfold out. by rewrite Ha.
  - exact Hl'.
  - rewrite Ha. exact Hs.
Qed.
Lemma run_assoc {A B C} (m : CP A) (f : A -> CP B) (g : B -> CP C) v d :
  run ((m ≫= f) ≫= g) v d = run (m ≫= (fun a => f a ≫= g)) v d.
Proof.
  unfold run, mbind, CP_bind. rewrite !crun_bind. destruct (crun (m v) d) as [[[] ]|]; [|done]. by rewrite crun_bind.
Qed.
Lemma implements_assoc (m1 m2 m3 : CP unit) f :
  implements ((m1;; m2);; m3) f -> implements (m1;; m2;; m3) f.
Proof.
  intros H v d Hl Hs. destruct (H v d Hl Hs) as (a & v' & d' & Hr & Hrest). exists a, v', d'.
  by rewrite run_assoc in Hr.
Qed.
Lemma serial_putc_io_ok ch : implements (serial_putc_io ch) (out (serial_putc ch)).
Proof.
  unfold serial_putc_io, serial_putc. destruct (ch =? 8); [|apply wait_send].
  apply (implements_ext _ (out (fun c => set_out [u8 ch] (set_out [32] (set_out [u8 ch] c))))).
  - apply implements_assoc, (implements_seq _ _ (set_out [u8 ch]) (fun c => set_out [u8 ch] (set_out [32] c)));
      [apply wait_send|].
    apply implements_assoc, (implements_seq _ _ (set_out [32]) (set_out [u8 ch])); [apply (wait_send 32)|apply wait_send].
  - intros c _. unfold out, set_out. cbn. by rewrite <- !app_assoc.
Qed.

(** *** The screen *)
Lemma run_cell i v d : run (cell i) v d = Some (v_crt_buf v + 2 * i, v, d).
Proof. done. Qed.
Lemma run_cell_ld a v d : run (cell_ld a) v d = Some (load_cell a d, v, d).
Proof. done. Qed.
Lemma run_store a w v d : run (io (PSt a w (PDone tt))) v d = Some (tt, v, store_cell a w d).
Proof. done. Qed.
(** Copying upwards in place reads only cells that still hold the old row. *)
Lemma move_cells_eq n i old v d :
  v_crt_buf v = vbase -> 0 <= i -> i + Z.of_nat n + CRT_COLS <= vcells ->
  (forall j, i <= j -> d_cells d !! j = old !! j) ->
  run (move_cells n i) v d = Some (tt, v, set_cells (scroll_rows n i old (d_cells d)) d).
Proof.
  intros Hv. revert i d. assert (Hc : CRT_COLS = 80) by done. rewrite Hc.
  induction n as [|n IH]; intros i d Hi Hn Hold; cbn [move_cells scroll_rows]; [by destruct d|].
  erewrite run_bind_eq by apply run_cell. erewrite run_bind_eq by apply run_cell_ld.
  erewrite run_bind_eq by apply run_cell. erewrite run_bind_eq by apply run_store.
  rewrite Hv, load_cell_eq, store_cell_eq by lia. rewrite (Hold (i + CRT_COLS)) by lia.
  rewrite IH; [by destruct d|lia|lia|].
  intros j Hj. cbn [set_cells d_cells]. change (d_cells (set_cells ?b d)) with b.
  rewrite lookup_insert_ne by lia. apply Hold. lia.
Qed.
Lemma blank_cells_eq n i v d :
  v_crt_buf v = vbase -> 0 <= i -> i + Z.of_nat n <= vcells ->
  run (blank_cells n i) v d = Some (tt, v, set_cells (blank_row n i (d_cells d)) d).
Proof.
  intros Hv. revert i d. induction n as [|n IH]; intros i d Hi Hn; cbn [blank_cells blank_row]; [by destruct d|].
  erewrite run_bind_eq by apply run_cell. erewrite run_bind_eq by apply run_store.
  rewrite Hv, store_cell_eq by lia. rewrite IH by lia. by destruct d.
Qed.
Definition with_cursor (pos : Z) (d : cdev) : cdev :=
  d {{ d_index := 15 }} {{ d_hi := u8 (Z.shiftr pos 8) }} {{ d_lo := u8 pos }}.
Lemma out_index w d : out_port vport w d = d {{ d_index := w }}.
Proof. unfold out_port, vport. by destruct colour. Qed.
Lemma out_data w d :
  out_port (vport + 1) w d =
  if d_index d =? 14 then d {{ d_hi := w }} else if d_index d =? 15 then d {{ d_lo := w }} else d.
Proof. unfold out_port, vport. by destruct colour. Qed.
Lemma set_cursor_eq addr pos v d :
  addr = vport ->
  run (io (outb addr 14);; io (outb (addr + 1) (Z.shiftr pos 8));;
       io (outb addr 15);; io (outb (addr + 1) pos)) v d = Some (tt, v, with_cursor pos d).
Proof.
  intros ->. erewrite run_bind_eq by apply run_outb. erewrite run_bind_eq by apply run_outb.
  erewrite run_bind_eq by apply run_outb. rewrite run_outb, !out_index, !out_data. by destruct d.
Qed.
Lemma with_cursor_linked v d :
  linked0 v d -> 0 <= v_crt_pos v < CRT_SIZE -> linked v (with_cursor (v_crt_pos v) d).
Proof.
  intros [] Hp. split; [by split|]. unfold cursor_at.
  change (256 * u8 (Z.shiftr (v_crt_pos v) 8) + u8 (v_crt_pos v) = v_crt_pos v).
  rewrite Z.shiftr_div_pow2 by lia. unfold CRT_SIZE, CRT_ROWS, CRT_COLS in Hp. unfold u8. zdiv.
Qed.
Lemma cga_scroll_io_ok v d :
  linked0 v d -> 0 <= v_crt_pos v <= CRT_SIZE ->
  exists v' d', run cga_scroll_io v d = Some (tt, v', d') /\ abs v' d' = cga_scroll (abs v d) /\ linked v' d'.
Proof.
  intros Hl Hp. assert (Hs : CRT_SIZE = 2000) by done. assert (Hc : CRT_COLS = 80) by done.
  unfold cga_scroll_io, cga_scroll. change (crt_pos (abs v d)) with (v_crt_pos v).
  erewrite run_bind_eq by done. destruct (v_crt_pos v >=? CRT_SIZE) eqn:E; zbool.
  - set (b1 := scroll_rows (Z.to_nat (CRT_SIZE - CRT_COLS)) 0 (d_cells d) (d_cells d)).
    set (b2 := blank_row (Z.to_nat CRT_COLS) (CRT_SIZE - CRT_COLS) b1).
    set (v' := v {{ v_crt_pos ::= fun p => u16 (p - CRT_COLS) }}).
    assert (Hl' : linked0 v' (set_cells b2 d)) by (destruct Hl; by split).
    assert (Hpos : v_crt_pos v' = 1920) by (change (u16 (v_crt_pos v - CRT_COLS) = 1920); rewrite u16_small; lia).
    exists v', (with_cursor (v_crt_pos v') (set_cells b2 d)). split; [|split; [done|]].
    + erewrite run_bind_eq; [|erewrite run_bind_eq by (apply move_cells_eq; [apply Hl|lia|unfold vcells; lia|done]);
        erewrite run_bind_eq by (apply blank_cells_eq; [apply Hl|lia|unfold vcells; lia]); reflexivity].
      erewrite run_bind_eq by done. erewrite run_bind_eq by done.
      apply (set_cursor_eq _ _ v' (set_cells b2 d)), Hl'.
    + apply with_cursor_linked; [done|]. rewrite Hpos. lia.
  - exists v, (with_cursor (v_crt_pos v) d). split; [|split; [done|]].
    + erewrite run_bind_eq by done. erewrite run_bind_eq by done. erewrite run_bind_eq by done.
      apply (set_cursor_eq _ _ v d), Hl.
    + apply with_cursor_linked; [done|lia].
Qed.

Lemma cga_putc1_io_ok ch : implements (cga_putc1_io ch) (out (cga_putc1 ch)).
Proof.
  intros v d [Hl Hc] Hs. assert (Hok := cga_putc1_ok ch _ Hs). destruct Hs as [Hp _].
  change (crt_pos (abs v d)) with (v_crt_pos v) in Hp.
  assert (Hsz : CRT_SIZE = 2000) by done. assert (Hcl : CRT_COLS = 80) by done.
  enough (exists v' d', run (cga_putc1_io ch) v d = Some (tt, v', d') /\
    abs v' d' = cga_putc1 ch (abs v d) /\ linked v' d') as (v' & d' & Hr & Ha & Hl').
  { exists tt, v', d'. unfold out. by rewrite Ha. }
  assert (Htail : forall v1 d1 (m : CP unit) C,
    run m v d = Some (tt, v1, d1) -> linked0 v1 d1 -> 0 <= v_crt_pos v1 <= CRT_SIZE -> abs v1 d1 = C ->
    exists v' d', run (m;; cga_scroll_io) v d = Some (tt, v', d') /\
      abs v' d' = cga_scroll C /\ linked v' d').
  { intros v1 d1 m C Hm Hl1 Hp1 <-. destruct (cga_scroll_io_ok v1 d1 Hl1 Hp1) as (v' & d' & Hr & Ha).
    exists v', d'. split; [|done]. by erewrite run_bind_eq by exact Hm. }
  unfold cga_putc1_io, cga_putc1. erewrite run_bind_eq by done.
  change (crt_pos (abs v d)) with (v_crt_pos v). cbv zeta.
  destruct (Z.land (cga_attr ch) 255 =? 8); [destruct (v_crt_pos v >? 0) eqn:E; zbool|
    destruct (Z.land (cga_attr ch) 255 =? 10); [|destruct (Z.land (cga_attr ch) 255 =? 13)]].
  - eapply (Htail (v {{ v_crt_pos := v_crt_pos v - 1 }})
      (set_cells (<[v_crt_pos v - 1 := u16 (Z.lor (Z.land (cga_attr ch) (Z.lnot 255)) 32)]> (d_cells d)) d)).
    + erewrite run_bind_eq by done. erewrite run_bind_eq by apply run_cell.
      change (v_crt_buf (v {{ v_crt_pos := _ }})) with (v_crt_buf v). rewrite (lk_buf _ _ Hl).
      unfold cell_st. by rewrite run_store, store_cell_eq by (unfold vcells; lia).
    + destruct Hl; by split.
    + change (0 <= v_crt_pos v - 1 <= CRT_SIZE). lia.
    + done.
  - eapply (Htail v d); [done|done|lia|done].
  - eapply (Htail (v {{ v_crt_pos := _ }}) d); [done|destruct Hl; by split| |done].
    match goal with |- 0 <= v_crt_pos (v {{ v_crt_pos := ?x }}) <= _ => change (0 <= x <= CRT_SIZE) end.
    rewrite Hcl, !u16_small; [zdiv|zdiv|rewrite u16_small; zdiv].
  - eapply (Htail (v {{ v_crt_pos := _ }}) d); [done|destruct Hl; by split| |done].
    match goal with |- 0 <= v_crt_pos (v {{ v_crt_pos := ?x }}) <= _ => change (0 <= x <= CRT_SIZE) end.
    rewrite Hcl, u16_small; zdiv.
  - eapply (Htail (v {{ v_crt_pos := u16 (v_crt_pos v + 1) }})
      (set_cells (<[v_crt_pos v := u16 (cga_attr ch)]> (d_cells d)) d)).
    + erewrite run_bind_eq by apply run_cell. erewrite run_bind_eq by done.
      rewrite (lk_buf _ _ Hl). unfold cell_st. by rewrite run_store, store_cell_eq by (unfold vcells; lia).
    + destruct Hl; by split.
    + change (0 <= u16 (v_crt_pos v + 1) <= CRT_SIZE). rewrite u16_small; lia.
    + done.
Qed.
Lemma cons_putc1_io_ok ch : implements (cons_putc1_io ch) (out (cons_putc1 ch)).
Proof. exact (implements_seq _ _ (serial_putc ch) (cga_putc1 ch) (serial_putc_io_ok ch) (cga_putc1_io_ok ch)). Qed.
Lemma scroll_ok : implements cga_scroll_io (out cga_scroll).
Proof.
  intros v d [Hl Hc] [Hp Hb]. change (crt_pos (abs v d)) with (v_crt_pos v) in Hp.
  destruct (cga_scroll_io_ok v d Hl ltac:(lia)) as (v' & d' & Hr & Ha & Hl').
  exists tt, v', d'. unfold out. rewrite Ha. split_and!; try done; apply cga_scroll_ok; try done.
  change (crt_pos (abs v d)) with (v_crt_pos v). lia.
Qed.
Lemma cons_putc_io_ok ch : implements (cons_putc_io ch) (out (cons_putc ch)).
Proof.
  unfold cons_putc_io, cons_putc. apply (implements_seq _ _ (serial_putc ch) (cga_putc ch)); [apply serial_putc_io_ok|].
  unfold cga_putc_io, cga_putc. destruct (Z.land ch 255 =? 9).
  - assert (H := cons_putc1_io_ok 32).
    apply (implements_ext _ (out (fun c => cga_scroll (cons_putc1 32 (cons_putc1 32 (cons_putc1 32 (cons_putc1 32 c)))))));
      [|done].
    apply (implements_seq _ _ (cons_putc1 32) (fun c => cga_scroll (cons_putc1 32 (cons_putc1 32 (cons_putc1 32 c))))); [done|].
    apply (implements_seq _ _ (cons_putc1 32) (fun c => cga_scroll (cons_putc1 32 (cons_putc1 32 c)))); [done|].
    apply (implements_seq _ _ (cons_putc1 32) (fun c => cga_scroll (cons_putc1 32 c))); [done|].
    apply (implements_seq _ _ (cons_putc1 32) cga_scroll); [done|apply scroll_ok].
  - apply (implements_ext _ (out (cga_putc1 ch))); [apply cga_putc1_io_ok|done].
Qed.
Lemma printstr_io_ok n s : implements (printstr_io n s) (out (printstr_loop n s)).
Proof.
  revert s. induction n as [|n IH]; intros s; [apply implements_ret|]. destruct s as [|ch s]; [apply implements_ret|].
  apply (implements_seq _ _ (cons_putc (s8 ch)) (printstr_loop n s)); [apply cons_putc_io_ok|apply IH].
Qed.

(** *** The keyboard and the serial line as sources *)
Lemma in_kbstat d : in_port KBSTATP d = (match d_keys d with [] => 0 | _ => KBS_DIB end, d).
Proof. done. Qed.
Lemma in_kbdata d b l : d_keys d = b :: l -> in_port KBDATAP d = (u8 b, d {{ d_keys := l }}).
Proof. intros H. unfold in_port. cbn. by rewrite H. Qed.
Lemma in_lsr d : has_serial = true -> in_port (COM1 + COM_LSR) d = (lsr d, d {{ d_busy ::= Nat.pred }}).
Proof. unfold in_port. by intros ->. Qed.
Lemma in_rx d :
  in_port (COM1 + COM_RX) d = match d_rx d with [] => (0, d) | b :: l => (u8 b, d {{ d_rx := l }}) end.
Proof. done. Qed.
Lemma out_reset d : out_port 0x92 3 d = d {{ d_reset := true }}.
Proof. unfold out_port, vport. by destruct colour. Qed.
Lemma kbd_proc_data_io_ok : implements kbd_proc_data_io kbd_proc_data.
Proof.
  intros v d [Hl Hc] Hs. unfold kbd_proc_data_io, kbd_proc_data. change (kbd_in (abs v d)) with (d_keys d).
  erewrite run_bind_eq by apply run_inb. rewrite in_kbstat. cbn [fst snd].
  destruct (d_keys d) as [|b l] eqn:Ek; [by exists (-1), v, d|].
  change (Z.land KBS_DIB KBS_DIB =? 0) with false. cbv iota.
  erewrite run_bind_eq by apply run_inb. rewrite (in_kbdata d b l Ek). cbn [fst snd].
  set (d1 := d {{ d_keys := l }}). erewrite run_bind_eq by done. cbv zeta.
  change (shift (abs v d)) with (v_shift v).
  assert (Hl1 : forall sh, linked (v {{ v_shift := sh }}) d1) by (intros sh; destruct Hl; by split; [split|]).
  assert (Hs1 : forall sh, screen_ok (abs (v {{ v_shift := sh }}) d1)) by (intros sh; exact Hs).
  destruct (u8 b =? 224).
  { eexists 0, (v {{ v_shift := _ }}), d1. split; [done|]. split; [done|]. split; [apply Hl1|apply Hs1]. }
  destruct (negb (Z.land (u8 b) 128 =? 0)).
  { eexists 0, (v {{ v_shift := _ }}), d1. split; [done|]. split; [done|]. split; [apply Hl1|apply Hs1]. }
  destruct (if negb (Z.land (v_shift v) E0ESC =? 0) then _ else _) as [data sh].
  set (sh' := Z.lxor (Z.lor sh (shiftcode data)) (togglecode data)).
  set (ch := if negb (Z.land sh' CAPSLOCK =? 0) then _ else _). clearbody ch. clearbody sh'.
  erewrite run_bind_eq by done. change (d_keys d1) with l.
  destruct ((Z.land (Z.lnot sh') (Z.lor CTL ALT) =? 0) && (ch =? KEY_DEL)).
  - generalize (str_codes "Rebooting!" ++ [10]). intros str.
    destruct (printstr_io_ok 100 str (v {{ v_shift := sh' }}) d1 (Hl1 _) (Hs1 _))
      as ([] & v2 & d2 & Hr & Hp & [Hl2 Hc2] & Hs2).
    apply (f_equal snd) in Hp. cbn [out snd] in Hp. exists ch, v2, (d2 {{ d_reset := true }}). split; [|split; [|split]].
    + erewrite run_bind_eq by exact Hr. erewrite run_bind_eq by apply run_outb. by rewrite out_reset.
    + f_equal. change (set_kbd l sh' (abs v d)) with (abs (v {{ v_shift := sh' }}) d1).
      unfold printstr. by rewrite Hp.
    + destruct Hl2. by split; [split|].
    + exact Hs2.
  - exists ch, (v {{ v_shift := sh' }}), d1. split; [done|]. split; [done|]. split; [apply Hl1|apply Hs1].
Qed.
Lemma serial_proc_data_io_ok : implements serial_proc_data_io serial_proc_data.
Proof.
  intros v d [Hl Hc] Hs. unfold serial_proc_data_io, serial_proc_data. change (ser_in (abs v d)) with (d_rx d).
  erewrite run_bind_eq by apply run_inb. rewrite in_lsr by apply Hl. cbn [fst snd].
  assert (Hl1 : forall l, linked v (d {{ d_busy ::= Nat.pred }} {{ d_rx := l }})).
  { intros l. destruct Hl. split; [split|]; try done.
    change (Nat.pred (d_busy d) <= Z.to_nat 12800)%nat. lia. }
  destruct (d_rx d) as [|b l] eqn:Er.
  - replace (Z.land (lsr d) COM_LSR_DATA =? 0) with true
      by (unfold lsr; rewrite Er; by destruct (d_busy d =? 0)%nat).
    exists (-1), v, (d {{ d_busy ::= Nat.pred }}). specialize (Hl1 []).
    split; [done|]. split; [done|]. split; [|exact Hs]. destruct d; cbn in *; by subst.
  - replace (Z.land (lsr d) COM_LSR_DATA =? 0) with false
      by (unfold lsr; rewrite Er; by destruct (d_busy d =? 0)%nat).
    exists (u8 b), v, (d {{ d_busy ::= Nat.pred }} {{ d_rx := l }}).
    split; [|split; [done|split; [apply Hl1|exact Hs]]].
    rewrite run_inb. unfold in_port. change (COM1 + COM_RX =? COM1 + COM_LSR) with false.
    change (COM1 + COM_RX =? COM1 + COM_RX) with true. cbv iota.
    change (d_rx (d {{ d_busy ::= Nat.pred }})) with (d_rx d). by rewrite Er.
Qed.

(** With fuel for every byte that waits, the loop ends where the abstract one does. *)
Lemma cons_intr_io_ok proc_io proc left fuel v d :
  implements proc_io proc -> source proc left ->
  linked v d -> screen_ok (abs v d) -> (length (left (abs v d)) < fuel)%nat ->
  exists v' d', run (cons_intr_io fuel proc_io) v d = Some (tt, v', d') /\
    cons_intr (S (length (left (abs v d)))) proc (abs v d) = abs v' d' /\ linked v' d' /\ screen_ok (abs v' d').
Proof.
  intros Hi Hp. remember (length (left (abs v d))) as n eqn:Hn.
  revert v d fuel Hn. induction n as [|n IH]; intros v d fuel Hn Hl Hs Hf;
    destruct (Hi v d Hl Hs) as (ch & v1 & d1 & Hr & Hpr & Hl1 & Hs1);
    destruct fuel as [|fuel]; try lia; cbn [cons_intr_io].
  - rewrite (src_none _ _ Hp) in Hpr by (by apply nil_length_inv).
    assert (Habs := f_equal snd Hpr). assert (Hch := f_equal fst Hpr). cbn [fst snd] in Habs, Hch. subst ch.
    exists v1, d1.
    erewrite run_bind_eq by exact Hr. cbn [cons_intr].
    rewrite (src_none _ _ Hp) by (by apply nil_length_inv). split; [done|]. by split; [exact Habs|].
  - destruct (left (abs v d)) as [|b l] eqn:El; [done|]. injection Hn as Hn.
    destruct (src_some _ _ Hp (abs v d) b l El) as [Hch Hleft]. rewrite Hpr in Hch, Hleft. cbn in Hch, Hleft.
    erewrite run_bind_eq by exact Hr. rewrite cons_intr_S, Hpr.
    rewrite (proj2 (Z.eqb_neq ch (-1))) by lia.
    destruct (ch =? 0); [apply IH; [by rewrite Hleft|done|done|lia]|].
    erewrite run_bind_eq by done.
    lazymatch goal with |- context [run (cons_intr_io fuel proc_io) ?x d1] => set (v2 := x) end.
    assert (E : ring_push ch (abs v1 d1) = abs v2 d1) by done. rewrite E.
    apply IH; [|destruct Hl1 as [[] ?]; by split; [split|]|exact Hs1|lia].
    rewrite <- E. unfold ring_push. rewrite (src_left _ _ Hp). by rewrite Hleft.
Qed.

Lemma serial_intr_io_ok fuel v d :
  linked v d -> screen_ok (abs v d) -> (length (d_rx d) < fuel)%nat ->
  exists v' d', run (serial_intr_io fuel) v d = Some (tt, v', d') /\
    serial_intr (abs v d) = abs v' d' /\ linked v' d' /\ screen_ok (abs v' d').
Proof.
  intros Hl Hs Hf. unfold serial_intr_io, serial_intr. erewrite run_bind_eq by done.
  change (serial_exists (abs v d)) with (v_serial_exists v).
  destruct (v_serial_exists v); [|by exists v, d].
  exact (cons_intr_io_ok _ _ ser_in fuel v d serial_proc_data_io_ok serial_source Hl Hs Hf).
Qed.
Lemma cons_getc_io_ok fuel v d :
  linked v d -> screen_ok (abs v d) -> (length (d_rx d) < fuel)%nat -> (length (d_keys d) < fuel)%nat ->
  exists ch v' d', run (cons_getc_io fuel) v d = Some (ch, v', d') /\
    cons_getc (abs v d) = (ch, abs v' d') /\ linked v' d' /\ screen_ok (abs v' d').
Proof.
  intros Hl Hs Hf1 Hf2. unfold cons_getc_io, cons_getc.
  destruct (serial_intr_io_ok fuel v d Hl Hs Hf1) as (v1 & d1 & Hr1 & Ha1 & Hl1 & Hs1).
  assert (Hk : d_keys d1 = d_keys d).
  { change (kbd_in (abs v1 d1) = kbd_in (abs v d)). rewrite <- Ha1.
    destruct (serial_intr_set_in (abs v d)) as (?&?&?&?&->). done. }
  destruct (cons_intr_io_ok _ _ kbd_in fuel v1 d1 kbd_proc_data_io_ok kbd_source Hl1 Hs1) as (v2 & d2 & Hr2 & Ha2 & Hl2 & Hs2);
    [change (kbd_in (abs v1 d1)) with (d_keys d1); by rewrite Hk|].
  erewrite run_bind_eq by exact Hr1. erewrite run_bind_eq by exact Hr2.
  erewrite run_bind_eq by done. erewrite run_bind_eq by done.
  rewrite Ha1. unfold kbd_intr. rewrite Ha2. change (c_rpos (abs v2 d2)) with (v_rpos v2).
  change (c_wpos (abs v2 d2)) with (v_wpos v2). cbv zeta.
  destruct (negb (v_rpos v2 =? v_wpos v2)); [|by exists 0, v2, d2].
  eexists _, (v2 {{ v_rpos := _ }}), d2. split; [done|]. split; [done|].
  split; [destruct Hl2 as [[] ?]; by split; [split|]|exact Hs2].
Qed.

(** *** Set-up *)
Lemma out_com p w d : COM1 < p < COM1 + 3 \/ p = COM1 + 4 -> out_port p w d = d.
Proof.
  intros Hp. unfold out_port, vport, CGA_BASE, MONO_BASE, COM1, COM_TX, COM_LCR in *.
  rewrite (proj2 (Z.eqb_neq p _)), (proj2 (Z.eqb_neq p _)) by lia.
  assert (p = 0x3F9 \/ p = 0x3FA \/ p = 0x3FC) as [->|[->| ->]] by lia; by destruct colour.
Qed.
Lemma run_serial_init v d :
  has_serial = true -> d_dlab d = false ->
  exists d', run serial_init v d = Some (tt, v {{ v_serial_exists := true }}, d') /\
    d' = d {{ d_busy ::= Nat.pred }} {{ d_rx ::= @tail Z }}.
Proof.
  intros Hs Hd. eexists. split; [|reflexivity]. unfold serial_init.
  erewrite run_bind_eq by apply run_outb. rewrite out_com by (unfold COM1, COM_FCR; lia).
  erewrite run_bind_eq by apply run_outb. change (out_port (COM1 + COM_LCR) _ d) with (d {{ d_dlab := true }}).
  erewrite run_bind_eq by apply run_outb.
  change (out_port (COM1 + COM_DLL) _ (d {{ d_dlab := true }})) with (d {{ d_dlab := true }}).
  erewrite run_bind_eq by apply run_outb. rewrite out_com by (unfold COM1, COM_DLM; lia).
  erewrite run_bind_eq by apply run_outb.
  change (out_port (COM1 + COM_LCR) _ (d {{ d_dlab := true }})) with (d {{ d_dlab := false }}).
  replace (d {{ d_dlab := false }}) with d by (destruct d; cbn in *; by subst).
  erewrite run_bind_eq by apply run_outb. rewrite out_com by (unfold COM1, COM_MCR; lia).
  erewrite run_bind_eq by apply run_outb. rewrite out_com by (unfold COM1, COM_IER; lia).
  erewrite run_bind_eq by apply run_inb. rewrite in_lsr by done. cbn [fst snd].
  erewrite run_bind_eq by done.
  assert (Hi : forall e, in_port (COM1 + COM_IIR) e = (0, e)) by (intros e; unfold in_port, vport; by destruct colour).
  erewrite run_bind_eq by apply run_inb. rewrite Hi. cbn [fst snd].
  replace (negb (lsr d =? 255)) with true by (unfold lsr; destruct (d_rx d), (d_busy d =? 0)%nat; done).
  erewrite run_bind_eq by apply run_inb. rewrite in_rx.
  destruct d as [[|b l] ? ? ? ? ? ? ? ? ? ? ? ?]; reflexivity.
Qed.
(** Which card the machine has shows in the memory of the colour card. *)
Lemma in_data e :
  in_port (vport + 1) e = (if d_index e =? 14 then d_hi e else if d_index e =? 15 then d_lo e else 0, e).
Proof. unfold in_port, vport. by destruct colour. Qed.
Lemma load_first d : load_cell vbase d = default 0 (d_cells d !! 0).
Proof. rewrite <- (load_cell_eq 0 d) by (unfold vcells; lia). f_equal. lia. Qed.
Lemma store_first w d : store_cell vbase w d = set_cells (<[0 := w]> (d_cells d)) d.
Proof. rewrite <- (store_cell_eq 0 w d) by (unfold vcells; lia). f_equal. lia. Qed.
Lemma find_card_eq v d (k : Z -> CP unit) :
  0 <= default 0 (d_cells d !! 0) < 65536 ->
  exists b, (forall i, default 0 (b !! i) = default 0 (d_cells d !! i)) /\
    (forall i, is_Some (b !! i) -> i = 0 \/ is_Some (d_cells d !! i)) /\
    run (was ← cell_ld (KERNBASE + CGA_BUF);
         cell_st (KERNBASE + CGA_BUF) 0xA55A;;
         now ← cell_ld (KERNBASE + CGA_BUF);
         cp ← (if negb (now =? 0xA55A) then
                 vset (fun v => v {{ addr_6845 := MONO_BASE }});; mret (KERNBASE + MONO_BUF)
               else
                 cell_st (KERNBASE + CGA_BUF) was;; vset (fun v => v {{ addr_6845 := CGA_BASE }});;
                 mret (KERNBASE + CGA_BUF));
         k cp) v d = run (k vbase) (v {{ addr_6845 := vport }}) (set_cells b d).
Proof.
  intros Hr. assert (colour = true \/ colour = false) as [E|E] by (destruct colour; auto).
  - assert (Hb : vbase = KERNBASE + CGA_BUF + 2 * 0) by (unfold vbase; rewrite E; done).
    rewrite Z.mul_0_r, Z.add_0_r in Hb. unfold cell_st. rewrite <- Hb.
    exists (<[0 := default 0 (d_cells d !! 0)]> (<[0 := 0xA55A]> (d_cells d))). split.
    { intros i. destruct (decide (i = 0)) as [->|]; [by rewrite lookup_insert_eq|by rewrite !lookup_insert_ne]. }
    split.
    { intros i Hi. destruct (decide (i = 0)) as [->|]; [by left|]. right. by rewrite !lookup_insert_ne in Hi. }
    erewrite run_bind_eq by apply run_cell_ld. erewrite run_bind_eq by apply run_store.
    erewrite run_bind_eq by apply run_cell_ld. rewrite load_first, store_first, load_first.
    change (d_cells (set_cells ?b d)) with b. rewrite lookup_insert_eq. cbn [default].
    change (negb (id (u16 0xA55A) =? 0xA55A)) with false. cbv iota.
    erewrite run_bind_eq; [|erewrite run_bind_eq by apply run_store; erewrite run_bind_eq by done; reflexivity].
    rewrite store_first, u16_small by done.
    change (d_cells (set_cells ?b d)) with b. unfold vport. rewrite E. f_equal.
  - exists (d_cells d). split; [done|]. split; [by right|].
    assert (Hv : in_video (KERNBASE + CGA_BUF) = false) by (unfold in_video, vbase; rewrite E; done).
    assert (Hld : forall e, load_cell (KERNBASE + CGA_BUF) e = 0xFFFF) by (intros e; unfold load_cell; by rewrite Hv).
    assert (Hst : forall e w, store_cell (KERNBASE + CGA_BUF) w e = e) by (intros e w; unfold store_cell; by rewrite Hv).
    unfold cell_st. erewrite run_bind_eq by apply run_cell_ld. erewrite run_bind_eq by apply run_store.
    erewrite run_bind_eq by apply run_cell_ld. rewrite Hld, Hst. change (negb (0xFFFF =? 0xA55A)) with true. cbv iota.
    erewrite run_bind_eq; [|erewrite run_bind_eq by done; reflexivity].
    unfold vport, vbase. rewrite E. by destruct d.
Qed.

(** The machine when the kernel starts. *)
Record powered (d : cdev) : Prop := {
  pw_serial : has_serial = true; pw_dlab : d_dlab d = false;
  pw_busy : (d_busy d <= Z.to_nat 12800)%nat; pw_delay : forall t, (d_delay d t <= Z.to_nat 12800)%nat;
  pw_hi : 0 <= d_hi d < 256; pw_lo : 0 <= d_lo d < 256; pw_cursor : 256 * d_hi d + d_lo d < CRT_SIZE;
  pw_first : 0 <= default 0 (d_cells d !! 0) < 65536;
  pw_cells : forall i, is_Some (d_cells d !! i) -> 0 <= i < CRT_SIZE }.
Lemma run_cga_init v d :
  powered d ->
  exists b, (forall i, default 0 (b !! i) = default 0 (d_cells d !! i)) /\
    (forall i, is_Some (b !! i) -> i = 0 \/ is_Some (d_cells d !! i)) /\
    run cga_init v d =
      Some (tt, v {{ addr_6845 := vport }} {{ v_crt_buf := vbase }} {{ v_crt_pos := 256 * d_hi d + d_lo d }},
            (set_cells b d) {{ d_index := 15 }}).
Proof.
  intros []. unfold cga_init. cbv zeta.
  destruct (find_card_eq v d (fun cp =>
    addr ← vget addr_6845;
    io (outb addr 14);; hi ← io (inb (addr + 1));
    io (outb addr 15);; lo ← io (inb (addr + 1));
    vset (fun v => v {{ v_crt_buf := cp }} {{ v_crt_pos := u16 (Z.lor (Z.shiftl hi 8) lo) }})) pw_first0)
    as (b & Hb & Hdom & Hrun).
  exists b. split; [done|]. split; [done|]. etransitivity; [exact Hrun|].
  erewrite run_bind_eq by done. change (addr_6845 (v {{ addr_6845 := vport }})) with vport.
  erewrite run_bind_eq by apply run_outb. rewrite out_index.
  erewrite run_bind_eq by apply run_inb. rewrite in_data.
  erewrite run_bind_eq by apply run_outb. cbn [fst snd]. rewrite out_index.
  erewrite run_bind_eq by apply run_inb. rewrite in_data. cbn [fst snd].
  assert (Hp : u16 (Z.lor (Z.shiftl (d_hi d) 8) (d_lo d)) = 256 * d_hi d + d_lo d).
  { rewrite Z.shiftl_mul_pow2, (lor_disjoint_add _ _ 8) by (lia || (apply Z.mod_mul; lia)).
    change (2 ^ 8) with 256. rewrite u16_small; lia. }
  rewrite <- Hp. reflexivity.
Qed.
Lemma cons_init_ok v d :
  powered d ->
  exists v' d', run cons_init v d = Some (tt, v', d') /\ linked v' d' /\ screen_ok (abs v' d') /\
    v_serial_exists v' = true /\ v_crt_pos v' = 256 * d_hi d + d_lo d /\
    d_rx d' = tail (d_rx d) /\ d_keys d' = d_keys d /\ d_tx d' = d_tx d /\
    (forall i, default 0 (d_cells d' !! i) = default 0 (d_cells d !! i)).
Proof.
  intros Hp. destruct (run_cga_init v d Hp) as (b & Hb & Hdom & Hr). destruct Hp.
  set (v1 := v {{ addr_6845 := vport }} {{ v_crt_buf := vbase }} {{ v_crt_pos := 256 * d_hi d + d_lo d }}) in *.
  set (d1 := (set_cells b d) {{ d_index := 15 }}) in *.
  destruct (run_serial_init v1 d1 pw_serial0 pw_dlab0) as (d2 & Hr2 & ->).
  exists (v1 {{ v_serial_exists := true }}), (d1 {{ d_busy ::= Nat.pred }} {{ d_rx ::= @tail Z }}).
  split; [|split; [|split]].
  - unfold cons_init. by erewrite run_bind_eq by exact Hr.
  - split; [split|]; try done. change (Nat.pred (d_busy d) <= Z.to_nat 12800)%nat. lia.
  - split; [change (0 <= 256 * d_hi d + d_lo d < CRT_SIZE); lia|].
    intros i Hi. destruct (Hdom i Hi) as [->|Hi']; [done|by apply pw_cells0].
  - by split_and!.
Qed.

(** C32. The driver at its ports implements the abstract console: [cons_init]
    finds the card, leaves its picture and links the driver to the devices,
    at the cost of one byte the serial line had received; from then on, with the
    devices behind it - a serial line that is busy for up to 12800 polls after
    each character, a keyboard controller, a colour or a monochrome card -
    [cons_putc] sends the character, draws it, scrolls and sets the
    controller's cursor exactly as [cputchar] of Console.v says, losing
    nothing; [cons_getc] empties the devices and answers as Console.v's does;
    both keep the driver and the devices linked. *)
Theorem console_ports_refine v d :
  (forall v0 d0, powered d0 -> exists v' d', run cons_init v0 d0 = Some (tt, v', d') /\
     linked v' d' /\ screen_ok (abs v' d') /\ v_serial_exists v' = true /\
     v_crt_pos v' = 256 * d_hi d0 + d_lo d0 /\ d_rx d' = tail (d_rx d0) /\ d_keys d' = d_keys d0 /\
     d_tx d' = d_tx d0 /\ (forall i, default 0 (d_cells d' !! i) = default 0 (d_cells d0 !! i))) /\
  (linked v d -> screen_ok (abs v d) ->
  (forall ch, exists v' d', run (cons_putc_io ch) v d = Some (tt, v', d') /\
     abs v' d' = cputchar ch (abs v d) /\ linked v' d' /\ screen_ok (abs v' d')) /\
  (forall fuel, (length (d_rx d) < fuel)%nat -> (length (d_keys d) < fuel)%nat ->
     exists ch v' d', run (cons_getc_io fuel) v d = Some (ch, v', d') /\
       (ch, abs v' d') = cons_getc (abs v d) /\ linked v' d' /\ screen_ok (abs v' d'))).
Proof.
  split; [apply cons_init_ok|]. intros Hl Hs. split.
  - intros ch. destruct (cons_putc_io_ok ch v d Hl Hs) as ([] & v' & d' & Hr & Hf & Hl').
    exists v', d'. split; [done|]. split; [|done]. symmetry. exact (f_equal snd Hf).
  - intros fuel H1 H2. destruct (cons_getc_io_ok fuel v d Hl Hs H1 H2) as (ch & v' & d' & Hr & Hf & Hl').
    by exists ch, v', d'.
Qed.

End devices.

(** ** A machine: a colour card with the cursor on the second row, a slow
    serial line with two bytes waiting, a key *)
Definition dev0 : cdev := mkCdev [65; 66] [] [] 3 (fun t => if Nat.even t then 7 else 0)%nat 0 false [0x1E] 0 0 80 ∅ false.
Definition vars0 : cvars := mkVars ∅ 0 0 0 false 0 0 0.
Lemma console_ports_refine_witness :
  exists v d, run true true cons_init vars0 dev0 = Some (tt, v, d) /\ v_crt_pos v = 80 /\ d_rx d = [66] /\
    exists v' d', run true true (cons_putc_io 104) v d = Some (tt, v', d') /\
      abs v' d' = cputchar 104 (abs v d).
Proof.
  assert (Hp : powered true dev0).
  { split; try (cbn; lia); try reflexivity.
    - intros t. cbn. destruct (Nat.even t); lia.
    - change (0 <= 0 < 65536). lia.
    - intros i [x Hx]. discriminate Hx. }
  destruct (proj1 (console_ports_refine true true vars0 dev0) vars0 dev0 Hp)
    as (v & d & Hr & Hl & Hs & _ & Hpos & Hrx & _).
  exists v, d. split; [exact Hr|]. split; [exact Hpos|]. split; [exact Hrx|].
  destruct (proj2 (console_ports_refine true true v d) Hl Hs) as [Hput _].
  destruct (Hput 104) as (v' & d' & Hr' & Ha & _). exists v', d'. split; [exact Hr'|exact Ha].
Defined.
