(* ===== verification/FsClient.v ===== *)
(** * A client and the file server together: src/src/fd.c, file.c, ipc.c, serv.c, damnfs.c

    A user program that reads and writes files through the library sends
    requests; here the server of FsServ.v answers them.  The request page and
    the page of the open descriptor are shared: the client's addresses and the
    server's lead to the same bytes.  The server's side runs on either machine
    of FsMach.v; the theorem is about the one with page faults and write-backs. *)
From S2P Require Import Prelude Layout Mem CString Printf Console FsMach DamnFS FsLogic FsBitmap FsFile FsRW FsDir FsServ FsServProps FsProps Kern Pmap EnvMod TrapMod User Fd.

(** What the kernel shows the client: its page tables and the environments,
    among them itself and the file server. *)
Record view : Type := mkView {
  v_pde : Z -> Z; v_pte : Z -> Z; v_envs : Z -> Env; v_me : Z; v_server : Z }.

(** The client's own memory, the server's machine and table, the value of the
    last message the client received, and an answer not yet received. *)
Record world (M : Type) : Type := mkWorld {
  w_priv : mem; w_fs : M; w_tab : server; w_value : Z; w_pending : option Z }.
Arguments mkWorld {M}.
Arguments w_priv {M}.
Arguments w_fs {M}.
Arguments w_tab {M}.
Arguments w_value {M}.
Arguments w_pending {M}.

Section client.
Context (rt_entry : Z) (V : view).
(** The client's request page and descriptor page, and the server's page of
    the open file. *)
Context (fsipcbuf cfd ofd : Z).

Definition shared (a : Z) : option Z :=
  if (fsipcbuf <=? a) && (a <? fsipcbuf + PGSIZE) then Some (fsreq + (a - fsipcbuf))
  else if (cfd <=? a) && (a <? cfd + PGSIZE) then Some (ofd + (a - cfd))
  else None.

Section machine.
Context {M : Type} (run : forall A, prog A -> ST Empty_set M A).
Abbreviation W := (ST Empty_set (world M)).

Definition on_server {A} (p : prog A) : W A := fun w =>
  match run A p (w_fs w) with
  | Ret a s => Ret a (mkWorld (w_priv w) s (w_tab w) (w_value w) (w_pending w))
  | Exit x s => match x with end
  | Panic msg => Panic msg
  | Crash why => Crash why
  | NoFuel => NoFuel
  end.

Definition cload8 (a : Z) : W Z :=
  match shared a with
  | Some b => on_server (ld8 b)
  | None => st_gets (fun w => load8 (w_priv w) a)
  end.
Definition cstore8 (a v : Z) : W unit :=
  match shared a with
  | Some b => on_server (st8 b v)
  | None => st_mod (fun w => mkWorld (store8 (w_priv w) a v) (w_fs w) (w_tab w) (w_value w) (w_pending w))
  end.
Definition cload32 (a : Z) : W Z :=
  b0 ← cload8 a; b1 ← cload8 (a + 1); b2 ← cload8 (a + 2); b3 ← cload8 (a + 3);
  mret (b0 + 256 * b1 + 65536 * (b2 + 256 * b3)).
Definition cstore32 (a v : Z) : W unit :=
  cstore8 a v;; cstore8 (a + 1) (v / 256);; cstore8 (a + 2) (v / 65536);;
  cstore8 (a + 3) (v / 65536 / 256).

(** The server waits for a message, takes the request with the page and runs
    one turn of its loop; an answer with a page is not part of this model,
    which has only requests on an open descriptor. *)
Definition send_request (type perm : Z) : W unit :=
  w ← st_get;
  r ← on_server (serve rt_entry type perm (w_tab w));
  match fst r with
  | Some an =>
      if an_pg an =? 0 then
        st_mod (fun w => mkWorld (w_priv w) (w_fs w) (snd r) (w_value w) (Some (an_value an)))
      else st_crash "answer with a page"
  | None => st_mod (fun w => mkWorld (w_priv w) (w_fs w) (snd r) (w_value w) None)
  end.
Definition receive_answer : W unit :=
  w ← st_get;
  match w_pending w with
  | Some v => st_mod (fun w => mkWorld (w_priv w) (w_fs w) (w_tab w) (u32 v) None)
  | None => st_nofuel                       (* waits for ever *)
  end.
Definition csyscall (num a1 a2 a3 a4 : Z) : W Z :=
  if num =? SYS_ipc_try_send then
    if (a1 =? env_id (v_envs V (v_server V))) && (a3 =? fsipcbuf) then
      send_request a2 a4;; mret 0
    else st_crash "message to another environment"
  else if num =? SYS_ipc_recv then
    if a1 <? UTOP then st_crash "page wanted" else receive_answer;; mret 0
  else st_crash "other system call".

(** Environment [i] as the client reads it. *)
Definition seen_env (i : Z) (w : world M) : Env :=
  if i =? v_me V then (v_envs V i) {{ env_ipc_value := w_value w }} else v_envs V i.

Fixpoint crun {A} (p : uprog A) : W A :=
  match p with
  | UDone a => mret a
  | UPanics msg => st_panic msg
  | UFuel => st_nofuel
  | ULoad8 a k => v ← cload8 a; crun (k v)
  | ULoad32 a k => v ← cload32 a; crun (k v)
  | UStore8 a v k => cstore8 a v;; crun k
  | UStore32 a v k => cstore32 a v;; crun k
  | UPde i k => crun (k (v_pde V i))
  | UPte i k =>
      if Z.land (v_pde V (i / 1024)) PTE_P =? 0 then st_crash "user page fault" else crun (k (v_pte V i))
  | URef i k => st_crash "reference counts"
  | UEnvs i k => w ← st_get; crun (k (seen_env i w))
  | USys n a1 a2 a3 a4 a5 k => r ← csyscall n (u32 a1) (u32 a2) (u32 a3) (u32 a4); crun (k r)
  | UPrint m k => crun k
  end.
End machine.
End client.

(** * Theorems *)

(** ** The machine with page faults does what the flat one does *)
Record same_world (w : world paged) (w' : world flat) : Prop := {
  sw_fs : paged_flat (w_fs w) (w_fs w'); sw_priv : w_priv w = w_priv w';
  sw_tab : w_tab w = w_tab w'; sw_value : w_value w = w_value w';
  sw_pending : w_pending w = w_pending w' }.

Section simulation.
Context {host : Host} {host_ok : HostOK} (rt_entry : Z) (V : view) (fsipcbuf cfd ofd : Z).
Abbreviation pm := (fun A => @run_paged host A).
Abbreviation fm := (fun A => @run_flat A).

Definition sim {A} (m : ST Empty_set (world paged) A) (m' : ST Empty_set (world flat) A) : Prop :=
  forall w w' a v', same_world w w' -> m' w' = Ret a v' ->
  exists v, m w = Ret a v /\ same_world v v'.

Lemma sim_bind {A B} m m' (k : A -> ST Empty_set (world paged) B) k' :
  sim m m' -> (forall a, sim (k a) (k' a)) -> sim (m ≫= k) (m' ≫= k').
Proof.
  intros Hm Hk w w' b v' Hw. unfold mbind, ST_bind, st_bind.
  destruct (m' w') as [a u'| | | |] eqn:E; try discriminate.
  destruct (Hm _ _ _ _ Hw E) as (u & -> & Hu). by apply Hk.
Qed.
Lemma sim_ret {A} (a : A) : sim (mret a) (mret a).
Proof. intros w w' b v' Hw [= <- <-]. eauto. Qed.
Lemma sim_gets {A} (f : world paged -> A) f' : (forall w w', same_world w w' -> f w = f' w') ->
  sim (st_gets f) (st_gets f').
Proof. intros H w w' a v' Hw [= <- <-]. exists w. split; [unfold st_gets; by rewrite (H _ _ Hw)|done]. Qed.
Lemma sim_mod f f' : (forall w w', same_world w w' -> same_world (f w) (f' w')) ->
  sim (st_mod f) (st_mod f').
Proof. intros H w w' a v' Hw [= <- <-]. eexists. split; [done|auto]. Qed.
(** Reading the whole state, of which the rest depends on the common part. *)
Lemma sim_get {A} (k : world paged -> ST Empty_set (world paged) A) k' :
  (forall w w', same_world w w' -> sim (k w) (k' w')) -> sim (st_get ≫= k) (st_get ≫= k').
Proof. intros H w w' a v' Hw Hr. by eapply H. Qed.
Lemma sim_stuck {A} (m : ST Empty_set (world paged) A) (m' : ST Empty_set (world flat) A) :
  (forall w a v, m' w <> Ret a v) -> sim m m'.
Proof. intros H w w' a v' _ Hr. by apply H in Hr. Qed.
Lemma sim_server {A} (p : prog A) : sim (on_server pm p) (on_server fm p).
Proof.
  intros w w' a v' Hw. unfold on_server.
  destruct (run_flat p (w_fs w')) as [b f'|[]| | |] eqn:E; try discriminate. intros [= <- <-].
  destruct (paged_run_flat p _ _ _ _ (sw_fs _ _ Hw) E) as (s' & -> & Hs).
  eexists. split; [done|]. by destruct Hw.
Qed.

Abbreviation load8s m := (cload8 fsipcbuf cfd ofd m).
Abbreviation store8s m := (cstore8 fsipcbuf cfd ofd m).
Lemma sim_load8 a : sim (load8s pm a) (load8s fm a).
Proof.
  unfold cload8. destruct (shared _ _ _ a); [apply sim_server|].
  apply sim_gets. intros w w' Hw. by rewrite (sw_priv _ _ Hw).
Qed.
Lemma sim_store8 a v : sim (store8s pm a v) (store8s fm a v).
Proof.
  unfold cstore8. destruct (shared _ _ _ a); [apply sim_server|].
  apply sim_mod. intros w w' []. split; cbn; congruence || done.
Qed.
Lemma sim_load32 a : sim (cload32 fsipcbuf cfd ofd pm a) (cload32 fsipcbuf cfd ofd fm a).
Proof. unfold cload32. repeat (apply sim_bind; [apply sim_load8|intros]). apply sim_ret. Qed.
Lemma sim_store32 a v : sim (cstore32 fsipcbuf cfd ofd pm a v) (cstore32 fsipcbuf cfd ofd fm a v).
Proof. unfold cstore32. repeat (apply sim_bind; [apply sim_store8|intros]). apply sim_store8. Qed.
Lemma sim_syscall n a1 a2 a3 a4 :
  sim (csyscall rt_entry V fsipcbuf pm n a1 a2 a3 a4) (csyscall rt_entry V fsipcbuf fm n a1 a2 a3 a4).
Proof.
  unfold csyscall. destruct (n =? SYS_ipc_try_send); [destruct (_ && _)|].
  - apply sim_bind; [|intros; apply sim_ret]. apply sim_get. intros w w' Hw.
    rewrite (sw_tab _ _ Hw). apply sim_bind; [apply sim_server|]. intros [[an|] t]; cbn [fst snd].
    + destruct (an_pg an =? 0); [|by apply sim_stuck]. apply sim_mod.
      by intros u u' [].
    + apply sim_mod. by intros u u' [].
  - by apply sim_stuck.
  - destruct (n =? SYS_ipc_recv); [|by apply sim_stuck]. destruct (a1 <? UTOP); [by apply sim_stuck|].
    apply sim_bind; [|intros; apply sim_ret]. apply sim_get. intros w w' Hw.
    rewrite (sw_pending _ _ Hw). destruct (w_pending w'); [|by apply sim_stuck].
    apply sim_mod. by intros u u' [].
Qed.
Lemma crun_sim {A} (p : uprog A) :
  sim (crun rt_entry V fsipcbuf cfd ofd pm p) (crun rt_entry V fsipcbuf cfd ofd fm p).
Proof.
  induction p as [a|msg| |a k IH|a k IH|a v k IH|a v k IH|i k IH|i k IH|i k IH|i k IH|n a1 a2 a3 a4 a5 k IH|m k IH];
    cbn [crun]; try (by apply sim_stuck).
  - apply sim_ret.
  - apply sim_bind; [apply sim_load8|done].
  - apply sim_bind; [apply sim_load32|done].
  - apply sim_bind; [apply sim_store8|done].
  - apply sim_bind; [apply sim_store32|done].
  - apply IH.
  - destruct (_ =? 0); [by apply sim_stuck|apply IH].
  - apply sim_get. intros w w' Hw. unfold seen_env. rewrite (sw_value _ _ Hw). apply IH.
  - apply sim_bind; [apply sim_syscall|done].
  - apply IH.
Qed.
End simulation.

(** ** Reasoning about a client of the flat machine *)
Section rules.
Context (rt_entry : Z) (V : view) (fsipcbuf cfd ofd : Z).
Abbreviation wflat := (world flat).
Abbreviation fm := (fun A => @run_flat A).
Abbreviation shared := (shared fsipcbuf cfd ofd).
(** The two pages of the client are different pages, and the server's page of
    the open file is one of those of its table. *)
Context (pages_apart : fsipcbuf + PGSIZE <= cfd \/ cfd + PGSIZE <= fsipcbuf).
Context (ofd_page : FILEVA <= ofd /\ ofd + PGSIZE <= FILEVA + PGSIZE * MAXOPEN).

Definition cwp {A} (p : uprog A) (Q : A -> wflat -> Prop) (w : wflat) : Prop :=
  wp (crun rt_entry V fsipcbuf cfd ofd fm p) Q (fun _ _ => False) w.

(** The client's memory. *)
Definition cl (w : wflat) (a : Z) : Z :=
  match shared a with Some b => load8 (fl_mem (w_fs w)) b | None => load8 (w_priv w) a end.
Definition word (f : Z -> Z) (a : Z) : Z := f a + 256 * f (a + 1) + 65536 * (f (a + 2) + 256 * f (a + 3)).
(** Everything but that memory is the same. *)
Record same_server (w w' : wflat) : Prop := {
  ss_tab : w_tab w' = w_tab w; ss_value : w_value w' = w_value w;
  ss_pending : w_pending w' = w_pending w;
  ss_super : fl_super (w_fs w') = fl_super (w_fs w); ss_inodes : fl_inodes (w_fs w') = fl_inodes (w_fs w);
  ss_window : forall x, window x = true -> load8 (fl_mem (w_fs w')) x = load8 (fl_mem (w_fs w)) x }.
Lemma same_server_refl w : same_server w w.
Proof. done. Qed.
Lemma same_server_trans w1 w2 w3 : same_server w1 w2 -> same_server w2 w3 -> same_server w1 w3.
Proof. intros [] []. split; try congruence. intros x Hx. by rewrite ss_window1, ss_window0. Qed.

Lemma shared_iff a b : shared a = Some b <->
  (fsipcbuf <= a < fsipcbuf + PGSIZE /\ b = fsreq + (a - fsipcbuf)) \/
  (cfd <= a < cfd + PGSIZE /\ b = ofd + (a - cfd)).
Proof.
  unfold FsClient.shared.
  destruct (Z.leb_spec fsipcbuf a), (Z.ltb_spec a (fsipcbuf + PGSIZE)), (Z.leb_spec cfd a),
    (Z.ltb_spec a (cfd + PGSIZE)); cbn; (split; [intros [= <-]|intros [[? ->]|[? ->]]]); try lia; auto.
  all: f_equal; lia.
Qed.
Lemma shared_outside a b : shared a = Some b -> window b = false /\ forall f, flat_ok f b = true.
Proof.
  intros Hs%shared_iff. assert (Hb : window b = false).
  { destruct (window b) eqn:E; [|done]. apply window_iff in E.
    unfold fsreq, FILEVA, DISKMAP, DISKSIZE, PGSIZE, MAXOPEN in *. lia. }
  split; [done|]. intros f. unfold flat_ok. rewrite Hb. apply Z.leb_le.
  unfold fsreq, FILEVA, PGSIZE in *. lia.
Qed.
Lemma shared_inj a a' b : shared a = Some b -> shared a' = Some b -> a = a'.
Proof.
  intros H1%shared_iff H2%shared_iff. unfold fsreq, FILEVA, PGSIZE in *. lia.
Qed.

Lemma cwp_ret {A} (a : A) Q w : Q a w -> cwp (mret a) Q w.
Proof. intros H. by apply wp_ret. Qed.
Lemma cwp_mono {A} (p : uprog A) (Q Q' : A -> wflat -> Prop) w :
  cwp p Q w -> (forall a w', Q a w' -> Q' a w') -> cwp p Q' w.
Proof. intros Hp HQ. by eapply wp_mono. Qed.
Lemma cwp_bind {A B} (p : uprog A) (k : A -> uprog B) Q w :
  cwp p (fun a => cwp (k a) Q) w -> cwp (p ≫= k) Q w.
Proof.
  unfold cwp. change (p ≫= k) with (ubind k p). revert w.
  induction p as [a|msg| |a h IH|a h IH|a v h IH|a v h IH|i h IH|i h IH|i h IH|i h IH|n a1 a2 a3 a4 a5 h IH|m h IH];
    intros w Hp; cbn [crun ubind] in *; try done; try by apply IH.
  5: { destruct (_ =? 0); [done|]. by apply IH. }
  all: repeat (apply wp_bind; apply wp_bind_inv in Hp;
    eapply wp_mono; [exact Hp| |done]; clear Hp; cbv beta; intros ? ? Hp); by apply IH.
Qed.

(** A byte read, a byte written. *)
Lemma wp_cload8 a Q w : Q (cl w a) w -> wp (cload8 fsipcbuf cfd ofd fm a) Q (fun _ _ => False) w.
Proof.
  unfold cload8, cl. destruct (shared a) as [b|] eqn:Hs; [|by intros; apply wp_gets].
  intros HQ. destruct (shared_outside _ _ Hs) as [_ Hok].
  destruct (fwp_inv _ _ _ (fwp_ld8 b (fun v g => v = load8 (fl_mem (w_fs w)) b /\ g = w_fs w) (w_fs w)
    (Hok _) (conj eq_refl eq_refl))) as (v & g & E & -> & ->).
  eapply wp_run; [unfold on_server; by rewrite E|]. by destruct w.
Qed.
Lemma wp_cstore8 a v (Q : unit -> wflat -> Prop) w :
  (forall w', same_server w w' -> (forall x, cl w' x = if decide (x = a) then u8 v else cl w x) -> Q tt w') ->
  wp (cstore8 fsipcbuf cfd ofd fm a v) Q (fun _ _ => False) w.
Proof.
  unfold cstore8. destruct (shared a) as [b|] eqn:Hs; intros HQ.
  - destruct (shared_outside _ _ Hs) as [Hb Hok].
    destruct (fwp_inv _ _ _ (fwp_st8 b v (fun _ g => g = fset_mem (store8 (fl_mem (w_fs w)) b v) (w_fs w)) (w_fs w)
      (Hok _) eq_refl)) as ([] & g & E & ->).
    eapply wp_run; [unfold on_server; by rewrite E|]. apply HQ.
    + split; try done. intros x Hx. cbn. apply load8_store8_ne. congruence.
    + intros x. unfold cl. cbn. destruct (shared x) as [c|] eqn:Hx.
      * rewrite load8_store8. destruct (decide (x = a)) as [->|Hne].
        -- rewrite Hs in Hx. injection Hx as ->. by rewrite decide_True.
        -- rewrite decide_False; [done|]. intros ->. by eapply Hne, shared_inj.
      * rewrite decide_False by congruence. done.
  - apply wp_mod, HQ; [by split|]. intros x. unfold cl. cbn.
    destruct (shared x) as [c|] eqn:Hx; [rewrite decide_False by congruence; done|].
    rewrite load8_store8. cases_lia; done.
Qed.

Lemma cwp_ld8 a Q w : Q (cl w a) w -> cwp (uld8 a) Q w.
Proof. intros. by apply wp_bind, wp_cload8, wp_ret. Qed.
Lemma cwp_ld32 a Q w : Q (word (cl w) a) w -> cwp (uld32 a) Q w.
Proof. intros. apply wp_bind. unfold cload32. repeat (apply wp_bind, wp_cload8). apply wp_ret. by apply wp_ret. Qed.
Lemma cwp_st8 a v (Q : unit -> wflat -> Prop) w :
  (forall w', same_server w w' -> (forall x, cl w' x = if decide (x = a) then u8 v else cl w x) -> Q tt w') ->
  cwp (ust8 a v) Q w.
Proof. intros HQ. apply wp_bind, wp_cstore8. intros w' Hs Hw. by apply wp_ret, HQ. Qed.
Lemma word_bytes f a v : f a = u8 v -> f (a + 1) = u8 (v / 256) -> f (a + 2) = u8 (v / 65536) ->
  f (a + 3) = u8 (v / 65536 / 256) -> word f a = u32 v.
Proof.
  unfold word. intros -> -> -> ->. unfold u8, u32. change (2 ^ 8) with 256. change (2 ^ 32) with 4294967296.
  zdiv.
Qed.
Lemma cwp_st32 a v (Q : unit -> wflat -> Prop) w :
  (forall w', same_server w w' -> word (cl w') a = u32 v ->
     (forall x, x < a \/ a + 4 <= x -> cl w' x = cl w x) -> Q tt w') ->
  cwp (ust32 a v) Q w.
Proof.
  intros HQ. apply wp_bind. unfold cstore32.
  apply wp_bind, wp_cstore8. intros w1 S1 H1. apply wp_bind, wp_cstore8. intros w2 S2 H2.
  apply wp_bind, wp_cstore8. intros w3 S3 H3. apply wp_cstore8. intros w4 S4 H4. apply wp_ret, HQ.
  - eauto using same_server_trans.
  - apply word_bytes; rewrite H4, ?H3, ?H2, ?H1; cases_lia.
  - intros x Hx. rewrite H4, H3, H2, H1. cases_lia.
Qed.

(** Copying. *)
Lemma cwp_load_bytes n a Q w : Q (map (fun i => cl w (a + i)) (seqZ 0 (Z.of_nat n))) w ->
  cwp (uload_bytes n a) Q w.
Proof.
  revert a Q. induction n as [|n IH]; intros a Q HQ; cbn [uload_bytes]; [by apply cwp_ret|].
  apply cwp_bind, cwp_ld8, cwp_bind, IH, cwp_ret.
  rewrite seqZ_cons in HQ by lia. cbn [map] in HQ. rewrite Z.add_0_r in HQ.
  replace (Z.pred (Z.of_nat (S n))) with (Z.of_nat n) in HQ by lia.
  change (Z.succ 0) with (1 + 0) in HQ. rewrite <- fmap_add_seqZ in HQ.
  change (map ?f ?l) with (f <$> l) in *. rewrite <- list_fmap_compose in HQ.
  erewrite list_fmap_ext; [exact HQ|]. intros ? i _. cbn. f_equal. lia.
Qed.
Lemma cwp_store_bytes l a (Q : unit -> wflat -> Prop) w :
  (forall w', same_server w w' -> (forall x, cl w' x =
     if decide (a <= x < a + Z.of_nat (length l)) then u8 (nth (Z.to_nat (x - a)) l 0) else cl w x) -> Q tt w') ->
  cwp (ustore_bytes l a) Q w.
Proof.
  revert a w. induction l as [|b l IH]; intros a w HQ; cbn [ustore_bytes].
  { apply cwp_ret, HQ; [done|]. intros x. cbn. by rewrite decide_False by lia. }
  apply cwp_bind, cwp_st8. intros w1 S1 H1. apply IH. intros w2 S2 H2. apply HQ.
  - eauto using same_server_trans.
  - intros x. rewrite H2, H1. cbn [length]. destruct (decide (x = a)) as [->|].
    + rewrite decide_False, decide_True by lia. by rewrite Z.sub_diag.
    + cases_lia. replace (Z.to_nat (x - a)) with (S (Z.to_nat (x - (a + 1)))) by lia. done.
Qed.
Lemma cl_byte w a : u8 (cl w a) = cl w a.
Proof. unfold cl. apply u8_small. destruct (shared a); apply load8_bound. Qed.
Lemma cwp_memmove d s n (Q : unit -> wflat -> Prop) w : 0 <= n ->
  (forall w', same_server w w' -> (forall x, cl w' x =
     if decide (d <= x < d + n) then cl w (s + (x - d)) else cl w x) -> Q tt w') ->
  cwp (umemmove d s n) Q w.
Proof.
  intros Hn HQ. unfold umemmove. apply cwp_bind, cwp_load_bytes, cwp_store_bytes. intros w' S H.
  apply HQ; [done|]. intros x. rewrite H, length_map, length_seqZ. cases_lia.
  rewrite <- (cl_byte w (s + (x - d))). f_equal.
  apply nth_lookup_Some. change (map ?f ?l) with (f <$> l).
  rewrite list_lookup_fmap, lookup_seqZ_lt by lia. cbn. f_equal. f_equal. lia.
Qed.
End rules.

(** ** One request *)
Section session.
Context (rt_entry : Z) (V : view) (thisenv fsenv fsipcbuf buf128 fdnum i e ip : Z).
Abbreviation cfd := (INDEX2FD fdnum).
Abbreviation ofd := (FILEVA + PGSIZE * i).
Abbreviation wflat := (world flat).
Abbreviation shared := (shared fsipcbuf cfd ofd).
Abbreviation cl := (cl fsipcbuf cfd ofd).
Abbreviation cwp := (cwp rt_entry V fsipcbuf cfd ofd).

(** What does not change while the client runs: descriptor [fdnum] is mapped,
    the request page is another page, the globals are on neither. *)
Record linked : Prop := {
  lk_num : 0 <= fdnum < MAXFD; lk_i : 0 <= i < MAXOPEN;
  lk_buf : 0 < fsipcbuf /\ fsipcbuf + PGSIZE <= 2 ^ 32;
  lk_apart : fsipcbuf + PGSIZE <= cfd \/ cfd + PGSIZE <= fsipcbuf;
  lk_pde : Z.land (v_pde V (PDX cfd)) PTE_P <> 0; lk_pte : Z.land (v_pte V (PGNUM cfd)) PTE_P <> 0;
  lk_this : forall k, 0 <= k < 4 -> shared (thisenv + k) = None;
  lk_fsenv : forall k, 0 <= k < 4 -> shared (fsenv + k) = None;
  lk_server : env_id (v_envs V (v_server V)) <> 0 }.
(** What holds between the client's operations: the descriptor is that of
    entry [i] of the server, which is open for reading and writing and refers
    to a well-formed file. *)
Record session (w : wflat) : Prop := {
  se_open : open_at (w_tab w) i e; se_file : file_ok (w_fs w) e ip;
  se_id : word (cl w) (fd_file_id cfd) = o_fileid (entry (w_tab w) i);
  se_dev : word (cl w) (fd_dev_id cfd) = devfile_dev_id;
  se_mode : Z.land (word (cl w) (fd_omode cfd)) O_ACCMODE = O_RDWR;
  se_this : word (cl w) thisenv = v_me V;
  se_fsenv : word (cl w) fsenv = env_id (v_envs V (v_server V)) }.

Context (L : linked).
Lemma ofd_page : FILEVA <= ofd /\ ofd + PGSIZE <= FILEVA + PGSIZE * MAXOPEN.
Proof. pose proof (lk_i L). unfold PGSIZE. lia. Qed.
Lemma apart : fsipcbuf + PGSIZE <= cfd \/ cfd + PGSIZE <= fsipcbuf.
Proof. apply (lk_apart L). Qed.
#[local] Hint Resolve apart ofd_page : core.

(** The addresses the program may change in between. *)
Definition scratch (x : Z) : Prop :=
  fsipcbuf <= x < fsipcbuf + PGSIZE \/ fd_offset cfd <= x < fd_offset cfd + 4.
Lemma word_ext f g a : (forall k, 0 <= k < 4 -> f (a + k) = g (a + k)) -> word f a = word g a.
Proof.
  intros H. unfold word. pose proof (H 0) as H0. rewrite Z.add_0_r in H0.
  by rewrite H0, !H by lia.
Qed.
Lemma private_scratch x : shared x = None -> ~ scratch x.
Proof.
  intros Hn [Hx|Hx]; unfold FsClient.shared, fd_offset in *.
  - by rewrite (proj2 (Z.leb_le _ _)), (proj2 (Z.ltb_lt _ _)) in Hn by lia.
  - destruct ((fsipcbuf <=? x) && _); [done|].
    by rewrite (proj2 (Z.leb_le _ _)), (proj2 (Z.ltb_lt _ _)) in Hn by (unfold PGSIZE; lia).
Qed.
Lemma session_ext w w' : session w -> w_tab w' = w_tab w -> file_ok (w_fs w') e ip ->
  (forall x, ~ scratch x -> cl w' x = cl w x) -> session w'.
Proof.
  intros [] Ht Hf Hc. pose proof (lk_apart L) as Ha.
  assert (Hw : forall o, 0 <= o <= PGSIZE - 4 -> o + 4 <= 4 \/ 8 <= o -> word (cl w') (cfd + o) = word (cl w) (cfd + o)).
  { intros o Ho Ho'. apply word_ext. intros k Hk. apply Hc. unfold scratch, fd_offset. lia. }
  assert (Hp : forall a, (forall k, 0 <= k < 4 -> shared (a + k) = None) -> word (cl w') a = word (cl w) a).
  { intros a H. apply word_ext. intros k Hk. by apply Hc, private_scratch, H. }
  split; rewrite ?Ht; try done.
  - rewrite <- se_id0. apply Hw; unfold PGSIZE; lia.
  - rewrite <- se_dev0. pose proof (Hw 0) as H0. rewrite Z.add_0_r in H0. apply H0; unfold PGSIZE; lia.
  - rewrite <- se_mode0. f_equal. apply Hw; unfold PGSIZE; lia.
  - rewrite <- se_this0. apply Hp, (lk_this L).
  - rewrite <- se_fsenv0. apply Hp, (lk_fsenv L).
Qed.
Lemma session_same w w' : session w -> same_server w w' ->
  (forall x, ~ scratch x -> cl w' x = cl w x) -> session w'.
Proof.
  intros Hs S Hc. apply (session_ext w); [done|apply S| |done].
  by apply (file_ok_window (w_fs w)); [apply Hs|apply S..].
Qed.

(** The two shared pages as the server sees them. *)
Lemma load8_cl w x b : shared x = Some b -> load8 (fl_mem (w_fs w)) b = cl w x.
Proof. intros H. unfold FsClient.cl. by rewrite H. Qed.
Lemma load32_word m f a b : (forall k, 0 <= k < 4 -> load8 m (b + k) = f (a + k)) -> load32 m b = word f a.
Proof.
  intros H. unfold load32, load16, word. pose proof (H 0) as H0. rewrite !Z.add_0_r in H0.
  replace (b + 2 + 1) with (b + 3) by lia. rewrite H0, !H by lia. lia.
Qed.
Lemma req_byte w o : 0 <= o < PGSIZE -> load8 (fl_mem (w_fs w)) (fsreq + o) = cl w (fsipcbuf + o).
Proof. intros Ho. apply load8_cl, shared_iff; [auto..|]. left. lia. Qed.
Lemma req_word w o : 0 <= o <= PGSIZE - 4 -> load32 (fl_mem (w_fs w)) (fsreq + o) = word (cl w) (fsipcbuf + o).
Proof. intros Ho. apply load32_word. intros k Hk. rewrite <- !Z.add_assoc. apply req_byte. lia. Qed.
Lemma fd_word w o : 0 <= o <= PGSIZE - 4 -> load32 (fl_mem (w_fs w)) (ofd + o) = word (cl w) (cfd + o).
Proof.
  intros Ho. apply load32_word. intros k Hk. rewrite <- !Z.add_assoc. apply load8_cl, shared_iff; [auto..|].
  right. lia.
Qed.

(** The state when the client has received [r] and the server's machine is [g]. *)
Definition answered (w : wflat) (r : Z) (g : flat) : wflat := mkWorld (w_priv w) g (w_tab w) (u32 r) None.
Lemma answered_private w r g x : shared x = None -> cl (answered w r g) x = cl w x.
Proof. intros H. unfold FsClient.cl. by rewrite H. Qed.
Lemma answered_word w r g a : (forall k, 0 <= k < 4 -> shared (a + k) = None) ->
  word (cl (answered w r g)) a = word (cl w) a.
Proof. intros H. apply word_ext. intros k Hk. by apply answered_private, H. Qed.

(** A request is one turn of the server. *)
Lemma cwp_fsipc fuel type R Q w : session w -> 0 <= type < 2 ^ 32 ->
  fwp (serve rt_entry type prwu (w_tab w)) (fun a g => exists r,
    a = (Some (mkAnswer r 0 prwu), w_tab w) /\ - 2 ^ 31 <= r < 2 ^ 31 /\ R r g) (w_fs w) ->
  (forall r g, R r g -> Q r (answered w r g)) ->
  cwp (fsipc thisenv fsenv fsipcbuf (S fuel) type 0) Q w.
Proof.
  intros Hs Ht Hsrv HQ. pose proof (se_fsenv w Hs) as Hfs. pose proof (se_this w Hs) as Hth.
  assert (Hb : 0 <= word (cl w) fsenv < 2 ^ 32).
  { unfold word. pose proof (cl_byte fsipcbuf cfd ofd w) as Hcb.
    pose proof (fun a => u8_bound (cl w a)) as B. setoid_rewrite Hcb in B.
    pose proof (B fsenv). pose proof (B (fsenv + 1)). pose proof (B (fsenv + 2)). pose proof (B (fsenv + 3)). lia. }
  destruct (fwp_inv _ _ _ Hsrv) as (a & g & E & r & -> & Hr & HR). pose proof (lk_buf L) as Hbuf. change PGSIZE with 4096 in Hbuf.
  unfold fsipc. apply cwp_bind, cwp_ld32; [auto..|]. rewrite Hfs, (proj2 (Z.eqb_neq _ _)) by apply (lk_server L).
  apply cwp_bind, cwp_ret. apply cwp_bind, cwp_ld32; [auto..|]. rewrite Hfs.
  unfold ipc_send. rewrite (proj2 (Z.eqb_neq fsipcbuf 0)) by lia. cbn [ipc_send_loop].
  apply cwp_bind, cwp_bind. unfold FsClient.cwp, usys_ipc_try_send, usyscall. cbn [crun].
  unfold csyscall. change (SYS_ipc_try_send =? SYS_ipc_try_send) with true. cbv iota.
  rewrite Hfs in Hb. rewrite !(u32_small (env_id _)), (u32_small fsipcbuf), !Z.eqb_refl, (u32_small type) by lia. cbn [andb].
  apply wp_bind, wp_bind, wp_bind, wp_get. cbv beta. apply wp_bind.
  eapply wp_run; [unfold on_server; change (u32 prwu) with prwu; rewrite E; reflexivity|].
  cbn [fst snd an_pg an_value]. change (0 =? 0) with true. cbv iota.
  apply wp_mod, wp_ret. cbn [andb crun]. apply wp_ret. cbv iota.
  change (0 =? 0) with true. cbv iota. apply wp_ret.
  (* the answer *)
  unfold ipc_recv. apply cwp_bind. unfold FsClient.cwp, usys_ipc_recv, usyscall. cbn [crun].
  unfold csyscall. change (SYS_ipc_recv =? SYS_ipc_try_send) with false.
  change (SYS_ipc_recv =? SYS_ipc_recv) with true. change (u32 (if 0 =? 0 then -1 else 0) <? UTOP) with false. cbv iota.
  apply wp_bind, wp_bind, wp_bind, wp_get. cbn [w_pending]. apply wp_mod, wp_ret. cbn [w_priv w_fs w_tab w_value w_pending].
  change (true && (0 >? 0)) with false. cbv iota. cbn [crun]. apply wp_ret.
  change (0 <? 0) with false. change (negb (0 =? 0)) with false. cbv iota.
  change (mkWorld _ _ _ _ None) with (answered w r g).
  do 3 (apply cwp_bind, cwp_ret). apply cwp_bind, cwp_bind, cwp_ld32; [auto..|].
  rewrite answered_word by apply (lk_this L). rewrite Hth.
  unfold FsClient.cwp, env_field. cbn [crun]. apply wp_bind, wp_get, wp_ret, wp_ret.
  unfold seen_env. rewrite Z.eqb_refl.
  change (env_ipc_value _) with (u32 r). rewrite s32_u32, s32_small by lia. by apply HQ.
Qed.

(** ** The operations of fd.c *)
Lemma PDX_PGNUM : PGNUM cfd / 1024 = PDX cfd.
Proof.
  pose proof (lk_num L) as Hn. unfold PGNUM, PDX, INDEX2FD, FDTABLE, PGSIZE, MAXFD in *.
  rewrite u32_small by lia. change 0x3FF with (Z.ones 10).
  rewrite Z.land_ones, !Z.shiftr_div_pow2 by done. change (2 ^ PTXSHIFT) with 4096.
  change (2 ^ PDXSHIFT) with 4194304. change (2 ^ 10) with 1024. zdiv.
Qed.
Lemma cwp_fd_lookup Q w : Q (inr cfd) w -> cwp (fd_lookup fdnum) Q w.
Proof.
  intros HQ. unfold fd_lookup. pose proof (lk_num L) as Hn.
  rewrite (proj2 (Z.ltb_ge _ _)), Z.geb_leb, (proj2 (Z.leb_gt _ _)) by lia. cbn [orb].
  apply cwp_bind. unfold mapped, page_has. apply cwp_bind. unfold uvpd. unfold FsClient.cwp. cbn [crun].
  apply wp_ret. rewrite (proj2 (Z.eqb_neq _ _)) by apply (lk_pde L). cbn [pte_has].
  apply cwp_bind. unfold FsClient.cwp, uvpt. cbn [crun].
  rewrite PDX_PGNUM, (proj2 (Z.eqb_neq _ _)) by apply (lk_pde L). apply wp_ret.
  rewrite (proj2 (Z.eqb_neq _ _)) by apply (lk_pte L). apply cwp_ret. by apply cwp_ret.
Qed.
Lemma cwp_with_fd bad what body Q w : session w -> bad <> O_RDWR ->
  cwp (body cfd devfile) Q w -> cwp (with_fd fdnum bad what body) Q w.
Proof.
  intros Hs Hbad Hb. unfold with_fd, fd_dev. do 2 apply cwp_bind. apply cwp_fd_lookup.
  apply cwp_bind, cwp_ld32; [auto..|]. rewrite (se_dev w Hs). apply cwp_bind.
  change (dev_lookup devfile_dev_id) with (mret (Some devfile) : uprog _). do 2 apply cwp_ret.
  apply cwp_bind, cwp_ld32; [auto..|]. rewrite (se_mode w Hs), (proj2 (Z.eqb_neq _ _)) by congruence. done.
Qed.

(** [seek] sets the offset. *)
Lemma cwp_seek off Q w : session w -> 0 <= off < 2 ^ 32 ->
  (forall w', session w' -> same_server w w' -> (forall x, ~ scratch x -> cl w' x = cl w x) ->
     word (cl w') (fd_offset cfd) = off -> Q 0 w') -> cwp (seek fdnum off) Q w.
Proof.
  intros Hs Hoff HQ. unfold seek. apply cwp_bind, cwp_fd_lookup, cwp_bind, cwp_st32; [auto..|].
  intros w' S Hw Hx. apply cwp_ret.
  assert (Hc : forall x, ~ scratch x -> cl w' x = cl w x).
  { intros x Hn. apply Hx. unfold scratch in Hn. lia. }
  apply HQ; [by eapply session_same|done|done|]. by rewrite Hw, u32_small by lia.
Qed.

(** The first words of a request on the open file. *)
Lemma cwp_request {A} (rest : uprog A) n Q w : session w -> 0 <= n < 2 ^ 32 ->
  (forall w', session w' -> same_server w w' ->
     (forall x, x < fsipcbuf \/ fsipcbuf + 8 <= x -> cl w' x = cl w x) ->
     word (cl w') (req_fileid fsipcbuf) = o_fileid (entry (w_tab w) i) ->
     word (cl w') (req_n fsipcbuf) = n -> cwp rest Q w') ->
  cwp (id ← uld32 (fd_file_id cfd); ust32 (req_fileid fsipcbuf) id;; ust32 (req_n fsipcbuf) n;; rest) Q w.
Proof.
  intros Hs Hn HQ. apply cwp_bind, cwp_ld32; [auto..|]. rewrite (se_id w Hs).
  apply cwp_bind, cwp_st32; [auto..|]. intros w1 S1 H1 O1. apply cwp_bind, cwp_st32; [auto..|]. intros w2 S2 H2 O2.
  unfold req_n, req_fileid in *.
  assert (Hc : forall x, x < fsipcbuf \/ fsipcbuf + 8 <= x -> cl w2 x = cl w x).
  { intros x Hx. rewrite O2, O1 by lia. done. }
  assert (S : same_server w w2) by (by eapply same_server_trans).
  assert (Hid : 0 <= o_fileid (entry (w_tab w) i) < 2 ^ 32).
  { rewrite <- (se_id w Hs). change (fd_file_id cfd) with (cfd + 12).
    rewrite <- (fd_word w 12) by (unfold PGSIZE; lia). apply load32_bound. }
  apply HQ; [|done|done| |].
  - apply (session_same w); [done|done|]. intros x Hx. apply Hc. unfold scratch, PGSIZE in Hx. lia.
  - rewrite <- (u32_small (o_fileid _)) by lia. rewrite <- H1. apply word_ext. intros k Hk. apply O2. lia.
  - rewrite H2. apply u32_small. lia.
Qed.
(** The server's memory and the client's after a request. *)
Lemma answered_scratch w r g x : (forall y, window y = false ->
    y < fd_offset ofd \/ fd_offset ofd + 4 <= y -> load8 (fl_mem g) y = load8 (fl_mem (w_fs w)) y) ->
  x < fd_offset cfd \/ fd_offset cfd + 4 <= x -> cl (answered w r g) x = cl w x.
Proof.
  intros H Hx. unfold FsClient.cl. destruct (shared x) as [b|] eqn:Hs; [|done]. cbn.
  pose proof (shared_outside fsipcbuf cfd ofd apart ofd_page x b Hs) as [Hb _]. apply H; [done|].
  apply shared_iff in Hs; [|auto..]. pose proof (lk_i L) as Hi.
  unfold fd_offset, fsreq, FILEVA, PGSIZE, MAXOPEN in *. lia.
Qed.

(** [write]: at most a page less 8 bytes go to the file at the offset. *)
Lemma cwp_write fuel buf n off Q w : session w -> word (cl w) (fd_offset cfd) = off ->
  0 <= n < 2 ^ 32 -> let m := Z.min n (PGSIZE - 8) in off + m <= MAXFILE ->
  (forall j, 0 <= j < m -> shared (buf + j) = None) ->
  (forall r w', session w' -> (forall x, ~ scratch x -> cl w' x = cl w x) ->
     (r = - E_NO_DISK \/ r = m /\ holds_range (w_fs w') ip off m (fun j => cl w (buf + j))) -> Q r w') ->
  cwp (write thisenv fsenv fsipcbuf buf128 (S fuel) fdnum buf n) Q w.
Proof.
  intros Hs Hoff Hn m Hend Hbuf HQ. unfold write. apply cwp_with_fd; [done|done|]. unfold devfile_write.
  assert (Hm : (if n >? PGSIZE - 8 then PGSIZE - 8 else n) = m).
  { rewrite Z.gtb_ltb. destruct (Z.ltb_spec (PGSIZE - 8) n); lia. }
  rewrite Hm. assert (HP : PGSIZE = 4096) by done. assert (HMX : MAXFILE = 53248) by done.
  apply cwp_request; [done|lia|]. intros w1 Hs1 S1 O1 Hid1 Hn1.
  apply cwp_bind, cwp_memmove; [auto..|lia|]. intros w2 S2 H2.
  assert (O2 : forall x, x < fsipcbuf \/ fsipcbuf + PGSIZE <= x -> cl w2 x = cl w x).
  { intros x Hx. rewrite H2, decide_False by (unfold req_buf; lia). apply O1. lia. }
  assert (Hpriv : forall x, shared x = None -> cl w1 x = cl w x).
  { intros x Hx%private_scratch. apply O1. unfold scratch in Hx. lia. }
  assert (S02 : same_server w w2) by (by eapply same_server_trans).
  assert (Hs2 : session w2).
  { apply (session_same w); [done|done|]. intros x Hx. apply O2. unfold scratch in Hx. lia. }
  assert (Hlow : forall a, fsipcbuf <= a <= fsipcbuf + 4 -> word (cl w2) a = word (cl w1) a).
  { intros a Ha. apply word_ext. intros k Hk. rewrite H2, decide_False; [done|]. unfold req_buf. lia. }
  pose proof (oa_fd _ _ _ (se_open w2 Hs2)) as Hfd.
  assert (Hoff2 : word (cl w2) (fd_offset cfd) = off).
  { rewrite <- Hoff. apply word_ext. intros k Hk. apply O2. pose proof (lk_apart L).
    unfold fd_offset. lia. }
  eapply (cwp_fsipc _ FSREQ_WRITE (fun r g => file_ok g e ip /\ only_offset (w_tab w2) i (w_fs w2) g /\
    (r = - E_NO_DISK \/ r = m /\ holds_range g ip off m (fun j => load8 (fl_mem (w_fs w2)) (req_buf fsreq + j)))));
    [done|done| |].
  - unfold serve. change (Z.land prwu PTE_P =? 0) with false. change (FSREQ_WRITE =? FSREQ_OPEN) with false.
    change (handlers FSREQ_WRITE) with (Some serve_write). cbv iota.
    apply fwp_bind. eapply fwp_mono; [apply (serve_write_fwp (w_tab w2) i e ip (w_fs w2) m off)|].
    + apply (se_open w2 Hs2).
    + apply (se_file w2 Hs2).
    + unfold req_fileid. rewrite <- (Z.add_0_r fsreq), (req_word w2 0), Z.add_0_r by lia.
      rewrite Hlow by lia. rewrite (ss_tab _ _ S02). exact Hid1.
    + unfold req_n. rewrite (req_word w2 4), Hlow by lia. exact Hn1.
    + rewrite Hfd. unfold fd_offset. rewrite (fd_word w2 4) by lia. exact Hoff2.
    + lia.
    + done.
    + cbv beta. intros r g (Hg & Hof & Hr). apply fwp_ret. exists r. split; [done|]. split; [|done].
      destruct Hr as [->|[-> _]]; [done|lia].
  - intros r g (Hg & Hof & Hr).
    assert (Hsc : forall x, ~ scratch x -> cl (answered w2 r g) x = cl w2 x).
    { intros x Hx. unfold scratch in Hx. apply answered_scratch; [|lia].
      unfold only_offset in Hof. by rewrite Hfd in Hof. }
    apply HQ.
    + apply (session_ext w2); done.
    + intros x Hx. rewrite Hsc by done. apply O2. unfold scratch in Hx. lia.
    + destruct Hr as [->|[-> Hr]]; [by left|right]. split; [done|]. intros j Hj.
      change (w_fs (answered w2 m g)) with g. destruct (Hr j Hj) as (H & H' & ->). split; [done|]. split; [done|].
      unfold req_buf. rewrite <- Z.add_assoc, req_byte by lia. rewrite H2, decide_True by (unfold req_buf; lia).
      rewrite <- Hpriv by auto. f_equal. unfold req_buf. lia.
Qed.

(** [read] of bytes the file has. *)
Lemma cwp_read fuel buf n off data Q w : session w -> word (cl w) (fd_offset cfd) = off ->
  0 <= n <= PGSIZE - 8 -> off + n <= MAXFILE -> holds_range (w_fs w) ip off n data ->
  (forall w', (forall j, 0 <= j < n -> cl w' (buf + j) = data j) -> Q n w') ->
  cwp (read thisenv fsenv fsipcbuf (S fuel) fdnum buf n) Q w.
Proof.
  intros Hs Hoff Hn Hend Hdata HQ. unfold read. apply cwp_with_fd; [done|done|]. unfold devfile_read.
  assert (HP : PGSIZE = 4096) by done. assert (HMX : MAXFILE = 53248) by done.
  apply cwp_request; [done|lia|]. intros w1 Hs1 S1 O1 Hid1 Hn1.
  pose proof (oa_fd _ _ _ (se_open w1 Hs1)) as Hfd.
  assert (Hoff1 : word (cl w1) (fd_offset cfd) = off).
  { rewrite <- Hoff. apply word_ext. intros k Hk. apply O1. pose proof (lk_apart L). unfold fd_offset. lia. }
  destruct (file_ok_window (w_fs w) (w_fs w1) e ip (se_file w Hs)) as (_ & Hsz & Hsl & Hd); [apply S1..|].
  assert (Hdata1 : holds_range (w_fs w1) ip off n data).
  { intros j Hj. destruct (Hdata j Hj) as (H1 & H2 & H3).
    assert (0 <= off).
    { rewrite <- Hoff. unfold fd_offset. rewrite <- (fd_word w 4) by lia. apply load32_bound. }
    assert (0 <= (off + j) / BLKSIZE < NDIRECT) by (change BLKSIZE with 4096; unfold NDIRECT; zdiv).
    rewrite Hsz, Hsl, Hd by (done || lia). done. }
  apply cwp_bind. eapply (cwp_fsipc _ FSREQ_READ (fun r g => r = n /\
    forall j, 0 <= j < n -> load8 (fl_mem g) (fsreq + j) = data j)); [done|done| |].
  - unfold serve. change (Z.land prwu PTE_P =? 0) with false. change (FSREQ_READ =? FSREQ_OPEN) with false.
    change (handlers FSREQ_READ) with (Some serve_read). cbv iota.
    apply fwp_bind. eapply fwp_mono; [apply (serve_read_fwp (w_tab w1) i e ip (w_fs w1) n off data)|].
    + apply (se_open w1 Hs1).
    + apply (se_file w1 Hs1).
    + unfold req_fileid. rewrite <- (Z.add_0_r fsreq), (req_word w1 0), Z.add_0_r by lia.
      rewrite (ss_tab _ _ S1). exact Hid1.
    + unfold req_n. rewrite (req_word w1 4) by lia. exact Hn1.
    + rewrite Hfd. unfold fd_offset. rewrite (fd_word w1 4) by lia. exact Hoff1.
    + lia.
    + done.
    + exact Hdata1.
    + cbv beta. intros r g [-> Hr]. apply fwp_ret. exists n. split; [done|]. split; [lia|done].
  - intros r g [-> Hr]. rewrite (proj2 (Z.ltb_ge _ _)) by lia.
    apply cwp_bind, cwp_memmove; [auto..|lia|]. intros w2 _ H2. apply cwp_ret, HQ. intros j Hj.
    rewrite H2, decide_True by lia. replace (buf + j - buf) with j by lia.
    rewrite <- req_byte by lia. by apply Hr.
Qed.
End session.

(** ** The library, the messages, the server and the file system *)
Section program.
Context (thisenv fsenv fsipcbuf buf128 : Z).
(** A program that writes to a descriptor, seeks back and reads. *)
Definition write_and_read_back (fuel : nat) (fdnum buf1 buf2 n off : Z) : uprog Z :=
  seek fdnum off;;
  r ← write thisenv fsenv fsipcbuf buf128 fuel fdnum buf1 n;
  if r <? 0 then mret r
  else seek fdnum off;; readn thisenv fsenv fsipcbuf fuel fdnum buf2 r.
End program.

(** C2. A client and the server: a program that writes to an open file through
    [write] of fd.c, seeks back and reads with [readn] - its requests and the
    bytes travelling through the page it shares with the server, the server's
    offset through the page of the descriptor, the file through the block cache
    with its faults and write-backs - either is told that the disk is full or
    gets the number of bytes one request holds, and finds in its second buffer
    the bytes of its first. *)
Theorem client_write_then_read {host : Host} {host_ok : HostOK} rt_entry V thisenv fsenv fsipcbuf buf128
    fdnum i e ip buf1 buf2 n off fuel w wf :
  let ofd := FILEVA + PGSIZE * i in
  let m := Z.min n (PGSIZE - 8) in
  linked V thisenv fsenv fsipcbuf fdnum i -> same_world w wf ->
  session V thisenv fsenv fsipcbuf fdnum i e ip wf ->
  0 <= n < 2 ^ 32 -> 0 <= off -> off + m <= MAXFILE ->
  (forall j, 0 <= j < m -> shared fsipcbuf (INDEX2FD fdnum) ofd (buf1 + j) = None) ->
  (forall j, 0 <= j < m -> shared fsipcbuf (INDEX2FD fdnum) ofd (buf2 + j) = None) ->
  exists r w', crun rt_entry V fsipcbuf (INDEX2FD fdnum) ofd (fun A => @run_paged host A)
      (write_and_read_back thisenv fsenv fsipcbuf buf128 (S (S fuel)) fdnum buf1 buf2 n off) w = Ret r w' /\
    (r = - E_NO_DISK \/
     r = m /\ forall j, 0 <= j < m -> load8 (w_priv w') (buf2 + j) = load8 (w_priv w) (buf1 + j)).
Proof.
  intros ofd m L Hw Hs Hn Ho Hend H1 H2. assert (HP : PGSIZE = 4096) by done. assert (HM : MAXFILE = 53248) by done.
  set (cl := cl fsipcbuf (INDEX2FD fdnum) ofd).
  assert (Hcl : forall b v, (forall j, 0 <= j < m -> shared fsipcbuf (INDEX2FD fdnum) ofd (b + j) = None) ->
    forall j, 0 <= j < m -> cl v (b + j) = load8 (w_priv v) (b + j)).
  { intros b v H j Hj. unfold cl, FsClient.cl. by rewrite H. }
  cut (cwp rt_entry V fsipcbuf (INDEX2FD fdnum) ofd
    (write_and_read_back thisenv fsenv fsipcbuf buf128 (S (S fuel)) fdnum buf1 buf2 n off)
    (fun r w' => r = - E_NO_DISK \/ r = m /\ forall j, 0 <= j < m -> cl w' (buf2 + j) = cl wf (buf1 + j)) wf).
  { intros (r & wf' & E & Hr)%wp_ret_inv.
    destruct (crun_sim rt_entry V fsipcbuf _ ofd _ w wf r wf' Hw E) as (w' & E' & Hw').
    exists r, w'. split; [exact E'|]. destruct Hr as [|[-> Hr]]; [by left|right]. split; [done|].
    intros j Hj. rewrite (sw_priv _ _ Hw), (sw_priv _ _ Hw'), <- !Hcl by done. by apply Hr. }
  unfold write_and_read_back. apply cwp_bind, (cwp_seek _ _ _ _ _ _ _ e ip L); [done|lia|].
  intros w1 Hs1 _ O1 Hoff1. apply cwp_bind.
  apply (cwp_write _ _ _ _ _ _ _ _ e ip L _ _ _ off); [done|done|done|done|done|].
  intros r w2 Hs2 O2 [->|[-> Hr]]; [apply cwp_ret; by left|].
  fold m in Hr |- *. rewrite (proj2 (Z.ltb_ge _ _)) by lia.
  apply cwp_bind, (cwp_seek _ _ _ _ _ _ _ e ip L); [done|lia|].
  intros w3 Hs3 S3 O3 Hoff3. unfold readn. cbn [readn_loop].
  destruct (Z.ltb_spec 0 m) as [Hpos|Hz]; [|apply cwp_ret; right; split; [lia|intros; lia]].
  assert (Hd : holds_range (w_fs w3) ip off m (fun j => cl wf (buf1 + j))).
  { destruct (file_ok_window (w_fs w2) (w_fs w3) e ip (se_file _ _ _ _ _ _ _ _ _ Hs2)) as (_ & Hsz & Hsl & Hdt); [apply S3..|].
    intros j Hj. destruct (Hr j Hj) as (A1 & A2 & A3).
    assert (0 <= (off + j) / BLKSIZE < NDIRECT) by (change BLKSIZE with 4096; unfold NDIRECT; zdiv).
    rewrite Hsz, Hsl, Hdt by (done || lia). split; [done|]. split; [done|]. rewrite A3. apply O1.
    eapply private_scratch. by apply H1. }
  apply cwp_bind, (cwp_read _ _ _ _ _ _ _ e ip L _ _ _ off (fun j => cl wf (buf1 + j))); [done|done|lia|lia| |].
  { by rewrite Z.sub_0_r. }
  rewrite Z.sub_0_r, Z.add_0_r. intros w4 H4. rewrite (proj2 (Z.ltb_ge m 0)), (proj2 (Z.eqb_neq m 0)) by lia.
  rewrite Z.add_0_l, Z.ltb_irrefl. apply cwp_ret. by right.
Qed.

(** ** A client of the small disk

    Descriptor 0 refers to the file [a], open as entry 0 with identifier 1024;
    the client's request page is at 0x800000. *)
Definition demo_fd_page (m : mem) : mem :=
  store8 (store8 (store8 m FILEVA devfile_dev_id) (FILEVA + 8) O_RDWR) (FILEVA + 13) 4.
Definition demo_server : server :=
  mkServer {[0 := mkOpen 1024 demo_entry O_RDWR FILEVA]} {[0 := 2]} 0.
Definition demo_priv : mem :=
  store32 (store32 (poke16 ∅ [(8192, 120 + 256 * 121)]) 0x900000 1) 0x900004 4096.
Definition demo_view : view := mkView (fun _ => 7) (fun _ => 7) (fun i => env0 {{ env_id := 4096 + i }}) 1 0.
Definition demo_world : world flat := mkWorld demo_priv (fset_mem (demo_fd_page demo_mem) demo_fs) demo_server 0 None.
Definition demo_world_paged : world paged :=
  mkWorld demo_priv (set_mem (demo_fd_page demo_mem) demo_paged) demo_server 0 None.
Lemma demo_same_world : same_world demo_world_paged demo_world.
Proof.
  split; [|done..]. cbn.
  assert (Hp : forall s a, window a = false -> present s a) by (intros s a H H'; congruence).
  pose proof (store_flat _ _ (FILEVA + 13) 4
    (store_flat _ _ (FILEVA + 8) O_RDWR
      (store_flat _ _ FILEVA devfile_dev_id demo_paged_flat (Hp _ FILEVA eq_refl)) (Hp _ (FILEVA + 8) eq_refl)) (Hp _ (FILEVA + 13) eq_refl)) as H.
  exact H.
Qed.
Lemma demo_linked : linked demo_view 0x900000 0x900004 0x800000 0 0.
Proof.
  split.
  - unfold MAXFD. lia.
  - unfold MAXOPEN. lia.
  - unfold PGSIZE. lia.
  - left. unfold INDEX2FD, FDTABLE, PGSIZE. lia.
  - by vm_compute.
  - by vm_compute.
  - intros k Hk. assert (k = 0 \/ k = 1 \/ k = 2 \/ k = 3) as [->|[->|[->| ->]]] by lia; by vm_compute.
  - intros k Hk. assert (k = 0 \/ k = 1 \/ k = 2 \/ k = 3) as [->|[->|[->| ->]]] by lia; by vm_compute.
  - by vm_compute.
Qed.
Lemma demo_file_ok : file_ok (w_fs demo_world) demo_entry demo_inode.
Proof.
  apply (file_ok_window demo_fs); [|intros x Hx%window_iff|done|done].
  - split; [exact demo_ok|exact demo_entry_at|exact demo_wf|by vm_compute].
  - unfold demo_world, demo_fd_page, FILEVA, DISKMAP, DISKSIZE in *. cbn [w_fs fl_mem fset_mem].
    by rewrite !load8_store8_ne by lia.
Qed.
Lemma demo_session : session demo_view 0x900000 0x900004 0x800000 0 0 demo_entry demo_inode demo_world.
Proof. split; [split; by vm_compute|exact demo_file_ok|by vm_compute..]. Qed.
Lemma client_write_then_read_witness : exists r w',
  crun 0 demo_view 0x800000 (INDEX2FD 0) (FILEVA + PGSIZE * 0) (fun A => run_paged)
    (write_and_read_back 0x900000 0x900004 0x800000 0x901000 2 0 8192 8448 2 4095) demo_world_paged = Ret r w' /\
  (r = - E_NO_DISK \/
   r = 2 /\ forall j, 0 <= j < 2 -> load8 (w_priv w') (8448 + j) = load8 demo_priv (8192 + j)).
Proof.
  apply (client_write_then_read 0 demo_view 0x900000 0x900004 0x800000 0x901000 0 0 demo_entry demo_inode
    8192 8448 2 4095 0 demo_world_paged demo_world).
  - exact demo_linked.
  - exact demo_same_world.
  - exact demo_session.
  - lia.
  - lia.
  - by vm_compute.
  - intros j Hj. assert (j = 0 \/ j = 1) as [->| ->] by (change (Z.min 2 (PGSIZE - 8)) with 2 in Hj; lia); by vm_compute.
  - intros j Hj. assert (j = 0 \/ j = 1) as [->| ->] by (change (Z.min 2 (PGSIZE - 8)) with 2 in Hj; lia); by vm_compute.
Defined.
